(** * Quantitative desk: portfolio execution and risk engine

    A shallow embedding of the settlement, allocation, risk and analysis
    code of the repository, and the properties its specification states
    about them.

    Conventions of the embedding.
    - Python floats are exact rationals ([Q]); rounding is not modelled.
      A value that pandas reports as NaN is [None] in an [option Q].
    - Python ints (share counts, windows, basis points) are [Z].
    - Dictionaries keyed by strings are [gmap string _].
    - The pandas, numpy and pandas_ta routines the strategies call are not
      part of the repository; they are the methods of the class [NumLib].
    - A Python exception is a value of [exn]; a function that can raise
      returns the state reached when it raised together with the exception.
    - Where the code catches a failed write to a file (the trade log of the
      live [submit_order]), the outcome of the write is a field of the
      state, and every property holds for each outcome.

    The repository holds two generations of the same packages.  [Atlas] and
    [Citadel] embed [src/quantitative_desk]; the modules whose names start
    with [Legacy] embed [src/Quant T py/quantitative_desk]. *)

From Stdlib Require Import QArith Qminmax Qround Qabs Lia Lqa ZArith String List Bool.
From stdpp Require Import gmap strings list.

Local Open Scope Q_scope.

(** ** Small helpers shared by all modules *)

(** Python's [int(x)] on a float: truncation toward zero. *)
Definition py_int (q : Q) : Z := (Qnum q ÷ Zpos (Qden q))%Z.

(** Float comparisons where one side may be NaN: every comparison with NaN is
    false. *)
Definition fgt (a b : option Q) : bool :=
  match a, b with
  | Some x, Some y => negb (Qle_bool x y)
  | _, _ => false
  end.

Definition flt (a b : option Q) : bool := fgt b a.

(** The strict comparison [x < y] of two floats, as a boolean. *)
Definition Qlt_bool (x y : Q) : bool := negb (Qle_bool y x).

Inductive exn : Type :=
| KeyError (key : string).

(** One row of the OHLC frame handed to the simulator. *)
Record Bar : Type := mkBar { High : Q; Low : Q; Close : Q }.

(** ** The numeric library used by the strategies and the analyzer

    Each method stands for one pandas / numpy / pandas_ta expression of the
    source; the comment gives the expression. *)
Class NumLib : Type := {
  (** [np.sqrt(x)] *)
  np_sqrt : Q -> Q;
  np_sqrt_nonneg : forall x, 0 <= np_sqrt x;
  (** [series.mean()] *)
  series_mean : list Q -> Q;
  (** [series.std()] *)
  series_std : list Q -> Q;
  series_std_nonneg : forall l, 0 <= series_std l;
  (** [series.rolling(window=w).mean().iloc[-1]] *)
  rolling_mean_last : Z -> list Q -> option Q;
  (** [series.rolling(window=w).std().iloc[-1]] *)
  rolling_std_last : Z -> list Q -> option Q;
  (** [pd.Series(np.gradient(series)).rolling(window=w).apply(
         lambda x: np.sum(x[x > 0]) / (np.sum(np.abs(x[x < 0])) + 1e-9),
         raw=True).iloc[-1]] *)
  gradient_rsi_last : Z -> list Q -> option Q;
  (** the [atr] series of [_calculate_atr]: the true range of the frame,
      smoothed by [ewm(alpha=1/period, adjust=False).mean()] *)
  true_range_ewm : list Bar -> Z -> list (option Q);
  (** [ta.rsi(series, length=w)]; [None] when pandas_ta returns [None] *)
  ta_rsi : list Q -> Z -> option (list (option Q));
  (** [series.tail(w).mean()] *)
  tail_mean : Z -> list Q -> option Q;
  (** [series.tail(w).std()] *)
  tail_std : Z -> list Q -> option Q
}.

(** ** project_atlas/strategy_library.py and project_atlas/core_config.py *)
Module Atlas.

Inductive Signal : Type := BUY | SELL | HOLD.

Definition Signal_value (s : Signal) : Z :=
  match s with BUY => 1 | SELL => -1 | HOLD => 0 end%Z.

Module StrategyConfig.
Record TrendFollowing : Type := mkTrendFollowing {
  SHORT_WINDOW : Z;
  LONG_WINDOW : Z;
  RSI_WINDOW : Z;
  RSI_BULLISH_THRESHOLD : Z;
  TAKE_PROFIT_PCT : Q;
  STOP_LOSS_PCT : Q
}.
Definition TrendFollowing_default : TrendFollowing :=
  mkTrendFollowing 20 50 14 55 0.05 0.02.

Record MeanReversion : Type := mkMeanReversion {
  WINDOW : Z;
  STD_DEV : Q;
  MR_RSI_WINDOW : Z;
  RSI_OVERSOLD_THRESHOLD : Z;
  MR_TAKE_PROFIT_PCT : Q;
  MR_STOP_LOSS_PCT : Q
}.
Definition MeanReversion_default : MeanReversion :=
  mkMeanReversion 20 2.0 14 40 0.03 0.015.
End StrategyConfig.

Record FirmConfig : Type := mkFirmConfig {
  FIRM_CAPITAL : Z;
  RISK_FREE_RATE : Q;
  TRANSACTION_COST_BPS : Z;
  SLIPPAGE_BPS : Z;
  OPTIMIZATION_TRIALS : Z
}.

(** The class attributes of [FirmConfig] and [BacktestParameters]. *)
Definition FirmConfig_default : FirmConfig :=
  mkFirmConfig 1000000 0.07 5 10 24.

(** The two concrete subclasses of [AtlasStrategy], each with the
    configuration object it is constructed with. *)
Inductive AtlasClass : Type :=
| AtlasTrendFollowing (config : StrategyConfig.TrendFollowing)
| AtlasMeanReversion (config : StrategyConfig.MeanReversion).

Record AtlasStrategy : Type := mkAtlasStrategy {
  id : string;
  class : AtlasClass;
  cash : Q;
  shares : Z;
  risk_per_trade : Q;
  stop_loss_price : Q;
  take_profit_price : Q
}.

(** [AtlasStrategy.__init__] *)
Definition AtlasStrategy_init (name : string) (c : AtlasClass) : AtlasStrategy :=
  mkAtlasStrategy name c 0 0 0.02 0 0.

Definition with_cash_shares (s : AtlasStrategy) (c : Q) (n : Z) : AtlasStrategy :=
  mkAtlasStrategy (id s) (class s) c n (risk_per_trade s)
                  (stop_loss_price s) (take_profit_price s).

Definition with_exit_prices (s : AtlasStrategy) (sl tp : Q) : AtlasStrategy :=
  mkAtlasStrategy (id s) (class s) (cash s) (shares s) (risk_per_trade s) sl tp.

Definition get_equity (s : AtlasStrategy) (current_price : Q) : Q :=
  cash s + inject_Z (shares s) * current_price.

Definition set_capital (s : AtlasStrategy) (capital : Q) : AtlasStrategy :=
  with_cash_shares s capital 0.

Definition _clear_exit_prices (s : AtlasStrategy) : AtlasStrategy :=
  with_exit_prices s 0 0.

Section Strategies.
Context `{NumLib}.

(** [_calculate_atr]: 0.0 on a frame shorter than [period], on an empty
    [atr] series and on a NaN last value.  A [Bar] always carries the
    three columns, so the column test of the source cannot fail here. *)
Definition _calculate_atr (history_df : list Bar) (period : Z) : Q :=
  if (Z.of_nat (length history_df) <? period)%Z then 0
  else
    match last (true_range_ewm history_df period) with
    | Some (Some a) => a
    | _ => 0
    end.

(** The result of [decide_action]: the signal, the quantity, and the
    strategy object, whose exit prices the call may have rewritten. *)
Definition decision : Type := (Signal * Z * AtlasStrategy)%type.

Definition AtlasTrendFollowing_decide_action
    (config : StrategyConfig.TrendFollowing) (self : AtlasStrategy)
    (history : list Bar) (price : Q) : decision :=
  let closes := map Close history in
  if (Z.of_nat (length history) <? StrategyConfig.LONG_WINDOW config)%Z
  then (HOLD, 0%Z, self)
  else
    let short_sma :=
      rolling_mean_last (StrategyConfig.SHORT_WINDOW config) closes in
    let long_sma :=
      rolling_mean_last (StrategyConfig.LONG_WINDOW config) closes in
    if (shares self =? 0)%Z then
      let rsi :=
        option_map (fun r => r * 100)
          (gradient_rsi_last (StrategyConfig.RSI_WINDOW config) closes) in
      if fgt short_sma long_sma
         && fgt rsi (Some (inject_Z (StrategyConfig.RSI_BULLISH_THRESHOLD config)))
      then
        let atr := _calculate_atr history 14 in
        if Qlt_bool 0 atr then
          let quantity := py_int ((cash self * risk_per_trade self) / atr) in
          (BUY, quantity,
           with_exit_prices self
             (price * (1 - StrategyConfig.STOP_LOSS_PCT config))
             (price * (1 + StrategyConfig.TAKE_PROFIT_PCT config)))
        else (HOLD, 0%Z, self)
      else (HOLD, 0%Z, self)
    else
      if flt short_sma long_sma
      then (SELL, 0%Z, _clear_exit_prices self)
      else (HOLD, 0%Z, self).

Definition AtlasMeanReversion_decide_action
    (config : StrategyConfig.MeanReversion) (self : AtlasStrategy)
    (history : list Bar) (price : Q) : decision :=
  let closes := map Close history in
  if (Z.of_nat (length history) <? StrategyConfig.WINDOW config)%Z
  then (HOLD, 0%Z, self)
  else
    let sma := rolling_mean_last (StrategyConfig.WINDOW config) closes in
    let std_dev := rolling_std_last (StrategyConfig.WINDOW config) closes in
    let lower_band :=
      match sma, std_dev with
      | Some m, Some sd => Some (m - StrategyConfig.STD_DEV config * sd)
      | _, _ => None
      end in
    if (shares self =? 0)%Z then
      let rsi :=
        option_map (fun r => r * 100)
          (gradient_rsi_last (StrategyConfig.MR_RSI_WINDOW config) closes) in
      if flt (Some price) lower_band
         && flt rsi (Some (inject_Z (StrategyConfig.RSI_OVERSOLD_THRESHOLD config)))
      then
        let atr := _calculate_atr history 14 in
        if Qlt_bool 0 atr then
          let quantity := py_int ((cash self * risk_per_trade self) / atr) in
          (BUY, quantity,
           with_exit_prices self
             (price * (1 - StrategyConfig.MR_STOP_LOSS_PCT config))
             (price * (1 + StrategyConfig.MR_TAKE_PROFIT_PCT config)))
        else (HOLD, 0%Z, self)
      else (HOLD, 0%Z, self)
    else
      if fgt (Some price) sma
      then (SELL, 0%Z, _clear_exit_prices self)
      else (HOLD, 0%Z, self).

(** Dynamic dispatch of the abstract method [decide_action]. *)
Definition decide_action (self : AtlasStrategy) (history : list Bar) (price : Q)
  : decision :=
  match class self with
  | AtlasTrendFollowing config =>
      AtlasTrendFollowing_decide_action config self history price
  | AtlasMeanReversion config =>
      AtlasMeanReversion_decide_action config self history price
  end.
End Strategies.

(** ** project_atlas/infrastructure.py *)

Module TransactionCostCalculator.
Definition BROKERAGE_PCT : Q := 0.0003.
Definition STT_PCT : Q := 0.001.
Definition EXCHANGE_TXN_PCT : Q := 0.0000345.
Definition GST_PCT : Q := 0.18.
Definition SEBI_FEES_PCT : Q := 0.000001.
Definition STAMP_DUTY_PCT : Q := 0.00015.

Definition calculate (trade_value : Q) (side : string) : Q :=
  let brokerage := trade_value * BROKERAGE_PCT in
  let stt := trade_value * STT_PCT in
  let exchange_txn_charge := trade_value * EXCHANGE_TXN_PCT in
  let gst := (brokerage + exchange_txn_charge) * GST_PCT in
  let sebi_fees := trade_value * SEBI_FEES_PCT in
  let stamp_duty :=
    if String.eqb side "buy" then trade_value * STAMP_DUTY_PCT else 0 in
  brokerage + stt + exchange_txn_charge + gst + sebi_fees + stamp_duty.
End TransactionCostCalculator.

(** An entry of the order queue: [{'id': ..., 'side': ..., 'qty': ...}]. *)
Record Order : Type := mkOrder { o_id : string; o_side : string; o_qty : Z }.

(** An entry of the trade log:
    [{'id': ..., 'side': ..., 'qty': ..., 'price': ..., 'cost': ...}].
    The analyzer subtracts from ['qty'], so the field is a number, not
    only an int. *)
Record Trade : Type := mkTrade {
  t_id : string; t_side : string; t_qty : Q; t_price : Q; t_cost : Q
}.

Record PortfolioManager : Type := mkPortfolioManager {
  initial_capital : Z;
  strategies : gmap string AtlasStrategy
}.

(** Names of [STRATEGY_REGISTRY], each with the class it registers. *)
Inductive registered : Type := Trend | MeanReversion.

Definition registered_name (r : registered) : string :=
  match r with Trend => "Trend" | MeanReversion => "MeanReversion" end.

Definition STRATEGY_REGISTRY : list registered := [Trend; MeanReversion].

(** The [strategy_configs] dictionary handed to the constructor. *)
Record strategy_configs : Type := mkStrategyConfigs {
  cfg_Trend : option StrategyConfig.TrendFollowing;
  cfg_MeanReversion : option StrategyConfig.MeanReversion
}.

Definition _rebalance_capital (self : PortfolioManager) : PortfolioManager :=
  if decide (strategies self = ∅) then self
  else
    let capital_per_strategy :=
      inject_Z (initial_capital self)
      / inject_Z (Z.of_nat (size (strategies self))) in
    mkPortfolioManager (initial_capital self)
      ((fun s => set_capital s capital_per_strategy) <$> strategies self).

(** The loop of [PortfolioManager.__init__] over [STRATEGY_REGISTRY]: a
    registered name that is a key of [strategy_configs] gets its strategy. *)
Definition register (configs : strategy_configs)
    (m : gmap string AtlasStrategy) (r : registered) : gmap string AtlasStrategy :=
  match r with
  | Trend =>
      match cfg_Trend configs with
      | Some c =>
          <[registered_name r :=
              AtlasStrategy_init (registered_name r) (AtlasTrendFollowing c)]> m
      | None => m
      end
  | MeanReversion =>
      match cfg_MeanReversion configs with
      | Some c =>
          <[registered_name r :=
              AtlasStrategy_init (registered_name r) (AtlasMeanReversion c)]> m
      | None => m
      end
  end.

Definition registered_strategies (configs : strategy_configs)
  : gmap string AtlasStrategy :=
  fold_left (register configs) STRATEGY_REGISTRY ∅.

(** [PortfolioManager.__init__] *)
Definition PortfolioManager_init (firm_config : FirmConfig)
    (configs : strategy_configs) : PortfolioManager :=
  _rebalance_capital
    (mkPortfolioManager (FIRM_CAPITAL firm_config) (registered_strategies configs)).

Record MarketSimulator : Type := mkMarketSimulator {
  firm : PortfolioManager;
  order_queue : list Order;
  trade_log : list Trade;
  slippage_bps : Q;
  history : list Bar;
  price : Q
}.

(** [MarketSimulator.__init__] *)
Definition MarketSimulator_init (firm_config : FirmConfig)
    (portfolio_manager : PortfolioManager) : MarketSimulator :=
  mkMarketSimulator portfolio_manager [] []
    (inject_Z (SLIPPAGE_BPS firm_config) / 10000) [] 0.

Definition with_price (m : MarketSimulator) (p : Q) : MarketSimulator :=
  mkMarketSimulator (firm m) (order_queue m) (trade_log m) (slippage_bps m)
                    (history m) p.

Definition with_queue (m : MarketSimulator) (q : list Order) : MarketSimulator :=
  mkMarketSimulator (firm m) q (trade_log m) (slippage_bps m) (history m) (price m).

(** The strategy object [strategy_id] is replaced by [s] and [fill] is
    appended to the trade log. *)
Definition record_fill (m : MarketSimulator) (strategy_id : string)
    (s : AtlasStrategy) (fill : Trade) : MarketSimulator :=
  mkMarketSimulator
    (mkPortfolioManager (initial_capital (firm m))
                        (<[strategy_id := s]> (strategies (firm m))))
    (order_queue m) (trade_log m ++ [fill]) (slippage_bps m) (history m) (price m).

Definition submit_order (m : MarketSimulator) (strategy_id side : string)
    (quantity : Z) : MarketSimulator :=
  if (0 <? quantity)%Z
  then with_queue m (order_queue m ++ [mkOrder strategy_id side quantity])
  else m.

Definition execution_price (m : MarketSimulator) (side : string) : Q :=
  price m * (if String.eqb side "buy"
             then 1 + slippage_bps m else 1 - slippage_bps m).

(** The body of the [for order in orders_to_process] loop. *)
Definition settle (m : MarketSimulator) (order : Order) : exn + MarketSimulator :=
  match strategies (firm m) !! o_id order with
  | None => inl (KeyError (o_id order))
  | Some strategy =>
      let exec_price := execution_price m (o_side order) in
      let trade_value := inject_Z (o_qty order) * exec_price in
      let transaction_cost :=
        TransactionCostCalculator.calculate trade_value (o_side order) in
      if String.eqb (o_side order) "buy" then
        let required_funds := trade_value + transaction_cost in
        if Qle_bool required_funds (cash strategy) then
          inr (record_fill m (o_id order)
                 (with_cash_shares strategy (cash strategy - required_funds)
                                   (shares strategy + o_qty order))
                 (mkTrade (o_id order) "buy" (inject_Z (o_qty order))
                          exec_price transaction_cost))
        else inr m
      else if String.eqb (o_side order) "sell" then
        if (o_qty order <=? shares strategy)%Z then
          inr (record_fill m (o_id order)
                 (with_cash_shares strategy
                    (cash strategy + (trade_value - transaction_cost))
                    (shares strategy - o_qty order))
                 (mkTrade (o_id order) "sell" (inject_Z (o_qty order))
                          exec_price transaction_cost))
        else inr m
      else inr m
  end.

(** The loop itself; it stops at the first order that raises. *)
Fixpoint process_orders (orders : list Order) (m : MarketSimulator)
  : MarketSimulator * option exn :=
  match orders with
  | [] => (m, None)
  | order :: rest =>
      match settle m order with
      | inl e => (m, Some e)
      | inr m' => process_orders rest m'
      end
  end.

Definition execute_orders (m : MarketSimulator) : MarketSimulator * option exn :=
  match order_queue m with
  | [] => (m, None)
  | orders_to_process => process_orders orders_to_process (with_queue m [])
  end.

End Atlas.

(** ** project_atlas/analysis.py *)
Module Analysis.
Import Atlas.

(** *** TradeAnalyzer

    [raw_trades] is a list of dict objects.  The deques of [open_buys] do not
    copy a buy: they hold the very dict of [raw_trades], and
    [buy_trade['qty'] -= match_qty] writes into it.  The embedding keeps the
    dicts in a store, the list [raw_trades] itself, and puts into the deques
    the position of a dict in that store. *)

Record frame : Type := mkFrame {
  pnl_list : list Q;
  open_buys : gmap string (list nat);
  raw_trades : list Trade
}.

Definition set_qty (t : Trade) (q : Q) : Trade :=
  mkTrade (t_id t) (t_side t) q (t_price t) (t_cost t).

(** [open_buys[key]] on a [defaultdict(deque)]: a missing key is bound to an
    empty deque by the access. *)
Definition touch (key : string) (m : gmap string (list nat))
  : gmap string (list nat) :=
  match m !! key with
  | Some _ => m
  | None => <[key := []]> m
  end.

Definition deque_of (m : gmap string (list nat)) (key : string) : list nat :=
  default [] (m !! key).

(** The literal [1e-6]. *)
Definition epsilon : Q := 0.000001.

(** The loop [while sell_qty > 0 and open_buys[trade['id']]].  One unit of
    [fuel] is spent per evaluation of the loop condition; [None] is a model
    that ran out of fuel or met a position outside the store. *)
Fixpoint match_loop (fuel : nat) (sell_price sell_qty rt_pnl : Q)
    (queue : list nat) (store : list Trade)
  : option (Q * list nat * list Trade) :=
  match fuel with
  | O => None
  | S fuel' =>
      match queue with
      | [] => Some (rt_pnl, queue, store)
      | i :: rest =>
          if Qlt_bool 0 sell_qty then
            match store !! i with
            | None => None
            | Some buy_trade =>
                let match_qty := Qmin sell_qty (t_qty buy_trade) in
                let rt_pnl' :=
                  rt_pnl + (sell_price - t_price buy_trade) * match_qty in
                let remaining := t_qty buy_trade - match_qty in
                let store' := <[i := set_qty buy_trade remaining]> store in
                let sell_qty' := sell_qty - match_qty in
                if Qle_bool remaining epsilon
                then match_loop fuel' sell_price sell_qty' rt_pnl' rest store'
                else match_loop fuel' sell_price sell_qty' rt_pnl' queue store'
            end
          else Some (rt_pnl, queue, store)
      end
  end.

(** The body of [for trade in self.raw_trades], for the trade at position
    [i] of the store. *)
Definition visit (st : frame) (i : nat) : option frame :=
  match raw_trades st !! i with
  | None => None
  | Some trade =>
      if String.eqb (t_side trade) "buy" then
        let buys := touch (t_id trade) (open_buys st) in
        Some (mkFrame (pnl_list st)
                (<[t_id trade := deque_of buys (t_id trade) ++ [i]]> buys)
                (raw_trades st))
      else if String.eqb (t_side trade) "sell" then
        let buys := touch (t_id trade) (open_buys st) in
        match deque_of buys (t_id trade) with
        | [] => Some (mkFrame (pnl_list st) buys (raw_trades st))
        | queue =>
            match match_loop (S (length queue)) (t_price trade) (t_qty trade) 0
                             queue (raw_trades st) with
            | None => None
            | Some (rt_pnl, queue', store') =>
                Some (mkFrame
                        (if Qeq_bool rt_pnl 0 then pnl_list st
                         else pnl_list st ++ [rt_pnl])
                        (<[t_id trade := queue']> buys)
                        store')
            end
        end
      else Some st
  end.

Fixpoint visit_all (positions : list nat) (st : frame) : option frame :=
  match positions with
  | [] => Some st
  | i :: rest =>
      match visit st i with
      | None => None
      | Some st' => visit_all rest st'
      end
  end.

(** The whole call, with the local state it ends in. *)
Definition analyze (trades : list Trade) : option frame :=
  visit_all (seq 0 (length trades)) (mkFrame [] ∅ trades).

(** [calculate_round_trip_pnl]: the returned list, and the trade log as the
    call leaves it. *)
Definition calculate_round_trip_pnl (trades : list Trade)
  : option (list Q * list Trade) :=
  match analyze trades with
  | Some st => Some (pnl_list st, raw_trades st)
  | None => None
  end.

(** *** PerformanceAnalyzer *)

Record PerformanceAnalyzer : Type := mkPerformanceAnalyzer {
  returns : list Q;
  risk_free_rate : Q
}.

Section Metrics.
Context `{NumLib}.

Definition annualized_returns (self : PerformanceAnalyzer) : Q :=
  series_mean (returns self) * 252.

Definition annualized_volatility (self : PerformanceAnalyzer) : Q :=
  series_std (returns self) * np_sqrt 252.

(** The ['sharpe'] entry of the dictionary [calculate_metrics] returns. *)
Definition calculate_metrics_sharpe (self : PerformanceAnalyzer) : Q :=
  if (length (returns self) <? 2)%nat then 0
  else
    if Qlt_bool 0 (annualized_volatility self)
    then (annualized_returns self - risk_free_rate self)
         / annualized_volatility self
    else 0.
End Metrics.

End Analysis.

(** ** project_citadel (current generation) *)
Module Citadel.
Import Atlas.

(** [LiveRiskParameters] *)
Record RiskParameters : Type := mkRiskParameters {
  MAX_ORDER_VALUE : Z;
  DAILY_DRAWDOWN_LIMIT : Q
}.

Definition LiveRiskParameters_default : RiskParameters :=
  mkRiskParameters 200000 0.05.

(** What [Alerter.send(subject, message)] was called with; of the formatted
    message only the number it prints is kept. *)
Record Alert : Type := mkAlert { subject : string; figure : Q }.

Record RiskManager : Type := mkRiskManager {
  params : RiskParameters;
  peak_equity : Q;
  is_drawdown_breached : bool
}.

(** [RiskManager.__init__] *)
Definition RiskManager_init (risk_parameters : RiskParameters) : RiskManager :=
  mkRiskManager risk_parameters 0 false.

Definition assess_new_day (self : RiskManager) (value : Q) : RiskManager :=
  mkRiskManager (params self) value false.

(** [is_trade_allowed]: the answer and the alerts sent so far.  The risk
    manager object itself is not written to, and neither [side] nor
    [portfolio_context] is read. *)
Definition is_trade_allowed (self : RiskManager) (alerts : list Alert)
    (side : string) (quantity : Z) (price : Q) : bool * list Alert :=
  let order_value := inject_Z quantity * price in
  if Qlt_bool (inject_Z (MAX_ORDER_VALUE (params self))) order_value
  then (false, alerts ++ [mkAlert "RISK VIOLATION" order_value])
  else (true, alerts).

Module LiveStrategyParameters.
Record Trend : Type := mkTrend {
  SHORT_WINDOW : Z;
  LONG_WINDOW : Z;
  RSI_WINDOW : Z;
  RSI_BULLISH_THRESHOLD : Z;
  TAKE_PROFIT_PCT : Q;
  STOP_LOSS_PCT : Q;
  RISK_PER_TRADE : Q
}.
Definition Trend_default : Trend := mkTrend 20 50 14 55 0.05 0.02 0.05.

Record MeanReversion : Type := mkMeanReversion {
  WINDOW : Z;
  STD_DEV : Q;
  MR_RSI_WINDOW : Z;
  RSI_OVERSOLD_THRESHOLD : Z;
  MR_TAKE_PROFIT_PCT : Q;
  MR_STOP_LOSS_PCT : Q;
  MR_RISK_PER_TRADE : Q
}.
Definition MeanReversion_default : MeanReversion :=
  mkMeanReversion 20 2.0 14 40 0.03 0.015 0.05.
End LiveStrategyParameters.

Inductive LiveClass : Type :=
| LiveTrendFollowing (config : LiveStrategyParameters.Trend)
| LiveMeanReversion (config : LiveStrategyParameters.MeanReversion).

Record LiveStrategy : Type := mkLiveStrategy {
  id : string;
  class : LiveClass;
  cash : Q;
  positions : gmap string Z;
  risk_per_trade : Q;
  stop_loss_prices : gmap string Q;
  take_profit_prices : gmap string Q
}.

(** [LiveStrategy.__init__] *)
Definition LiveStrategy_init (strategy_id : string) (c : LiveClass) : LiveStrategy :=
  mkLiveStrategy strategy_id c 0 ∅ 0.02 ∅ ∅.

Definition STOP_LOSS_PCT_of (c : LiveClass) : Q :=
  match c with
  | LiveTrendFollowing config => LiveStrategyParameters.STOP_LOSS_PCT config
  | LiveMeanReversion config => LiveStrategyParameters.MR_STOP_LOSS_PCT config
  end.

Definition TAKE_PROFIT_PCT_of (c : LiveClass) : Q :=
  match c with
  | LiveTrendFollowing config => LiveStrategyParameters.TAKE_PROFIT_PCT config
  | LiveMeanReversion config => LiveStrategyParameters.MR_TAKE_PROFIT_PCT config
  end.

Definition set_capital (s : LiveStrategy) (capital : Q) : LiveStrategy :=
  mkLiveStrategy (id s) (class s) capital (positions s) (risk_per_trade s)
                 (stop_loss_prices s) (take_profit_prices s).

(** [positions.get(symbol, 0)] *)
Definition position (s : LiveStrategy) (symbol : string) : Z :=
  default 0%Z (positions s !! symbol).

Definition _set_exit_prices (s : LiveStrategy) (symbol : string)
    (entry_price : Q) : LiveStrategy :=
  mkLiveStrategy (id s) (class s) (cash s) (positions s) (risk_per_trade s)
    (<[symbol := entry_price * (1 - STOP_LOSS_PCT_of (class s))]>
       (stop_loss_prices s))
    (<[symbol := entry_price * (1 + TAKE_PROFIT_PCT_of (class s))]>
       (take_profit_prices s)).

Definition _clear_exit_prices (s : LiveStrategy) (symbol : string) : LiveStrategy :=
  mkLiveStrategy (id s) (class s) (cash s) (positions s) (risk_per_trade s)
    (<[symbol := 0]> (stop_loss_prices s))
    (<[symbol := 0]> (take_profit_prices s)).

(** A tick [{'price': ..., 'history': ...}]; [tick.get('history')] may be
    [None]. *)
Record Tick : Type := mkTick { tick_price : Q; tick_history : option (list Q) }.

Section LiveStrategies.
Context `{NumLib}.

Definition LiveTrendFollowing_decide_action
    (config : LiveStrategyParameters.Trend) (self : LiveStrategy)
    (symbol : string) (tick : Tick) : Signal * LiveStrategy :=
  let current_price := tick_price tick in
  match tick_history tick with
  | None => (HOLD, self)
  | Some history =>
      if (length history =? 0)%nat
         || (Z.of_nat (length history) <? LiveStrategyParameters.LONG_WINDOW config)%Z
      then (HOLD, self)
      else
        match ta_rsi history (LiveStrategyParameters.RSI_WINDOW config) with
        | None => (HOLD, self)
        | Some [] => (HOLD, self)
        | Some rsi =>
            let short_ma :=
              tail_mean (LiveStrategyParameters.SHORT_WINDOW config) history in
            let long_ma :=
              tail_mean (LiveStrategyParameters.LONG_WINDOW config) history in
            let current_rsi := default None (last rsi) in
            if fgt short_ma long_ma
               && fgt current_rsi
                    (Some (inject_Z (LiveStrategyParameters.RSI_BULLISH_THRESHOLD config)))
               && (position self symbol =? 0)%Z
            then (BUY, _set_exit_prices self symbol current_price)
            else if flt short_ma long_ma && (0 <? position self symbol)%Z
            then (SELL, self)
            else (HOLD, self)
        end
  end.

Definition LiveMeanReversion_decide_action
    (config : LiveStrategyParameters.MeanReversion) (self : LiveStrategy)
    (symbol : string) (tick : Tick) : Signal * LiveStrategy :=
  let current_price := tick_price tick in
  match tick_history tick with
  | None => (HOLD, self)
  | Some history =>
      if (length history =? 0)%nat
         || (Z.of_nat (length history) <? LiveStrategyParameters.WINDOW config)%Z
      then (HOLD, self)
      else
        match ta_rsi history (LiveStrategyParameters.MR_RSI_WINDOW config) with
        | None => (HOLD, self)
        | Some [] => (HOLD, self)
        | Some rsi =>
            let ma := tail_mean (LiveStrategyParameters.WINDOW config) history in
            let std := tail_std (LiveStrategyParameters.WINDOW config) history in
            match std with
            | Some sd =>
                if Qeq_bool sd 0 then (HOLD, self)
                else
                  let lower_band :=
                    option_map
                      (fun m => m - LiveStrategyParameters.STD_DEV config * sd) ma in
                  let upper_band :=
                    option_map
                      (fun m => m + LiveStrategyParameters.STD_DEV config * sd) ma in
                  let current_rsi := default None (last rsi) in
                  if flt (Some current_price) lower_band
                     && flt current_rsi
                          (Some (inject_Z
                                   (LiveStrategyParameters.RSI_OVERSOLD_THRESHOLD config)))
                     && (position self symbol =? 0)%Z
                  then (BUY, _set_exit_prices self symbol current_price)
                  else if fgt (Some current_price) upper_band
                          && (0 <? position self symbol)%Z
                  then (SELL, self)
                  else (HOLD, self)
            | None =>
                (* a NaN deviation: [std == 0] is false and so is every
                   comparison with a band *)
                (HOLD, self)
            end
        end
  end.

Definition decide_action (self : LiveStrategy) (symbol : string) (tick : Tick)
  : Signal * LiveStrategy :=
  match class self with
  | LiveTrendFollowing config =>
      LiveTrendFollowing_decide_action config self symbol tick
  | LiveMeanReversion config =>
      LiveMeanReversion_decide_action config self symbol tick
  end.
End LiveStrategies.

(** A line appended to [live_trades.log]. *)
Record Execution : Type := mkExecution {
  x_strategy : string; x_side : string; x_qty : Z; x_symbol : string; x_price : Q
}.

(** The coordinator, the lines of [live_trades.log], and the file system as
    far as [submit_order] meets it: [log_append_ok n] tells whether the
    append made by the execution that brings [trade_count] to [n] succeeds.
    When it does not, [submit_order] catches the exception and logs it. *)
Record ChiefInvestmentOfficer : Type := mkCIO {
  risk_manager : RiskManager;
  alerter : list Alert;
  initial_capital : Z;
  last_known_prices : gmap string Q;
  trade_count : nat;
  strategies : gmap string LiveStrategy;
  live_trades : list Execution;
  log_append_ok : nat -> bool
}.

Definition _rebalance_capital (self : ChiefInvestmentOfficer)
  : ChiefInvestmentOfficer :=
  if decide (strategies self = ∅) then self
  else
    let capital_per_strategy :=
      inject_Z (initial_capital self)
      / inject_Z (Z.of_nat (size (strategies self))) in
    mkCIO (risk_manager self) (alerter self) (initial_capital self)
          (last_known_prices self) (trade_count self)
          ((fun s => set_capital s capital_per_strategy) <$> strategies self)
          (live_trades self) (log_append_ok self).

(** The first loop of [on_market_data], for one symbol of the batch. *)
Definition update_price (self : ChiefInvestmentOfficer) (symbol : string)
    (p : Q) : ChiefInvestmentOfficer :=
  mkCIO (risk_manager self) (alerter self) (initial_capital self)
        (<[symbol := p]> (last_known_prices self)) (trade_count self)
        (strategies self) (live_trades self) (log_append_ok self).

Definition with_alerts (self : ChiefInvestmentOfficer) (a : list Alert)
  : ChiefInvestmentOfficer :=
  mkCIO (risk_manager self) a (initial_capital self) (last_known_prices self)
        (trade_count self) (strategies self) (live_trades self)
        (log_append_ok self).

(** The [try] block of [submit_order]: the line joins [live_trades.log],
    or the write fails and the file is left as it was.  The count has been
    raised before, to [S (trade_count self)]. *)
Definition append_line (self : ChiefInvestmentOfficer) (line : Execution)
  : list Execution :=
  if log_append_ok self (S (trade_count self))
  then live_trades self ++ [line]
  else live_trades self.

Definition submit_order (self : ChiefInvestmentOfficer)
    (strategy_id symbol side : string) (quantity : Z)
  : ChiefInvestmentOfficer * option exn :=
  match last_known_prices self !! symbol with
  | None => (self, None)
  | Some price =>
      if Qle_bool price 0 then (self, None)
      else if (quantity <=? 0)%Z then (self, None)
      else
        let '(allowed, alerts) :=
          is_trade_allowed (risk_manager self) (alerter self) side quantity price in
        let self := with_alerts self alerts in
        if allowed then
          match strategies self !! strategy_id with
          | None => (self, Some (KeyError strategy_id))
          | Some strategy =>
              let trade_value := inject_Z quantity * price in
              if (String.eqb side "buy" && Qle_bool trade_value (cash strategy))
                 || (String.eqb side "sell"
                     && (quantity <=? position strategy symbol)%Z)
              then
                let strategy' :=
                  mkLiveStrategy (id strategy) (class strategy)
                    (cash strategy
                     - (if String.eqb side "buy" then trade_value else - trade_value))
                    (<[symbol :=
                         (position strategy symbol
                          + (if String.eqb side "buy" then quantity else - quantity))%Z]>
                       (positions strategy))
                    (risk_per_trade strategy)
                    (stop_loss_prices strategy) (take_profit_prices strategy) in
                (mkCIO (risk_manager self) (alerter self) (initial_capital self)
                       (last_known_prices self) (S (trade_count self))
                       (<[strategy_id := strategy']> (strategies self))
                       (append_line self
                          (mkExecution strategy_id side quantity symbol price))
                       (log_append_ok self),
                 None)
              else (self, None)
          end
        else (self, None)
  end.

End Citadel.

(** ** project_citadel (first generation, [src/Quant T py]) *)
Module LegacyCitadel.
Import Citadel.

(** The part of the coordinator the risk manager reads and writes: its
    [current_value], the risk manager object and the alerts sent. *)
Record Desk : Type := mkDesk {
  risk : RiskManager;
  current_value : Q;
  alerts : list Alert
}.

(** [RiskManager.is_trade_allowed(side, qty, price, portfolio)] *)
Definition is_trade_allowed (d : Desk) (side : string) (qty : Z) (price : Q)
  : bool * Desk :=
  let self := risk d in
  let dd :=
    if Qlt_bool 0 (peak_equity self)
    then (peak_equity self - current_value d) / peak_equity self
    else 0 in
  let limit := DAILY_DRAWDOWN_LIMIT (params self) in
  let d1 :=
    if Qlt_bool limit dd && negb (is_drawdown_breached self)
    then mkDesk (mkRiskManager (params self) (peak_equity self) true)
                (current_value d)
                (alerts d ++ [mkAlert "RISK BREACH" limit])
    else d in
  if is_drawdown_breached (risk d1) && String.eqb side "buy" then (false, d1)
  else if Qlt_bool (inject_Z (MAX_ORDER_VALUE (params self))) (inject_Z qty * price)
  then (false, d1)
  else (true, d1).

(** [RiskManager.assess_new_day] *)
Definition new_day (d : Desk) (v : Q) : Desk :=
  mkDesk (assess_new_day (risk d) v) (current_value d) (alerts d).

(** The two assignments that open [on_market_data]; [equity] is the value
    [self.get_total_equity()] returns at that point. *)
Definition observe_equity (d : Desk) (equity : Q) : Desk :=
  mkDesk (mkRiskManager (params (risk d)) (Qmax (peak_equity (risk d)) equity)
                        (is_drawdown_breached (risk d)))
         equity (alerts d).

(** What happens to a desk during a session. *)
Inductive event : Type :=
| Observe (equity : Q)
| Check (side : string) (qty : Z) (price : Q).

Definition step (d : Desk) (e : event) : Desk :=
  match e with
  | Observe equity => observe_equity d equity
  | Check side qty price => snd (is_trade_allowed d side qty price)
  end.

Definition session (d : Desk) (events : list event) : Desk :=
  fold_left step events d.

End LegacyCitadel.

(** ** An instance of the numeric library

    Exact rational arithmetic on NaN-free data, for running the strategies
    and the analyzer on concrete inputs: means and exponential smoothing are
    exact, a square root is truncated to six decimals, and the relative
    strength index of pandas_ta is replaced by its simple-average form. *)
Module Reference.

Definition total (l : list Q) : Q := fold_right Qplus 0 l.

Definition mean (l : list Q) : Q :=
  Qred (total l / inject_Z (Z.of_nat (length l))).

Definition sqrt6 (x : Q) : Q :=
  inject_Z (Z.sqrt (Qfloor (x * 1000000000000))) / 1000000.

Definition sample_std (l : list Q) : Q :=
  sqrt6 (total (map (fun x => (x - mean l) * (x - mean l)) l)
         / inject_Z (Z.of_nat (length l) - 1)).

(** [series.tail(w)] *)
Definition tail (w : Z) (l : list Q) : list Q :=
  if (w <? 0)%Z then skipn (Z.to_nat (- w)) l
  else skipn (length l - Z.to_nat w) l.

Definition window_mean (w : Z) (l : list Q) : option Q :=
  match tail w l with
  | [] => None
  | t => Some (mean t)
  end.

Definition window_std (w : Z) (l : list Q) : option Q :=
  if (length (tail w l) <? 2)%nat then None else Some (sample_std (tail w l)).

(** A rolling window is full or its value is NaN. *)
Definition full_window (w : Z) (l : list Q) : bool :=
  (1 <=? w)%Z && (w <=? Z.of_nat (length l))%Z.

Definition nth_close (l : list Q) (i : nat) : Q := nth i l 0.

(** [np.gradient] with unit spacing: one-sided at both ends, central
    inside. *)
Definition gradient (l : list Q) : list Q :=
  let n := length l in
  map (fun i =>
         if (i =? 0)%nat then nth_close l 1 - nth_close l 0
         else if (S i =? n)%nat then nth_close l i - nth_close l (i - 1)
         else (nth_close l (S i) - nth_close l (i - 1)) / 2)
      (seq 0 n).

Definition gains (l : list Q) : Q :=
  total (map (fun x => if Qlt_bool 0 x then x else 0) l).

Definition losses (l : list Q) : Q :=
  total (map (fun x => if Qlt_bool x 0 then - x else 0) l).

Definition gradient_strength (w : Z) (l : list Q) : option Q :=
  let g := gradient l in
  if full_window w g
  then Some (Qred (gains (tail w g) / (losses (tail w g) + 0.000000001)))
  else None.

Definition Qabs_max3 (a b c : Q) : Q := Qmax a (Qmax (Qabs b) (Qabs c)).

Fixpoint true_range (previous_close : option Q) (bars : list Bar) : list Q :=
  match bars with
  | [] => []
  | bar :: rest =>
      (match previous_close with
       | None => High bar - Low bar
       | Some c => Qabs_max3 (High bar - Low bar) (High bar - c) (Low bar - c)
       end) :: true_range (Some (Close bar)) rest
  end.

Fixpoint smooth (alpha : Q) (previous : option Q) (l : list Q) : list Q :=
  match l with
  | [] => []
  | x :: rest =>
      let y := match previous with
               | None => x
               | Some p => Qred ((1 - alpha) * p + alpha * x)
               end in
      y :: smooth alpha (Some y) rest
  end.

Definition smoothed_range (bars : list Bar) (period : Z) : list (option Q) :=
  map Some (smooth (1 / inject_Z period) None (true_range None bars)).

Fixpoint differences (l : list Q) : list Q :=
  match l with
  | a :: (b :: _) as rest => (b - a) :: differences rest
  | _ => []
  end.

Definition simple_rsi (l : list Q) (w : Z) : option (list (option Q)) :=
  Some (map (fun i =>
               let d := tail w (firstn i (differences l)) in
               if (Z.of_nat i <? w)%Z then None
               else if Qeq_bool (gains d + losses d) 0 then None
               else Some (Qred (100 * gains d / (gains d + losses d))))
            (seq 0 (length l))).

Lemma sqrt6_nonneg (x : Q) : 0 <= sqrt6 x.
Proof.
  unfold sqrt6. apply Qle_shift_div_l; [reflexivity |].
  rewrite Qmult_0_l. change 0 with (inject_Z 0). rewrite <- Zle_Qle.
  apply Z.sqrt_nonneg.
Qed.

Lemma sample_std_nonneg (l : list Q) : 0 <= sample_std l.
Proof. apply sqrt6_nonneg. Qed.

#[export] Instance rational : NumLib := {|
  np_sqrt := sqrt6;
  np_sqrt_nonneg := sqrt6_nonneg;
  series_mean := mean;
  series_std := sample_std;
  series_std_nonneg := sample_std_nonneg;
  rolling_mean_last := fun w l => if full_window w l then window_mean w l else None;
  rolling_std_last := fun w l => if full_window w l then window_std w l else None;
  gradient_rsi_last := gradient_strength;
  true_range_ewm := smoothed_range;
  ta_rsi := simple_rsi;
  tail_mean := window_mean;
  tail_std := window_std
|}.

End Reference.

(** * Properties *)

(** ** Boolean comparisons of rationals *)

Lemma Qle_bool_true (x y : Q) : Qle_bool x y = true <-> x <= y.
Proof. apply Qle_bool_iff. Qed.

Lemma Qle_bool_false (x y : Q) : Qle_bool x y = false <-> y < x.
Proof.
  split; intros Hxy.
  - destruct (Qlt_le_dec y x) as [Hlt | Hle]; [exact Hlt |].
    apply Qle_bool_iff in Hle. congruence.
  - destruct (Qle_bool x y) eqn:E; [| reflexivity].
    apply Qle_bool_iff in E. lra.
Qed.

Lemma Qlt_bool_true (x y : Q) : Qlt_bool x y = true <-> x < y.
Proof.
  unfold Qlt_bool. rewrite negb_true_iff. apply Qle_bool_false.
Qed.

Lemma Qlt_bool_false (x y : Q) : Qlt_bool x y = false <-> y <= x.
Proof.
  unfold Qlt_bool. rewrite negb_false_iff. apply Qle_bool_true.
Qed.

Lemma inject_Z_nonneg (z : Z) : (0 <= z)%Z -> 0 <= inject_Z z.
Proof. intros Hz. change 0 with (inject_Z 0). now rewrite <- Zle_Qle. Qed.

Lemma inject_Z_pos (z : Z) : (0 < z)%Z -> 0 < inject_Z z.
Proof. intros Hz. change 0 with (inject_Z 0). now rewrite <- Zlt_Qlt. Qed.

(** ** The cost model *)
Module CostModel.
Import Atlas.
Import TransactionCostCalculator.

(** The proportional rate every trade pays, whatever its side. *)
Definition common_rate : Q :=
  BROKERAGE_PCT + STT_PCT + EXCHANGE_TXN_PCT
  + (BROKERAGE_PCT + EXCHANGE_TXN_PCT) * GST_PCT + SEBI_FEES_PCT.

Lemma calculate_buy (v : Q) :
  calculate v "buy" == v * common_rate + v * STAMP_DUTY_PCT.
Proof.
  unfold calculate, common_rate. simpl String.eqb. cbv iota. ring.
Qed.

Lemma calculate_other (v : Q) (side : string) :
  side <> "buy"%string -> calculate v side == v * common_rate.
Proof.
  intros Hside. unfold calculate, common_rate.
  destruct (String.eqb_spec side "buy") as [-> | _]; [congruence |]. ring.
Qed.

Lemma common_rate_value : common_rate == 0.00139571.
Proof. reflexivity. Qed.

Lemma calculate_nonneg (v : Q) (side : string) : 0 <= v -> 0 <= calculate v side.
Proof.
  intros Hv. destruct (String.eqb_spec side "buy") as [-> | Hside].
  - rewrite calculate_buy. unfold common_rate, BROKERAGE_PCT, STT_PCT,
      EXCHANGE_TXN_PCT, GST_PCT, SEBI_FEES_PCT, STAMP_DUTY_PCT. lra.
  - rewrite (calculate_other v side Hside). unfold common_rate, BROKERAGE_PCT,
      STT_PCT, EXCHANGE_TXN_PCT, GST_PCT, SEBI_FEES_PCT. lra.
Qed.

(** The fee of a sale never reaches the value sold. *)
Lemma calculate_sell_below_value (v : Q) :
  0 <= v -> calculate v "sell" <= v.
Proof.
  intros Hv. rewrite calculate_other by discriminate.
  unfold common_rate, BROKERAGE_PCT, STT_PCT, EXCHANGE_TXN_PCT, GST_PCT,
    SEBI_FEES_PCT. lra.
Qed.

Lemma calculate_compat (v v' : Q) (side : string) :
  v == v' -> calculate v side == calculate v' side.
Proof.
  intros Hv. unfold calculate.
  destruct (String.eqb side "buy"); rewrite Hv; reflexivity.
Qed.

(** A fill as [execute_orders] of [m] prices and charges it: at the
    reference price moved against the order by the slippage, with the fee
    [calculate] gives for the quantity at that price and the side. *)
Definition priced_and_charged (m : MarketSimulator) (fill : Trade) : Prop :=
  t_price fill = execution_price m (t_side fill)
  /\ t_cost fill = calculate (t_qty fill * t_price fill) (t_side fill).

(** The fill of [order], should it be executed. *)
Definition fill_at (m : MarketSimulator) (order : Order) : Trade :=
  mkTrade (o_id order) (o_side order) (inject_Z (o_qty order))
    (execution_price m (o_side order))
    (calculate (inject_Z (o_qty order) * execution_price m (o_side order))
               (o_side order)).

Lemma fill_at_priced_and_charged (m : MarketSimulator) (order : Order) :
  priced_and_charged m (fill_at m order).
Proof. split; reflexivity. Qed.

Lemma priced_and_charged_same_market (m m' : MarketSimulator) (fill : Trade) :
  price m' = price m -> slippage_bps m' = slippage_bps m ->
  priced_and_charged m' fill -> priced_and_charged m fill.
Proof.
  unfold priced_and_charged, execution_price. intros -> ->. tauto.
Qed.

(** One turn of the loop of [execute_orders] appends the fill of its order
    or nothing, and writes neither the price nor the slippage. *)
Lemma settle_fill (m m' : MarketSimulator) (order : Order) :
  settle m order = inr m' ->
  price m' = price m
  /\ slippage_bps m' = slippage_bps m
  /\ (trade_log m' = trade_log m
      \/ trade_log m' = trade_log m ++ [fill_at m order]).
Proof.
  unfold settle, fill_at.
  destruct (strategies (firm m) !! o_id order) as [strategy |];
    [| discriminate].
  destruct (String.eqb_spec (o_side order) "buy") as [Hbuy | _].
  - destruct (Qle_bool _ _); intros [= <-]; simpl; rewrite ?Hbuy; auto.
  - destruct (String.eqb_spec (o_side order) "sell") as [Hsell | _];
      [| intros [= <-]; auto].
    destruct (_ <=? _)%Z; intros [= <-]; simpl; rewrite ?Hsell; auto.
Qed.

Lemma process_orders_fills (orders : list Order) :
  forall m m' e,
    process_orders orders m = (m', e) ->
    exists fills,
      trade_log m' = trade_log m ++ fills
      /\ Forall (priced_and_charged m) fills.
Proof.
  induction orders as [| order rest IH]; intros m m' e; simpl.
  - intros [= <- <-]. exists []. now rewrite app_nil_r.
  - destruct (settle m order) as [err | m1] eqn:Hsettle.
    + intros [= <- <-]. exists []. now rewrite app_nil_r.
    + intros Hrest.
      destruct (settle_fill m m1 order Hsettle) as (Hp & Hs & Hlog).
      destruct (IH m1 m' e Hrest) as (fills & Hfills & Hall).
      assert (Hall' : Forall (priced_and_charged m) fills).
      { eapply Forall_impl; [exact Hall |]. simpl. intros fill.
        now apply priced_and_charged_same_market. }
      destruct Hlog as [Hsame | Hone].
      * exists fills. split; [now rewrite Hfills, Hsame | exact Hall'].
      * exists (fill_at m order :: fills).
        split; [now rewrite Hfills, Hone, <- app_assoc |].
        constructor; [apply fill_at_priced_and_charged | exact Hall'].
Qed.

Lemma execute_orders_fills (m m' : MarketSimulator) (e : option exn) :
  execute_orders m = (m', e) ->
  exists fills,
    trade_log m' = trade_log m ++ fills
    /\ Forall (priced_and_charged m) fills.
Proof.
  unfold execute_orders.
  destruct (order_queue m) as [| order rest] eqn:Hq.
  - intros [= <- <-]. exists []. now rewrite app_nil_r.
  - intros Hrun.
    destruct (process_orders_fills (order :: rest) (with_queue m []) m' e Hrun)
      as (fills & Hlog & Hall).
    exists fills. split; [exact Hlog |].
    eapply Forall_impl; [exact Hall |]. simpl. intros fill.
    now apply priced_and_charged_same_market.
Qed.

(** An order alone in the queue that its strategy covers is executed. *)
Lemma execute_orders_single_buy
    (m : MarketSimulator) (order : Order) (strategy : AtlasStrategy) :
  order_queue m = [order] ->
  strategies (firm m) !! o_id order = Some strategy ->
  o_side order = "buy"%string ->
  t_qty (fill_at m order) * t_price (fill_at m order) + t_cost (fill_at m order)
  <= cash strategy ->
  exists m' strategy',
    execute_orders m = (m', None)
    /\ trade_log m' = trade_log m ++ [fill_at m order]
    /\ strategies (firm m') !! o_id order = Some strategy'
    /\ cash strategy'
       = cash strategy
         - (t_qty (fill_at m order) * t_price (fill_at m order)
            + t_cost (fill_at m order))
    /\ shares strategy' = (shares strategy + o_qty order)%Z.
Proof.
  intros Hq Hs Hside Hfunds. unfold execute_orders. rewrite Hq. simpl.
  unfold settle. simpl. rewrite Hs.
  unfold fill_at in *. simpl in Hfunds. rewrite Hside in *. simpl.
  apply Qle_bool_true in Hfunds.
  change (execution_price (with_queue m []) "buy")
    with (execution_price m "buy").
  rewrite Hfunds.
  eexists _, _. split; [reflexivity |]. simpl.
  split; [reflexivity |]. rewrite lookup_insert_eq.
  split; [reflexivity |]. split; reflexivity.
Qed.

Lemma execute_orders_single_sell
    (m : MarketSimulator) (order : Order) (strategy : AtlasStrategy) :
  order_queue m = [order] ->
  strategies (firm m) !! o_id order = Some strategy ->
  o_side order = "sell"%string ->
  (o_qty order <= shares strategy)%Z ->
  exists m' strategy',
    execute_orders m = (m', None)
    /\ trade_log m' = trade_log m ++ [fill_at m order]
    /\ strategies (firm m') !! o_id order = Some strategy'
    /\ cash strategy'
       = cash strategy
         + (t_qty (fill_at m order) * t_price (fill_at m order)
            - t_cost (fill_at m order))
    /\ shares strategy' = (shares strategy - o_qty order)%Z.
Proof.
  intros Hq Hs Hside Hheld. unfold execute_orders. rewrite Hq. simpl.
  unfold settle. simpl. rewrite Hs.
  unfold fill_at in *. rewrite Hside in *. simpl.
  apply Z.leb_le in Hheld.
  change (execution_price (with_queue m []) "sell")
    with (execution_price m "sell").
  rewrite Hheld.
  eexists _, _. split; [reflexivity |]. simpl.
  split; [reflexivity |]. rewrite lookup_insert_eq.
  split; [reflexivity |]. split; reflexivity.
Qed.

(** C5.  A simulator whose slippage is what the constructor derives from
    [SLIPPAGE_BPS = 10].  [execute_orders] prices a buy at the reference
    price times 1.001 and a sale at the reference price times 0.999, and
    charges what [calculate] gives for the quantity at that price and the
    side: every fill a call appends to the trade log carries that price and
    that fee, and an order alone in the queue that its strategy covers is
    filled, the fill is the one logged, and the cash moves by the value at
    the execution price plus the fee for a buy, minus the fee for a sale.
    [calculate] reads nothing but its two arguments (equal trade values give
    equal fees, whatever the simulator), is never negative on a
    non-negative trade value, and charges the stamp duty on the side
    ['buy'] and on no other; on a value of 1,000,000 a buy pays 1545.71. *)
Theorem cost_model_as_specified
    (firm_config : FirmConfig) (m : MarketSimulator) (v v' : Q)
    (side : string) :
  SLIPPAGE_BPS firm_config = 10%Z ->
  slippage_bps m
  = slippage_bps (MarketSimulator_init firm_config (firm m)) ->
  0 <= v ->
  v == v' ->
  (execution_price m "buy" == price m * 1.001
   /\ execution_price m "sell" == price m * 0.999)
  /\ (forall m' e,
        execute_orders m = (m', e) ->
        exists fills,
          trade_log m' = trade_log m ++ fills
          /\ Forall (priced_and_charged m) fills)
  /\ (forall order strategy,
        order_queue m = [order] ->
        strategies (firm m) !! o_id order = Some strategy ->
        let fill := fill_at m order in
        let value := t_qty fill * t_price fill in
        (o_side order = "buy"%string ->
         value + t_cost fill <= cash strategy ->
         exists m' strategy',
           execute_orders m = (m', None)
           /\ trade_log m' = trade_log m ++ [fill]
           /\ strategies (firm m') !! o_id order = Some strategy'
           /\ cash strategy' = cash strategy - (value + t_cost fill)
           /\ shares strategy' = (shares strategy + o_qty order)%Z)
        /\ (o_side order = "sell"%string ->
            (o_qty order <= shares strategy)%Z ->
            exists m' strategy',
              execute_orders m = (m', None)
              /\ trade_log m' = trade_log m ++ [fill]
              /\ strategies (firm m') !! o_id order = Some strategy'
              /\ cash strategy' = cash strategy + (value - t_cost fill)
              /\ shares strategy' = (shares strategy - o_qty order)%Z))
  /\ calculate v side == calculate v' side
  /\ 0 <= calculate v side
  /\ calculate v "buy" == calculate v "sell" + v * STAMP_DUTY_PCT
  /\ (side <> "buy"%string -> calculate v side == calculate v "sell")
  /\ calculate 1000000 "buy" == 1545.71.
Proof.
  intros Hbps Hslip Hv Hvv'.
  split.
  { unfold execution_price. rewrite Hslip. simpl. rewrite Hbps.
    split; field. }
  split; [intros m' e; apply execute_orders_fills |].
  split.
  { intros order strategy Hq Hs. cbv zeta. split.
    - intros Hside Hfunds.
      exact (execute_orders_single_buy m order strategy Hq Hs Hside Hfunds).
    - intros Hside Hheld.
      exact (execute_orders_single_sell m order strategy Hq Hs Hside Hheld). }
  split; [now apply calculate_compat |].
  split; [now apply calculate_nonneg |].
  split; [rewrite calculate_buy, calculate_other by discriminate; reflexivity |].
  split; [| reflexivity].
  intros Hside. rewrite (calculate_other v side Hside).
  rewrite calculate_other by discriminate. reflexivity.
Qed.

End CostModel.

(** ** Backtest settlement *)
Module Settlement.
Import Atlas.
Import TransactionCostCalculator.

(** The funds a buy of [order] needs, and what a sale of it brings in. *)
Definition notional (m : MarketSimulator) (order : Order) : Q :=
  inject_Z (o_qty order) * execution_price m (o_side order).

Definition fee (m : MarketSimulator) (order : Order) : Q :=
  calculate (notional m order) (o_side order).

(** The check the order has to pass against the strategy that sent it. *)
Definition covered (m : MarketSimulator) (order : Order) (s : AtlasStrategy)
  : Prop :=
  (o_side order = "buy"%string /\ notional m order + fee m order <= cash s)
  \/ (o_side order = "sell"%string /\ (o_qty order <= shares s)%Z).

(** What a settled order leaves behind. *)
Definition settled (m : MarketSimulator) (order : Order) (s : AtlasStrategy)
  : MarketSimulator :=
  if String.eqb (o_side order) "buy" then
    record_fill m (o_id order)
      (with_cash_shares s (cash s - (notional m order + fee m order))
                        (shares s + o_qty order))
      (mkTrade (o_id order) "buy" (inject_Z (o_qty order))
               (execution_price m (o_side order)) (fee m order))
  else
    record_fill m (o_id order)
      (with_cash_shares s (cash s + (notional m order - fee m order))
                        (shares s - o_qty order))
      (mkTrade (o_id order) "sell" (inject_Z (o_qty order))
               (execution_price m (o_side order)) (fee m order)).

Lemma settle_covered (m : MarketSimulator) (order : Order) (s : AtlasStrategy) :
  strategies (firm m) !! o_id order = Some s ->
  covered m order s ->
  settle m order = inr (settled m order s).
Proof.
  intros Hs [[Hside Hfunds] | [Hside Hshares]];
    unfold settle, settled, fee, notional in *; rewrite Hs, Hside; simpl String.eqb;
    cbv iota.
  - rewrite Hside in Hfunds.
    apply Qle_bool_true in Hfunds. now rewrite Hfunds.
  - apply Z.leb_le in Hshares. now rewrite Hshares.
Qed.

Lemma settle_not_covered (m : MarketSimulator) (order : Order) (s : AtlasStrategy) :
  strategies (firm m) !! o_id order = Some s ->
  ~ covered m order s ->
  settle m order = inr m.
Proof.
  intros Hs Hnot. unfold settle. rewrite Hs.
  destruct (String.eqb_spec (o_side order) "buy") as [Hbuy | _].
  - destruct (Qle_bool _ _) eqn:E; [| reflexivity].
    exfalso. apply Hnot. left. split; [exact Hbuy |].
    apply Qle_bool_true in E. unfold notional, fee. exact E.
  - destruct (String.eqb_spec (o_side order) "sell") as [Hsell | _];
      [| reflexivity].
    destruct (Z.leb_spec (o_qty order) (shares s)) as [Hle | _]; [| reflexivity].
    exfalso. apply Hnot. right. now split.
Qed.

Lemma covered_dec (m : MarketSimulator) (order : Order) (s : AtlasStrategy) :
  covered m order s \/ ~ covered m order s.
Proof.
  unfold covered.
  destruct (String.eqb_spec (o_side order) "buy") as [Hbuy | Hnbuy].
  - destruct (Qlt_le_dec (cash s) (notional m order + fee m order)) as [Hlt | Hle].
    + right. intros [[_ Hle] | [Hsell _]]; [lra | congruence].
    + left. left. now split.
  - destruct (String.eqb_spec (o_side order) "sell") as [Hsell | Hnsell].
    + destruct (Z.le_gt_cases (o_qty order) (shares s)) as [Hle | Hgt].
      * left. right. now split.
      * right. intros [[Hbuy _] | [_ Hle]]; [congruence | lia].
    + right. intros [[Hbuy _] | [Hsell _]]; congruence.
Qed.

Lemma settled_trade_log (m : MarketSimulator) (order : Order) (s : AtlasStrategy) :
  exists fill, trade_log (settled m order s) = trade_log m ++ [fill].
Proof.
  unfold settled. destruct (String.eqb _ _); simpl; eauto.
Qed.

(** C2.  For an order of a strategy the firm holds, [settle] never raises.
    A buy with less cash than notional plus cost, and a sale of more shares
    than held, leave the simulator as it was: the trade log, the cash and
    the shares of every strategy.  When the trade log did grow, by exactly
    one fill, the order had passed its check, and the rest of the queue is
    processed as if a dropped order had never been in it. *)
Theorem settlement_is_all_or_nothing
    (m : MarketSimulator) (order : Order) (s : AtlasStrategy) (rest : list Order) :
  strategies (firm m) !! o_id order = Some s ->
  (exists m', settle m order = inr m'
     /\ ((m' = m /\ ~ covered m order s)
         \/ (covered m order s
             /\ exists fill, trade_log m' = trade_log m ++ [fill])))
  /\ (o_side order = "buy"%string ->
      cash s < notional m order + fee m order ->
      settle m order = inr m
      /\ process_orders (order :: rest) m = process_orders rest m)
  /\ (o_side order = "sell"%string ->
      (shares s < o_qty order)%Z ->
      settle m order = inr m
      /\ process_orders (order :: rest) m = process_orders rest m).
Proof.
  intros Hs. split; [| split].
  - destruct (covered_dec m order s) as [Hc | Hn].
    + exists (settled m order s). split; [now apply settle_covered |].
      right. split; [exact Hc | apply settled_trade_log].
    + exists m. split; [now apply (settle_not_covered m order s) |].
      left. now split.
  - intros Hside Hlt.
    assert (Hn : ~ covered m order s).
    { intros [[_ Hle] | [Hsell _]]; [lra | congruence]. }
    pose proof (settle_not_covered m order s Hs Hn) as E.
    split; [exact E |]. simpl. now rewrite E.
  - intros Hside Hlt.
    assert (Hn : ~ covered m order s).
    { intros [[Hbuy _] | [_ Hle]]; [congruence | lia]. }
    pose proof (settle_not_covered m order s Hs Hn) as E.
    split; [exact E |]. simpl. now rewrite E.
Qed.

(** *** Sessions of the simulator

    What [MarketSimulator.run] does to the simulator between two bars, one
    operation at a time: [self.price = row['Close']], the [submit_order]
    calls of [run_daily_operations], and [execute_orders]. *)
Inductive op : Type :=
| NewBar (close : Q)
| Submit (strategy_id side : string) (quantity : Z)
| Execute.

Definition apply_op (m : MarketSimulator) (o : op) : MarketSimulator * option exn :=
  match o with
  | NewBar close => (with_price m close, None)
  | Submit strategy_id side quantity =>
      (submit_order m strategy_id side quantity, None)
  | Execute => execute_orders m
  end.

(** A run stops at the first operation that raises. *)
Fixpoint run_ops (ops : list op) (m : MarketSimulator)
  : MarketSimulator * option exn :=
  match ops with
  | [] => (m, None)
  | o :: rest =>
      match apply_op m o with
      | (m', None) => run_ops rest m'
      | (m', Some e) => (m', Some e)
      end
  end.

Definition positive_bar (o : op) : Prop :=
  match o with
  | NewBar close => 0 < close
  | _ => True
  end.

(** The simulator inside [execute_orders], after the loop has gone through
    the first [k] orders of the queue. *)
Definition after_orders (k : nat) (m : MarketSimulator) : MarketSimulator :=
  fst (process_orders (take k (order_queue m)) (with_queue m [])).

Definition solvent (s : AtlasStrategy) : Prop :=
  0 <= cash s /\ (0 <= shares s)%Z.

Definition book_solvent (m : MarketSimulator) : Prop :=
  map_Forall (fun _ s => solvent s) (strategies (firm m)).

(** The invariant of a session: a solvent book, a price that is not
    negative, a slippage of at most 100%, and only positive quantities in
    the queue. *)
Definition sound (m : MarketSimulator) : Prop :=
  book_solvent m
  /\ 0 <= price m
  /\ slippage_bps m <= 1
  /\ Forall (fun o => (0 < o_qty o)%Z) (order_queue m).

Lemma sell_proceeds_nonneg (m : MarketSimulator) (order : Order) :
  o_side order = "sell"%string ->
  0 <= price m -> slippage_bps m <= 1 -> (0 < o_qty order)%Z ->
  0 <= notional m order - fee m order.
Proof.
  intros Hside Hp Hs Hq. unfold fee. rewrite Hside.
  assert (Hn : 0 <= notional m order).
  { unfold notional, execution_price. rewrite Hside. simpl String.eqb. cbv iota.
    apply inject_Z_pos in Hq.
    apply Qmult_le_0_compat; [lra |]. apply Qmult_le_0_compat; lra. }
  pose proof (CostModel.calculate_sell_below_value _ Hn). lra.
Qed.

Lemma settle_keeps_book (m m' : MarketSimulator) (order : Order) :
  book_solvent m ->
  0 <= price m -> slippage_bps m <= 1 -> (0 < o_qty order)%Z ->
  settle m order = inr m' ->
  book_solvent m'
  /\ price m' = price m /\ slippage_bps m' = slippage_bps m
  /\ order_queue m' = order_queue m.
Proof.
  intros Hbook Hp Hs Hq Hsettle.
  destruct (strategies (firm m) !! o_id order) as [s |] eqn:Hlookup;
    [| unfold settle in Hsettle; rewrite Hlookup in Hsettle; discriminate].
  destruct (Hbook _ _ Hlookup) as [Hcash Hshares].
  destruct (covered_dec m order s) as [Hc | Hn].
  - rewrite (settle_covered m order s Hlookup Hc) in Hsettle.
    injection Hsettle as <-.
    unfold settled.
    destruct Hc as [[Hside Hfunds] | [Hside Hheld]]; rewrite Hside;
      simpl String.eqb; cbv iota; (split; [| now repeat split]).
    + apply map_Forall_insert_2; [| exact Hbook].
      split; simpl; [lra | lia].
    + apply map_Forall_insert_2; [| exact Hbook].
      pose proof (sell_proceeds_nonneg m order Hside Hp Hs Hq).
      split; simpl; [lra | lia].
  - rewrite (settle_not_covered m order s Hlookup Hn) in Hsettle.
    injection Hsettle as <-. split; [exact Hbook | now repeat split].
Qed.

Lemma process_orders_keeps_book (orders : list Order) (m : MarketSimulator) :
  book_solvent m ->
  0 <= price m -> slippage_bps m <= 1 ->
  Forall (fun o => (0 < o_qty o)%Z) orders ->
  let m' := fst (process_orders orders m) in
  book_solvent m'
  /\ price m' = price m /\ slippage_bps m' = slippage_bps m
  /\ order_queue m' = order_queue m.
Proof.
  revert m. induction orders as [| order rest IH]; intros m Hbook Hp Hs Hq; simpl.
  - split; [exact Hbook | now repeat split].
  - inversion Hq as [| ? ? Hq1 Hq2]; subst.
    destruct (settle m order) as [e | m1] eqn:E; simpl;
      [split; [exact Hbook | now repeat split] |].
    destruct (settle_keeps_book m m1 order Hbook Hp Hs Hq1 E)
      as (Hb1 & Hp1 & Hs1 & Hqueue1).
    assert (Hp1' : 0 <= price m1) by (rewrite Hp1; exact Hp).
    assert (Hs1' : slippage_bps m1 <= 1) by (rewrite Hs1; exact Hs).
    destruct (IH m1 Hb1 Hp1' Hs1' Hq2) as (Hb2 & Hp2 & Hs2 & Hqueue2).
    split; [exact Hb2 |]. repeat split; congruence.
Qed.

Lemma after_orders_sound (k : nat) (m : MarketSimulator) :
  sound m -> sound (after_orders k m).
Proof.
  intros (Hbook & Hp & Hs & Hq). unfold after_orders.
  destruct (process_orders_keeps_book (take k (order_queue m)) (with_queue m []))
    as (Hb' & Hp' & Hs' & Hq'); try assumption.
  { now apply Forall_take. }
  unfold sound. rewrite Hp', Hs', Hq'. simpl.
  split; [exact Hb' |]. repeat split; auto.
Qed.

Lemma execute_orders_after (m : MarketSimulator) :
  order_queue m <> [] ->
  fst (execute_orders m) = after_orders (length (order_queue m)) m.
Proof.
  intros Hne. unfold execute_orders, after_orders.
  rewrite firstn_all. destruct (order_queue m); [congruence | reflexivity].
Qed.

Lemma apply_op_sound (m : MarketSimulator) (o : op) :
  sound m -> positive_bar o -> sound (fst (apply_op m o)).
Proof.
  intros Hm Ho. destruct o as [close | strategy_id side quantity |]; simpl.
  - destruct Hm as (Hbook & Hp & Hs & Hq).
    split; [exact Hbook |]. repeat split; auto. simpl in *. lra.
  - unfold submit_order. destruct (Z.ltb_spec 0 quantity) as [Hpos | _];
      [| exact Hm].
    destruct Hm as (Hbook & Hp & Hs & Hq).
    split; [exact Hbook |]. repeat split; auto. simpl.
    apply Forall_app. split; [exact Hq |]. now constructor.
  - destruct (order_queue m) as [| o rest] eqn:E.
    + unfold execute_orders. rewrite E. exact Hm.
    + rewrite execute_orders_after by congruence. now apply after_orders_sound.
Qed.

Lemma run_ops_sound (ops : list op) (m : MarketSimulator) :
  sound m -> Forall positive_bar ops -> sound (fst (run_ops ops m)).
Proof.
  revert m. induction ops as [| o rest IH]; intros m Hm Hops; simpl; [exact Hm |].
  inversion Hops as [| ? ? Ho Hrest]; subst.
  pose proof (apply_op_sound m o Hm Ho) as H1.
  destruct (apply_op m o) as [m1 [e |]]; simpl in *; [exact H1 |].
  now apply IH.
Qed.

(** The firm as its constructor leaves it. *)
Lemma PortfolioManager_init_solvent
    (firm_config : FirmConfig) (configs : strategy_configs) :
  (0 <= FIRM_CAPITAL firm_config)%Z ->
  map_Forall (fun _ s => solvent s)
             (strategies (PortfolioManager_init firm_config configs)).
Proof.
  intros Hcap. unfold PortfolioManager_init, _rebalance_capital.
  set (built := registered_strategies configs).
  simpl initial_capital. simpl strategies.
  assert (Hbuilt : map_Forall (fun _ s => solvent s) built).
  { unfold built, registered_strategies, register. simpl.
    destruct (cfg_Trend configs), (cfg_MeanReversion configs);
      repeat (apply map_Forall_insert_2; [split; simpl; [lra | lia] |]);
      apply map_Forall_empty. }
  destruct (decide (built = ∅)) as [_ | Hne]; simpl; [exact Hbuilt |].
  intros i s Hi. apply lookup_fmap_Some in Hi as (s0 & <- & _).
  split; simpl; [| lia].
  apply Qle_shift_div_l.
  - apply inject_Z_pos. apply map_size_non_empty_iff in Hne. lia.
  - rewrite Qmult_0_l. now apply inject_Z_nonneg.
Qed.

End Settlement.

(** ** Live settlement *)
Module LiveSettlement.
Import Citadel.

(** What reaches the coordinator during a session: a price of the first
    loop of [on_market_data], and a [submit_order] call. *)
Inductive op : Type :=
| PriceUpdate (symbol : string) (p : Q)
| Submit (strategy_id symbol side : string) (quantity : Z).

Definition apply_op (c : ChiefInvestmentOfficer) (o : op)
  : ChiefInvestmentOfficer * option exn :=
  match o with
  | PriceUpdate symbol p => (update_price c symbol p, None)
  | Submit strategy_id symbol side quantity =>
      submit_order c strategy_id symbol side quantity
  end.

Fixpoint run_ops (ops : list op) (c : ChiefInvestmentOfficer)
  : ChiefInvestmentOfficer * option exn :=
  match ops with
  | [] => (c, None)
  | o :: rest =>
      match apply_op c o with
      | (c', None) => run_ops rest c'
      | (c', Some e) => (c', Some e)
      end
  end.

Definition solvent (s : LiveStrategy) : Prop :=
  0 <= cash s /\ map_Forall (fun _ q => (0 <= q)%Z) (positions s).

Definition book_solvent (c : ChiefInvestmentOfficer) : Prop :=
  map_Forall (fun _ s => solvent s) (strategies c).

Lemma position_nonneg (s : LiveStrategy) (symbol : string) :
  solvent s -> (0 <= position s symbol)%Z.
Proof.
  intros [_ Hpos]. unfold position.
  destruct (positions s !! symbol) as [q |] eqn:E; simpl; [| lia].
  exact (Hpos _ _ E).
Qed.

Lemma submit_order_keeps_book
    (c : ChiefInvestmentOfficer) (strategy_id symbol side : string) (quantity : Z) :
  book_solvent c ->
  book_solvent (fst (submit_order c strategy_id symbol side quantity)).
Proof.
  intros Hbook. unfold submit_order.
  destruct (last_known_prices c !! symbol) as [p |]; [| exact Hbook].
  destruct (Qle_bool p 0) eqn:Hp; [exact Hbook |].
  apply Qle_bool_false in Hp.
  destruct (Z.leb_spec quantity 0) as [_ | Hq]; [exact Hbook |].
  destruct (is_trade_allowed _ _ _ _ _) as [allowed alerts'].
  destruct allowed; [| exact Hbook].
  simpl strategies.
  destruct (strategies c !! strategy_id) as [s |] eqn:Hs; [| exact Hbook].
  pose proof (Hbook _ _ Hs) as Hsolvent.
  pose proof (position_nonneg s symbol Hsolvent) as Hheld.
  destruct Hsolvent as [Hcash Hpositions].
  assert (Hvalue : 0 < inject_Z quantity * p).
  { apply Qmult_lt_0_compat; [now apply inject_Z_pos | exact Hp]. }
  destruct (String.eqb_spec side "buy") as [-> | Hnbuy]; simpl.
  - destruct (Qle_bool (inject_Z quantity * p) (cash s)) eqn:Hfunds; simpl;
      [| exact Hbook].
    apply Qle_bool_true in Hfunds.
    apply map_Forall_insert_2; [| exact Hbook].
    split; simpl; [lra |].
    apply map_Forall_insert_2; [lia | exact Hpositions].
  - destruct (String.eqb side "sell"); simpl; [| exact Hbook].
    destruct (Z.leb_spec quantity (position s symbol)) as [Hle | _]; simpl;
      [| exact Hbook].
    apply map_Forall_insert_2; [| exact Hbook].
    split; simpl; [lra |].
    apply map_Forall_insert_2; [lia | exact Hpositions].
Qed.

Lemma run_ops_keeps_book (ops : list op) (c : ChiefInvestmentOfficer) :
  book_solvent c -> book_solvent (fst (run_ops ops c)).
Proof.
  revert c. induction ops as [| o rest IH]; intros c Hc; simpl; [exact Hc |].
  assert (H1 : book_solvent (fst (apply_op c o))).
  { destruct o as [symbol p | strategy_id symbol side quantity]; simpl.
    - exact Hc.
    - now apply submit_order_keeps_book. }
  destruct (apply_op c o) as [c1 [e |]]; simpl in *; [exact H1 |].
  now apply IH.
Qed.

(** A fresh allocation keeps the positions read from the ledger and hands
    out a share of the capital that is not negative. *)
Lemma _rebalance_capital_solvent (c : ChiefInvestmentOfficer) :
  (0 <= initial_capital c)%Z ->
  map_Forall (fun _ s => map_Forall (fun _ q => (0 <= q)%Z) (positions s))
             (strategies c) ->
  map_Forall (fun _ s => 0 <= cash s) (strategies c) ->
  book_solvent (_rebalance_capital c).
Proof.
  intros Hcap Hpos Hcash. unfold _rebalance_capital, book_solvent.
  destruct (decide (strategies c = ∅)) as [_ | Hne]; simpl.
  - intros i s Hi. split; [exact (Hcash _ _ Hi) | exact (Hpos _ _ Hi)].
  - intros i s Hi. apply lookup_fmap_Some in Hi as (s0 & <- & Hi).
    split; simpl; [| exact (Hpos _ _ Hi)].
    apply Qle_shift_div_l.
    + apply inject_Z_pos. apply map_size_non_empty_iff in Hne. lia.
    + rewrite Qmult_0_l. now apply inject_Z_nonneg.
Qed.

End LiveSettlement.

(** ** Long only, no margin *)
Module Solvency.
Import Atlas.

(** The simulator a backtest starts from. *)
Definition fresh_simulator (firm_config : FirmConfig) (configs : strategy_configs)
  : MarketSimulator :=
  MarketSimulator_init firm_config (PortfolioManager_init firm_config configs).

Lemma fresh_simulator_sound
    (firm_config : FirmConfig) (configs : strategy_configs) :
  (0 <= FIRM_CAPITAL firm_config)%Z ->
  (SLIPPAGE_BPS firm_config <= 10000)%Z ->
  Settlement.sound (fresh_simulator firm_config configs).
Proof.
  intros Hcap Hslip. unfold Settlement.sound, fresh_simulator. simpl.
  split; [now apply Settlement.PortfolioManager_init_solvent |].
  split; [lra |]. split; [| constructor].
  apply Qle_shift_div_r; [reflexivity |].
  rewrite Qmult_1_l. change 10000 with (inject_Z 10000). now rewrite <- Zle_Qle.
Qed.

(** C1.  Backtest: start from the simulator the constructors build, with a
    capital that is not negative and a slippage of at most 10000 basis
    points; let any orders be submitted and executed, in any order and over
    any bars with a positive close.  Then in every state the simulator goes
    through, also between two orders of one [execute_orders] call, every
    strategy has [cash >= 0] and [shares >= 0].  Live: from a coordinator
    whose strategies all have [cash >= 0] and no negative position, every
    sequence of price updates and [submit_order] calls leaves every strategy
    with [cash >= 0] and every position [>= 0]. *)
Theorem long_only_no_margin
    (firm_config : FirmConfig) (configs : strategy_configs)
    (ops : list Settlement.op) (k : nat)
    (cio : Citadel.ChiefInvestmentOfficer) (live_ops : list LiveSettlement.op) :
  (0 <= FIRM_CAPITAL firm_config)%Z ->
  (SLIPPAGE_BPS firm_config <= 10000)%Z ->
  Forall Settlement.positive_bar ops ->
  (forall name s, Citadel.strategies cio !! name = Some s ->
     0 <= Citadel.cash s
     /\ forall symbol q, Citadel.positions s !! symbol = Some q -> (0 <= q)%Z) ->
  (forall name s,
     strategies
       (firm (Settlement.after_orders k
                (fst (Settlement.run_ops ops (fresh_simulator firm_config configs)))))
       !! name = Some s ->
     0 <= cash s /\ (0 <= shares s)%Z)
  /\ (forall name s,
        Citadel.strategies (fst (LiveSettlement.run_ops live_ops cio)) !! name
        = Some s ->
        0 <= Citadel.cash s
        /\ forall symbol, (0 <= Citadel.position s symbol)%Z).
Proof.
  intros Hcap Hslip Hops Hcio. split.
  - pose proof (fresh_simulator_sound firm_config configs Hcap Hslip) as H0.
    pose proof (Settlement.run_ops_sound ops _ H0 Hops) as H1.
    pose proof (Settlement.after_orders_sound k _ H1) as (Hbook & _).
    exact Hbook.
  - assert (Hstart : LiveSettlement.book_solvent cio).
    { intros name s Hs. destruct (Hcio name s Hs) as [Hc Hp]. split; [exact Hc |].
      intros symbol q Hq. exact (Hp symbol q Hq). }
    pose proof (LiveSettlement.run_ops_keeps_book live_ops cio Hstart) as Hend.
    intros name s Hs. pose proof (Hend name s Hs) as Hsolv.
    split; [exact (proj1 Hsolv) |].
    intros symbol. now apply LiveSettlement.position_nonneg.
Qed.

End Solvency.

(** ** Capital allocation *)
Module Allocation.
Import Atlas.

Lemma set_capital_twice (s : AtlasStrategy) (c : Q) :
  set_capital (set_capital s c) c = set_capital s c.
Proof. reflexivity. Qed.

Lemma _rebalance_capital_lookup (pm : PortfolioManager) (name : string) :
  strategies (_rebalance_capital pm) !! name
  = (fun s => set_capital s (inject_Z (initial_capital pm)
                             / inject_Z (Z.of_nat (size (strategies pm)))))
      <$> strategies pm !! name.
Proof.
  unfold _rebalance_capital.
  destruct (decide (strategies pm = ∅)) as [Hempty | _]; simpl.
  - rewrite Hempty, lookup_empty. reflexivity.
  - now rewrite lookup_fmap.
Qed.

Lemma _rebalance_capital_size (pm : PortfolioManager) :
  size (strategies (_rebalance_capital pm)) = size (strategies pm).
Proof.
  unfold _rebalance_capital.
  destruct (decide (strategies pm = ∅)); simpl; [reflexivity |].
  apply map_size_fmap.
Qed.

Lemma _rebalance_capital_initial_capital (pm : PortfolioManager) :
  initial_capital (_rebalance_capital pm) = initial_capital pm.
Proof.
  unfold _rebalance_capital. now destruct (decide (strategies pm = ∅)).
Qed.

Lemma _rebalance_capital_idempotent (pm : PortfolioManager) :
  _rebalance_capital (_rebalance_capital pm) = _rebalance_capital pm.
Proof.
  destruct (_rebalance_capital pm) as [cap strats] eqn:E.
  pose proof (_rebalance_capital_initial_capital pm) as Hcap.
  rewrite E in Hcap. simpl in Hcap.
  assert (Hstrats : strategies (_rebalance_capital (mkPortfolioManager cap strats))
                    = strats).
  { apply map_eq. intros name.
    rewrite _rebalance_capital_lookup. simpl.
    pose proof (_rebalance_capital_lookup pm name) as Hl.
    pose proof (_rebalance_capital_size pm) as Hsize.
    rewrite E in Hl, Hsize. simpl in Hl, Hsize.
    rewrite Hsize, Hcap, Hl.
    destruct (strategies pm !! name); reflexivity. }
  pose proof (_rebalance_capital_initial_capital (mkPortfolioManager cap strats))
    as Hcap'.
  destruct (_rebalance_capital (mkPortfolioManager cap strats)) as [cap' strats'].
  simpl in *. congruence.
Qed.

(** C9.  In the portfolio manager its constructor returns, every strategy
    holds [FIRM_CAPITAL / len(strategies)] in cash and no shares; and for
    every portfolio manager, allocating twice gives the state that
    allocating once gives. *)
Theorem equal_split_and_idempotent
    (firm_config : FirmConfig) (configs : strategy_configs)
    (pm : PortfolioManager) :
  (forall name s,
     strategies (PortfolioManager_init firm_config configs) !! name = Some s ->
     cash s = inject_Z (FIRM_CAPITAL firm_config)
              / inject_Z (Z.of_nat
                            (size (strategies
                                     (PortfolioManager_init firm_config configs))))
     /\ shares s = 0%Z)
  /\ _rebalance_capital (_rebalance_capital pm) = _rebalance_capital pm.
Proof.
  split; [| apply _rebalance_capital_idempotent].
  intros name s Hs. unfold PortfolioManager_init in *.
  rewrite _rebalance_capital_size. simpl strategies.
  rewrite _rebalance_capital_lookup in Hs. simpl in Hs.
  destruct (registered_strategies configs !! name) as [s0 |]; [| discriminate].
  simpl in Hs. injection Hs as <-. now split.
Qed.

End Allocation.

(** ** Round-trip matching *)
Module RoundTrips.
Import Atlas.
Import Analysis.

(** *** FIFO matching as the specification words it

    An open lot is a pair (quantity still open, buy price); the lots of a
    strategy are kept oldest first.  A sell takes from the oldest lot first,
    realizes [(sell_price - buy_price) * matched] on each match, and drops a
    lot whose remainder is negligible. *)
Definition lot : Type := (Q * Q)%type.

Fixpoint fifo_spec (sell_price sell_qty realized : Q) (lots : list lot)
  : Q * list lot :=
  match lots with
  | [] => (realized, [])
  | (buy_qty, buy_price) :: younger =>
      if Qlt_bool 0 sell_qty then
        let matched := Qmin sell_qty buy_qty in
        let realized' := realized + (sell_price - buy_price) * matched in
        if Qle_bool (buy_qty - matched) epsilon
        then fifo_spec sell_price (sell_qty - matched) realized' younger
        else (realized', (buy_qty - matched, buy_price) :: younger)
      else (realized, lots)
  end.

(** The lots of every strategy id, and the realized results so far. *)
Definition lots_of_id (book : gmap string (list lot)) (key : string) : list lot :=
  default [] (book !! key).

Fixpoint round_trips_spec (trades : list Trade)
    (book : gmap string (list lot)) (realized : list Q)
  : list Q * gmap string (list lot) :=
  match trades with
  | [] => (realized, book)
  | trade :: later =>
      if String.eqb (t_side trade) "buy" then
        round_trips_spec later
          (<[t_id trade :=
               lots_of_id book (t_id trade) ++ [(t_qty trade, t_price trade)]]> book)
          realized
      else if String.eqb (t_side trade) "sell" then
        let '(rt, remaining) :=
          fifo_spec (t_price trade) (t_qty trade) 0 (lots_of_id book (t_id trade)) in
        round_trips_spec later (<[t_id trade := remaining]> book)
          (if Qeq_bool rt 0 then realized else realized ++ [rt])
      else round_trips_spec later book realized
  end.

(** *** The lots a frame of the analyzer holds *)
Definition lot_of (store : list Trade) (j : nat) : lot :=
  match store !! j with
  | Some buy_trade => (t_qty buy_trade, t_price buy_trade)
  | None => (0, 0)
  end.

Definition lots_of (store : list Trade) (queue : list nat) : list lot :=
  map (lot_of store) queue.

Definition open_lots (st : frame) (key : string) : list lot :=
  lots_of (raw_trades st) (deque_of (open_buys st) key).

(** Everything of a trade but its quantity. *)
Definition same_but_qty (a b : Trade) : Prop :=
  t_id a = t_id b /\ t_side a = t_side b
  /\ t_price a = t_price b /\ t_cost a = t_cost b.

Lemma same_but_qty_refl (a : Trade) : same_but_qty a a.
Proof. now repeat split. Qed.

Lemma same_but_qty_trans (a b c : Trade) :
  same_but_qty a b -> same_but_qty b c -> same_but_qty a c.
Proof. unfold same_but_qty. intuition congruence. Qed.

Lemma lots_of_insert_fresh (store : list Trade) (queue : list nat)
    (j : nat) (t : Trade) :
  j ∉ queue -> lots_of (<[j := t]> store) queue = lots_of store queue.
Proof.
  intros Hj. unfold lots_of. apply map_ext_in. intros k Hk.
  unfold lot_of. rewrite list_lookup_insert_ne; [reflexivity |].
  intros ->. apply Hj. now apply list_elem_of_In.
Qed.

Lemma match_loop_exit (fuel : nat) (sell_price sell_qty rt_pnl : Q)
    (queue : list nat) (store : list Trade) :
  Qlt_bool 0 sell_qty = false ->
  match_loop (S fuel) sell_price sell_qty rt_pnl queue store
  = Some (rt_pnl, queue, store).
Proof.
  intros Hq. simpl. destruct queue; [reflexivity |]. now rewrite Hq.
Qed.

(** A buy that stays at the head of its deque has exhausted the sell. *)
Lemma kept_head_exhausts (sell_qty buy_qty : Q) :
  Qle_bool (buy_qty - Qmin sell_qty buy_qty) epsilon = false ->
  Qlt_bool 0 (sell_qty - Qmin sell_qty buy_qty) = false.
Proof.
  intros Hkept. apply Qle_bool_false in Hkept. apply Qlt_bool_false.
  unfold epsilon in Hkept.
  destruct (Q.min_spec sell_qty buy_qty) as [[_ Hmin] | [_ Hmin]];
    revert Hkept Hmin; generalize (Qmin sell_qty buy_qty); intros least ? ?; lra.
Qed.

(** The loop of the source computes [fifo_spec] on the lots its deque points
    to, pops only from the front of the deque, and writes to no trade
    outside the deque and to no field but ['qty']. *)
Lemma match_loop_refines (sell_price : Q) (queue : list nat) :
  forall (fuel : nat) (sell_qty rt_pnl : Q) (store : list Trade),
    NoDup queue ->
    Forall (fun j => (j < length store)%nat) queue ->
    (length queue < fuel)%nat ->
    exists queue' store',
      match_loop fuel sell_price sell_qty rt_pnl queue store
      = Some (fst (fifo_spec sell_price sell_qty rt_pnl (lots_of store queue)),
              queue', store')
      /\ lots_of store' queue'
         = snd (fifo_spec sell_price sell_qty rt_pnl (lots_of store queue))
      /\ length store' = length store
      /\ (exists consumed, queue = consumed ++ queue')
      /\ (forall j, j ∉ queue -> store' !! j = store !! j)
      /\ (forall j b, store !! j = Some b ->
            exists b', store' !! j = Some b' /\ same_but_qty b' b).
Proof.
  induction queue as [| i rest IH]; intros fuel sell_qty rt_pnl store Hnd Hvalid Hfuel.
  - destruct fuel as [| fuel]; [simpl in Hfuel; lia |].
    exists [], store. simpl. repeat split; eauto using same_but_qty_refl.
    now exists [].
  - destruct fuel as [| fuel]; [simpl in Hfuel; lia |].
    apply NoDup_cons in Hnd as [Hfresh Hnd].
    inversion Hvalid as [| ? ? Hi Hrest]; subst.
    destruct (lookup_lt_is_Some_2 store i Hi) as [buy_trade Hbuy].
    assert (Hlots : lots_of store (i :: rest)
                    = (t_qty buy_trade, t_price buy_trade) :: lots_of store rest).
    { unfold lots_of. simpl. unfold lot_of at 1. now rewrite Hbuy. }
    rewrite Hlots. simpl match_loop. simpl fifo_spec.
    destruct (Qlt_bool 0 sell_qty) eqn:Hopen.
    + rewrite Hbuy.
      set (matched := Qmin sell_qty (t_qty buy_trade)).
      set (store1 := <[i := set_qty buy_trade (t_qty buy_trade - matched)]> store).
      assert (Hlen1 : length store1 = length store) by apply length_insert.
      assert (Hlots1 : lots_of store1 rest = lots_of store rest)
        by now apply lots_of_insert_fresh.
      assert (Hhead : store1 !! i
                      = Some (set_qty buy_trade (t_qty buy_trade - matched)))
        by now apply list_lookup_insert_eq.
      assert (Hfields : forall j b, store !! j = Some b ->
                exists b', store1 !! j = Some b' /\ same_but_qty b' b).
      { intros j b Hj. destruct (decide (i = j)) as [<- | Hne].
        - exists (set_qty buy_trade (t_qty buy_trade - matched)).
          split; [exact Hhead |]. rewrite Hbuy in Hj. injection Hj as <-.
          now repeat split.
        - exists b. split; [| apply same_but_qty_refl].
          unfold store1. now rewrite list_lookup_insert_ne. }
      destruct (Qle_bool (t_qty buy_trade - matched) epsilon) eqn:Hdrop.
      * assert (Hvalid1 : Forall (fun j => (j < length store1)%nat) rest)
          by now rewrite Hlen1.
        assert (Hfuel1 : (length rest < fuel)%nat) by (simpl in Hfuel; lia).
        destruct (IH fuel (sell_qty - matched)
                     (rt_pnl + (sell_price - t_price buy_trade) * matched)
                     store1 Hnd Hvalid1 Hfuel1)
          as (queue' & store' & Hrun & Hl & Hlen & [consumed Hc] & Hout & Hf).
        rewrite Hlots1 in Hrun, Hl.
        exists queue', store'. repeat split.
        -- exact Hrun.
        -- exact Hl.
        -- congruence.
        -- exists (i :: consumed). simpl. now rewrite Hc.
        -- intros j Hj. apply not_elem_of_cons in Hj as [Hji Hjrest].
           rewrite (Hout j Hjrest). unfold store1.
           now rewrite list_lookup_insert_ne.
        -- intros j b Hj. destruct (Hfields j b Hj) as (b1 & Hb1 & Hs1).
           destruct (Hf j b1 Hb1) as (b' & Hb' & Hs').
           exists b'. split; [exact Hb' |]. now apply same_but_qty_trans with b1.
      * pose proof (kept_head_exhausts _ _ Hdrop) as Hdone.
        destruct fuel as [| fuel]; [simpl in Hfuel; lia |].
        rewrite (match_loop_exit fuel _ _ _ _ _ Hdone).
        exists (i :: rest), store1. repeat split.
        -- unfold lots_of. simpl. unfold lot_of at 1. rewrite Hhead. simpl.
           f_equal. exact Hlots1.
        -- exact Hlen1.
        -- now exists [].
        -- intros j Hj. apply not_elem_of_cons in Hj as [Hji _].
           unfold store1. now rewrite list_lookup_insert_ne.
        -- exact Hfields.
    + exists (i :: rest), store. repeat split; eauto using same_but_qty_refl.
      now exists [].
Qed.

(** *** The deques of a [defaultdict] *)

Lemma deque_of_touch (m : gmap string (list nat)) (key k : string) :
  deque_of (touch key m) k = deque_of m k.
Proof.
  unfold touch, deque_of. destruct (m !! key) eqn:E; [reflexivity |].
  destruct (decide (key = k)) as [<- | Hne].
  - now rewrite lookup_insert_eq, E.
  - now rewrite lookup_insert_ne.
Qed.

Lemma deque_of_insert (m : gmap string (list nat)) (key k : string)
    (queue : list nat) :
  deque_of (<[key := queue]> m) k
  = if decide (key = k) then queue else deque_of m k.
Proof.
  unfold deque_of. destruct (decide (key = k)) as [<- | Hne].
  - now rewrite lookup_insert_eq.
  - now rewrite lookup_insert_ne.
Qed.

Lemma lots_of_id_insert (book : gmap string (list lot)) (key k : string)
    (lots : list lot) :
  lots_of_id (<[key := lots]> book) k
  = if decide (key = k) then lots else lots_of_id book k.
Proof.
  unfold lots_of_id. destruct (decide (key = k)) as [<- | Hne].
  - now rewrite lookup_insert_eq.
  - now rewrite lookup_insert_ne.
Qed.

(** *** A frame of the analyzer against the specification

    After [n] trades of the log [trades]: the frame holds the results and
    the lots the specification holds; a deque holds each position once, only
    positions of trades already visited, and only trades of its own key;
    the trades not yet visited are as they were recorded. *)
Record agrees (trades : list Trade) (n : nat) (st : frame)
    (book : gmap string (list lot)) (realized : list Q) : Prop := mkAgrees {
  ag_pnl : pnl_list st = realized;
  ag_lots : forall key, open_lots st key = lots_of_id book key;
  ag_nodup : forall key, NoDup (deque_of (open_buys st) key);
  ag_owned : forall key j,
    j ∈ deque_of (open_buys st) key ->
    (j < n)%nat
    /\ exists b, raw_trades st !! j = Some b /\ t_id b = key;
  ag_len : length (raw_trades st) = length trades;
  ag_rest : forall j, (n <= j)%nat -> raw_trades st !! j = trades !! j;
  ag_fields : forall j t,
    trades !! j = Some t ->
    exists t', raw_trades st !! j = Some t' /\ same_but_qty t' t
}.

Lemma agrees_start (trades : list Trade) :
  agrees trades 0 (mkFrame [] ∅ trades) ∅ [].
Proof.
  split; simpl; try reflexivity.
  - intros key. unfold deque_of. rewrite lookup_empty. constructor.
  - intros key j Hj. unfold deque_of in Hj. rewrite lookup_empty in Hj.
    simpl in Hj. now apply not_elem_of_nil in Hj.
  - intros j t Hj. exists t. split; [exact Hj | apply same_but_qty_refl].
Qed.

(** One step of the specification. *)
Definition spec_step (trade : Trade) (book : gmap string (list lot))
    (realized : list Q) : list Q * gmap string (list lot) :=
  if String.eqb (t_side trade) "buy" then
    (realized,
     <[t_id trade :=
         lots_of_id book (t_id trade) ++ [(t_qty trade, t_price trade)]]> book)
  else if String.eqb (t_side trade) "sell" then
    let '(rt, remaining) :=
      fifo_spec (t_price trade) (t_qty trade) 0 (lots_of_id book (t_id trade)) in
    (if Qeq_bool rt 0 then realized else realized ++ [rt],
     <[t_id trade := remaining]> book)
  else (realized, book).

Lemma round_trips_spec_step (trade : Trade) (later : list Trade)
    (book : gmap string (list lot)) (realized : list Q) :
  round_trips_spec (trade :: later) book realized
  = round_trips_spec later (snd (spec_step trade book realized))
                     (fst (spec_step trade book realized)).
Proof.
  unfold spec_step. simpl.
  destruct (String.eqb (t_side trade) "buy"); [reflexivity |].
  destruct (String.eqb (t_side trade) "sell"); [| reflexivity].
  now destruct (fifo_spec _ _ _ _).
Qed.

Lemma visit_buy (trades : list Trade) (n : nat) (st : frame)
    (book : gmap string (list lot)) (realized : list Q) (trade : Trade) :
  agrees trades n st book realized ->
  trades !! n = Some trade ->
  t_side trade = "buy"%string ->
  exists st',
    visit st n = Some st'
    /\ agrees trades (S n) st'
         (<[t_id trade :=
              lots_of_id book (t_id trade) ++ [(t_qty trade, t_price trade)]]> book)
         realized.
Proof.
  intros Hag Hn Hside.
  assert (Hcur : raw_trades st !! n = Some trade)
    by (rewrite (ag_rest _ _ _ _ _ Hag n); [exact Hn | lia]).
  unfold visit. rewrite Hcur, Hside. simpl String.eqb. cbv iota.
  eexists. split; [reflexivity |].
  rewrite deque_of_touch.
  split; simpl.
  - exact (ag_pnl _ _ _ _ _ Hag).
  - intros key. unfold open_lots. simpl.
    rewrite deque_of_insert, lots_of_id_insert, deque_of_touch.
    destruct (decide (t_id trade = key)) as [<- | _].
    + unfold lots_of. rewrite map_app. simpl.
      f_equal; [exact (ag_lots _ _ _ _ _ Hag (t_id trade)) |].
      unfold lot_of. now rewrite Hcur.
    + exact (ag_lots _ _ _ _ _ Hag key).
  - intros key. rewrite deque_of_insert, deque_of_touch.
    destruct (decide (t_id trade = key)) as [<- | _];
      [| exact (ag_nodup _ _ _ _ _ Hag key)].
    apply NoDup_app. split; [exact (ag_nodup _ _ _ _ _ Hag _) |].
    split; [| apply NoDup_singleton].
    intros j Hj Hjn. apply list_elem_of_singleton in Hjn as ->.
    destruct (ag_owned _ _ _ _ _ Hag _ _ Hj) as [Hlt _]. lia.
  - intros key j. rewrite deque_of_insert, deque_of_touch.
    destruct (decide (t_id trade = key)) as [<- | _].
    + intros Hj. apply elem_of_app in Hj as [Hj | Hj].
      * destruct (ag_owned _ _ _ _ _ Hag _ _ Hj) as [Hlt Hb]. split; [lia | exact Hb].
      * apply list_elem_of_singleton in Hj as ->. split; [lia |].
        exists trade. now split.
    + intros Hj. destruct (ag_owned _ _ _ _ _ Hag _ _ Hj) as [Hlt Hb].
      split; [lia | exact Hb].
  - exact (ag_len _ _ _ _ _ Hag).
  - intros j Hj. apply (ag_rest _ _ _ _ _ Hag). lia.
  - exact (ag_fields _ _ _ _ _ Hag).
Qed.

Lemma visit_other (trades : list Trade) (n : nat) (st : frame)
    (book : gmap string (list lot)) (realized : list Q) (trade : Trade) :
  agrees trades n st book realized ->
  trades !! n = Some trade ->
  t_side trade <> "buy"%string ->
  t_side trade <> "sell"%string ->
  visit st n = Some st /\ agrees trades (S n) st book realized.
Proof.
  intros Hag Hn Hnb Hns.
  assert (Hcur : raw_trades st !! n = Some trade)
    by (rewrite (ag_rest _ _ _ _ _ Hag n); [exact Hn | lia]).
  unfold visit. rewrite Hcur.
  destruct (String.eqb_spec (t_side trade) "buy"); [congruence |].
  destruct (String.eqb_spec (t_side trade) "sell"); [congruence |].
  split; [reflexivity |].
  destruct Hag as [H1 H2 H3 H4 H5 H6 H7]. split; auto.
  - intros key j Hj. destruct (H4 key j Hj) as [Hlt Hb]. split; [lia | exact Hb].
  - intros j Hj. apply H6. lia.
Qed.

Lemma owned_apart (trades : list Trade) (n : nat) (st : frame)
    (book : gmap string (list lot)) (realized : list Q) (key key' : string)
    (j : nat) :
  agrees trades n st book realized ->
  key <> key' ->
  j ∈ deque_of (open_buys st) key ->
  j ∉ deque_of (open_buys st) key'.
Proof.
  intros Hag Hne Hj Hj'.
  destruct (ag_owned _ _ _ _ _ Hag _ _ Hj) as (_ & b & Hb & Hkey).
  destruct (ag_owned _ _ _ _ _ Hag _ _ Hj') as (_ & b' & Hb' & Hkey').
  congruence.
Qed.

Lemma visit_sell (trades : list Trade) (n : nat) (st : frame)
    (book : gmap string (list lot)) (realized : list Q) (trade : Trade) :
  agrees trades n st book realized ->
  trades !! n = Some trade ->
  t_side trade = "sell"%string ->
  let spec :=
    fifo_spec (t_price trade) (t_qty trade) 0 (lots_of_id book (t_id trade)) in
  exists st',
    visit st n = Some st'
    /\ agrees trades (S n) st' (<[t_id trade := snd spec]> book)
         (if Qeq_bool (fst spec) 0 then realized else realized ++ [fst spec]).
Proof.
  intros Hag Hn Hside spec.
  assert (Hcur : raw_trades st !! n = Some trade)
    by (rewrite (ag_rest _ _ _ _ _ Hag n); [exact Hn | lia]).
  pose proof (ag_lots _ _ _ _ _ Hag (t_id trade)) as Hlots.
  unfold open_lots in Hlots.
  unfold visit. rewrite Hcur, Hside. simpl String.eqb. cbv iota.
  rewrite deque_of_touch.
  destruct (deque_of (open_buys st) (t_id trade)) as [| i rest] eqn:Hq.
  - (* no open buy: the sell is skipped *)
    simpl in Hlots. unfold spec. rewrite <- Hlots. simpl.
    eexists. split; [reflexivity |].
    split; simpl.
    + exact (ag_pnl _ _ _ _ _ Hag).
    + intros key. unfold open_lots. simpl.
      rewrite deque_of_touch, lots_of_id_insert.
      destruct (decide (t_id trade = key)) as [<- | _].
      * now rewrite Hq.
      * exact (ag_lots _ _ _ _ _ Hag key).
    + intros key. rewrite deque_of_touch. exact (ag_nodup _ _ _ _ _ Hag key).
    + intros key j. rewrite deque_of_touch. intros Hj.
      destruct (ag_owned _ _ _ _ _ Hag _ _ Hj) as [Hlt Hb]. split; [lia | exact Hb].
    + exact (ag_len _ _ _ _ _ Hag).
    + intros j Hj. apply (ag_rest _ _ _ _ _ Hag). lia.
    + exact (ag_fields _ _ _ _ _ Hag).
  - (* open buys: the loop runs *)
    set (queue := i :: rest) in *.
    assert (Hnd : NoDup queue).
    { pose proof (ag_nodup _ _ _ _ _ Hag (t_id trade)) as H. now rewrite Hq in H. }
    assert (Hin : forall j, j ∈ queue ->
              (j < n)%nat /\ exists b, raw_trades st !! j = Some b
                                       /\ t_id b = t_id trade).
    { intros j Hj. apply (ag_owned _ _ _ _ _ Hag). now rewrite Hq. }
    assert (Hvalid : Forall (fun j => (j < length (raw_trades st))%nat) queue).
    { apply Forall_forall. intros j Hj.
      destruct (Hin j Hj) as (_ & b & Hb & _). now apply lookup_lt_Some in Hb. }
    destruct (match_loop_refines (t_price trade) queue (S (length queue))
                (t_qty trade) 0 (raw_trades st) Hnd Hvalid (Nat.lt_succ_diag_r _))
      as (queue' & store' & Hrun & Hl & Hlen & [consumed Hc] & Hout & Hf).
    rewrite Hlots in Hrun, Hl. fold spec in Hrun, Hl.
    rewrite Hrun.
    eexists. split; [reflexivity |].
    assert (Hsub : forall j, j ∈ queue' -> j ∈ queue).
    { intros j Hj. rewrite Hc. apply elem_of_app. now right. }
    split; simpl.
    + now rewrite (ag_pnl _ _ _ _ _ Hag).
    + intros key. unfold open_lots. simpl.
      rewrite deque_of_insert, deque_of_touch, lots_of_id_insert.
      destruct (decide (t_id trade = key)) as [<- | Hne]; [exact Hl |].
      rewrite <- (ag_lots _ _ _ _ _ Hag key). unfold open_lots, lots_of.
      apply map_ext_in. intros j Hj. apply list_elem_of_In in Hj.
      unfold lot_of. rewrite Hout; [reflexivity |].
      rewrite <- Hq.
      apply (owned_apart _ _ _ _ _ key (t_id trade) j Hag); [congruence | exact Hj].
    + intros key. rewrite deque_of_insert, deque_of_touch.
      destruct (decide (t_id trade = key)) as [<- | _];
        [| exact (ag_nodup _ _ _ _ _ Hag key)].
      rewrite Hc in Hnd. now apply NoDup_app in Hnd as (_ & _ & Hnd).
    + intros key j. rewrite deque_of_insert, deque_of_touch.
      destruct (decide (t_id trade = key)) as [<- | _]; intros Hj.
      * destruct (Hin j (Hsub j Hj)) as (Hlt & b & Hb & Hkey).
        split; [lia |].
        destruct (Hf j b Hb) as (b' & Hb' & Hsame).
        exists b'. split; [exact Hb' |]. destruct Hsame as [Hid _]. congruence.
      * destruct (ag_owned _ _ _ _ _ Hag _ _ Hj) as (Hlt & b & Hb & Hkey).
        split; [lia |].
        destruct (Hf j b Hb) as (b' & Hb' & Hsame).
        exists b'. split; [exact Hb' |]. destruct Hsame as [Hid _]. congruence.
    + rewrite Hlen. exact (ag_len _ _ _ _ _ Hag).
    + intros j Hj. rewrite Hout; [apply (ag_rest _ _ _ _ _ Hag); lia |].
      intros Hjq. destruct (Hin j Hjq) as [Hlt _]. lia.
    + intros j t Hj.
      destruct (ag_fields _ _ _ _ _ Hag j t Hj) as (t1 & Ht1 & Hs1).
      destruct (Hf j t1 Ht1) as (t' & Ht' & Hs').
      exists t'. split; [exact Ht' |]. now apply same_but_qty_trans with t1.
Qed.

Lemma visit_refines (trades : list Trade) (n : nat) (st : frame)
    (book : gmap string (list lot)) (realized : list Q) (trade : Trade) :
  agrees trades n st book realized ->
  trades !! n = Some trade ->
  exists st',
    visit st n = Some st'
    /\ agrees trades (S n) st' (snd (spec_step trade book realized))
                                (fst (spec_step trade book realized)).
Proof.
  intros Hag Hn. unfold spec_step.
  destruct (String.eqb_spec (t_side trade) "buy") as [Hbuy | Hnbuy].
  - simpl. now apply visit_buy.
  - destruct (String.eqb_spec (t_side trade) "sell") as [Hsell | Hnsell].
    + destruct (visit_sell trades n st book realized trade Hag Hn Hsell)
        as (st' & Hv & Hag').
      exists st'. split; [exact Hv |].
      destruct (fifo_spec _ _ _ _) as [rt remaining]. exact Hag'.
    + exists st. now apply visit_other with trade.
Qed.

Lemma visit_all_refines (later : list Trade) :
  forall (earlier : list Trade) (st : frame)
         (book : gmap string (list lot)) (realized : list Q),
    agrees (earlier ++ later) (length earlier) st book realized ->
    exists st',
      visit_all (seq (length earlier) (length later)) st = Some st'
      /\ agrees (earlier ++ later) (length (earlier ++ later)) st'
           (snd (round_trips_spec later book realized))
           (fst (round_trips_spec later book realized)).
Proof.
  induction later as [| trade later IH]; intros earlier st book realized Hag.
  - exists st. simpl. split; [reflexivity |]. now rewrite app_nil_r in *.
  - assert (Hn : (earlier ++ trade :: later) !! length earlier = Some trade).
    { rewrite lookup_app_r by lia. now rewrite Nat.sub_diag. }
    destruct (visit_refines _ _ _ _ _ _ Hag Hn) as (st1 & Hv & Hag1).
    simpl seq. simpl visit_all. rewrite Hv.
    rewrite round_trips_spec_step.
    assert (Heq : earlier ++ trade :: later = (earlier ++ [trade]) ++ later)
      by now rewrite <- app_assoc.
    assert (Hlen : S (length earlier) = length (earlier ++ [trade]))
      by (rewrite length_app; simpl; lia).
    rewrite Heq in *. rewrite Hlen in *.
    exact (IH (earlier ++ [trade]) st1 _ _ Hag1).
Qed.

(** The analyzer returns, and what it returns is what the specification
    computes: the realized results, and for every strategy id the lots that
    are still open. *)
Lemma analyze_refines (trades : list Trade) :
  exists st,
    analyze trades = Some st
    /\ agrees trades (length trades) st
         (snd (round_trips_spec trades ∅ []))
         (fst (round_trips_spec trades ∅ [])).
Proof.
  exact (visit_all_refines trades [] _ _ _ (agrees_start trades)).
Qed.

(** *** The scenario of the specification *)
Definition scenario_log : list Trade :=
  [ mkTrade "Trend" "buy" 10 100 0;
    mkTrade "Trend" "buy" 5 110 0;
    mkTrade "Trend" "sell" 12 120 0 ].

(** C3.  [calculate_round_trip_pnl] returns on every trade log, and
    returns what FIFO matching per strategy id computes: its list of
    realized results is the list of [round_trips_spec], and for every
    strategy id the buys left in its deque, read oldest first with the
    quantity they still carry, are the open lots of [round_trips_spec].
    There a sell takes from the oldest open lot of its own id first, adds
    [(sell_price - buy_price) * matched] per match, and drops a lot whose
    remainder is at most [epsilon], so every lot with a remainder below
    [epsilon] is dropped.  On the log
    [buy 10 @ 100, buy 5 @ 110, sell 12 @ 120] of one strategy the result is
    [[220]], and one buy is left open: 3 at 110. *)
Theorem round_trip_pnl_is_fifo :
  (forall trades : list Trade,
     exists st,
       analyze trades = Some st
       /\ calculate_round_trip_pnl trades
          = Some (fst (round_trips_spec trades ∅ []), raw_trades st)
       /\ forall key,
            open_lots st key = lots_of_id (snd (round_trips_spec trades ∅ [])) key)
  /\ (forall (sell_price sell_qty realized buy_qty buy_price : Q) (younger : list lot),
        0 < sell_qty ->
        let matched := Qmin sell_qty buy_qty in
        let realized' := realized + (sell_price - buy_price) * matched in
        (buy_qty - matched < epsilon ->
         fifo_spec sell_price sell_qty realized ((buy_qty, buy_price) :: younger)
         = fifo_spec sell_price (sell_qty - matched) realized' younger)
        /\ (epsilon < buy_qty - matched ->
            fifo_spec sell_price sell_qty realized ((buy_qty, buy_price) :: younger)
            = (realized', (buy_qty - matched, buy_price) :: younger)))
  /\ (exists st,
        analyze scenario_log = Some st
        /\ fst <$> calculate_round_trip_pnl scenario_log = Some [220]
        /\ open_lots st "Trend" = [(3, 110)]
        /\ forall key, key <> "Trend"%string -> open_lots st key = []).
Proof.
  split; [| split].
  - intros trades. destruct (analyze_refines trades) as (st & Han & Hag).
    exists st. split; [exact Han |]. split.
    + unfold calculate_round_trip_pnl. rewrite Han.
      now rewrite (ag_pnl _ _ _ _ _ Hag).
    + exact (ag_lots _ _ _ _ _ Hag).
  - intros sell_price sell_qty realized buy_qty buy_price younger Hopen matched realized'.
    apply Qlt_bool_true in Hopen.
    split; intros Hrem; simpl; rewrite Hopen; fold matched.
    + assert (Hdrop : Qle_bool (buy_qty - matched) epsilon = true)
        by (apply Qle_bool_true; lra).
      now rewrite Hdrop.
    + assert (Hkeep : Qle_bool (buy_qty - matched) epsilon = false)
        by now apply Qle_bool_false.
      now rewrite Hkeep.
  - destruct (analyze_refines scenario_log) as (st & Han & Hag).
    exists st. split; [exact Han |]. split; [| split].
    + unfold calculate_round_trip_pnl. rewrite Han. simpl.
      now rewrite (ag_pnl _ _ _ _ _ Hag).
    + now rewrite (ag_lots _ _ _ _ _ Hag).
    + intros key Hkey. rewrite (ag_lots _ _ _ _ _ Hag).
      assert (Hbook : snd (round_trips_spec scenario_log ∅ [])
                      = <["Trend"%string := [(3, 110)]]> ∅)
        by (vm_compute; reflexivity).
      rewrite Hbook, lots_of_id_insert.
      destruct (decide ("Trend"%string = key)) as [<- | _]; [congruence |].
      reflexivity.
Qed.

(** *** Entries of the result *)

Lemma visit_pnl (st st' : frame) (n : nat) :
  visit st n = Some st' ->
  pnl_list st' = pnl_list st
  \/ exists rt, ~ rt == 0 /\ pnl_list st' = pnl_list st ++ [rt].
Proof.
  unfold visit. destruct (raw_trades st !! n) as [trade |]; [| discriminate].
  destruct (String.eqb (t_side trade) "buy").
  { intros [= <-]. now left. }
  destruct (String.eqb (t_side trade) "sell"); [| intros [= <-]; now left].
  destruct (deque_of _ _) as [| i rest].
  { intros [= <-]. now left. }
  destruct (match_loop _ _ _ _ _ _) as [[[rt queue'] store'] |]; [| discriminate].
  intros [= <-]. simpl.
  destruct (Qeq_bool rt 0) eqn:E; [now left |].
  right. exists rt. split; [| reflexivity].
  intros Hrt. apply Qeq_bool_iff in Hrt. congruence.
Qed.

Lemma visit_all_pnl (positions : list nat) :
  forall st st',
    visit_all positions st = Some st' ->
    Forall (fun p => ~ p == 0) (pnl_list st) ->
    Forall (fun p => ~ p == 0) (pnl_list st').
Proof.
  induction positions as [| n rest IH]; intros st st' Hrun Hall; simpl in Hrun.
  - now injection Hrun as <-.
  - destruct (visit st n) as [st1 |] eqn:Hv; [| discriminate].
    apply (IH st1 st' Hrun).
    destruct (visit_pnl st st1 n Hv) as [-> | (rt & Hrt & ->)]; [exact Hall |].
    apply Forall_app. split; [exact Hall | now constructor].
Qed.

Definition break_even_log : list Trade :=
  [ mkTrade "Trend" "buy" 10 100 0; mkTrade "Trend" "sell" 10 100 0 ].

(** C10.  Visiting a sell: when its strategy id has no open buy the sell is
    skipped, with the results, the trade log and every deque as they were;
    otherwise the matched result [rt_pnl] is appended exactly when it is not
    zero.  So no entry of a returned list is zero, and the break-even round
    trip [buy 10 @ 100, sell 10 @ 100] returns the empty list. *)
Theorem zero_results_and_unmatched_sells_leave_no_entry
    (st : frame) (n : nat) (trade : Trade) :
  raw_trades st !! n = Some trade ->
  t_side trade = "sell"%string ->
  (deque_of (open_buys st) (t_id trade) = [] ->
   exists st',
     visit st n = Some st'
     /\ pnl_list st' = pnl_list st
     /\ raw_trades st' = raw_trades st
     /\ forall key, deque_of (open_buys st') key = deque_of (open_buys st) key)
  /\ (forall rt_pnl queue' store',
        deque_of (open_buys st) (t_id trade) <> [] ->
        match_loop (S (length (deque_of (open_buys st) (t_id trade))))
                   (t_price trade) (t_qty trade) 0
                   (deque_of (open_buys st) (t_id trade)) (raw_trades st)
        = Some (rt_pnl, queue', store') ->
        exists st',
          visit st n = Some st'
          /\ (rt_pnl == 0 -> pnl_list st' = pnl_list st)
          /\ (~ rt_pnl == 0 -> pnl_list st' = pnl_list st ++ [rt_pnl]))
  /\ (forall trades,
        exists pnl log,
          calculate_round_trip_pnl trades = Some (pnl, log)
          /\ Forall (fun p => ~ p == 0) pnl)
  /\ fst <$> calculate_round_trip_pnl break_even_log = Some [].
Proof.
  intros Hcur Hside. split; [| split; [| split]].
  - intros Hempty. unfold visit. rewrite Hcur, Hside. simpl String.eqb. cbv iota.
    rewrite deque_of_touch, Hempty.
    eexists. split; [reflexivity |]. simpl. repeat split.
    intros key. apply deque_of_touch.
  - intros rt_pnl queue' store' Hopen Hloop.
    unfold visit. rewrite Hcur, Hside. simpl String.eqb. cbv iota.
    rewrite deque_of_touch.
    destruct (deque_of (open_buys st) (t_id trade)) as [| i rest] eqn:Hq;
      [congruence |].
    rewrite Hloop. eexists. split; [reflexivity |]. simpl.
    destruct (Qeq_bool rt_pnl 0) eqn:E.
    + apply Qeq_bool_iff in E. split; [reflexivity | intros Hne; contradiction].
    + split; [| reflexivity].
      intros Hz. apply Qeq_bool_iff in Hz. congruence.
  - intros trades. destruct (analyze_refines trades) as (st0 & Han & _).
    unfold calculate_round_trip_pnl. rewrite Han.
    exists (pnl_list st0), (raw_trades st0). split; [reflexivity |].
    apply (visit_all_pnl _ _ _ Han). constructor.
  - reflexivity.
Qed.

(** *** What the analyzer does to the log it is given *)

(** The analyzer changes no field of a recorded fill but its quantity. *)
Lemma analyzer_keeps_other_fields (trades : list Trade) :
  exists pnl log,
    calculate_round_trip_pnl trades = Some (pnl, log)
    /\ length log = length trades
    /\ forall j t, trades !! j = Some t ->
         exists t', log !! j = Some t' /\ same_but_qty t' t.
Proof.
  destruct (analyze_refines trades) as (st & Han & Hag).
  unfold calculate_round_trip_pnl. rewrite Han.
  exists (pnl_list st), (raw_trades st). split; [reflexivity |]. split.
  - exact (ag_len _ _ _ _ _ Hag).
  - exact (ag_fields _ _ _ _ _ Hag).
Qed.

(** Settlement appends to the trade log and rewrites none of its fills. *)
Lemma settle_appends_only (m m' : MarketSimulator) (order : Order) :
  settle m order = inr m' ->
  exists fills, trade_log m' = trade_log m ++ fills.
Proof.
  unfold settle. destruct (strategies (firm m) !! o_id order); [| discriminate].
  destruct (String.eqb (o_side order) "buy").
  { destruct (Qle_bool _ _); intros [= <-]; simpl;
      [now eexists | exists []; now rewrite app_nil_r]. }
  destruct (String.eqb (o_side order) "sell");
    [| intros [= <-]; exists []; now rewrite app_nil_r].
  destruct (_ <=? _)%Z; intros [= <-]; simpl;
    [now eexists | exists []; now rewrite app_nil_r].
Qed.

(** A backtest that buys 10 shares at a close of 100 and sells 4 of them at
    a close of 120. *)
Definition two_fill_session : list Settlement.op :=
  [ Settlement.NewBar 100; Settlement.Submit "Trend" "buy" 10; Settlement.Execute;
    Settlement.NewBar 120; Settlement.Submit "Trend" "sell" 4; Settlement.Execute ].

Definition two_fill_log : list Trade :=
  trade_log
    (fst (Settlement.run_ops two_fill_session
            (Solvency.fresh_simulator FirmConfig_default
               (mkStrategyConfigs (Some StrategyConfig.TrendFollowing_default)
                                  None)))).

(** C7, at the failing input.  The simulator records a buy of 10 and a
    sale of 4.  One call of [calculate_round_trip_pnl] on that log leaves
    the recorded buy with a quantity of 6, a second call with a quantity of
    2, and a third call returns a different result for the same sale. *)
Theorem analyzer_rewrites_recorded_quantity :
  t_qty <$> two_fill_log !! 0%nat = Some 10
  /\ exists pnl1 log1 pnl2 log2 pnl3 log3,
       calculate_round_trip_pnl two_fill_log = Some (pnl1, log1)
       /\ t_qty <$> log1 !! 0%nat = Some 6
       /\ calculate_round_trip_pnl log1 = Some (pnl2, log2)
       /\ t_qty <$> log2 !! 0%nat = Some 2
       /\ calculate_round_trip_pnl log2 = Some (pnl3, log3)
       /\ Forall2 Qeq pnl1 [79.12]
       /\ Forall2 Qeq pnl2 [79.12]
       /\ Forall2 Qeq pnl3 [39.56].
Proof.
  split; [reflexivity |].
  destruct (calculate_round_trip_pnl two_fill_log) as [[pnl1 log1] |] eqn:E1;
    [| vm_compute in E1; discriminate].
  destruct (calculate_round_trip_pnl log1) as [[pnl2 log2] |] eqn:E2;
    [| vm_compute in E1; injection E1 as <- <-; vm_compute in E2; discriminate].
  destruct (calculate_round_trip_pnl log2) as [[pnl3 log3] |] eqn:E3;
    [| vm_compute in E1; injection E1 as <- <-; vm_compute in E2;
       injection E2 as <- <-; vm_compute in E3; discriminate].
  exists pnl1, log1, pnl2, log2, pnl3, log3.
  vm_compute in E1. injection E1 as <- <-.
  vm_compute in E2. injection E2 as <- <-.
  vm_compute in E3. injection E3 as <- <-.
  repeat split; repeat constructor.
Qed.

End RoundTrips.

(** ** The Sharpe ratio *)
Module Sharpe.
Import Analysis.

Section WithNumLib.
Context `{NumLib}.

Lemma annualized_volatility_nonneg (self : PerformanceAnalyzer) :
  0 <= annualized_volatility self.
Proof.
  unfold annualized_volatility.
  apply Qmult_le_0_compat; [apply series_std_nonneg | apply np_sqrt_nonneg].
Qed.

(** C6.  The ['sharpe'] entry of [calculate_metrics].  With the annualized
    return [returns.mean() * 252] and the annualized volatility
    [returns.std() * np.sqrt(252)]: the entry is 0 when the return series
    has fewer than two observations or the annualized volatility is zero,
    and in every other case it is the annualized return less the risk-free
    rate, divided by the annualized volatility.  The volatility is then
    positive, so the ratio is positive exactly when the annualized return
    exceeds the risk-free rate, and zero exactly when they are equal. *)
Theorem sharpe_ratio_cases (self : PerformanceAnalyzer) :
  let annualized_return := series_mean (returns self) * 252 in
  let volatility := series_std (returns self) * np_sqrt 252 in
  ((length (returns self) < 2)%nat \/ volatility == 0 ->
   calculate_metrics_sharpe self = 0)
  /\ (~ ((length (returns self) < 2)%nat \/ volatility == 0) ->
      calculate_metrics_sharpe self
      = (annualized_return - risk_free_rate self) / volatility
      /\ 0 < volatility
      /\ (0 < calculate_metrics_sharpe self
          <-> risk_free_rate self < annualized_return)
      /\ (calculate_metrics_sharpe self == 0
          <-> annualized_return == risk_free_rate self)).
Proof.
  cbv zeta. split.
  - unfold calculate_metrics_sharpe.
    intros [Hshort | Hflat].
    + apply Nat.ltb_lt in Hshort. now rewrite Hshort.
    + destruct (length (returns self) <? 2)%nat; [reflexivity |].
      assert (Hnot : Qlt_bool 0 (annualized_volatility self) = false)
        by (apply Qlt_bool_false; unfold annualized_volatility; lra).
      now rewrite Hnot.
  - intros Hnot.
    assert (Hpos : 0 < series_std (returns self) * np_sqrt 252).
    { pose proof (annualized_volatility_nonneg self) as Hge.
      unfold annualized_volatility in Hge.
      destruct (Qlt_le_dec 0 (series_std (returns self) * np_sqrt 252))
        as [Hlt | Hle]; [exact Hlt |].
      exfalso. apply Hnot. right. lra. }
    assert (Hvalue : calculate_metrics_sharpe self
                     = (series_mean (returns self) * 252 - risk_free_rate self)
                       / (series_std (returns self) * np_sqrt 252)).
    { unfold calculate_metrics_sharpe.
      destruct (Nat.ltb_spec (length (returns self)) 2) as [Hshort | _];
        [exfalso; apply Hnot; now left |].
      assert (Hgate : Qlt_bool 0 (annualized_volatility self) = true)
        by (apply Qlt_bool_true; exact Hpos).
      rewrite Hgate. reflexivity. }
    split; [exact Hvalue |]. split; [exact Hpos |].
    rewrite Hvalue.
    set (excess := series_mean (returns self) * 252 - risk_free_rate self).
    set (vol := series_std (returns self) * np_sqrt 252) in *.
    assert (Hinv : 0 < / vol) by now apply Qinv_lt_0_compat.
    unfold Qdiv. split; split.
    + intros Hratio.
      destruct (Qlt_le_dec 0 excess) as [Hlt | Hle]; [unfold excess in Hlt; lra |].
      exfalso.
      assert (Hneg : excess * / vol <= 0 * / vol)
        by (apply Qmult_le_compat_r; [exact Hle | lra]).
      lra.
    + intros Hgt. apply Qmult_lt_0_compat; [unfold excess; lra | exact Hinv].
    + intros Hzero.
      assert (Hexcess : excess == excess * / vol * vol)
        by (field; intros Hv; rewrite Hv in Hpos; now apply (Qlt_irrefl 0)).
      rewrite Hzero in Hexcess. unfold excess in Hexcess. lra.
    + intros Heq.
      assert (Hexcess : excess == 0) by (unfold excess; lra).
      rewrite Hexcess. ring.
Qed.

End WithNumLib.
End Sharpe.

(** ** Warm-up and flat volatility *)
Module WarmUp.
Import Atlas.

(** The history a strategy asks for before it decides. *)
Definition warm_up_window (c : AtlasClass) : Z :=
  match c with
  | AtlasTrendFollowing config => StrategyConfig.LONG_WINDOW config
  | AtlasMeanReversion config => StrategyConfig.WINDOW config
  end.

Definition live_warm_up_window (c : Citadel.LiveClass) : Z :=
  match c with
  | Citadel.LiveTrendFollowing config =>
      Citadel.LiveStrategyParameters.LONG_WINDOW config
  | Citadel.LiveMeanReversion config =>
      Citadel.LiveStrategyParameters.WINDOW config
  end.

(** A tick whose history is missing or shorter than [window]. *)
Definition short_of_history (tick : Citadel.Tick) (window : Z) : Prop :=
  match Citadel.tick_history tick with
  | None => True
  | Some h => (Z.of_nat (length h) < window)%Z
  end.

Section WithNumLib.
Context `{NumLib}.

Lemma atlas_warm_up (self : AtlasStrategy) (history : list Bar) (price : Q) :
  (Z.of_nat (length history) < warm_up_window (class self))%Z ->
  decide_action self history price = (HOLD, 0%Z, self).
Proof.
  intros Hshort. unfold decide_action, warm_up_window in *.
  destruct (class self) as [config | config];
    unfold AtlasTrendFollowing_decide_action, AtlasMeanReversion_decide_action;
    apply Z.ltb_lt in Hshort; now rewrite Hshort.
Qed.

Lemma live_warm_up (self : Citadel.LiveStrategy) (symbol : string)
    (tick : Citadel.Tick) :
  short_of_history tick (live_warm_up_window (Citadel.class self)) ->
  Citadel.decide_action self symbol tick = (HOLD, self).
Proof.
  intros Hshort.
  unfold Citadel.decide_action, live_warm_up_window, short_of_history in *.
  destruct (Citadel.class self) as [config | config];
    unfold Citadel.LiveTrendFollowing_decide_action,
           Citadel.LiveMeanReversion_decide_action;
    destruct (Citadel.tick_history tick) as [h |]; try reflexivity;
    apply Z.ltb_lt in Hshort; rewrite Hshort; now rewrite orb_true_r.
Qed.

Lemma _calculate_atr_undefined (history : list Bar) (period : Z) :
  (Z.of_nat (length history) < period)%Z
  \/ last (true_range_ewm history period) = None
  \/ last (true_range_ewm history period) = Some None ->
  _calculate_atr history period = 0.
Proof.
  unfold _calculate_atr. intros [Hshort | [Hempty | Hnan]].
  - apply Z.ltb_lt in Hshort. now rewrite Hshort.
  - rewrite Hempty. now destruct (_ <? _)%Z.
  - rewrite Hnan. now destruct (_ <? _)%Z.
Qed.

Lemma flat_volatility_is_no_buy (self : AtlasStrategy) (history : list Bar)
    (price : Q) :
  ~ 0 < _calculate_atr history 14 ->
  fst (fst (decide_action self history price)) <> BUY
  /\ (shares self = 0%Z -> decide_action self history price = (HOLD, 0%Z, self)).
Proof.
  intros Hflat.
  assert (Hatr : Qlt_bool 0 (_calculate_atr history 14) = false).
  { apply Qlt_bool_false. destruct (Qlt_le_dec 0 (_calculate_atr history 14));
      [contradiction | assumption]. }
  unfold decide_action.
  destruct (class self) as [config | config];
    unfold AtlasTrendFollowing_decide_action, AtlasMeanReversion_decide_action;
    rewrite Hatr.
  - destruct (_ <? _)%Z; [split; [discriminate | reflexivity] |].
    destruct (Z.eqb_spec (shares self) 0) as [Hzero | Hheld].
    + destruct (_ && _); split; (discriminate || reflexivity).
    + destruct (flt _ _); split; (discriminate || congruence).
  - destruct (_ <? _)%Z; [split; [discriminate | reflexivity] |].
    destruct (Z.eqb_spec (shares self) 0) as [Hzero | Hheld].
    + destruct (_ && _); split; (discriminate || reflexivity).
    + destruct (fgt _ _); split; (discriminate || congruence).
Qed.

(** C8.  A backtest strategy, trend following or mean reversion, whose
    history is shorter than its long window (its rolling window) returns
    [HOLD] with quantity 0 and leaves the strategy as it was; a live
    strategy whose tick carries no history or a history shorter than that
    window returns [HOLD] and leaves the strategy as it was; none of them
    raises.  [_calculate_atr] is 0.0 on a frame shorter than its period and
    on an empty or NaN smoothed range, and with an average true range that
    is not positive a decision is never a buy: a flat strategy gets [HOLD]
    with quantity 0. *)
Theorem warm_up_and_flat_volatility_hold
    (self : AtlasStrategy) (live : Citadel.LiveStrategy)
    (history : list Bar) (price : Q) (symbol : string) (tick : Citadel.Tick)
    (period : Z) :
  ((Z.of_nat (length history) < warm_up_window (class self))%Z ->
   decide_action self history price = (HOLD, 0%Z, self))
  /\ (short_of_history tick (live_warm_up_window (Citadel.class live)) ->
      Citadel.decide_action live symbol tick = (HOLD, live))
  /\ ((Z.of_nat (length history) < period)%Z
      \/ last (true_range_ewm history period) = None
      \/ last (true_range_ewm history period) = Some None ->
      _calculate_atr history period = 0)
  /\ (~ 0 < _calculate_atr history 14 ->
      fst (fst (decide_action self history price)) <> BUY
      /\ (shares self = 0%Z ->
          decide_action self history price = (HOLD, 0%Z, self))).
Proof.
  split; [apply atlas_warm_up |].
  split; [apply live_warm_up |].
  split; [apply _calculate_atr_undefined | apply flat_volatility_is_no_buy].
Qed.

End WithNumLib.
End WarmUp.

(** ** The drawdown gate of the risk manager *)
Module RiskGate.
Import Citadel.
Import LegacyCitadel.

Definition breached (d : Desk) : bool := is_drawdown_breached (risk d).

Definition limit (d : Desk) : Q := DAILY_DRAWDOWN_LIMIT (params (risk d)).

(** [(peak_equity - current_value) / peak_equity], and 0 without a positive
    peak. *)
Definition drawdown (d : Desk) : Q :=
  if Qlt_bool 0 (peak_equity (risk d))
  then (peak_equity (risk d) - current_value d) / peak_equity (risk d)
  else 0.

Definition exceeded (d : Desk) : bool := Qlt_bool (limit d) (drawdown d).

Definition breach_alert (d : Desk) : Alert := mkAlert "RISK BREACH" (limit d).

Definition oversized (d : Desk) (qty : Z) (price : Q) : bool :=
  Qlt_bool (inject_Z (MAX_ORDER_VALUE (params (risk d)))) (inject_Z qty * price).

Lemma check_transition (d : Desk) (side : string) (qty : Z) (price : Q) :
  breached d = false -> exceeded d = true ->
  let d' := snd (is_trade_allowed d side qty price) in
  breached d' = true
  /\ alerts d' = alerts d ++ [breach_alert d]
  /\ limit d' = limit d.
Proof.
  unfold breached, exceeded, limit, drawdown, breach_alert, is_trade_allowed.
  intros Hb He. rewrite Hb, He. simpl.
  destruct (String.eqb side "buy"); simpl; [now repeat split |].
  destruct (Qlt_bool _ (inject_Z qty * price)); now repeat split.
Qed.

Lemma check_within (d : Desk) (side : string) (qty : Z) (price : Q) :
  breached d = false -> exceeded d = false ->
  snd (is_trade_allowed d side qty price) = d.
Proof.
  unfold breached, exceeded, limit, drawdown, is_trade_allowed.
  intros Hb He. rewrite He. simpl. rewrite Hb. simpl.
  destruct (Qlt_bool _ (inject_Z qty * price)); reflexivity.
Qed.

Lemma check_breached (d : Desk) (side : string) (qty : Z) (price : Q) :
  breached d = true ->
  snd (is_trade_allowed d side qty price) = d.
Proof.
  unfold breached, is_trade_allowed. intros Hb. rewrite Hb.
  rewrite andb_false_r, Hb.
  destruct (String.eqb side "buy"); simpl; [reflexivity |].
  destruct (Qlt_bool _ (inject_Z qty * price)); reflexivity.
Qed.

Lemma step_breached (d : Desk) (e : event) :
  breached d = true ->
  breached (step d e) = true /\ alerts (step d e) = alerts d.
Proof.
  intros Hb. destruct e as [equity | side qty price]; simpl.
  - now split.
  - rewrite check_breached by exact Hb. now split.
Qed.

(** Once breached, breached for the rest of the session, without a further
    alert. *)
Lemma session_breached (events : list event) (d : Desk) :
  breached d = true ->
  breached (session d events) = true /\ alerts (session d events) = alerts d.
Proof.
  revert d. induction events as [| e rest IH]; intros d Hb; simpl;
    [now split |].
  destruct (step_breached d e Hb) as [Hb1 Ha1].
  destruct (IH (step d e) Hb1) as [Hb2 Ha2].
  split; [exact Hb2 | congruence].
Qed.

(** A session that starts in the normal state sends one alert if it ends
    breached and none if it does not. *)
Lemma session_alerts (events : list event) (d : Desk) :
  breached d = false ->
  alerts (session d events)
  = alerts d ++ (if breached (session d events) then [breach_alert d] else []).
Proof.
  revert d. induction events as [| e rest IH]; intros d Hb; simpl.
  - rewrite Hb. now rewrite app_nil_r.
  - destruct e as [equity | side qty price]; simpl.
    + rewrite (IH (observe_equity d equity)) by exact Hb. reflexivity.
    + destruct (exceeded d) eqn:He.
      * destruct (check_transition d side qty price Hb He) as (Hb1 & Ha1 & _).
        destruct (session_breached rest _ Hb1) as [Hb2 Ha2].
        rewrite Hb2, Ha2. exact Ha1.
      * rewrite (check_within d side qty price Hb He). now apply IH.
Qed.

(** The transition is made by the first order check that sees the drawdown
    beyond the limit, and by nothing else. *)
Lemma session_breach_point (events : list event) (d : Desk) :
  breached d = false ->
  (breached (session d events) = true <->
   exists earlier side qty price later,
     events = earlier ++ Check side qty price :: later
     /\ breached (session d earlier) = false
     /\ exceeded (session d earlier) = true).
Proof.
  revert d. induction events as [| e rest IH]; intros d Hb.
  - simpl. split; [congruence |].
    intros (earlier & side & qty & price & later & Hev & _).
    now destruct earlier.
  - split.
    + intros Hend.
      destruct e as [equity | side qty price].
      * destruct (proj1 (IH (observe_equity d equity) Hb) Hend)
          as (earlier & side & qty & price & later & -> & Hb1 & He1).
        exists (Observe equity :: earlier), side, qty, price, later.
        now repeat split.
      * destruct (exceeded d) eqn:He.
        -- exists [], side, qty, price, rest. now repeat split.
        -- simpl in Hend. rewrite (check_within d side qty price Hb He) in Hend.
           destruct (proj1 (IH d Hb) Hend)
             as (earlier & side' & qty' & price' & later & -> & Hb1 & He1).
           exists (Check side qty price :: earlier), side', qty', price', later.
           simpl. rewrite (check_within d side qty price Hb He).
           now repeat split.
    + intros (earlier & side & qty & price & later & Hev & Hb1 & He1).
      rewrite Hev. unfold session. rewrite fold_left_app. simpl.
      destruct (check_transition _ side qty price Hb1 He1) as (Hb2 & _).
      now apply session_breached.
Qed.

Lemma verdict_while_breached (d : Desk) (side : string) (qty : Z) (price : Q) :
  breached d = true ->
  fst (is_trade_allowed d side qty price)
  = if String.eqb side "buy" then false else negb (oversized d qty price).
Proof.
  unfold breached, oversized, is_trade_allowed. intros Hb.
  rewrite Hb, andb_false_r, Hb. simpl.
  destruct (String.eqb side "buy"); simpl; [reflexivity |].
  destruct (Qlt_bool _ (inject_Z qty * price)); reflexivity.
Qed.

(** The gate as the first-generation risk manager has it.  Within a session,
    that is between two calls of [assess_new_day], and starting in the
    normal state: the manager is breached at the end exactly when some order
    check was made with the drawdown beyond the limit, the first such check
    making the transition; one alert is sent if the session ends breached
    and none otherwise; from the breached state every further event leaves
    the manager breached and sends no alert; while breached every buy is
    refused and any other order is allowed exactly when its value does not
    exceed [MAX_ORDER_VALUE]; [assess_new_day] returns to the normal state.
    An equity observation alone never makes the transition. *)
Theorem drawdown_gate_of_first_generation
    (d : Desk) (events : list event) (side : string) (qty : Z) (price : Q)
    (equity v : Q) :
  (breached d = false ->
   (breached (session d events) = true <->
    exists earlier side' qty' price' later,
      events = earlier ++ Check side' qty' price' :: later
      /\ breached (session d earlier) = false
      /\ exceeded (session d earlier) = true)
   /\ alerts (session d events)
      = alerts d ++ (if breached (session d events) then [breach_alert d] else []))
  /\ (breached d = true ->
      breached (session d events) = true
      /\ alerts (session d events) = alerts d
      /\ fst (is_trade_allowed d "buy" qty price) = false
      /\ (side <> "buy"%string ->
          fst (is_trade_allowed d side qty price) = negb (oversized d qty price)))
  /\ breached (observe_equity d equity) = breached d
  /\ alerts (observe_equity d equity) = alerts d
  /\ breached (new_day d v) = false.
Proof.
  split; [| split; [| now repeat split]].
  - intros Hb. split; [now apply session_breach_point | now apply session_alerts].
  - intros Hb. destruct (session_breached events d Hb) as [H1 H2].
    split; [exact H1 |]. split; [exact H2 |]. split.
    + now rewrite verdict_while_breached.
    + intros Hside. rewrite verdict_while_breached by exact Hb.
      destruct (String.eqb_spec side "buy"); [congruence | reflexivity].
Qed.

(** A desk of the first generation at the start of a day, with the limits
    of its [RiskParameters]. *)
Definition morning_desk : Desk :=
  new_day (mkDesk (RiskManager_init (mkRiskParameters 1000000 0.05))
                  100000000 [])
          100000000.

(** The first generation looks at the drawdown when an order is checked:
    an equity observation 10% below the peak, with a limit of 5%, makes no
    transition and sends no alert; and when equity has
    recovered before the next order is checked, the session ends without
    either. *)
Lemma observation_beyond_limit_makes_no_transition :
  let seen := observe_equity morning_desk 90000000 in
  exceeded seen = true
  /\ breached seen = false
  /\ alerts seen = []
  /\ let closing := session seen [Observe 100000000; Check "buy" 1 100] in
     breached closing = false /\ alerts closing = [].
Proof. vm_compute. repeat split. Qed.

(** The risk manager of the current generation has no drawdown gate: its
    answer depends on the order value alone, whatever the side and the
    state, it never writes the state, and it alerts on every refusal. *)
Lemma current_generation_checks_order_value_only
    (self : RiskManager) (sent : list Alert) (side : string) (qty : Z) (price : Q) :
  let order_value := inject_Z qty * price in
  let refused :=
    Qlt_bool (inject_Z (MAX_ORDER_VALUE (params self))) order_value in
  Citadel.is_trade_allowed self sent side qty price
  = (negb refused,
     if refused then sent ++ [mkAlert "RISK VIOLATION" order_value] else sent).
Proof.
  unfold Citadel.is_trade_allowed. simpl.
  now destruct (Qlt_bool _ _).
Qed.

End RiskGate.

(** * The properties at concrete inputs *)
Module Instances.
Import Atlas.

(** *** Backtest *)

Definition one_strategy : strategy_configs :=
  mkStrategyConfigs (Some StrategyConfig.TrendFollowing_default) None.

Definition two_strategies : strategy_configs :=
  mkStrategyConfigs (Some StrategyConfig.TrendFollowing_default)
                    (Some StrategyConfig.MeanReversion_default).

(** The simulator of a one-strategy backtest at a close of 100. *)
Definition at_100 : MarketSimulator :=
  with_price (Solvency.fresh_simulator FirmConfig_default one_strategy) 100.

Definition trend_at_start : AtlasStrategy :=
  set_capital
    (AtlasStrategy_init "Trend"
       (AtlasTrendFollowing StrategyConfig.TrendFollowing_default))
    (inject_Z 1000000 / inject_Z 1).

(** An order for more than the strategy can pay, and one it can pay. *)
Definition too_large : Order := mkOrder "Trend" "buy" 20000.
Definition affordable : Order := mkOrder "Trend" "buy" 10.

Lemma settlement_is_all_or_nothing_witness :
  strategies (firm at_100) !! o_id too_large = Some trend_at_start
  /\ cash trend_at_start
     < Settlement.notional at_100 too_large + Settlement.fee at_100 too_large
  /\ settle at_100 too_large = inr at_100
  /\ process_orders [too_large; affordable] at_100
     = process_orders [affordable] at_100
  /\ exists m',
       settle at_100 affordable = inr m'
       /\ length (trade_log m') = 1%nat.
Proof.
  assert (Hs : strategies (firm at_100) !! o_id too_large = Some trend_at_start)
    by reflexivity.
  assert (Hlt : cash trend_at_start
                < Settlement.notional at_100 too_large
                  + Settlement.fee at_100 too_large) by reflexivity.
  destruct (Settlement.settlement_is_all_or_nothing
              at_100 too_large trend_at_start [affordable] Hs)
    as (_ & Hbuy & _).
  destruct (Hbuy eq_refl Hlt) as [Hsame Hrest].
  destruct (Settlement.settlement_is_all_or_nothing
              at_100 affordable trend_at_start [] Hs)
    as ((m' & Hsettle & Hcases) & _ & _).
  split; [exact Hs |]. split; [exact Hlt |]. split; [exact Hsame |].
  split; [exact Hrest |].
  exists m'. split; [exact Hsettle |].
  destruct Hcases as [[_ Hnot] | [_ [fill Hlog]]].
  - exfalso. apply Hnot. left. split; [reflexivity |]. vm_compute. discriminate.
  - rewrite Hlog. reflexivity.
Defined.

(** The one-strategy simulator with the affordable order in its queue. *)
Definition buying : MarketSimulator := with_queue at_100 [affordable].

Lemma cost_model_as_specified_witness :
  SLIPPAGE_BPS FirmConfig_default = 10%Z
  /\ slippage_bps buying
     = slippage_bps (MarketSimulator_init FirmConfig_default (firm buying))
  /\ exists m' strategy',
       execute_orders buying = (m', None)
       /\ trade_log m' = [CostModel.fill_at buying affordable]
       /\ t_price (CostModel.fill_at buying affordable) == 100.1
       /\ t_cost (CostModel.fill_at buying affordable) == 1.54725571
       /\ strategies (firm m') !! "Trend" = Some strategy'
       /\ cash strategy' == 1000000 - 1002.54725571
       /\ shares strategy' = 10%Z.
Proof.
  assert (Hbps : SLIPPAGE_BPS FirmConfig_default = 10%Z) by reflexivity.
  assert (Hslip : slippage_bps buying
                  = slippage_bps
                      (MarketSimulator_init FirmConfig_default (firm buying)))
    by reflexivity.
  assert (Hv : 0 <= 1000000) by discriminate.
  assert (Hvv : 1000000 == 1000000) by reflexivity.
  split; [exact Hbps |]. split; [exact Hslip |].
  destruct (CostModel.cost_model_as_specified
              FirmConfig_default buying 1000000 1000000 "sell"
              Hbps Hslip Hv Hvv) as (_ & _ & Hsingle & _).
  destruct (Hsingle affordable trend_at_start eq_refl eq_refl) as [Hbuy _].
  assert (Hfunds :
            t_qty (CostModel.fill_at buying affordable)
            * t_price (CostModel.fill_at buying affordable)
            + t_cost (CostModel.fill_at buying affordable)
            <= cash trend_at_start) by (vm_compute; discriminate).
  destruct (Hbuy eq_refl Hfunds)
    as (m' & strategy' & Hrun & Hlog & Hs' & Hcash & Hshares).
  exists m', strategy'.
  split; [exact Hrun |]. split; [exact Hlog |].
  split; [vm_compute; reflexivity |]. split; [vm_compute; reflexivity |].
  split; [exact Hs' |].
  split; [rewrite Hcash; vm_compute; reflexivity | exact Hshares].
Defined.

(** *** Live *)

Definition live_trend : Citadel.LiveStrategy :=
  Citadel.mkLiveStrategy "Trend"
    (Citadel.LiveTrendFollowing Citadel.LiveStrategyParameters.Trend_default)
    500000 (<["TCS.NS"%string := 2%Z]> ∅) 0.02 ∅ ∅.

Definition live_desk : Citadel.ChiefInvestmentOfficer :=
  Citadel.mkCIO (Citadel.RiskManager_init Citadel.LiveRiskParameters_default)
    [] 1000000 (<["TCS.NS"%string := 3500]> ∅) 0
    (<["Trend"%string := live_trend]> ∅) [] (fun _ => true).

Definition live_session : list LiveSettlement.op :=
  [ LiveSettlement.Submit "Trend" "TCS.NS" "sell" 2;
    LiveSettlement.PriceUpdate "TCS.NS" 3600;
    LiveSettlement.Submit "Trend" "TCS.NS" "sell" 1;
    LiveSettlement.Submit "Trend" "TCS.NS" "buy" 50 ].

Lemma long_only_no_margin_witness :
  (0 <= FIRM_CAPITAL FirmConfig_default)%Z
  /\ (SLIPPAGE_BPS FirmConfig_default <= 10000)%Z
  /\ Forall Settlement.positive_bar RoundTrips.two_fill_session
  /\ (forall name s,
        strategies
          (firm (Settlement.after_orders 1
                   (fst (Settlement.run_ops RoundTrips.two_fill_session
                           (Solvency.fresh_simulator FirmConfig_default
                                                     two_strategies)))))
          !! name = Some s ->
        0 <= cash s /\ (0 <= shares s)%Z)
  /\ (forall name s,
        Citadel.strategies (fst (LiveSettlement.run_ops live_session live_desk))
          !! name = Some s ->
        0 <= Citadel.cash s
        /\ forall symbol, (0 <= Citadel.position s symbol)%Z).
Proof.
  assert (Hcap : (0 <= FIRM_CAPITAL FirmConfig_default)%Z) by discriminate.
  assert (Hslip : (SLIPPAGE_BPS FirmConfig_default <= 10000)%Z) by discriminate.
  assert (Hbars : Forall Settlement.positive_bar RoundTrips.two_fill_session)
    by (repeat constructor).
  assert (Hlive : forall name s,
            Citadel.strategies live_desk !! name = Some s ->
            0 <= Citadel.cash s
            /\ forall symbol q,
                 Citadel.positions s !! symbol = Some q -> (0 <= q)%Z).
  { intros name s Hs. unfold live_desk in Hs. simpl in Hs.
    apply lookup_insert_Some in Hs as [[_ <-] | [_ Hs]];
      [| rewrite lookup_empty in Hs; discriminate].
    split; [discriminate |].
    intros symbol q Hq. simpl in Hq.
    apply lookup_insert_Some in Hq as [[_ <-] | [_ Hq]];
      [discriminate | rewrite lookup_empty in Hq; discriminate]. }
  destruct (Solvency.long_only_no_margin FirmConfig_default two_strategies
              RoundTrips.two_fill_session 1 live_desk live_session
              Hcap Hslip Hbars Hlive) as [Hbacktest Hcoordinator].
  split; [exact Hcap |]. split; [exact Hslip |]. split; [exact Hbars |].
  split; [exact Hbacktest | exact Hcoordinator].
Defined.

(** *** Allocation *)

Definition trend_of_two : AtlasStrategy :=
  set_capital
    (AtlasStrategy_init "Trend"
       (AtlasTrendFollowing StrategyConfig.TrendFollowing_default))
    (inject_Z 1000000 / inject_Z 2).

Lemma equal_split_and_idempotent_witness :
  strategies (PortfolioManager_init FirmConfig_default two_strategies) !! "Trend"
  = Some trend_of_two
  /\ cash trend_of_two = inject_Z 1000000 / inject_Z 2
  /\ shares trend_of_two = 0%Z
  /\ _rebalance_capital
       (_rebalance_capital
          (firm (fst (Settlement.run_ops RoundTrips.two_fill_session
                        (Solvency.fresh_simulator FirmConfig_default
                                                  two_strategies)))))
     = _rebalance_capital
         (firm (fst (Settlement.run_ops RoundTrips.two_fill_session
                       (Solvency.fresh_simulator FirmConfig_default
                                                 two_strategies)))).
Proof.
  assert (Hs : strategies (PortfolioManager_init FirmConfig_default two_strategies)
               !! "Trend" = Some trend_of_two) by reflexivity.
  destruct (Allocation.equal_split_and_idempotent FirmConfig_default two_strategies
              (firm (fst (Settlement.run_ops RoundTrips.two_fill_session
                            (Solvency.fresh_simulator FirmConfig_default
                                                      two_strategies)))))
    as [Hsplit Hidem].
  destruct (Hsplit "Trend"%string trend_of_two Hs) as [Hcash Hshares].
  split; [exact Hs |]. split; [exact Hcash |]. split; [exact Hshares | exact Hidem].
Defined.

(** *** Round trips *)

Lemma round_trip_pnl_is_fifo_witness :
  0 < 12
  /\ 10 - Qmin 12 10 < Analysis.epsilon
  /\ RoundTrips.fifo_spec 120 12 0 [(10, 100); (5, 110)]
     = RoundTrips.fifo_spec 120 (12 - Qmin 12 10)
         (0 + (120 - 100) * Qmin 12 10) [(5, 110)]
  /\ exists st,
       Analysis.analyze RoundTrips.scenario_log = Some st
       /\ RoundTrips.open_lots st "Trend" = [(3, 110)].
Proof.
  destruct RoundTrips.round_trip_pnl_is_fifo as (_ & Hlot & st & Han & _ & Hopen & _).
  assert (Hsell : 0 < 12) by reflexivity.
  assert (Hrem : 10 - Qmin 12 10 < Analysis.epsilon) by reflexivity.
  destruct (Hlot 120 12 0 10 100 [(5, 110)] Hsell) as [Hdrop _].
  split; [exact Hsell |]. split; [exact Hrem |]. split; [exact (Hdrop Hrem) |].
  exists st. split; [exact Han | exact Hopen].
Defined.

Definition lone_sell : Trade := mkTrade "Trend" "sell" 5 100 0.

Definition lone_sell_frame : Analysis.frame := Analysis.mkFrame [] ∅ [lone_sell].

Lemma zero_results_and_unmatched_sells_leave_no_entry_witness :
  Analysis.raw_trades lone_sell_frame !! 0%nat = Some lone_sell
  /\ t_side lone_sell = "sell"%string
  /\ Analysis.deque_of (Analysis.open_buys lone_sell_frame) (t_id lone_sell) = []
  /\ (exists st',
        Analysis.visit lone_sell_frame 0 = Some st'
        /\ Analysis.pnl_list st' = []
        /\ Analysis.raw_trades st' = [lone_sell])
  /\ fst <$> Analysis.calculate_round_trip_pnl RoundTrips.break_even_log = Some [].
Proof.
  assert (Hcur : Analysis.raw_trades lone_sell_frame !! 0%nat = Some lone_sell)
    by reflexivity.
  assert (Hside : t_side lone_sell = "sell"%string) by reflexivity.
  assert (Hnone : Analysis.deque_of (Analysis.open_buys lone_sell_frame)
                                    (t_id lone_sell) = []) by reflexivity.
  destruct (RoundTrips.zero_results_and_unmatched_sells_leave_no_entry
              lone_sell_frame 0 lone_sell Hcur Hside)
    as (Hskip & _ & _ & Heven).
  destruct (Hskip Hnone) as (st' & Hvisit & Hpnl & Hlog & _).
  split; [exact Hcur |]. split; [exact Hside |]. split; [exact Hnone |].
  split; [| exact Heven].
  exists st'. split; [exact Hvisit |]. split; [exact Hpnl | exact Hlog].
Defined.

(** *** Risk *)

(** The morning desk after equity was seen 10% below the peak, and the same
    desk after a first order was checked there. *)
Definition desk_in_drawdown : LegacyCitadel.Desk :=
  LegacyCitadel.observe_equity RiskGate.morning_desk 90000000.

Definition desk_breached : LegacyCitadel.Desk :=
  snd (LegacyCitadel.is_trade_allowed desk_in_drawdown "sell" 1 100).

Definition busy_session : list LegacyCitadel.event :=
  [ LegacyCitadel.Check "buy" 1 100;
    LegacyCitadel.Observe 80000000;
    LegacyCitadel.Check "buy" 1 100;
    LegacyCitadel.Check "sell" 1 100 ].

Lemma drawdown_gate_of_first_generation_witness :
  RiskGate.breached desk_in_drawdown = false
  /\ RiskGate.breached desk_breached = true
  /\ RiskGate.breached (LegacyCitadel.session desk_in_drawdown busy_session) = true
  /\ LegacyCitadel.alerts (LegacyCitadel.session desk_in_drawdown busy_session)
     = [RiskGate.breach_alert desk_in_drawdown]
  /\ LegacyCitadel.alerts (LegacyCitadel.session desk_breached busy_session)
     = LegacyCitadel.alerts desk_breached
  /\ fst (LegacyCitadel.is_trade_allowed desk_breached "buy" 1 100) = false
  /\ fst (LegacyCitadel.is_trade_allowed desk_breached "sell" 1 100) = true.
Proof.
  assert (Hnormal : RiskGate.breached desk_in_drawdown = false) by reflexivity.
  assert (Hbreached : RiskGate.breached desk_breached = true) by reflexivity.
  destruct (RiskGate.drawdown_gate_of_first_generation
              desk_in_drawdown busy_session "sell" 1 100 0 0)
    as (Hfrom_normal & _).
  destruct (Hfrom_normal Hnormal) as [Hpoint Halerts].
  destruct (RiskGate.drawdown_gate_of_first_generation
              desk_breached busy_session "sell" 1 100 0 0)
    as (_ & Hfrom_breached & _).
  destruct (Hfrom_breached Hbreached) as (_ & Hquiet & Hbuy & Hsell).
  assert (Hend : RiskGate.breached
                   (LegacyCitadel.session desk_in_drawdown busy_session) = true).
  { apply Hpoint.
    exists [], "buy"%string, 1%Z, 100,
      [ LegacyCitadel.Observe 80000000;
        LegacyCitadel.Check "buy" 1 100;
        LegacyCitadel.Check "sell" 1 100 ].
    repeat split. }
  split; [exact Hnormal |]. split; [exact Hbreached |]. split; [exact Hend |].
  split; [rewrite Halerts, Hend; reflexivity |].
  split; [exact Hquiet |]. split; [exact Hbuy |].
  rewrite Hsell by discriminate. reflexivity.
Defined.

(** *** Metrics and strategies, on the rational instance *)

Definition three_returns : Analysis.PerformanceAnalyzer :=
  Analysis.mkPerformanceAnalyzer [0.01; 0.03; -0.02] 0.07.

Definition one_return : Analysis.PerformanceAnalyzer :=
  Analysis.mkPerformanceAnalyzer [0.01] 0.07.

Definition constant_returns : Analysis.PerformanceAnalyzer :=
  Analysis.mkPerformanceAnalyzer [0.01; 0.01; 0.01] 0.07.

Lemma sharpe_ratio_cases_witness :
  @Analysis.calculate_metrics_sharpe Reference.rational one_return = 0
  /\ @Analysis.calculate_metrics_sharpe Reference.rational constant_returns = 0
  /\ @Analysis.calculate_metrics_sharpe Reference.rational three_returns
     == (1.68 - 0.07) / (0.025166 * 15.874507)
  /\ 0 < @Analysis.calculate_metrics_sharpe Reference.rational three_returns.
Proof.
  split; [| split].
  - apply (proj1 (@Sharpe.sharpe_ratio_cases Reference.rational one_return)).
    left. repeat constructor.
  - apply (proj1 (@Sharpe.sharpe_ratio_cases Reference.rational constant_returns)).
    right. reflexivity.
  - destruct (proj2 (@Sharpe.sharpe_ratio_cases Reference.rational three_returns))
      as (Hvalue & _ & Hsign & _).
    { intros [Hshort | Hflat].
      - simpl in Hshort. lia.
      - vm_compute in Hflat. discriminate. }
    split.
    + rewrite Hvalue. vm_compute. reflexivity.
    + apply Hsign. vm_compute. reflexivity.
Defined.

(** Forty-nine flat bars: one short of the long window of the defaults. *)
Definition warming_up : list Bar := repeat (mkBar 100 100 100) 49.

(** Sixty flat bars: enough history, and no range at all. *)
Definition flat_market : list Bar := repeat (mkBar 100 100 100) 60.

Definition live_flat : Citadel.LiveStrategy :=
  Citadel.set_capital
    (Citadel.LiveStrategy_init "MeanReversion"
       (Citadel.LiveMeanReversion
          Citadel.LiveStrategyParameters.MeanReversion_default))
    500000.

Definition short_tick : Citadel.Tick :=
  Citadel.mkTick 100 (Some (repeat 100 19)).

Lemma warm_up_and_flat_volatility_hold_witness :
  (Z.of_nat (length warming_up) < WarmUp.warm_up_window (class trend_of_two))%Z
  /\ @decide_action Reference.rational trend_of_two warming_up 100
     = (HOLD, 0%Z, trend_of_two)
  /\ WarmUp.short_of_history short_tick
       (WarmUp.live_warm_up_window (Citadel.class live_flat))
  /\ @Citadel.decide_action Reference.rational live_flat "TCS.NS" short_tick
     = (HOLD, live_flat)
  /\ ~ 0 < @_calculate_atr Reference.rational flat_market 14
  /\ @decide_action Reference.rational trend_of_two flat_market 100
     = (HOLD, 0%Z, trend_of_two)
  /\ @_calculate_atr Reference.rational warming_up 50 = 0.
Proof.
  assert (Hshort : (Z.of_nat (length warming_up)
                    < WarmUp.warm_up_window (class trend_of_two))%Z)
    by reflexivity.
  assert (Htick : WarmUp.short_of_history short_tick
                    (WarmUp.live_warm_up_window (Citadel.class live_flat)))
    by reflexivity.
  assert (Hflat : ~ 0 < @_calculate_atr Reference.rational flat_market 14)
    by (vm_compute; discriminate).
  destruct (@WarmUp.warm_up_and_flat_volatility_hold Reference.rational
              trend_of_two live_flat warming_up 100 "TCS.NS" short_tick 50)
    as (Hbacktest & Hlive & Hundefined & _).
  destruct (@WarmUp.warm_up_and_flat_volatility_hold Reference.rational
              trend_of_two live_flat flat_market 100 "TCS.NS" short_tick 14)
    as (_ & _ & _ & Hno_buy).
  split; [exact Hshort |]. split; [exact (Hbacktest Hshort) |].
  split; [exact Htick |]. split; [exact (Hlive Htick) |].
  split; [exact Hflat |]. split; [exact (proj2 (Hno_buy Hflat) eq_refl) |].
  apply Hundefined. left. reflexivity.
Defined.

End Instances.

(** * Further properties of the execution engine *)

(** ** What one settlement does to the books *)
Module Accounting.
Import Atlas.
Import Settlement.

(** The fill the simulator records for a settled order. *)
Definition fill_of (m : MarketSimulator) (order : Order) : Trade :=
  mkTrade (o_id order) (o_side order) (inject_Z (o_qty order))
          (execution_price m (o_side order)) (fee m order).

Lemma covered_side (m : MarketSimulator) (order : Order) (s : AtlasStrategy) :
  covered m order s ->
  o_side order = "buy"%string \/ o_side order = "sell"%string.
Proof. intros [[H _] | [H _]]; auto. Qed.

Lemma settled_lookup (m : MarketSimulator) (order : Order) (s : AtlasStrategy) :
  exists s',
    strategies (firm (settled m order s)) !! o_id order = Some s'
    /\ s' = with_cash_shares s (cash s') (shares s').
Proof.
  unfold settled. destruct (String.eqb _ _); simpl; rewrite lookup_insert_eq;
    eexists; split; reflexivity.
Qed.

(** X1.  A settled order moves the equity of its strategy, marked at the
    execution price, by exactly minus the transaction cost: a buy adds the
    quantity to the shares and takes notional plus cost from the cash, a
    sale takes the quantity from the shares and adds notional minus cost to
    the cash; the fill appended to the trade log carries the side, the
    quantity, the execution price and the cost of the order. *)
Theorem fill_moves_equity_by_the_fee
    (m : MarketSimulator) (order : Order) (s : AtlasStrategy) :
  strategies (firm m) !! o_id order = Some s ->
  covered m order s ->
  exists m' s',
    settle m order = inr m'
    /\ strategies (firm m') !! o_id order = Some s'
    /\ get_equity s' (execution_price m (o_side order))
       == get_equity s (execution_price m (o_side order)) - fee m order
    /\ shares s'
       = (if String.eqb (o_side order) "buy"
          then shares s + o_qty order else shares s - o_qty order)%Z
    /\ trade_log m' = trade_log m ++ [fill_of m order].
Proof.
  intros Hs Hc. exists (settled m order s).
  rewrite (settle_covered m order s Hs Hc).
  unfold settled, fill_of, get_equity, notional, fee.
  destruct Hc as [[Hside _] | [Hside _]]; rewrite Hside; simpl String.eqb;
    cbv iota; eexists; (split; [reflexivity |]); simpl;
    (split; [apply lookup_insert_eq |]); simpl;
    (split; [| split; reflexivity]).
  - rewrite inject_Z_plus. ring.
  - unfold Z.sub. rewrite inject_Z_plus, inject_Z_opp. ring.
Qed.

(** A settlement leaves the simulator as it was or in the settled state. *)
Lemma settle_cases (m m' : MarketSimulator) (order : Order) :
  settle m order = inr m' ->
  exists s,
    strategies (firm m) !! o_id order = Some s
    /\ (m' = m \/ (covered m order s /\ m' = settled m order s)).
Proof.
  intros Hsettle.
  destruct (strategies (firm m) !! o_id order) as [s |] eqn:Hs;
    [| unfold settle in Hsettle; rewrite Hs in Hsettle; discriminate].
  exists s. split; [reflexivity |].
  destruct (covered_dec m order s) as [Hc | Hn].
  - rewrite (settle_covered m order s Hs Hc) in Hsettle. injection Hsettle as <-.
    right. now split.
  - rewrite (settle_not_covered m order s Hs Hn) in Hsettle. injection Hsettle as <-.
    now left.
Qed.

Lemma settled_strategies (m : MarketSimulator) (order : Order) (s : AtlasStrategy) :
  exists c n,
    strategies (firm (settled m order s))
    = <[o_id order := with_cash_shares s c n]> (strategies (firm m)).
Proof.
  unfold settled. destruct (String.eqb _ _); simpl; eauto.
Qed.

Lemma settle_lookup_other (m m' : MarketSimulator) (order : Order) (other : string) :
  settle m order = inr m' ->
  other <> o_id order ->
  strategies (firm m') !! other = strategies (firm m) !! other.
Proof.
  intros Hsettle Hne.
  destruct (settle_cases m m' order Hsettle) as (s & _ & [-> | [_ ->]]);
    [reflexivity |].
  destruct (settled_strategies m order s) as (c & n & ->).
  now rewrite lookup_insert_ne.
Qed.

Lemma settle_lookup_self (m m' : MarketSimulator) (order : Order) (s : AtlasStrategy) :
  settle m order = inr m' ->
  strategies (firm m) !! o_id order = Some s ->
  exists s',
    strategies (firm m') !! o_id order = Some s'
    /\ id s' = id s /\ class s' = class s
    /\ risk_per_trade s' = risk_per_trade s
    /\ stop_loss_price s' = stop_loss_price s
    /\ take_profit_price s' = take_profit_price s.
Proof.
  intros Hsettle Hs.
  destruct (settle_cases m m' order Hsettle) as (s0 & Hs0 & [-> | [_ ->]]).
  - exists s. now repeat split.
  - assert (s0 = s) by congruence. subst s0.
    destruct (settled_strategies m order s) as (c & n & ->).
    rewrite lookup_insert_eq. eexists. split; [reflexivity |]. now repeat split.
Qed.

Lemma settle_market (m m' : MarketSimulator) (order : Order) :
  settle m order = inr m' ->
  price m' = price m /\ slippage_bps m' = slippage_bps m
  /\ history m' = history m /\ order_queue m' = order_queue m
  /\ initial_capital (firm m') = initial_capital (firm m).
Proof.
  intros Hsettle.
  destruct (settle_cases m m' order Hsettle) as (s & _ & [-> | [_ ->]]);
    [now repeat split |].
  unfold settled. destruct (String.eqb _ _); now repeat split.
Qed.

(** X2.  Settlement writes to the cash and the shares of the strategy the
    order names and appends to the trade log, and to nothing else: every
    other strategy, the exit prices, class and risk fraction of the strategy
    itself, the price, the slippage, the history, the queue and the capital
    of the firm are as they were. *)
Theorem settlement_touches_one_strategy
    (m m' : MarketSimulator) (order : Order) :
  settle m order = inr m' ->
  (forall other, other <> o_id order ->
     strategies (firm m') !! other = strategies (firm m) !! other)
  /\ (forall s, strategies (firm m) !! o_id order = Some s ->
        exists s',
          strategies (firm m') !! o_id order = Some s'
          /\ id s' = id s /\ class s' = class s
          /\ risk_per_trade s' = risk_per_trade s
          /\ stop_loss_price s' = stop_loss_price s
          /\ take_profit_price s' = take_profit_price s)
  /\ price m' = price m
  /\ slippage_bps m' = slippage_bps m
  /\ history m' = history m
  /\ order_queue m' = order_queue m
  /\ initial_capital (firm m') = initial_capital (firm m).
Proof.
  intros Hsettle.
  split; [intros other Hne; now apply (settle_lookup_other m m' order) |].
  split; [intros s Hs; now apply (settle_lookup_self m m' order) |].
  exact (settle_market m m' order Hsettle).
Qed.

(** *** A whole queue *)

Definition known (m : MarketSimulator) (order : Order) : Prop :=
  is_Some (strategies (firm m) !! o_id order).

Lemma settle_known (m m' : MarketSimulator) (order other : Order) :
  settle m order = inr m' -> (known m' other <-> known m other).
Proof.
  intros Hsettle. unfold known.
  destruct (decide (o_id other = o_id order)) as [-> | Hne].
  - destruct (strategies (firm m) !! o_id order) as [s |] eqn:Hs.
    + destruct (settle_lookup_self m m' order s Hsettle Hs) as (s' & Hs' & _).
      rewrite Hs'. split; intros _; eauto.
    + unfold settle in Hsettle. rewrite Hs in Hsettle. discriminate.
  - now rewrite (settle_lookup_other m m' order _ Hsettle Hne).
Qed.

Lemma settle_raises_iff (m : MarketSimulator) (order : Order) :
  (exists e, settle m order = inl e) <-> ~ known m order.
Proof.
  unfold known, settle.
  destruct (strategies (firm m) !! o_id order) as [s |].
  - split.
    + intros [e He].
      destruct (String.eqb (o_side order) "buy");
        [destruct (Qle_bool _ _); discriminate |].
      destruct (String.eqb (o_side order) "sell"); [| discriminate].
      destruct (_ <=? _)%Z; discriminate.
    + intros Hn. exfalso. apply Hn. eauto.
  - split; [intros _ [s Hs]; discriminate | intros _; eauto].
Qed.

Lemma process_orders_log (orders : list Order) :
  forall m,
    order_queue (fst (process_orders orders m)) = order_queue m
    /\ exists fills,
         trade_log (fst (process_orders orders m)) = trade_log m ++ fills
         /\ (length fills <= length orders)%nat.
Proof.
  induction orders as [| order rest IH]; intros m; simpl.
  - split; [reflexivity |]. exists []. rewrite app_nil_r. split; [reflexivity | simpl; lia].
  - destruct (settle m order) as [e | m1] eqn:E; simpl.
    + split; [reflexivity |]. exists []. rewrite app_nil_r.
      split; [reflexivity | simpl; lia].
    + destruct (IH m1) as (Hq & fills & Hlog & Hlen).
      destruct (settle_market m m1 order E) as (_ & _ & _ & Hq1 & _).
      split; [congruence |].
      destruct (strategies (firm m) !! o_id order) as [s |] eqn:Hs;
        [| unfold settle in E; rewrite Hs in E; discriminate].
      destruct (covered_dec m order s) as [Hc | Hn].
      * rewrite (settle_covered m order s Hs Hc) in E. injection E as <-.
        destruct (settled_trade_log m order s) as [fill Hfill].
        exists (fill :: fills). rewrite Hlog, Hfill, <- app_assoc.
        split; [reflexivity | simpl; lia].
      * rewrite (settle_not_covered m order s Hs Hn) in E. injection E as <-.
        exists fills. split; [exact Hlog | simpl; lia].
Qed.

Lemma process_orders_raises (orders : list Order) :
  forall m,
    (snd (process_orders orders m) = None <-> Forall (known m) orders).
Proof.
  induction orders as [| order rest IH]; intros m; simpl.
  - split; [constructor | reflexivity].
  - destruct (settle m order) as [e | m1] eqn:E; simpl.
    + split; [discriminate |]. intros Hall. inversion Hall as [| ? ? Hk _]; subst.
      exfalso. apply (proj1 (settle_raises_iff m order)); eauto.
    + rewrite IH. split.
      * intros Hall. constructor.
        -- destruct (decide (known m order)) as [Hk | Hk]; [exact Hk |].
           apply settle_raises_iff in Hk as [e He]. congruence.
        -- eapply Forall_impl; [exact Hall |]. intros o Ho.
           now apply (settle_known m m1 order o E).
      * intros Hall. inversion Hall as [| ? ? _ Hrest]; subst.
        eapply Forall_impl; [exact Hrest |]. intros o Ho.
        now apply (settle_known m m1 order o E).
Qed.

(** X3.  [execute_orders] always leaves the queue empty, also when it
    raises; it appends to the trade log at most one fill per queued order
    and rewrites none; and it raises exactly when some queued order names a
    strategy the firm does not hold. *)
Theorem execute_orders_empties_the_queue (m : MarketSimulator) :
  order_queue (fst (execute_orders m)) = []
  /\ (exists fills,
        trade_log (fst (execute_orders m)) = trade_log m ++ fills
        /\ (length fills <= length (order_queue m))%nat)
  /\ (snd (execute_orders m) = None <-> Forall (known m) (order_queue m)).
Proof.
  unfold execute_orders.
  destruct (order_queue m) as [| order rest] eqn:Hq.
  - simpl. split; [exact Hq |]. split.
    + exists []. rewrite app_nil_r. split; [reflexivity | simpl; lia].
    + split; [constructor | reflexivity].
  - destruct (process_orders_log (order :: rest) (with_queue m []))
      as (Hqueue & fills & Hlog & Hlen).
    split; [exact Hqueue |]. split.
    + exists fills. split; [exact Hlog | exact Hlen].
    + apply (process_orders_raises (order :: rest) (with_queue m [])).
Qed.

Lemma process_orders_app (before after : list Order) :
  forall m,
    snd (process_orders before m) = None ->
    process_orders (before ++ after) m
    = process_orders after (fst (process_orders before m)).
Proof.
  induction before as [| order rest IH]; intros m Hok; simpl in *; [reflexivity |].
  destruct (settle m order) as [e | m1]; [discriminate |]. now apply IH.
Qed.

(** X4.  When the queue holds an order for a strategy the firm does not
    hold, after orders it does hold, [execute_orders] settles the orders
    before it, raises [KeyError] with its id, and the orders behind it are
    lost: the queue is empty and none of them is settled. *)
Theorem unknown_strategy_aborts_the_queue
    (m : MarketSimulator) (before : list Order) (bad : Order) (behind : list Order) :
  order_queue m = before ++ bad :: behind ->
  Forall (known m) before ->
  ~ known m bad ->
  execute_orders m
  = (fst (process_orders before (with_queue m [])), Some (KeyError (o_id bad)))
  /\ order_queue (fst (execute_orders m)) = [].
Proof.
  intros Hq Hbefore Hbad.
  assert (Hrun : execute_orders m
                 = process_orders (before ++ bad :: behind) (with_queue m [])).
  { unfold execute_orders. rewrite Hq.
    destruct (before ++ bad :: behind) eqn:E; [| reflexivity].
    now destruct before. }
  assert (Hok : snd (process_orders before (with_queue m [])) = None)
    by now apply process_orders_raises.
  rewrite Hrun, (process_orders_app before (bad :: behind) _ Hok).
  set (m1 := fst (process_orders before (with_queue m []))).
  assert (Hstill : ~ known m1 bad).
  { intros Hk. apply Hbad. clear Hrun.
    assert (Hgen : forall orders m0,
              snd (process_orders orders m0) = None ->
              known (fst (process_orders orders m0)) bad -> known m0 bad).
    { induction orders as [| o rest IH]; intros m0 H0 Hk0; simpl in *;
        [exact Hk0 |].
      destruct (settle m0 o) as [e | m2] eqn:E; [discriminate |].
      apply (settle_known m0 m2 o bad E). now apply IH. }
    exact (Hgen before (with_queue m []) Hok Hk). }
  simpl. unfold settle.
  destruct (strategies (firm m1) !! o_id bad) as [s |] eqn:Hs;
    [exfalso; apply Hstill; unfold known; rewrite Hs; eauto |].
  split; [reflexivity |]. simpl.
  unfold m1. now destruct (process_orders_log before (with_queue m [])) as [-> _].
Qed.

End Accounting.

(** ** What a decision does to the strategy that takes it *)
Module Decisions.
Import Atlas.

Lemma py_int_nonneg (q : Q) : 0 <= q -> (0 <= py_int q)%Z.
Proof.
  intros Hq. unfold py_int. apply Z.quot_pos; [| lia].
  unfold Qle in Hq. simpl in Hq. lia.
Qed.

(** The exit prices a buy at [price] arms, by class. *)
Definition armed (c : AtlasClass) (self : AtlasStrategy) (price : Q) : AtlasStrategy :=
  match c with
  | AtlasTrendFollowing config =>
      with_exit_prices self
        (price * (1 - StrategyConfig.STOP_LOSS_PCT config))
        (price * (1 + StrategyConfig.TAKE_PROFIT_PCT config))
  | AtlasMeanReversion config =>
      with_exit_prices self
        (price * (1 - StrategyConfig.MR_STOP_LOSS_PCT config))
        (price * (1 + StrategyConfig.MR_TAKE_PROFIT_PCT config))
  end.

Section WithNumLib.
Context `{NumLib}.

(** X5.  A backtest decision never writes to the cash, the shares, the id,
    the class or the risk fraction of the strategy.  [HOLD] comes with
    quantity 0 and the strategy as it was.  [BUY] is only returned by a flat
    strategy with enough history and a positive average true range; its
    quantity is [int(cash * risk_per_trade / atr)], not negative when cash
    and risk fraction are not, and the strategy leaves with stop-loss and
    take-profit armed around the price.  [SELL] is only returned by a
    strategy that holds shares; it comes with quantity 0 and both exit
    prices cleared. *)
Theorem decision_writes_exit_prices_only
    (self : AtlasStrategy) (history : list Bar) (price : Q) :
  let '(signal, quantity, self') := decide_action self history price in
  cash self' = cash self /\ shares self' = shares self
  /\ id self' = id self /\ class self' = class self
  /\ risk_per_trade self' = risk_per_trade self
  /\ (signal = HOLD -> quantity = 0%Z /\ self' = self)
  /\ (signal = BUY ->
      shares self = 0%Z
      /\ (WarmUp.warm_up_window (class self) <= Z.of_nat (length history))%Z
      /\ 0 < _calculate_atr history 14
      /\ quantity
         = py_int ((cash self * risk_per_trade self) / _calculate_atr history 14)
      /\ (0 <= cash self -> 0 <= risk_per_trade self -> (0 <= quantity)%Z)
      /\ self' = armed (class self) self price)
  /\ (signal = SELL ->
      shares self <> 0%Z /\ quantity = 0%Z /\ self' = _clear_exit_prices self).
Proof.
  unfold decide_action, WarmUp.warm_up_window, armed.
  destruct (class self) as [config | config] eqn:Hclass;
    unfold AtlasTrendFollowing_decide_action, AtlasMeanReversion_decide_action.
  - destruct (Z.ltb_spec (Z.of_nat (length history))
                         (StrategyConfig.LONG_WINDOW config)) as [_ | Hlong];
      [repeat split; try discriminate; auto |].
    destruct (Z.eqb_spec (shares self) 0) as [Hflat | Hheld].
    + destruct (_ && _); [| repeat split; try discriminate; auto].
      destruct (Qlt_bool 0 (_calculate_atr history 14)) eqn:Hatr;
        [| repeat split; try discriminate; auto].
      apply Qlt_bool_true in Hatr.
      repeat split; try discriminate; auto.
      intros Hc Hr. apply py_int_nonneg.
      apply Qle_shift_div_l; [exact Hatr |]. rewrite Qmult_0_l.
      now apply Qmult_le_0_compat.
    + destruct (flt _ _); repeat split; try discriminate; auto.
  - destruct (Z.ltb_spec (Z.of_nat (length history))
                         (StrategyConfig.WINDOW config)) as [_ | Hlong];
      [repeat split; try discriminate; auto |].
    destruct (Z.eqb_spec (shares self) 0) as [Hflat | Hheld].
    + destruct (_ && _); [| repeat split; try discriminate; auto].
      destruct (Qlt_bool 0 (_calculate_atr history 14)) eqn:Hatr;
        [| repeat split; try discriminate; auto].
      apply Qlt_bool_true in Hatr.
      repeat split; try discriminate; auto.
      intros Hc Hr. apply py_int_nonneg.
      apply Qle_shift_div_l; [exact Hatr |]. rewrite Qmult_0_l.
      now apply Qmult_le_0_compat.
    + destruct (fgt _ _); repeat split; try discriminate; auto.
Qed.

(** X6.  A live decision never writes to the cash or the positions.
    [BUY] is only returned for a symbol the strategy holds no share of, and
    arms stop-loss and take-profit of that symbol around the tick price,
    leaving the exit prices of every other symbol alone; [SELL] is only
    returned for a symbol held with a positive position; [SELL] and [HOLD]
    leave the strategy as it was. *)
Theorem live_decision_writes_exit_prices_only
    (self : Citadel.LiveStrategy) (symbol : string) (tick : Citadel.Tick) :
  let '(signal, self') := Citadel.decide_action self symbol tick in
  Citadel.cash self' = Citadel.cash self
  /\ Citadel.positions self' = Citadel.positions self
  /\ (signal = BUY ->
      Citadel.position self symbol = 0%Z
      /\ self' = Citadel._set_exit_prices self symbol (Citadel.tick_price tick)
      /\ forall other, other <> symbol ->
           Citadel.stop_loss_prices self' !! other
           = Citadel.stop_loss_prices self !! other
           /\ Citadel.take_profit_prices self' !! other
              = Citadel.take_profit_prices self !! other)
  /\ (signal = SELL -> (0 < Citadel.position self symbol)%Z /\ self' = self)
  /\ (signal = HOLD -> self' = self).
Proof.
  assert (Hbuy : forall s,
            s = Citadel._set_exit_prices self symbol (Citadel.tick_price tick) ->
            forall other, other <> symbol ->
              Citadel.stop_loss_prices s !! other
              = Citadel.stop_loss_prices self !! other
              /\ Citadel.take_profit_prices s !! other
                 = Citadel.take_profit_prices self !! other).
  { intros s -> other Hne. simpl. now rewrite !lookup_insert_ne by congruence. }
  unfold Citadel.decide_action.
  destruct (Citadel.class self) as [config | config];
    unfold Citadel.LiveTrendFollowing_decide_action,
           Citadel.LiveMeanReversion_decide_action;
    (destruct (Citadel.tick_history tick) as [h |];
       [| repeat split; try discriminate; auto]);
    (destruct (_ || _); [repeat split; try discriminate; auto |]);
    (destruct (ta_rsi _ _) as [[| r rsi] |];
       [repeat split; try discriminate; auto | |
        repeat split; try discriminate; auto]).
  - destruct (_ && _ && (Citadel.position self symbol =? 0)%Z) eqn:Hb.
    + apply andb_prop in Hb as [_ Hz]. apply Z.eqb_eq in Hz.
      repeat split; try discriminate; auto; now apply (Hbuy _ eq_refl).
    + destruct (flt _ _ && (0 <? Citadel.position self symbol)%Z) eqn:Hs;
        [| repeat split; try discriminate; auto].
      apply andb_prop in Hs as [_ Hp]. apply Z.ltb_lt in Hp.
      repeat split; try discriminate; auto.
  - destruct (tail_std _ _) as [sd |]; [| repeat split; try discriminate; auto].
    destruct (Qeq_bool sd 0); [repeat split; try discriminate; auto |].
    destruct (_ && _ && (Citadel.position self symbol =? 0)%Z) eqn:Hb.
    + apply andb_prop in Hb as [_ Hz]. apply Z.eqb_eq in Hz.
      repeat split; try discriminate; auto; now apply (Hbuy _ eq_refl).
    + destruct (fgt _ _ && (0 <? Citadel.position self symbol)%Z) eqn:Hs;
        [| repeat split; try discriminate; auto].
      apply andb_prop in Hs as [_ Hp]. apply Z.ltb_lt in Hp.
      repeat split; try discriminate; auto.
Qed.

End WithNumLib.
End Decisions.

(** ** The backtest loop: [run_daily_operations], [get_total_equity], [run] *)
Module Backtest.
Import Atlas.

(** The order in which the dictionary of strategies is iterated.  A Python
    dictionary iterates in insertion order, and the constructor inserts in
    the order of [STRATEGY_REGISTRY]; no other code inserts. *)
Definition strategy_order (pm : PortfolioManager) : list string :=
  filter (fun name => is_Some (strategies pm !! name))
         (map registered_name STRATEGY_REGISTRY).

(** [PortfolioManager.get_total_equity] *)
Definition get_total_equity (pm : PortfolioManager) (price : Q) : Q :=
  fold_left
    (fun acc name =>
       match strategies pm !! name with
       | Some strategy => acc + get_equity strategy price
       | None => acc
       end)
    (strategy_order pm) 0.

(** The strategy object bound to [name] after a write to its fields. *)
Definition with_strategy (m : MarketSimulator) (name : string)
    (s : AtlasStrategy) : MarketSimulator :=
  mkMarketSimulator
    (mkPortfolioManager (initial_capital (firm m))
                        (<[name := s]> (strategies (firm m))))
    (order_queue m) (trade_log m) (slippage_bps m) (history m) (price m).

Definition with_history (m : MarketSimulator) (h : list Bar) : MarketSimulator :=
  mkMarketSimulator (firm m) (order_queue m) (trade_log m) (slippage_bps m)
                    h (price m).

Definition stop_loss_hit (m : MarketSimulator) (strategy : AtlasStrategy) : bool :=
  Qlt_bool 0 (stop_loss_price strategy)
  && Qle_bool (price m) (stop_loss_price strategy).

Definition take_profit_hit (m : MarketSimulator) (strategy : AtlasStrategy) : bool :=
  Qlt_bool 0 (take_profit_price strategy)
  && Qle_bool (take_profit_price strategy) (price m).

(** The forced exit of both triggers: the whole position is offered for
    sale and the exit prices are cleared. *)
Definition forced_exit (m : MarketSimulator) (name : string)
    (strategy : AtlasStrategy) : MarketSimulator :=
  with_strategy (submit_order m (id strategy) "sell" (shares strategy))
                name (_clear_exit_prices strategy).

Section WithNumLib.
Context `{NumLib}.

(** The end of the loop body of [run_daily_operations]: the strategy is
    asked, and its answer becomes an order or nothing. *)
Definition consult (m : MarketSimulator) (name : string)
    (strategy : AtlasStrategy) : MarketSimulator :=
  let '(signal, quantity, strategy') :=
    decide_action strategy (history m) (price m) in
  let m1 := with_strategy m name strategy' in
  match signal with
  | BUY =>
      if (0 <? quantity)%Z
      then submit_order m1 (id strategy') "buy" quantity
      else m1
  | SELL =>
      if (0 <? shares strategy')%Z
      then submit_order m1 (id strategy') "sell" (shares strategy')
      else m1
  | HOLD => m1
  end.

(** The body of [for strategy in self.strategies.values()] in
    [run_daily_operations], for the strategy bound to [name]: stop-loss,
    then take-profit, then the strategy's own decision. *)
Definition daily_operation (m : MarketSimulator) (name : string)
  : MarketSimulator :=
  match strategies (firm m) !! name with
  | None => m
  | Some strategy =>
      if (0 <? shares strategy)%Z && stop_loss_hit m strategy
      then forced_exit m name strategy
      else if (0 <? shares strategy)%Z && take_profit_hit m strategy
      then forced_exit m name strategy
      else consult m name strategy
  end.

Definition run_daily_operations (m : MarketSimulator) : MarketSimulator :=
  fold_left daily_operation (strategy_order (firm m)) m.

(** [max_warmup_window] of [run]: the largest window attribute of any
    strategy configuration, and at least 20. *)
Definition config_windows (c : AtlasClass) : list Z :=
  match c with
  | AtlasTrendFollowing config =>
      [StrategyConfig.LONG_WINDOW config; StrategyConfig.RSI_WINDOW config]
  | AtlasMeanReversion config =>
      [StrategyConfig.WINDOW config; StrategyConfig.MR_RSI_WINDOW config]
  end.

Definition max_warmup_window (pm : PortfolioManager) : Z :=
  Z.max 20
    (fold_left
       (fun w name =>
          match strategies pm !! name with
          | Some strategy => fold_left Z.max (config_windows (class strategy)) w
          | None => w
          end)
       (strategy_order pm) 0%Z).

(** What [run] has in hand while it loops: the simulator, the equity values
    recorded so far, and the exception that ended the loop, if one did. *)
Record run_state : Type := mkRunState {
  sim : MarketSimulator;
  equity_curve_values : list Q;
  raised : option exn
}.

(** The first statements of the loop body: the close becomes the price, the
    row joins the history, and the oldest row leaves a history longer than
    [max_warmup_window + 50]. *)
Definition open_bar (window : Z) (m : MarketSimulator) (row : Bar)
  : MarketSimulator :=
  let m1 := with_history (with_price m (Close row)) (history m ++ [row]) in
  if (window + 50 <? Z.of_nat (length (history m1)))%Z
  then with_history m1 (List.tail (history m1))
  else m1.

(** The rest of the loop body, for the bar of index [i]. *)
Definition trade_bar (window : Z) (i : nat) (st : run_state) (row : Bar)
  : run_state :=
  let m1 := open_bar window (sim st) row in
  if (window - 1 <=? Z.of_nat i)%Z then
    let '(m2, e) := execute_orders (run_daily_operations m1) in
    match e with
    | Some _ => mkRunState m2 (equity_curve_values st) e
    | None =>
        mkRunState m2
          (equity_curve_values st ++ [get_total_equity (firm m2) (price m2)])
          None
    end
  else mkRunState m1 (equity_curve_values st) None.

(** The loop over the rows from index [i] on; it stops at an exception. *)
Fixpoint run_from (window : Z) (i : nat) (rows : list Bar) (st : run_state)
  : run_state :=
  match rows with
  | [] => st
  | row :: rest =>
      let st' := trade_bar window i st row in
      match raised st' with
      | Some _ => st'
      | None => run_from window (S i) rest st'
      end
  end.

(** [MarketSimulator.run], up to the return statement. *)
Definition run_loop (m : MarketSimulator) (data : list Bar) : run_state :=
  run_from (max_warmup_window (firm m)) 0 data (mkRunState m [] None).

(** [MarketSimulator.run]: the exception that left the loop, or the pair
    returned, the equity values and the trades. *)
Definition run (m : MarketSimulator) (data : list Bar)
  : exn + (list Q * list Trade) :=
  let st := run_loop m data in
  match raised st with
  | Some e => inl e
  | None =>
      match equity_curve_values st with
      | [] => inr ([], [])
      | values => inr (values, trade_log (sim st))
      end
  end.

(** *** The books during [run_daily_operations] *)

(** A strategy after the firm's morning round: the same capital, identity
    and class. *)
Definition same_capital (s s' : AtlasStrategy) : Prop :=
  cash s' = cash s /\ shares s' = shares s /\ id s' = id s
  /\ class s' = class s /\ risk_per_trade s' = risk_per_trade s.

(** Everything of the simulator that is neither a strategy nor the queue. *)
Definition same_market (m m' : MarketSimulator) : Prop :=
  trade_log m' = trade_log m /\ price m' = price m
  /\ history m' = history m /\ slippage_bps m' = slippage_bps m
  /\ initial_capital (firm m') = initial_capital (firm m).

(** An order as the morning round submits it for strategy [s]: under the id
    of [s], for a positive quantity, and a sale for the whole position. *)
Definition submitted_for (s : AtlasStrategy) (o : Order) : Prop :=
  o_id o = id s /\ (0 < o_qty o)%Z
  /\ ((o_side o = "sell"%string /\ o_qty o = shares s)
      \/ o_side o = "buy"%string).

Lemma same_capital_refl (s : AtlasStrategy) : same_capital s s.
Proof. now repeat split. Qed.

Lemma same_market_refl (m : MarketSimulator) : same_market m m.
Proof. now repeat split. Qed.

Lemma same_market_trans (a b c : MarketSimulator) :
  same_market a b -> same_market b c -> same_market a c.
Proof. unfold same_market. intuition congruence. Qed.

Lemma submit_order_queue (m : MarketSimulator) (i side : string) (q : Z) :
  (0 < q)%Z ->
  submit_order m i side q = with_queue m (order_queue m ++ [mkOrder i side q]).
Proof.
  intros Hq. unfold submit_order. apply Z.ltb_lt in Hq. now rewrite Hq.
Qed.

Lemma decide_action_same_capital (s : AtlasStrategy) (h : list Bar) (p : Q) :
  same_capital s (snd (decide_action s h p)).
Proof.
  unfold decide_action.
  destruct (class s) as [config | config];
    unfold AtlasTrendFollowing_decide_action, AtlasMeanReversion_decide_action;
    destruct (_ <? _)%Z; try apply same_capital_refl;
    destruct (shares s =? 0)%Z;
    repeat match goal with
           | |- context [if ?b then _ else _] => destruct b
           end;
    simpl; now repeat split.
Qed.

(** The turn of a strategy, whichever branch it takes: its capital is not
    written to, at most one order joins the queue, and the market side of
    the simulator is as it was. *)
Definition turn_of (m m' : MarketSimulator) (name : string) (s : AtlasStrategy)
  : Prop :=
  exists s' orders,
    strategies (firm m') = <[name := s']> (strategies (firm m))
    /\ same_capital s s'
    /\ order_queue m' = order_queue m ++ orders
    /\ (orders = [] \/ exists o, orders = [o] /\ submitted_for s o)
    /\ same_market m m'.

Lemma forced_exit_turn (m : MarketSimulator) (name : string) (s : AtlasStrategy) :
  (0 < shares s)%Z -> turn_of m (forced_exit m name s) name s.
Proof.
  intros Hpos. unfold forced_exit. rewrite submit_order_queue by exact Hpos.
  exists (_clear_exit_prices s), [mkOrder (id s) "sell" (shares s)].
  simpl. split; [reflexivity |]. split; [now repeat split |].
  split; [reflexivity |]. split; [| now repeat split].
  right. eexists. split; [reflexivity |]. split; [reflexivity |].
  split; [exact Hpos |]. left. now split.
Qed.

Lemma consult_turn (m : MarketSimulator) (name : string) (s : AtlasStrategy) :
  turn_of m (consult m name s) name s.
Proof.
  unfold consult.
  pose proof (decide_action_same_capital s (history m) (price m)) as Hsame.
  destruct (decide_action s (history m) (price m)) as [[signal quantity] s'].
  simpl in Hsame. assert (Hi : id s' = id s) by apply Hsame.
  assert (Hsh : shares s' = shares s) by apply Hsame.
  assert (Hquiet : turn_of m (with_strategy m name s') name s).
  { exists s', []. simpl. rewrite app_nil_r.
    split; [reflexivity |]. split; [exact Hsame |]. split; [reflexivity |].
    split; [now left | now repeat split]. }
  destruct signal; [| | exact Hquiet].
  - destruct (Z.ltb_spec 0 quantity) as [Hq | _]; [| exact Hquiet].
    rewrite submit_order_queue by exact Hq.
    exists s', [mkOrder (id s') "buy" quantity]. simpl.
    split; [reflexivity |]. split; [exact Hsame |]. split; [reflexivity |].
    split; [| now repeat split].
    right. eexists. split; [reflexivity |]. split; [exact Hi |].
    split; [exact Hq |]. now right.
  - destruct (Z.ltb_spec 0 (shares s')) as [Hq | _]; [| exact Hquiet].
    rewrite submit_order_queue by exact Hq.
    exists s', [mkOrder (id s') "sell" (shares s')]. simpl.
    split; [reflexivity |]. split; [exact Hsame |]. split; [reflexivity |].
    split; [| now repeat split].
    right. eexists. split; [reflexivity |]. split; [exact Hi |].
    split; [exact Hq |]. left. now split.
Qed.

Lemma daily_operation_turn (m : MarketSimulator) (name : string)
    (s : AtlasStrategy) :
  strategies (firm m) !! name = Some s ->
  turn_of m (daily_operation m name) name s.
Proof.
  intros Hs. unfold daily_operation. rewrite Hs.
  destruct (Z.ltb_spec 0 (shares s)) as [Hpos | Hflat]; simpl.
  - destruct (stop_loss_hit m s); [now apply forced_exit_turn |].
    destruct (take_profit_hit m s); [now apply forced_exit_turn |].
    apply consult_turn.
  - apply consult_turn.
Qed.

(** The morning round over the strategies [names], each once. *)
Lemma daily_operations_round (names : list string) :
  forall m,
    NoDup names ->
    let m' := fold_left daily_operation names m in
    exists who orders,
      order_queue m' = order_queue m ++ orders
      /\ NoDup who
      /\ (forall name, name ∈ who -> name ∈ names)
      /\ Forall2 (fun name o =>
                    exists s, strategies (firm m) !! name = Some s
                              /\ submitted_for s o) who orders
      /\ (forall name s, strategies (firm m) !! name = Some s ->
            exists s', strategies (firm m') !! name = Some s' /\ same_capital s s')
      /\ (forall name, strategies (firm m) !! name = None ->
            strategies (firm m') !! name = None)
      /\ same_market m m'.
Proof.
  induction names as [| n rest IH]; intros m Hnd m'.
  - exists [], []. unfold m'. simpl. rewrite app_nil_r.
    split; [reflexivity |]. split; [constructor |].
    split; [intros name Hin; exact Hin |]. split; [constructor |].
    split; [intros name s Hs; exists s; split;
            [exact Hs | apply same_capital_refl] |].
    split; [auto | apply same_market_refl].
  - apply NoDup_cons in Hnd as [Hfresh Hnd].
    unfold m'. simpl fold_left.
    destruct (strategies (firm m) !! n) as [s |] eqn:Hs.
    + destruct (daily_operation_turn m n s Hs)
        as (s1 & first & Hmap & Hsame & Hqueue & Hfirst & Hmarket).
      set (m1 := daily_operation m n) in *.
      destruct (IH m1 Hnd) as (who & orders & Hq & Hwho & Hsub & Hall & Hkeep
                               & Hnone & Hmk).
      assert (Hother : forall name, name <> n ->
                strategies (firm m1) !! name = strategies (firm m) !! name).
      { intros name Hne. rewrite Hmap. now rewrite lookup_insert_ne. }
      assert (Hrest : Forall2 (fun name o =>
                         exists s0, strategies (firm m) !! name = Some s0
                                    /\ submitted_for s0 o) who orders).
      { clear Hq. induction Hall as [| name o who' orders' Hno Hall' IHall];
          [constructor |].
        apply NoDup_cons in Hwho as [_ Hwho].
        constructor.
        - destruct Hno as (s0 & Hs0 & Hsub0). exists s0. split; [| exact Hsub0].
          rewrite <- Hother; [exact Hs0 |].
          intros ->. apply Hfresh. apply Hsub. now left.
        - apply IHall; [exact Hwho |]. intros name' Hin. apply Hsub. now right. }
      assert (Hstrategies :
                forall name s0, strategies (firm m) !! name = Some s0 ->
                  exists s', strategies (firm (fold_left daily_operation rest m1))
                             !! name = Some s'
                             /\ same_capital s0 s').
      { intros name s0 Hs0. destruct (decide (name = n)) as [-> | Hne].
        - assert (s0 = s) by congruence. subst s0.
          assert (H1 : strategies (firm m1) !! n = Some s1)
            by (rewrite Hmap; apply lookup_insert_eq).
          destruct (Hkeep n s1 H1) as (s' & Hs' & Hsame').
          exists s'. split; [exact Hs' |].
          unfold same_capital in *. intuition congruence.
        - apply Hkeep. now rewrite Hother. }
      assert (Hmissing :
                forall name, strategies (firm m) !! name = None ->
                  strategies (firm (fold_left daily_operation rest m1)) !! name
                  = None).
      { intros name Hn. apply Hnone. rewrite Hother; [exact Hn | congruence]. }
      destruct Hfirst as [-> | (o & -> & Ho)].
      * exists who, orders. rewrite app_nil_r in Hqueue.
        split; [congruence |]. split; [exact Hwho |].
        split; [intros name Hin; right; now apply Hsub |].
        split; [exact Hrest |]. split; [exact Hstrategies |].
        split; [exact Hmissing | now apply same_market_trans with m1].
      * exists (n :: who), (o :: orders).
        split; [rewrite Hq, Hqueue, <- app_assoc; reflexivity |].
        split; [apply NoDup_cons; split; [| exact Hwho];
                intros Hin; apply Hfresh; now apply Hsub |].
        split; [intros name Hin; apply elem_of_cons in Hin as [-> | Hin];
                [now left | right; now apply Hsub] |].
        split; [constructor; [exists s; now split | exact Hrest] |].
        split; [exact Hstrategies |].
        split; [exact Hmissing | now apply same_market_trans with m1].
    + assert (Hm1 : daily_operation m n = m)
        by (unfold daily_operation; now rewrite Hs).
      rewrite Hm1.
      destruct (IH m Hnd) as (who & orders & Hq & Hwho & Hsub & Hall & Hkeep
                              & Hnone & Hmk).
      exists who, orders. split; [exact Hq |]. split; [exact Hwho |].
      split; [intros name Hin; right; now apply Hsub |].
      split; [exact Hall |]. split; [exact Hkeep |].
      split; [exact Hnone | exact Hmk].
Qed.

Lemma strategy_order_NoDup (pm : PortfolioManager) : NoDup (strategy_order pm).
Proof.
  unfold strategy_order. apply NoDup_filter. simpl.
  apply NoDup_cons. split; [| apply NoDup_singleton].
  intros Hin. apply list_elem_of_singleton in Hin. discriminate.
Qed.

(** X7.  The morning round writes to no strategy's cash, shares, id, class
    or risk fraction, to no fill, and neither to the price nor to the
    history; it adds no strategy and removes none.  It appends to the queue
    at most one order per strategy, each under the id of its strategy and
    for a positive quantity, and every sale it submits is for the whole
    position of the strategy. *)
Theorem morning_round_submits_one_order_each (m : MarketSimulator) :
  let m' := run_daily_operations m in
  exists who orders,
    order_queue m' = order_queue m ++ orders
    /\ NoDup who
    /\ Forall2 (fun name o =>
                  exists s, strategies (firm m) !! name = Some s
                            /\ submitted_for s o) who orders
    /\ (forall name s, strategies (firm m) !! name = Some s ->
          exists s', strategies (firm m') !! name = Some s' /\ same_capital s s')
    /\ (forall name, strategies (firm m) !! name = None ->
          strategies (firm m') !! name = None)
    /\ same_market m m'.
Proof.
  intros m'.
  destruct (daily_operations_round (strategy_order (firm m)) m
              (strategy_order_NoDup (firm m)))
    as (who & orders & Hq & Hwho & _ & Hall & Hkeep & Hnone & Hmk).
  exists who, orders. split; [exact Hq |]. split; [exact Hwho |].
  split; [exact Hall |]. split; [exact Hkeep |]. split; [exact Hnone | exact Hmk].
Qed.

(** *** One bar: the morning round, then the execution of its orders *)

Definition bar_cycle (m : MarketSimulator) : MarketSimulator * option exn :=
  execute_orders (run_daily_operations m).

(** Every strategy is bound to its own id, as the constructor binds it. *)
Definition ids_are_keys (m : MarketSimulator) : Prop :=
  forall name s, strategies (firm m) !! name = Some s -> id s = name.

(** Every key is a name of the registry, as in the constructor. *)
Definition keys_registered (m : MarketSimulator) : Prop :=
  forall name, is_Some (strategies (firm m) !! name) ->
    name ∈ map registered_name STRATEGY_REGISTRY.

(** What settlement and the morning round never write to. *)
Definition same_identity (s s' : AtlasStrategy) : Prop :=
  id s' = id s /\ class s' = class s /\ risk_per_trade s' = risk_per_trade s.

Definition same_firm (m m' : MarketSimulator) : Prop :=
  (forall name s, strategies (firm m) !! name = Some s ->
     exists s', strategies (firm m') !! name = Some s' /\ same_identity s s')
  /\ (forall name, strategies (firm m) !! name = None ->
        strategies (firm m') !! name = None).

Lemma same_firm_refl (m : MarketSimulator) : same_firm m m.
Proof.
  split; [| auto]. intros name s Hs. exists s. now repeat split.
Qed.

Lemma same_firm_trans (a b c : MarketSimulator) :
  same_firm a b -> same_firm b c -> same_firm a c.
Proof.
  intros [Hab Hab'] [Hbc Hbc']. split.
  - intros name s Hs. destruct (Hab name s Hs) as (s1 & Hs1 & Hi1).
    destruct (Hbc name s1 Hs1) as (s2 & Hs2 & Hi2).
    exists s2. split; [exact Hs2 |]. unfold same_identity in *. intuition congruence.
  - intros name Hn. apply Hbc'. now apply Hab'.
Qed.

Lemma same_firm_keys (m m' : MarketSimulator) (name : string) :
  same_firm m m' ->
  (is_Some (strategies (firm m') !! name) <-> is_Some (strategies (firm m) !! name)).
Proof.
  intros [Hsome Hnone].
  destruct (strategies (firm m) !! name) as [s |] eqn:Hs.
  - destruct (Hsome name s Hs) as (s' & -> & _). split; eauto.
  - rewrite (Hnone name Hs). reflexivity.
Qed.

Lemma same_firm_well_formed (m m' : MarketSimulator) :
  same_firm m m' ->
  ids_are_keys m -> keys_registered m ->
  ids_are_keys m' /\ keys_registered m'.
Proof.
  intros Hsame Hids Hkeys. split.
  - intros name s' Hs'.
    destruct (strategies (firm m) !! name) as [s |] eqn:Hs.
    + destruct (proj1 Hsame name s Hs) as (s1 & Hs1 & Hi & _).
      assert (s1 = s') by congruence. subst s1.
      rewrite Hi. now apply Hids.
    + rewrite (proj2 Hsame name Hs) in Hs'. discriminate.
  - intros name Hin. apply Hkeys. now apply (same_firm_keys m m' name Hsame).
Qed.

Lemma settle_same_firm (m m' : MarketSimulator) (order : Order) :
  settle m order = inr m' -> same_firm m m'.
Proof.
  intros Hsettle.
  destruct (Accounting.settle_cases m m' order Hsettle) as (s0 & Hs0 & _).
  split.
  - intros name s Hs. destruct (decide (name = o_id order)) as [-> | Hne].
    + destruct (Accounting.settle_lookup_self m m' order s Hsettle Hs)
        as (s' & Hs' & Hi & Hc & Hr & _).
      exists s'. now repeat split.
    + exists s. split; [| now repeat split].
      now rewrite (Accounting.settle_lookup_other m m' order name Hsettle Hne).
  - intros name Hn.
    rewrite (Accounting.settle_lookup_other m m' order name Hsettle);
      [exact Hn | congruence].
Qed.

Lemma process_orders_same_firm (orders : list Order) :
  forall m, same_firm m (fst (process_orders orders m)).
Proof.
  induction orders as [| order rest IH]; intros m; simpl;
    [apply same_firm_refl |].
  destruct (settle m order) as [e | m1] eqn:E; simpl; [apply same_firm_refl |].
  apply same_firm_trans with m1; [now apply settle_same_firm with order | apply IH].
Qed.

Lemma process_orders_market (orders : list Order) :
  forall m,
    price (fst (process_orders orders m)) = price m
    /\ slippage_bps (fst (process_orders orders m)) = slippage_bps m
    /\ history (fst (process_orders orders m)) = history m.
Proof.
  induction orders as [| order rest IH]; intros m; simpl; [now repeat split |].
  destruct (settle m order) as [e | m1] eqn:E; simpl; [now repeat split |].
  destruct (Accounting.settle_market m m1 order E) as (Hp & Hs & Hh & _).
  destruct (IH m1) as (Hp1 & Hs1 & Hh1). repeat split; congruence.
Qed.

Lemma execute_orders_run (m : MarketSimulator) :
  execute_orders m = process_orders (order_queue m) (with_queue m []).
Proof.
  unfold execute_orders.
  destruct (order_queue m) eqn:E; [| reflexivity].
  simpl. destruct m; simpl in *. now subst.
Qed.

Lemma same_capital_identity (s s' : AtlasStrategy) :
  same_capital s s' -> same_identity s s'.
Proof. unfold same_capital, same_identity. intuition. Qed.

Lemma morning_round_same_firm (m : MarketSimulator) :
  same_firm m (run_daily_operations m).
Proof.
  destruct (daily_operations_round (strategy_order (firm m)) m
              (strategy_order_NoDup (firm m)))
    as (who & orders & _ & _ & _ & _ & Hkeep & Hnone & _).
  split; [| exact Hnone].
  intros name s Hs. destruct (Hkeep name s Hs) as (s' & Hs' & Hsame).
  exists s'. split; [exact Hs' | now apply same_capital_identity].
Qed.

Lemma same_firm_ids (m m' : MarketSimulator) :
  same_firm m m' -> ids_are_keys m -> ids_are_keys m'.
Proof.
  intros Hsame Hids name s' Hs'.
  destruct (strategies (firm m) !! name) as [s |] eqn:Hs.
  - destruct (proj1 Hsame name s Hs) as (s1 & Hs1 & Hi & _).
    assert (s1 = s') by congruence. subst s1. rewrite Hi. now apply Hids.
  - rewrite (proj2 Hsame name Hs) in Hs'. discriminate.
Qed.

(** A bar from an empty queue, every strategy bound to its own id. *)
Lemma bar_cycle_runs (m : MarketSimulator) :
  ids_are_keys m ->
  order_queue m = [] ->
  snd (bar_cycle m) = None
  /\ order_queue (fst (bar_cycle m)) = []
  /\ same_firm m (fst (bar_cycle m))
  /\ price (fst (bar_cycle m)) = price m
  /\ history (fst (bar_cycle m)) = history m
  /\ slippage_bps (fst (bar_cycle m)) = slippage_bps m
  /\ exists fills, trade_log (fst (bar_cycle m)) = trade_log m ++ fills.
Proof.
  intros Hids Hempty. unfold bar_cycle.
  set (m1 := run_daily_operations m).
  destruct (daily_operations_round (strategy_order (firm m)) m
              (strategy_order_NoDup (firm m)))
    as (who & orders & Hq & _ & _ & Hall & Hkeep & _ & Hmk).
  fold (run_daily_operations m) in Hq, Hkeep, Hmk. fold m1 in Hq, Hkeep, Hmk.
  rewrite Hempty in Hq. simpl in Hq.
  pose proof (morning_round_same_firm m) as Hround. fold m1 in Hround.
  rewrite execute_orders_run.
  pose proof (process_orders_same_firm (order_queue m1) (with_queue m1 []))
    as Hexec.
  destruct (process_orders_market (order_queue m1) (with_queue m1 []))
    as (Hp & Hs & Hh).
  destruct (Accounting.process_orders_log (order_queue m1) (with_queue m1 []))
    as (Hqueue & fills & Hlog & _).
  destruct Hmk as (Hlog1 & Hp1 & Hh1 & Hs1 & _).
  split; [| split; [exact Hqueue | split; [| split; [| split; [| split]]]]].
  - apply Accounting.process_orders_raises. rewrite Hq.
    clear Hq. induction Hall as [| name o who' orders' Hno _ IH]; constructor;
      [| exact IH].
    destruct Hno as (s & Hs0 & Hid & _).
    unfold Accounting.known. simpl. rewrite Hid, (Hids name s Hs0).
    destruct (Hkeep name s Hs0) as (s' & -> & _). eauto.
  - apply same_firm_trans with m1; [exact Hround |].
    destruct Hexec as [He1 He2]. split; [exact He1 | exact He2].
  - rewrite Hp. exact Hp1.
  - rewrite Hh. exact Hh1.
  - rewrite Hs. exact Hs1.
  - exists fills. rewrite Hlog. simpl. now rewrite Hlog1.
Qed.

(** X8.  When every strategy is bound to its own id and the queue is
    empty, a bar never raises and leaves the queue empty again: every order
    of the morning round is executed or dropped within the bar, none carries
    over.  The bar adds no strategy and removes none, keeps every strategy
    bound to its id, and writes neither to the price nor to the history. *)
Theorem bar_carries_no_order_over (m : MarketSimulator) :
  ids_are_keys m ->
  order_queue m = [] ->
  snd (bar_cycle m) = None
  /\ order_queue (fst (bar_cycle m)) = []
  /\ ids_are_keys (fst (bar_cycle m))
  /\ (forall name,
        is_Some (strategies (firm (fst (bar_cycle m))) !! name)
        <-> is_Some (strategies (firm m) !! name))
  /\ price (fst (bar_cycle m)) = price m
  /\ history (fst (bar_cycle m)) = history m.
Proof.
  intros Hids Hempty.
  destruct (bar_cycle_runs m Hids Hempty)
    as (Hnone & Hq & Hsame & Hp & Hh & _).
  split; [exact Hnone |]. split; [exact Hq |].
  split; [now apply (same_firm_ids m) |].
  split; [| split; [exact Hp | exact Hh]].
  intros name. now apply same_firm_keys.
Qed.

(** *** Forced exits *)

Definition exit_hit (m : MarketSimulator) (s : AtlasStrategy) : bool :=
  stop_loss_hit m s || take_profit_hit m s.

(** The sale of the whole position of [s]. *)
Definition exit_order (s : AtlasStrategy) : Order :=
  mkOrder (id s) "sell" (shares s).

Lemma daily_operation_other (m : MarketSimulator) (n name : string) :
  name <> n ->
  strategies (firm (daily_operation m n)) !! name = strategies (firm m) !! name.
Proof.
  intros Hne. destruct (strategies (firm m) !! n) as [s |] eqn:Hs.
  - destruct (daily_operation_turn m n s Hs) as (s' & orders & -> & _).
    now rewrite lookup_insert_ne.
  - unfold daily_operation. now rewrite Hs.
Qed.

Lemma daily_operation_market (m : MarketSimulator) (n : string) :
  same_market m (daily_operation m n)
  /\ exists orders, order_queue (daily_operation m n) = order_queue m ++ orders.
Proof.
  destruct (strategies (firm m) !! n) as [s |] eqn:Hs.
  - destruct (daily_operation_turn m n s Hs) as (s' & orders & _ & _ & Hq & _ & Hmk).
    split; [exact Hmk | eauto].
  - unfold daily_operation. rewrite Hs. split; [apply same_market_refl |].
    exists []. now rewrite app_nil_r.
Qed.

Lemma daily_operations_other (names : list string) (name : string) :
  forall m,
    name ∉ names ->
    strategies (firm (fold_left daily_operation names m)) !! name
    = strategies (firm m) !! name.
Proof.
  induction names as [| n rest IH]; intros m Hnot; simpl; [reflexivity |].
  apply not_elem_of_cons in Hnot as [Hne Hrest].
  rewrite IH by exact Hrest. now apply daily_operation_other.
Qed.

Lemma daily_operations_queue (names : list string) :
  forall m,
    exists orders,
      order_queue (fold_left daily_operation names m) = order_queue m ++ orders.
Proof.
  induction names as [| n rest IH]; intros m; simpl.
  - exists []. now rewrite app_nil_r.
  - destruct (daily_operation_market m n) as [_ [first Hfirst]].
    destruct (IH (daily_operation m n)) as [orders Horders].
    exists (first ++ orders). now rewrite Horders, Hfirst, <- app_assoc.
Qed.

Lemma exit_hit_market (m m' : MarketSimulator) (s : AtlasStrategy) :
  same_market m m' -> exit_hit m' s = exit_hit m s.
Proof.
  intros (_ & Hp & _). unfold exit_hit, stop_loss_hit, take_profit_hit.
  now rewrite Hp.
Qed.

Lemma daily_operation_exit (m : MarketSimulator) (name : string)
    (s : AtlasStrategy) :
  strategies (firm m) !! name = Some s ->
  (0 < shares s)%Z ->
  exit_hit m s = true ->
  daily_operation m name = forced_exit m name s.
Proof.
  intros Hs Hpos Hhit. unfold daily_operation. rewrite Hs.
  apply Z.ltb_lt in Hpos. rewrite Hpos. simpl.
  unfold exit_hit in Hhit.
  destruct (stop_loss_hit m s); [reflexivity |].
  simpl in Hhit. now rewrite Hhit.
Qed.

(** A strategy whose stop-loss or take-profit is hit leaves the morning
    round with its exit prices cleared and the sale of its whole position in
    the queue. *)
Lemma daily_operations_exit (names : list string) (name : string)
    (s : AtlasStrategy) :
  forall m,
    NoDup names -> name ∈ names ->
    strategies (firm m) !! name = Some s ->
    (0 < shares s)%Z ->
    exit_hit m s = true ->
    strategies (firm (fold_left daily_operation names m)) !! name
    = Some (_clear_exit_prices s)
    /\ exists before behind,
         order_queue (fold_left daily_operation names m)
         = order_queue m ++ before ++ exit_order s :: behind.
Proof.
  induction names as [| n rest IH]; intros m Hnd Hin Hs Hpos Hhit.
  - now apply not_elem_of_nil in Hin.
  - apply NoDup_cons in Hnd as [Hfresh Hnd]. simpl fold_left.
    destruct (decide (name = n)) as [<- | Hne].
    + rewrite (daily_operation_exit m name s Hs Hpos Hhit).
      rewrite daily_operations_other by exact Hfresh.
      destruct (daily_operations_queue rest (forced_exit m name s))
        as [behind Hbehind].
      split.
      * unfold forced_exit. simpl. apply lookup_insert_eq.
      * exists [], behind. rewrite Hbehind. unfold forced_exit.
        rewrite submit_order_queue by exact Hpos. simpl.
        now rewrite <- app_assoc.
    + apply elem_of_cons in Hin as [Heq | Hin]; [congruence |].
      destruct (daily_operation_market m n) as [Hmk [first Hfirst]].
      destruct (IH (daily_operation m n) Hnd Hin)
        as (Hlookup & before & behind & Hq); try assumption.
      * now rewrite daily_operation_other.
      * now rewrite (exit_hit_market m).
      * split; [exact Hlookup |].
        exists (first ++ before), behind.
        now rewrite Hq, Hfirst, <- !app_assoc.
Qed.

Lemma process_orders_untouched (orders : list Order) (name : string) :
  forall m,
    name ∉ map o_id orders ->
    strategies (firm (fst (process_orders orders m))) !! name
    = strategies (firm m) !! name.
Proof.
  induction orders as [| order rest IH]; intros m Hnot; simpl; [reflexivity |].
  simpl in Hnot. apply not_elem_of_cons in Hnot as [Hne Hrest].
  destruct (settle m order) as [e | m1] eqn:E; simpl; [reflexivity |].
  rewrite IH by exact Hrest.
  now apply (Accounting.settle_lookup_other m m1 order).
Qed.

Lemma notional_market (m m' : MarketSimulator) (order : Order) :
  price m' = price m -> slippage_bps m' = slippage_bps m ->
  Settlement.notional m' order = Settlement.notional m order
  /\ Settlement.fee m' order = Settlement.fee m order.
Proof.
  intros Hp Hs. unfold Settlement.fee, Settlement.notional, execution_price.
  now rewrite Hp, Hs.
Qed.

(** A queue with one order per strategy at most, every strategy known: the
    sale of a whole position is settled, whatever stands around it. *)
Lemma process_orders_exit (orders : list Order) (s : AtlasStrategy) :
  forall m,
    NoDup (map o_id orders) ->
    Forall (Accounting.known m) orders ->
    exit_order s ∈ orders ->
    strategies (firm m) !! id s = Some s ->
    (0 < shares s)%Z ->
    let m' := fst (process_orders orders m) in
    exists s',
      strategies (firm m') !! id s = Some s'
      /\ shares s' = 0%Z
      /\ cash s' = cash s + (Settlement.notional m (exit_order s)
                             - Settlement.fee m (exit_order s))
      /\ stop_loss_price s' = stop_loss_price s
      /\ take_profit_price s' = take_profit_price s
      /\ Accounting.fill_of m (exit_order s) ∈ trade_log m'.
Proof.
  induction orders as [| order rest IH]; intros m Hnd Hknown Hin Hs Hpos m'.
  - now apply not_elem_of_nil in Hin.
  - simpl in Hnd. apply NoDup_cons in Hnd as [Hfresh Hnd].
    inversion Hknown as [| ? ? Hk Hrest]; subst.
    unfold m'. simpl.
    destruct (settle m order) as [e | m1] eqn:E;
      [exfalso; apply (proj1 (Accounting.settle_raises_iff m order)); eauto |].
    simpl.
    assert (Hrest1 : Forall (Accounting.known m1) rest).
    { eapply Forall_impl; [exact Hrest |]. intros o Ho.
      now apply (Accounting.settle_known m m1 order o E). }
    apply elem_of_cons in Hin as [<- | Hin].
    + assert (Hc : Settlement.covered m (exit_order s) s).
      { right. simpl. split; [reflexivity | lia]. }
      rewrite (Settlement.settle_covered m (exit_order s) s Hs Hc) in E.
      injection E as <-.
      rewrite process_orders_untouched by exact Hfresh.
      destruct (Accounting.process_orders_log rest
                  (Settlement.settled m (exit_order s) s))
        as (_ & fills & Hlog & _).
      unfold Settlement.settled in *. simpl in *.
      rewrite lookup_insert_eq. eexists. split; [reflexivity |]. simpl.
      split; [lia |]. split; [reflexivity |]. split; [reflexivity |].
      split; [reflexivity |].
      rewrite Hlog. apply elem_of_app. left. apply elem_of_app. right.
      now apply list_elem_of_singleton.
    + assert (Hne : id s <> o_id order).
      { intros Heq. apply Hfresh. rewrite <- Heq.
        apply (list_elem_of_fmap_2 o_id) in Hin. exact Hin. }
      assert (Hs1 : strategies (firm m1) !! id s = Some s)
        by now rewrite (Accounting.settle_lookup_other m m1 order (id s) E Hne).
      destruct (Accounting.settle_market m m1 order E) as (Hp & Hsl & _).
      destruct (notional_market m m1 (exit_order s) Hp Hsl) as [Hn Hf].
      destruct (IH m1 Hnd Hrest1 Hin Hs1 Hpos)
        as (s' & Hs' & Hsh & Hcash & Hstop & Htp & Hfill).
      exists s'. rewrite <- Hn, <- Hf.
      repeat split; try assumption.
      unfold Accounting.fill_of in *. unfold execution_price in *.
      rewrite Hp, Hsl in Hfill. rewrite Hf in Hfill. exact Hfill.
Qed.

Lemma submitted_ids (m : MarketSimulator) (who : list string)
    (orders : list Order) :
  ids_are_keys m ->
  Forall2 (fun name o =>
             exists s, strategies (firm m) !! name = Some s
                       /\ submitted_for s o) who orders ->
  map o_id orders = who.
Proof.
  intros Hids Hall. induction Hall as [| name o who' orders' Hno _ IH];
    [reflexivity |].
  simpl. rewrite IH. destruct Hno as (s & Hs & Hid & _).
  now rewrite Hid, (Hids name s Hs).
Qed.

(** X9.  A strategy that holds shares when its stop-loss or its
    take-profit is hit is flat when the bar ends: the morning round offers
    its whole position, the sale is settled in the same bar at the close
    less slippage, the proceeds less the transaction cost join its cash, the
    fill is in the trade log, and both exit prices are cleared. *)
Theorem forced_exit_liquidates_within_the_bar
    (m : MarketSimulator) (name : string) (s : AtlasStrategy) :
  ids_are_keys m ->
  keys_registered m ->
  order_queue m = [] ->
  strategies (firm m) !! name = Some s ->
  (0 < shares s)%Z ->
  exit_hit m s = true ->
  exists s',
    strategies (firm (fst (bar_cycle m))) !! name = Some s'
    /\ shares s' = 0%Z
    /\ cash s' = cash s + (Settlement.notional m (exit_order s)
                           - Settlement.fee m (exit_order s))
    /\ stop_loss_price s' = 0
    /\ take_profit_price s' = 0
    /\ Accounting.fill_of m (exit_order s) ∈ trade_log (fst (bar_cycle m)).
Proof.
  intros Hids Hkeys Hempty Hs Hpos Hhit.
  assert (Hname : id s = name) by now apply Hids.
  assert (Hin : name ∈ strategy_order (firm m)).
  { unfold strategy_order. apply list_elem_of_filter. split; [eauto |].
    apply Hkeys. eauto. }
  unfold bar_cycle. set (m1 := run_daily_operations m).
  destruct (daily_operations_exit (strategy_order (firm m)) name s m
              (strategy_order_NoDup (firm m)) Hin Hs Hpos Hhit)
    as (Hcleared & before & behind & Hq).
  fold (run_daily_operations m) in Hcleared, Hq. fold m1 in Hcleared, Hq.
  destruct (daily_operations_round (strategy_order (firm m)) m
              (strategy_order_NoDup (firm m)))
    as (who & orders & Hq' & Hwho & _ & Hall & Hkeep & _ & Hmk).
  fold (run_daily_operations m) in Hq', Hkeep, Hmk. fold m1 in Hq', Hkeep, Hmk.
  rewrite Hempty in Hq, Hq'. simpl in Hq, Hq'.
  assert (Hnd : NoDup (map o_id (order_queue m1)))
    by (rewrite Hq', (submitted_ids m who orders Hids Hall); exact Hwho).
  assert (Hknown : Forall (Accounting.known (with_queue m1 [])) (order_queue m1)).
  { rewrite Hq'. clear Hq' Hnd Hq.
    induction Hall as [| n o who' orders' Hno _ IH]; constructor;
      [| apply IH; now apply NoDup_cons in Hwho as [_ ?]].
    destruct Hno as (s0 & Hs0 & Hid & _).
    unfold Accounting.known. simpl. rewrite Hid, (Hids n s0 Hs0).
    destruct (Hkeep n s0 Hs0) as (s' & -> & _). eauto. }
  rewrite execute_orders_run.
  pose (cleared := _clear_exit_prices s).
  assert (Hexit : exit_order cleared ∈ order_queue m1).
  { rewrite Hq. apply elem_of_app. right. now left. }
  assert (Hself : strategies (firm (with_queue m1 [])) !! id cleared = Some cleared)
    by (simpl; rewrite Hname; exact Hcleared).
  destruct (process_orders_exit (order_queue m1) cleared (with_queue m1 [])
              Hnd Hknown Hexit Hself Hpos)
    as (s' & Hs' & Hsh & Hcash & Hstop & Htp & Hfill).
  destruct Hmk as (_ & Hp & _ & Hsl & _).
  destruct (notional_market m (with_queue m1 []) (exit_order cleared))
    as [Hn Hf]; [exact Hp | exact Hsl |].
  exists s'. simpl in Hs'. rewrite Hname in Hs'.
  split; [exact Hs' |]. split; [exact Hsh |].
  split; [rewrite Hcash, Hn, Hf; reflexivity |].
  split; [exact Hstop |]. split; [exact Htp |].
  unfold Accounting.fill_of in *. unfold execution_price in *.
  simpl in Hfill. rewrite Hp, Hsl in Hfill. rewrite Hf in Hfill. exact Hfill.
Qed.

(** *** The whole run *)

Lemma open_bar_parts (window : Z) (m : MarketSimulator) (row : Bar) :
  firm (open_bar window m row) = firm m
  /\ order_queue (open_bar window m row) = order_queue m
  /\ trade_log (open_bar window m row) = trade_log m
  /\ slippage_bps (open_bar window m row) = slippage_bps m
  /\ price (open_bar window m row) = Close row.
Proof.
  unfold open_bar. simpl. destruct (_ <? _)%Z; now repeat split.
Qed.

(** The rows of [seen] that the history holds once they have all gone by:
    the last [window + 50] of them. *)
Definition recent (window : Z) (seen : list Bar) : list Bar :=
  drop (length seen - Z.to_nat (window + 50)) seen.

Lemma tail_drop {A : Type} (l : list A) (n : nat) :
  List.tail (drop n l) = drop (S n) l.
Proof.
  revert n. induction l as [| x l IH]; intros [| n]; simpl; try reflexivity.
  apply IH.
Qed.

Lemma open_bar_history (window : Z) (m : MarketSimulator) (row : Bar)
    (seen : list Bar) :
  history m = recent window seen ->
  history (open_bar window m row) = recent window (seen ++ [row]).
Proof.
  unfold open_bar, recent. simpl. intros ->.
  rewrite <- drop_app_le by lia.
  destruct (Z.ltb_spec (window + 50)
              (Z.of_nat (length (drop (length seen - Z.to_nat (window + 50))
                                      (seen ++ [row]))))) as [Hlong | Hshort];
    simpl; rewrite length_drop, length_app in *; simpl in *.
  - rewrite tail_drop. f_equal. lia.
  - f_equal. lia.
Qed.

Lemma trade_bar_runs (window : Z) (i : nat) (st : run_state) (row : Bar) :
  order_queue (sim st) = [] -> ids_are_keys (sim st) ->
  let st' := trade_bar window i st row in
  raised st' = None
  /\ order_queue (sim st') = []
  /\ same_firm (sim st) (sim st')
  /\ history (sim st') = history (open_bar window (sim st) row)
  /\ price (sim st') = Close row
  /\ slippage_bps (sim st') = slippage_bps (sim st)
  /\ (exists fills,
        trade_log (sim st') = trade_log (sim st) ++ fills
        /\ ((Z.of_nat i < window - 1)%Z -> fills = []))
  /\ equity_curve_values st'
     = equity_curve_values st
       ++ (if (window - 1 <=? Z.of_nat i)%Z
           then [get_total_equity (firm (sim st')) (Close row)]
           else []).
Proof.
  intros Hq Hids. unfold trade_bar.
  destruct (open_bar_parts window (sim st) row) as (Hf & Hq1 & Hl & Hs & Hp).
  set (m1 := open_bar window (sim st) row) in *.
  destruct (Z.leb_spec (window - 1) (Z.of_nat i)) as [Hin | Hout].
  - assert (Hids1 : ids_are_keys m1) by (unfold ids_are_keys; now rewrite Hf).
    assert (Hq1' : order_queue m1 = []) by congruence.
    destruct (bar_cycle_runs m1 Hids1 Hq1')
      as (Hnone & Hq2 & Hsame & Hp2 & Hh2 & Hs2 & fills & Hl2).
    unfold bar_cycle in *.
    destruct (execute_orders (run_daily_operations m1)) as [m2 e].
    simpl in *. subst e. simpl.
    split; [reflexivity |]. split; [exact Hq2 |].
    split; [unfold same_firm in *; now rewrite <- Hf |].
    split; [exact Hh2 |]. split; [congruence |]. split; [congruence |].
    split; [exists fills; split; [congruence | lia] |].
    now rewrite Hp2, Hp.
  - simpl. split; [reflexivity |]. split; [congruence |].
    split; [unfold same_firm; rewrite Hf; apply same_firm_refl |].
    split; [reflexivity |]. split; [exact Hp |]. split; [exact Hs |].
    split; [exists []; now rewrite app_nil_r |].
    now rewrite app_nil_r.
Qed.

(** The loop from bar [i] on, [seen] being the rows before it. *)
Lemma run_from_runs (window : Z) (rows : list Bar) :
  forall (i : nat) (st : run_state) (seen : list Bar),
    length seen = i ->
    raised st = None -> order_queue (sim st) = [] -> ids_are_keys (sim st) ->
    history (sim st) = recent window seen ->
    length (equity_curve_values st) = (i - Z.to_nat (window - 1))%nat ->
    let st' := run_from window i rows st in
    raised st' = None
    /\ order_queue (sim st') = []
    /\ same_firm (sim st) (sim st')
    /\ history (sim st') = recent window (seen ++ rows)
    /\ length (equity_curve_values st')
       = (i + length rows - Z.to_nat (window - 1))%nat
    /\ price (sim st') = default (price (sim st)) (last (map Close rows))
    /\ slippage_bps (sim st') = slippage_bps (sim st)
    /\ exists fills,
         trade_log (sim st') = trade_log (sim st) ++ fills
         /\ ((i + length rows <= Z.to_nat (window - 1))%nat -> fills = []).
Proof.
  induction rows as [| row rest IH]; intros i st seen Hlen Hr Hq Hids Hh He.
  - simpl. rewrite app_nil_r, Nat.add_0_r.
    split; [exact Hr |]. split; [exact Hq |].
    split; [apply same_firm_refl |]. split; [exact Hh |].
    split; [exact He |]. split; [reflexivity |]. split; [reflexivity |].
    exists []. now rewrite app_nil_r.
  - simpl run_from.
    destruct (trade_bar_runs window i st row Hq Hids)
      as (Hr1 & Hq1 & Hsame1 & Hh1 & Hp1 & Hs1 & (fills1 & Hl1 & Hwarm1) & He1).
    set (st1 := trade_bar window i st row) in *.
    rewrite Hr1.
    assert (Hids1 : ids_are_keys (sim st1))
      by now apply (same_firm_ids (sim st)).
    assert (Hh1' : history (sim st1) = recent window (seen ++ [row]))
      by (rewrite Hh1; now apply open_bar_history).
    assert (Hlen1 : length (seen ++ [row]) = S i)
      by (rewrite length_app; simpl; lia).
    assert (He1' : length (equity_curve_values st1)
                   = (S i - Z.to_nat (window - 1))%nat).
    { rewrite He1, length_app, He.
      destruct (Z.leb_spec (window - 1) (Z.of_nat i)); simpl; lia. }
    destruct (IH (S i) st1 (seen ++ [row]) Hlen1 Hr1 Hq1 Hids1 Hh1' He1')
      as (Hr2 & Hq2 & Hsame2 & Hh2 & He2 & Hp2 & Hs2 & fills2 & Hl2 & Hwarm2).
    split; [exact Hr2 |]. split; [exact Hq2 |].
    split; [now apply same_firm_trans with (sim st1) |].
    split; [now rewrite Hh2, <- app_assoc |].
    split; [rewrite He2; simpl; lia |].
    split.
    { rewrite Hp2, Hp1. simpl map. rewrite last_cons.
      now destruct (last (map Close rest)). }
    split; [congruence |].
    exists (fills1 ++ fills2). split; [now rewrite Hl2, Hl1, <- app_assoc |].
    simpl. intros Hshort.
    rewrite Hwarm1 by lia. rewrite Hwarm2 by lia. reflexivity.
Qed.

Lemma fold_max_le (ws : list Z) :
  forall w, (w <= fold_left Z.max ws w)%Z
            /\ Forall (fun x => (x <= fold_left Z.max ws w)%Z) ws.
Proof.
  induction ws as [| x ws IH]; intros w; simpl; [split; [lia | constructor] |].
  destruct (IH (Z.max w x)) as [Hle Hall].
  split; [lia |]. constructor; [lia | exact Hall].
Qed.

Lemma max_warmup_window_covers (pm : PortfolioManager) :
  (20 <= max_warmup_window pm)%Z
  /\ forall name s,
       name ∈ strategy_order pm ->
       strategies pm !! name = Some s ->
       Forall (fun w => (w <= max_warmup_window pm)%Z)
              (config_windows (class s)).
Proof.
  unfold max_warmup_window. split; [lia |].
  intros name s. generalize (strategy_order pm) 0%Z.
  intros names. induction names as [| n rest IH]; intros w Hin Hs.
  - now apply not_elem_of_nil in Hin.
  - simpl fold_left.
    assert (Hmono : forall names w0,
               (w0 <= fold_left
                        (fun w name =>
                           match strategies pm !! name with
                           | Some strategy =>
                               fold_left Z.max (config_windows (class strategy)) w
                           | None => w
                           end) names w0)%Z).
    { clear. induction names as [| n names IH]; intros w0; simpl; [lia |].
      etransitivity; [| apply IH].
      destruct (strategies pm !! n); [apply fold_max_le | lia]. }
    apply elem_of_cons in Hin as [<- | Hin].
    + rewrite Hs.
      destruct (fold_max_le (config_windows (class s)) w) as [_ Hall].
      eapply Forall_impl; [exact Hall |]. simpl. intros x Hx.
      specialize (Hmono rest (fold_left Z.max (config_windows (class s)) w)).
      lia.
    + now apply IH.
Qed.

Lemma warm_up_window_in_config (c : AtlasClass) :
  WarmUp.warm_up_window c ∈ config_windows c.
Proof. destruct c; simpl; left. Qed.

(** X10.  [run] from a simulator with an empty queue and an empty
    history, every strategy bound to its own id, never raises.  With [W] the
    largest window of any strategy, and at least 20: the first [W - 1] bars
    only fill the history and no trade is made in them; each later bar adds
    one value to the equity curve and ends with an empty queue; the history
    is the last [W + 50] rows of the data, and the price the last close.
    Fewer than [W] rows give the empty series and the empty trade list. *)
Theorem run_warms_up_then_trades_every_bar
    (m : MarketSimulator) (data : list Bar) :
  ids_are_keys m ->
  order_queue m = [] ->
  history m = [] ->
  let W := max_warmup_window (firm m) in
  let st := run_loop m data in
  (20 <= W)%Z
  /\ raised st = None
  /\ order_queue (sim st) = []
  /\ length (equity_curve_values st) = (length data - Z.to_nat (W - 1))%nat
  /\ history (sim st) = drop (length data - Z.to_nat (W + 50)) data
  /\ price (sim st) = default (price m) (last (map Close data))
  /\ (exists fills,
        trade_log (sim st) = trade_log m ++ fills
        /\ ((Z.of_nat (length data) < W)%Z -> fills = []))
  /\ ((Z.of_nat (length data) < W)%Z -> run m data = inr ([], []))
  /\ ((W <= Z.of_nat (length data))%Z ->
      run m data = inr (equity_curve_values st, trade_log (sim st))).
Proof.
  intros Hids Hq Hh W st.
  destruct (max_warmup_window_covers (firm m)) as [HW _]. fold W in HW.
  pose proof (run_from_runs W data 0 (mkRunState m [] None) []
                eq_refl eq_refl Hq Hids Hh eq_refl) as Hinv.
  cbv zeta in Hinv.
  change (run_from W 0 data (mkRunState m [] None)) with st in Hinv.
  destruct Hinv as (Hr & Hq' & _ & Hh' & He & Hp & _ & fills & Hl & Hwarm).
  simpl in He, Hh', Hp, Hl, Hwarm.
  split; [exact HW |]. split; [exact Hr |]. split; [exact Hq' |].
  split; [exact He |]. split; [exact Hh' |]. split; [exact Hp |].
  split; [exists fills; split; [exact Hl | intros; apply Hwarm; lia] |].
  unfold run. change (run_loop m data) with st. cbv zeta. rewrite Hr.
  split; intros Hn.
  - destruct (equity_curve_values st) as [| v vs]; [reflexivity |].
    simpl in He. lia.
  - destruct (equity_curve_values st) as [| v vs]; [| reflexivity].
    simpl in He. lia.
Qed.

(** *** Solvency through the run *)

Lemma morning_round_sound (m : MarketSimulator) :
  Settlement.sound m -> Settlement.sound (run_daily_operations m).
Proof.
  intros (Hbook & Hp & Hs & Hq).
  destruct (daily_operations_round (strategy_order (firm m)) m
              (strategy_order_NoDup (firm m)))
    as (who & orders & Hq' & _ & _ & Hall & Hkeep & Hnone & Hmk).
  fold (run_daily_operations m) in Hq', Hkeep, Hnone, Hmk.
  destruct Hmk as (_ & Hp' & _ & Hs' & _).
  split; [| split; [now rewrite Hp' | split; [now rewrite Hs' |]]].
  - intros name s' Hs1.
    destruct (strategies (firm m) !! name) as [s |] eqn:Hs0.
    + destruct (Hkeep name s Hs0) as (s1 & Hs1' & Hc & Hsh & _).
      assert (s1 = s') by congruence. subst s1.
      destruct (Hbook name s Hs0) as [Hcash Hshares].
      split; [now rewrite Hc | now rewrite Hsh].
    + rewrite (Hnone name Hs0) in Hs1. discriminate.
  - rewrite Hq'. apply Forall_app. split; [exact Hq |].
    clear Hq'. induction Hall as [| name o who' orders' Hno _ IH];
      constructor; [| exact IH].
    now destruct Hno as (s & _ & _ & Hpos & _).
Qed.

Lemma bar_cycle_sound (m : MarketSimulator) :
  Settlement.sound m -> Settlement.sound (fst (bar_cycle m)).
Proof.
  intros Hm. unfold bar_cycle.
  destruct (morning_round_sound m Hm) as (Hbook & Hp & Hs & Hq).
  rewrite execute_orders_run.
  destruct (Settlement.process_orders_keeps_book
              (order_queue (run_daily_operations m))
              (with_queue (run_daily_operations m) []))
    as (Hb' & Hp' & Hs' & Hq'); try assumption.
  split; [exact Hb' |]. rewrite Hp', Hs', Hq'. simpl.
  split; [exact Hp |]. split; [exact Hs | constructor].
Qed.

Lemma get_equity_nonneg (s : AtlasStrategy) (p : Q) :
  Settlement.solvent s -> 0 <= p -> 0 <= get_equity s p.
Proof.
  intros [Hcash Hshares] Hp. unfold get_equity.
  apply inject_Z_nonneg in Hshares.
  pose proof (Qmult_le_0_compat _ _ Hshares Hp). lra.
Qed.

Lemma get_total_equity_nonneg (pm : PortfolioManager) (p : Q) :
  map_Forall (fun _ s => Settlement.solvent s) (strategies pm) ->
  0 <= p -> 0 <= get_total_equity pm p.
Proof.
  intros Hbook Hp. unfold get_total_equity.
  assert (Hall : forall names acc,
             0 <= acc ->
             0 <= fold_left
                    (fun acc name =>
                       match strategies pm !! name with
                       | Some strategy => acc + get_equity strategy p
                       | None => acc
                       end) names acc); [| apply Hall; lra].
  intros names. induction names as [| n rest IH]; intros acc Hacc; simpl;
    [exact Hacc |].
  apply IH. destruct (strategies pm !! n) as [s |] eqn:Hs; [| exact Hacc].
  pose proof (get_equity_nonneg s p (Hbook n s Hs) Hp). lra.
Qed.

Lemma trade_bar_sound (window : Z) (i : nat) (st : run_state) (row : Bar) :
  Settlement.sound (sim st) -> 0 <= Close row ->
  Forall (fun v => 0 <= v) (equity_curve_values st) ->
  let st' := trade_bar window i st row in
  Settlement.sound (sim st')
  /\ Forall (fun v => 0 <= v) (equity_curve_values st').
Proof.
  intros (Hbook & Hp & Hs & Hq) Hclose Hcurve. unfold trade_bar.
  destruct (open_bar_parts window (sim st) row) as (Hf & Hq1 & _ & Hs1 & Hp1).
  set (m1 := open_bar window (sim st) row) in *.
  assert (Hm1 : Settlement.sound m1).
  { split; [unfold Settlement.book_solvent; now rewrite Hf |].
    rewrite Hp1, Hs1, Hq1. now repeat split. }
  destruct (Z.leb_spec (window - 1) (Z.of_nat i)) as [Hin | Hout];
    [| split; [exact Hm1 | exact Hcurve]].
  pose proof (bar_cycle_sound m1 Hm1) as Hm2. unfold bar_cycle in Hm2.
  destruct (execute_orders (run_daily_operations m1)) as [m2 [e |]];
    simpl in *; [split; [exact Hm2 | exact Hcurve] |].
  split; [exact Hm2 |]. apply Forall_app. split; [exact Hcurve |].
  constructor; [| constructor].
  destruct Hm2 as (Hb2 & Hp2 & _). now apply get_total_equity_nonneg.
Qed.

Lemma run_from_sound (window : Z) (rows : list Bar) :
  forall (i : nat) (st : run_state),
    Settlement.sound (sim st) ->
    Forall (fun row => 0 <= Close row) rows ->
    Forall (fun v => 0 <= v) (equity_curve_values st) ->
    let st' := run_from window i rows st in
    Settlement.sound (sim st')
    /\ Forall (fun v => 0 <= v) (equity_curve_values st').
Proof.
  induction rows as [| row rest IH]; intros i st Hm Hrows Hcurve; simpl;
    [split; assumption |].
  inversion Hrows as [| ? ? Hrow Hrest]; subst.
  destruct (trade_bar_sound window i st row Hm Hrow Hcurve) as [Hm1 Hcurve1].
  destruct (raised (trade_bar window i st row)); [split; assumption |].
  now apply IH.
Qed.

(** X11.  [run] on bars whose close is not negative, from a simulator
    whose strategies have neither negative cash nor negative shares and
    whose slippage is at most 100%: when the loop ends, however it ends, no
    strategy has negative cash or negative shares, and no value of the
    equity curve is negative. *)
Theorem run_keeps_the_firm_solvent (m : MarketSimulator) (data : list Bar) :
  Settlement.sound m ->
  Forall (fun row => 0 <= Close row) data ->
  Settlement.book_solvent (sim (run_loop m data))
  /\ Forall (fun v => 0 <= v) (equity_curve_values (run_loop m data)).
Proof.
  intros Hm Hdata. unfold run_loop.
  destruct (run_from_sound (max_warmup_window (firm m)) data 0
              (mkRunState m [] None) Hm Hdata (List.Forall_nil _))
    as [(Hbook & _) Hcurve].
  split; [exact Hbook | exact Hcurve].
Qed.

(** *** The history a strategy is consulted on *)

Lemma run_from_snoc (window : Z) (rows : list Bar) (row : Bar) :
  forall (i : nat) (st : run_state),
    raised (run_from window i rows st) = None ->
    run_from window i (rows ++ [row]) st
    = trade_bar window (i + length rows) (run_from window i rows st) row.
Proof.
  induction rows as [| r rest IH]; intros i st Hr; simpl in *.
  - rewrite Nat.add_0_r. now destruct (raised (trade_bar window i st row)).
  - destruct (raised (trade_bar window i st r)) eqn:E.
    + rewrite E in Hr. discriminate.
    + rewrite IH by exact Hr. f_equal. lia.
Qed.

(** X12.  Inside [run] no strategy is consulted during its warm-up.  At
    bar [k], at or after the first traded bar, the loop goes on from the
    state left by the bars before: it opens the bar and runs the morning
    round and the execution.  The history the strategies then read holds at
    least [max_warmup_window] rows, at least 20, and no fewer than the
    window of any strategy of the firm. *)
Theorem run_consults_on_a_full_window
    (m : MarketSimulator) (data : list Bar) (k : nat) (row : Bar) :
  ids_are_keys m ->
  keys_registered m ->
  order_queue m = [] ->
  history m = [] ->
  data !! k = Some row ->
  (max_warmup_window (firm m) - 1 <= Z.of_nat k)%Z ->
  let W := max_warmup_window (firm m) in
  let before := run_loop m (take k data) in
  let m1 := open_bar W (sim before) row in
  run_loop m (take (S k) data)
  = mkRunState (fst (bar_cycle m1))
      (equity_curve_values before
       ++ [get_total_equity (firm (fst (bar_cycle m1))) (Close row)])
      None
  /\ history (run_daily_operations m1) = history m1
  /\ (20 <= W <= Z.of_nat (length (history m1)))%Z
  /\ forall name s,
       strategies (firm m1) !! name = Some s ->
       (WarmUp.warm_up_window (class s) <= Z.of_nat (length (history m1)))%Z.
Proof.
  intros Hids Hkeys Hq Hh Hrow Hk W before m1.
  destruct (max_warmup_window_covers (firm m)) as [HW Hcover].
  fold W in HW, Hcover.
  assert (Hlen : length (take k data) = k).
  { apply lookup_lt_Some in Hrow. rewrite length_take. lia. }
  pose proof (run_from_runs W (take k data) 0 (mkRunState m [] None) []
                eq_refl eq_refl Hq Hids Hh eq_refl) as Hinv.
  cbv zeta in Hinv.
  change (run_from W 0 (take k data) (mkRunState m [] None)) with before in Hinv.
  destruct Hinv as (Hr & Hq' & Hsame & Hh' & _).
  simpl in Hsame, Hh'.
  assert (Hids' : ids_are_keys (sim before)) by now apply (same_firm_ids m).
  destruct (open_bar_parts W (sim before) row) as (Hf & Hq1 & _ & _ & Hp1).
  fold m1 in Hf, Hq1, Hp1.
  assert (Hhist : history m1 = recent W (take k data ++ [row]))
    by now apply open_bar_history.
  assert (Hfull : (W <= Z.of_nat (length (history m1)))%Z).
  { rewrite Hhist. unfold recent.
    rewrite length_drop, length_app, Hlen. simpl. lia. }
  split; [| split; [| split; [lia |]]].
  - unfold run_loop. fold W.
    rewrite (take_S_r data k row Hrow).
    rewrite run_from_snoc by exact Hr.
    change (run_from W 0 (take k data) (mkRunState m [] None)) with before.
    rewrite Hlen. simpl Nat.add. unfold trade_bar. fold m1.
    destruct (Z.leb_spec (W - 1) (Z.of_nat k)) as [_ | Hout]; [| lia].
    assert (Hids1 : ids_are_keys m1) by (unfold ids_are_keys; now rewrite Hf).
    assert (Hq1' : order_queue m1 = []) by congruence.
    destruct (bar_cycle_runs m1 Hids1 Hq1') as (Hnone & _ & _ & Hp2 & _).
    unfold bar_cycle in *.
    destruct (execute_orders (run_daily_operations m1)) as [m2 e].
    simpl in *. subst e. now rewrite Hp2, Hp1.
  - destruct (daily_operations_round (strategy_order (firm m1)) m1
                (strategy_order_NoDup (firm m1)))
      as (_ & _ & _ & _ & _ & _ & _ & _ & Hmk).
    apply Hmk.
  - intros name s Hs. rewrite Hf in Hs.
    destruct (strategies (firm m) !! name) as [s0 |] eqn:Hs0;
      [| rewrite (proj2 Hsame name Hs0) in Hs; discriminate].
    destruct (proj1 Hsame name s0 Hs0) as (s1 & Hs1 & _ & Hclass & _).
    assert (s1 = s) by congruence. subst s1.
    assert (Hin : name ∈ strategy_order (firm m)).
    { unfold strategy_order. apply list_elem_of_filter. split; [eauto |].
      apply Hkeys. eauto. }
    pose proof (Hcover name s0 Hin Hs0) as Hall.
    rewrite Forall_forall in Hall.
    specialize (Hall (WarmUp.warm_up_window (class s0))
                     (warm_up_window_in_config (class s0))).
    rewrite Hclass. lia.
Qed.

(** *** What a bar costs the firm *)

(** What a fill costs at the close [close]: its transaction cost, and on
    every share the distance between the execution price and the close. *)
Definition friction (close : Q) (t : Trade) : Q :=
  t_cost t
  + (if String.eqb (t_side t) "buy"
     then t_qty t * (t_price t - close)
     else t_qty t * (close - t_price t)).

Definition frictions (close : Q) (fills : list Trade) : Q :=
  fold_right (fun t acc => friction close t + acc) 0 fills.

(** The sum of [get_total_equity], over any book and any list of names. *)
Definition total (book : gmap string AtlasStrategy) (p : Q)
    (names : list string) (acc : Q) : Q :=
  fold_left
    (fun acc name =>
       match book !! name with
       | Some strategy => acc + get_equity strategy p
       | None => acc
       end)
    names acc.

Lemma total_compat (book : gmap string AtlasStrategy) (p : Q)
    (names : list string) :
  forall acc acc', acc == acc' -> total book p names acc == total book p names acc'.
Proof.
  induction names as [| n rest IH]; intros acc acc' Hacc; simpl; [exact Hacc |].
  apply IH. destruct (book !! n); [now rewrite Hacc | exact Hacc].
Qed.

Lemma total_shift (book : gmap string AtlasStrategy) (p : Q)
    (names : list string) (d : Q) :
  forall acc, total book p names (acc + d) == total book p names acc + d.
Proof.
  induction names as [| n rest IH]; intros acc; simpl; [reflexivity |].
  destruct (book !! n) as [s |]; [| apply IH].
  rewrite <- IH. apply total_compat. ring.
Qed.

Lemma total_insert_other (book : gmap string AtlasStrategy) (p : Q)
    (k : string) (s' : AtlasStrategy) (names : list string) :
  forall acc,
    k ∉ names ->
    total (<[k := s']> book) p names acc = total book p names acc.
Proof.
  induction names as [| n rest IH]; intros acc Hnot; simpl; [reflexivity |].
  apply not_elem_of_cons in Hnot as [Hne Hrest].
  rewrite lookup_insert_ne by exact Hne. now apply IH.
Qed.

Lemma total_insert (book : gmap string AtlasStrategy) (p : Q)
    (k : string) (s s' : AtlasStrategy) (names : list string) :
  forall acc,
    NoDup names -> k ∈ names -> book !! k = Some s ->
    total (<[k := s']> book) p names acc
    == total book p names acc + (get_equity s' p - get_equity s p).
Proof.
  induction names as [| n rest IH]; intros acc Hnd Hin Hs.
  - now apply not_elem_of_nil in Hin.
  - apply NoDup_cons in Hnd as [Hfresh Hnd]. simpl.
    destruct (decide (k = n)) as [<- | Hne].
    + rewrite lookup_insert_eq, Hs.
      rewrite total_insert_other by exact Hfresh.
      rewrite <- total_shift. apply total_compat. ring.
    + apply elem_of_cons in Hin as [Heq | Hin]; [congruence |].
      rewrite lookup_insert_ne by exact Hne. now apply IH.
Qed.

Lemma total_ext (book book' : gmap string AtlasStrategy) (p : Q)
    (names : list string) :
  (forall name,
     (fun s => get_equity s p) <$> book' !! name
     = (fun s => get_equity s p) <$> book !! name) ->
  forall acc, total book' p names acc = total book p names acc.
Proof.
  intros Hext. induction names as [| n rest IH]; intros acc; simpl;
    [reflexivity |].
  specialize (Hext n).
  destruct (book' !! n) as [s' |], (book !! n) as [s |]; simpl in Hext;
    try discriminate; [| apply IH].
  assert (Heq : get_equity s' p = get_equity s p) by congruence.
  rewrite Heq. apply IH.
Qed.

Lemma strategy_order_keys (pm pm' : PortfolioManager) :
  (forall name, is_Some (strategies pm' !! name)
                <-> is_Some (strategies pm !! name)) ->
  strategy_order pm' = strategy_order pm.
Proof.
  intros Hkeys. unfold strategy_order. now apply list_filter_iff.
Qed.

Lemma frictions_app (close : Q) (a b : list Trade) :
  frictions close (a ++ b) == frictions close a + frictions close b.
Proof.
  induction a as [| t a IH]; simpl; [ring |]. rewrite IH. ring.
Qed.

Lemma fill_of_market (m m' : MarketSimulator) (order : Order) :
  price m' = price m -> slippage_bps m' = slippage_bps m ->
  Accounting.fill_of m' order = Accounting.fill_of m order.
Proof.
  intros Hp Hs.
  unfold Accounting.fill_of, Settlement.fee, Settlement.notional,
    execution_price.
  now rewrite Hp, Hs.
Qed.

(** What [fills] can be after the loop has gone through [orders]: fills of
    buys and sales among them, priced by [m]. *)
Definition fills_of (m : MarketSimulator) (orders : list Order)
    (fills : list Trade) : Prop :=
  Forall (fun t => exists order,
                     order ∈ orders
                     /\ (o_side order = "buy"%string
                         \/ o_side order = "sell"%string)
                     /\ t = Accounting.fill_of m order) fills.

Lemma settle_equity (m m' : MarketSimulator) (order : Order) :
  keys_registered m ->
  settle m order = inr m' ->
  exists fills,
    trade_log m' = trade_log m ++ fills
    /\ fills_of m [order] fills
    /\ get_total_equity (firm m') (price m)
       == get_total_equity (firm m) (price m) - frictions (price m) fills.
Proof.
  intros Hkeys Hsettle.
  destruct (Accounting.settle_cases m m' order Hsettle)
    as (s & Hs & [-> | [Hc ->]]).
  - exists []. rewrite app_nil_r. split; [reflexivity |].
    split; [constructor |]. simpl. ring.
  - exists [Accounting.fill_of m order].
    assert (Hin : o_id order ∈ strategy_order (firm m)).
    { unfold strategy_order. apply list_elem_of_filter. split; [eauto |].
      apply Hkeys. eauto. }
    assert (Horder : forall s',
               strategy_order
                 (mkPortfolioManager (initial_capital (firm m))
                    (<[o_id order := s']> (strategies (firm m))))
               = strategy_order (firm m)).
    { intros s'. apply strategy_order_keys. intros name. simpl.
      destruct (decide (name = o_id order)) as [-> | Hne].
      - rewrite lookup_insert_eq, Hs. split; eauto.
      - now rewrite lookup_insert_ne. }
    split; [| split].
    + unfold Settlement.settled, Accounting.fill_of.
      destruct Hc as [[Hside _] | [Hside _]]; rewrite Hside; reflexivity.
    + constructor; [| constructor]. exists order.
      split; [now left |]. split; [| reflexivity].
      now apply (Accounting.covered_side m order s).
    + unfold get_total_equity, Settlement.settled.
      destruct Hc as [[Hside _] | [Hside _]]; rewrite Hside;
        simpl String.eqb; cbv iota; unfold record_fill; simpl firm;
        rewrite Horder; simpl strategies;
        fold (total (<[o_id order := with_cash_shares s
                        (cash s - (Settlement.notional m order
                                   + Settlement.fee m order))
                        (shares s + o_qty order)]> (strategies (firm m)))
                    (price m) (strategy_order (firm m)) 0);
        fold (total (<[o_id order := with_cash_shares s
                        (cash s + (Settlement.notional m order
                                   - Settlement.fee m order))
                        (shares s - o_qty order)]> (strategies (firm m)))
                    (price m) (strategy_order (firm m)) 0);
        fold (total (strategies (firm m)) (price m) (strategy_order (firm m)) 0);
        rewrite (total_insert _ _ _ s) by
          (try apply strategy_order_NoDup; assumption);
        unfold frictions, friction, Accounting.fill_of, get_equity,
          Settlement.notional, execution_price; simpl; rewrite Hside; simpl;
        unfold Z.sub; rewrite ?inject_Z_plus, ?inject_Z_opp; ring.
Qed.

Lemma process_orders_equity (orders : list Order) :
  forall m,
    keys_registered m ->
    exists fills,
      trade_log (fst (process_orders orders m)) = trade_log m ++ fills
      /\ fills_of m orders fills
      /\ get_total_equity (firm (fst (process_orders orders m))) (price m)
         == get_total_equity (firm m) (price m) - frictions (price m) fills.
Proof.
  induction orders as [| order rest IH]; intros m Hkeys; simpl.
  - exists []. rewrite app_nil_r. split; [reflexivity |].
    split; [constructor |]. simpl. ring.
  - destruct (settle m order) as [e | m1] eqn:E; simpl.
    + exists []. rewrite app_nil_r. split; [reflexivity |].
      split; [constructor |]. simpl. ring.
    + destruct (settle_equity m m1 order Hkeys E) as (f1 & Hl1 & Hf1 & He1).
      destruct (Accounting.settle_market m m1 order E) as (Hp & Hs & _).
      assert (Hkeys1 : keys_registered m1).
      { intros name Hname. apply Hkeys.
        now apply (same_firm_keys m m1 name (settle_same_firm m m1 order E)). }
      destruct (IH m1 Hkeys1) as (f2 & Hl2 & Hf2 & He2).
      rewrite Hp in He2.
      exists (f1 ++ f2). split; [now rewrite Hl2, Hl1, <- app_assoc |].
      split.
      * apply Forall_app. split.
        -- eapply Forall_impl; [exact Hf1 |]. simpl.
           intros t (o & Ho & Hside & ->). exists o.
           apply list_elem_of_singleton in Ho. subst o.
           split; [now left |]. now split.
        -- eapply Forall_impl; [exact Hf2 |]. simpl.
           intros t (o & Ho & Hside & ->). exists o.
           split; [now right |]. split; [exact Hside |].
           now apply fill_of_market.
      * rewrite He2, He1, frictions_app. ring.
Qed.

Lemma morning_round_equity (m : MarketSimulator) (p : Q) :
  get_total_equity (firm (run_daily_operations m)) p
  = get_total_equity (firm m) p.
Proof.
  destruct (daily_operations_round (strategy_order (firm m)) m
              (strategy_order_NoDup (firm m)))
    as (who & orders & _ & _ & _ & _ & Hkeep & Hnone & _).
  fold (run_daily_operations m) in Hkeep, Hnone.
  unfold get_total_equity.
  rewrite (strategy_order_keys (firm m) (firm (run_daily_operations m)))
    by (intros name; apply same_firm_keys, morning_round_same_firm).
  apply (total_ext (strategies (firm m))
                   (strategies (firm (run_daily_operations m)))).
  intros name. destruct (strategies (firm m) !! name) as [s |] eqn:Hs.
  - destruct (Hkeep name s Hs) as (s' & -> & Hc & Hsh & _). simpl.
    unfold get_equity. now rewrite Hc, Hsh.
  - now rewrite (Hnone name Hs).
Qed.

Lemma friction_of_fill (m : MarketSimulator) (order : Order) :
  o_side order = "buy"%string \/ o_side order = "sell"%string ->
  friction (price m) (Accounting.fill_of m order)
  == Settlement.fee m order
     + inject_Z (o_qty order) * (price m * slippage_bps m).
Proof.
  intros [Hside | Hside];
    unfold friction, Accounting.fill_of, execution_price; simpl;
    rewrite Hside; simpl; ring.
Qed.

Lemma fee_nonneg (m : MarketSimulator) (order : Order) :
  o_side order = "buy"%string \/ o_side order = "sell"%string ->
  0 <= price m -> 0 <= slippage_bps m -> slippage_bps m <= 1 ->
  (0 < o_qty order)%Z ->
  0 <= Settlement.fee m order.
Proof.
  intros Hside Hp Hs0 Hs1 Hq. unfold Settlement.fee.
  apply CostModel.calculate_nonneg.
  unfold Settlement.notional, execution_price.
  apply inject_Z_pos in Hq.
  apply Qmult_le_0_compat; [lra |].
  destruct Hside as [-> | ->]; simpl; apply Qmult_le_0_compat; lra.
Qed.

(** X13.  A bar creates no money and loses none but to fees and
    slippage.  Marked at the close, the equity of the firm after the
    morning round and the execution of its orders is the equity before,
    less the transaction cost of every fill the bar appended to the trade
    log, less on every share filled the distance between the execution
    price and the close.  With a slippage between 0 and 100% and a price
    that is not negative, trading therefore never raises the equity at the
    close. *)
Theorem bar_costs_fees_and_slippage (m : MarketSimulator) :
  keys_registered m ->
  exists fills,
    trade_log (fst (bar_cycle m)) = trade_log m ++ fills
    /\ get_total_equity (firm (fst (bar_cycle m))) (price m)
       == get_total_equity (firm m) (price m) - frictions (price m) fills
    /\ (Settlement.sound m -> 0 <= slippage_bps m ->
        0 <= frictions (price m) fills
        /\ get_total_equity (firm (fst (bar_cycle m))) (price m)
           <= get_total_equity (firm m) (price m)).
Proof.
  intros Hkeys. unfold bar_cycle. set (m1 := run_daily_operations m).
  destruct (daily_operations_round (strategy_order (firm m)) m
              (strategy_order_NoDup (firm m)))
    as (who & orders & _ & _ & _ & _ & _ & _ & Hmk).
  fold (run_daily_operations m) in Hmk. fold m1 in Hmk.
  destruct Hmk as (Hlog & Hp & _ & Hs & _).
  assert (Hkeys1 : keys_registered (with_queue m1 [])).
  { intros name Hname. apply Hkeys. simpl in Hname.
    now apply (same_firm_keys m m1 name (morning_round_same_firm m)). }
  rewrite execute_orders_run.
  destruct (process_orders_equity (order_queue m1) (with_queue m1 []) Hkeys1)
    as (fills & Hl & Hfills & He).
  simpl in Hl, He. rewrite Hp in He. rewrite Hlog in Hl.
  pose proof (morning_round_equity m (price m)) as Hround.
  fold m1 in Hround. rewrite Hround in He.
  exists fills. split; [exact Hl |]. split; [exact He |].
  intros Hm Hs0.
  destruct (morning_round_sound m Hm) as (_ & Hp1 & Hs1 & Hq1).
  fold m1 in Hp1, Hs1, Hq1.
  assert (Hpos : 0 <= frictions (price m) fills).
  { clear He Hl. induction Hfills as [| t fills' Ht _ IH]; simpl; [lra |].
    destruct Ht as (o & Ho & Hside & ->).
    rewrite (fill_of_market m (with_queue m1 []) o) by (simpl; congruence).
    rewrite (friction_of_fill m o Hside).
    rewrite Forall_forall in Hq1. specialize (Hq1 o Ho).
    rewrite Hp in Hp1. rewrite Hs in Hs1.
    pose proof (fee_nonneg m o Hside Hp1 Hs0 Hs1 Hq1) as Hfee.
    apply inject_Z_pos in Hq1.
    pose proof (Qmult_le_0_compat _ _ Hp1 Hs0) as Hps.
    pose proof (Qmult_le_0_compat _ _ (Qlt_le_weak _ _ Hq1) Hps). lra. }
  split; [exact Hpos |]. rewrite He. lra.
Qed.

(** *** The simulator the constructors build *)

Lemma keys_registered_by_lookup (m : MarketSimulator) :
  map_Forall (fun name _ => name ∈ map registered_name STRATEGY_REGISTRY)
             (strategies (firm m)) ->
  keys_registered m.
Proof. intros Hall name [s Hs]. exact (Hall name s Hs). Qed.

Lemma registered_strategies_well_formed (configs : strategy_configs) :
  forall name s,
    registered_strategies configs !! name = Some s ->
    id s = name /\ name ∈ map registered_name STRATEGY_REGISTRY.
Proof.
  intros name s. unfold registered_strategies, register. simpl.
  destruct (cfg_Trend configs), (cfg_MeanReversion configs); intros Hs;
    repeat match type of Hs with
           | <[_ := _]> _ !! _ = Some _ =>
               apply lookup_insert_Some in Hs as [[<- <-] | [_ Hs]]
           end;
    try (rewrite lookup_empty in Hs; discriminate);
    (split; [reflexivity |]);
    [right; left | left | left | right; left].
Qed.

Lemma fresh_simulator_well_formed
    (firm_config : FirmConfig) (configs : strategy_configs) :
  let m := Solvency.fresh_simulator firm_config configs in
  ids_are_keys m /\ keys_registered m
  /\ order_queue m = [] /\ history m = [] /\ trade_log m = [].
Proof.
  simpl. split; [| split; [| now repeat split]].
  - intros name s. unfold Solvency.fresh_simulator. simpl.
    unfold PortfolioManager_init, _rebalance_capital. simpl.
    destruct (decide (registered_strategies configs = ∅)); simpl; intros Hs.
    + now apply (registered_strategies_well_formed configs).
    + apply lookup_fmap_Some in Hs as (s0 & <- & Hs0). simpl.
      now apply (registered_strategies_well_formed configs).
  - intros name. unfold Solvency.fresh_simulator. simpl.
    unfold PortfolioManager_init, _rebalance_capital. simpl.
    destruct (decide (registered_strategies configs = ∅)); simpl; intros [s Hs].
    + now apply (registered_strategies_well_formed configs name s).
    + apply lookup_fmap_Some in Hs as (s0 & _ & Hs0).
      now apply (registered_strategies_well_formed configs name s0).
Qed.

(** *** The capital handed out *)

Lemma strategy_order_length (pm : PortfolioManager) :
  (forall name, is_Some (strategies pm !! name) ->
                name ∈ map registered_name STRATEGY_REGISTRY) ->
  length (strategy_order pm) = size (strategies pm).
Proof.
  intros Hkeys. rewrite <- length_map_to_list.
  rewrite <- (length_fmap fst (map_to_list (strategies pm))).
  apply Permutation_length, NoDup_Permutation.
  - apply strategy_order_NoDup.
  - apply NoDup_fst_map_to_list.
  - intros name. unfold strategy_order.
    rewrite list_elem_of_filter, list_elem_of_fmap. split.
    + intros [[s Hs] _]. exists (name, s). split; [reflexivity |].
      now apply elem_of_map_to_list.
    + intros ([n s] & -> & Hin). apply elem_of_map_to_list in Hin. simpl.
      split; [eauto |]. apply Hkeys. eauto.
Qed.

Lemma total_constant (book : gmap string AtlasStrategy) (p v : Q)
    (names : list string) :
  (forall name, name ∈ names ->
     exists s, book !! name = Some s /\ get_equity s p == v) ->
  forall acc,
    total book p names acc
    == acc + inject_Z (Z.of_nat (length names)) * v.
Proof.
  induction names as [| n rest IH]; intros Hall acc.
  - simpl. ring.
  - destruct (Hall n) as (s & Hs & Hv); [now left |].
    simpl total. rewrite Hs.
    rewrite IH by (intros name Hin; apply Hall; now right).
    rewrite Hv. simpl length. rewrite Nat2Z.inj_succ, <- Z.add_1_r.
    rewrite inject_Z_plus. ring.
Qed.

(** X19.  [_rebalance_capital] hands out the whole initial capital and
    nothing else: in a portfolio manager whose keys are names of the
    registry and that has at least one strategy, the total equity after
    rebalancing is the initial capital at every price, whatever cash and
    shares the strategies held before, since every strategy is left with no
    shares; without a strategy the total equity is 0.  So the portfolio
    manager the constructor returns is worth [FIRM_CAPITAL] if at least one
    strategy is configured. *)
Theorem rebalancing_hands_out_the_capital
    (pm : PortfolioManager) (firm_config : FirmConfig)
    (configs : strategy_configs) (p : Q) :
  (forall name, is_Some (strategies pm !! name) ->
                name ∈ map registered_name STRATEGY_REGISTRY) ->
  (strategies pm <> ∅ ->
   get_total_equity (_rebalance_capital pm) p == inject_Z (initial_capital pm))
  /\ (strategies pm = ∅ -> get_total_equity (_rebalance_capital pm) p == 0)
  /\ (registered_strategies configs <> ∅ ->
      get_total_equity (PortfolioManager_init firm_config configs) p
      == inject_Z (FIRM_CAPITAL firm_config)).
Proof.
  assert (Hgeneral : forall pm0,
             (forall name, is_Some (strategies pm0 !! name) ->
                           name ∈ map registered_name STRATEGY_REGISTRY) ->
             strategies pm0 <> ∅ ->
             get_total_equity (_rebalance_capital pm0) p
             == inject_Z (initial_capital pm0)).
  { intros pm0 Hkeys Hne.
    assert (Hkeys' : forall name,
               is_Some (strategies (_rebalance_capital pm0) !! name) ->
               name ∈ map registered_name STRATEGY_REGISTRY).
    { intros name. rewrite Allocation._rebalance_capital_lookup.
      rewrite fmap_is_Some. apply Hkeys. }
    unfold get_total_equity.
    fold (total (strategies (_rebalance_capital pm0)) p
                (strategy_order (_rebalance_capital pm0)) 0).
    rewrite (total_constant _ p
               (inject_Z (initial_capital pm0)
                / inject_Z (Z.of_nat (size (strategies pm0))))).
    - rewrite (strategy_order_length _ Hkeys'),
        Allocation._rebalance_capital_size.
      apply map_size_non_empty_iff in Hne.
      assert (Hsize : ~ inject_Z (Z.of_nat (size (strategies pm0))) == 0).
      { change 0 with (inject_Z 0). rewrite inject_Z_injective. lia. }
      field. exact Hsize.
    - intros name Hin. unfold strategy_order in Hin.
      apply list_elem_of_filter in Hin as [[s Hs] _].
      exists s. split; [exact Hs |].
      rewrite Allocation._rebalance_capital_lookup in Hs.
      destruct (strategies pm0 !! name) as [s0 |]; [| discriminate].
      simpl in Hs. injection Hs as <-.
      unfold get_equity, set_capital. simpl. ring. }
  intros Hkeys. split; [now apply Hgeneral |]. split.
  - intros Hempty. unfold get_total_equity, strategy_order, _rebalance_capital.
    destruct (decide (strategies pm = ∅)) as [_ | Hne]; [| contradiction].
    rewrite Hempty. reflexivity.
  - intros Hne. unfold PortfolioManager_init.
    rewrite Hgeneral; [reflexivity | | exact Hne].
    intros name [s Hs]. simpl in Hs.
    now apply (registered_strategies_well_formed configs name s).
Qed.

(** *** The exit prices of an open position *)

Definition exits_set (s : AtlasStrategy) : Prop :=
  0 < stop_loss_price s /\ 0 < take_profit_price s.

(** A strategy that holds shares has both exit prices set. *)
Definition protected (s : AtlasStrategy) : Prop :=
  (0 < shares s)%Z -> exits_set s.

(** A stop-loss below 100% and a take-profit above -100%. *)
Definition sane_exits (c : AtlasClass) : Prop :=
  match c with
  | AtlasTrendFollowing config =>
      StrategyConfig.STOP_LOSS_PCT config < 1
      /\ -1 < StrategyConfig.TAKE_PROFIT_PCT config
  | AtlasMeanReversion config =>
      StrategyConfig.MR_STOP_LOSS_PCT config < 1
      /\ -1 < StrategyConfig.MR_TAKE_PROFIT_PCT config
  end.

(** An order of the queue between the morning round and its execution: a
    buy of a strategy whose exit prices are set, or the sale of a whole
    position. *)
Definition order_ok (m : MarketSimulator) (o : Order) : Prop :=
  exists s,
    strategies (firm m) !! o_id o = Some s
    /\ ((o_side o = "buy"%string /\ exits_set s)
        \/ (o_side o = "sell"%string /\ o_qty o = shares s
            /\ (0 < shares s)%Z)).

(** The books while [queue] is still to be executed: one order per
    strategy at most, and a position without exit prices is on sale. *)
Definition pending (m : MarketSimulator) (queue : list Order) : Prop :=
  NoDup (map o_id queue)
  /\ Forall (order_ok m) queue
  /\ forall name s,
       strategies (firm m) !! name = Some s -> (0 < shares s)%Z ->
       exits_set s
       \/ exists o, o ∈ queue /\ o_id o = name /\ o_side o = "sell"%string.

(** What a bar starts from and ends in. *)
Definition steady (m : MarketSimulator) : Prop :=
  ids_are_keys m
  /\ order_queue m = []
  /\ Settlement.sound m
  /\ forall name s,
       strategies (firm m) !! name = Some s ->
       sane_exits (class s) /\ protected s.

Lemma order_ok_other (m m' : MarketSimulator) (o : Order) :
  strategies (firm m') !! o_id o = strategies (firm m) !! o_id o ->
  order_ok m o -> order_ok m' o.
Proof. intros Heq (s & Hs & Hcase). exists s. now rewrite Heq. Qed.

Lemma process_orders_protects (queue : list Order) :
  forall m,
    pending m queue ->
    forall name s,
      strategies (firm (fst (process_orders queue m))) !! name = Some s ->
      protected s.
Proof.
  induction queue as [| o rest IH]; intros m (Hnd & Hok & Hheld) name s Hs.
  - simpl in Hs. intros Hpos.
    destruct (Hheld name s Hs Hpos) as [Hset | (o & Ho & _)]; [exact Hset |].
    now apply not_elem_of_nil in Ho.
  - simpl in Hnd. apply NoDup_cons in Hnd as [Hfresh Hnd].
    inversion Hok as [| ? ? Ho Hrest]; subst.
    destruct Ho as (s0 & Hs0 & Hcase).
    simpl in Hs.
    destruct (settle m o) as [e | m1] eqn:E;
      [exfalso; apply (proj1 (Accounting.settle_raises_iff m o));
       [eauto | unfold Accounting.known; eauto] |].
    simpl in Hs. refine (IH m1 _ name s Hs).
    split; [exact Hnd |]. split.
    + apply Forall_forall. intros o' Ho'.
      rewrite Forall_forall in Hrest.
      apply (order_ok_other m); [| now apply Hrest].
      apply (Accounting.settle_lookup_other m m1 o (o_id o') E).
      intros Heq. apply Hfresh. rewrite <- Heq.
      now apply (list_elem_of_fmap_2 o_id).
    + intros n sn Hn Hpos.
      destruct (decide (n = o_id o)) as [-> | Hne].
      * destruct Hcase as [[Hside Hset] | (Hside & Hqty & Hposs)].
        -- left.
           destruct (Accounting.settle_lookup_self m m1 o s0 E Hs0)
             as (s1 & Hs1 & _ & _ & _ & Hstop & Htp).
           assert (s1 = sn) by congruence. subst s1.
           unfold exits_set. now rewrite Hstop, Htp.
        -- exfalso.
           assert (Hc : Settlement.covered m o s0)
             by (right; split; [exact Hside | lia]).
           rewrite (Settlement.settle_covered m o s0 Hs0 Hc) in E.
           injection E as <-.
           unfold Settlement.settled in Hn. rewrite Hside in Hn.
           simpl in Hn. rewrite lookup_insert_eq in Hn.
           injection Hn as <-. simpl in Hpos. lia.
      * rewrite (Accounting.settle_lookup_other m m1 o n E Hne) in Hn.
        destruct (Hheld n sn Hn Hpos) as [Hset | (o' & Ho' & Hid & Hside)];
          [now left |].
        right. exists o'. split; [| now split].
        apply elem_of_cons in Ho' as [-> | Ho']; [congruence | exact Ho'].
Qed.

(** The strategy bound to [n] becomes [s'] and [new] joins the queue. *)
Lemma pending_update (m m1 : MarketSimulator) (n : string)
    (s s' : AtlasStrategy) (new : list Order) :
  strategies (firm m) !! n = Some s ->
  strategies (firm m1) = <[n := s']> (strategies (firm m)) ->
  order_queue m1 = order_queue m ++ new ->
  pending m (order_queue m) ->
  n ∉ map o_id (order_queue m) ->
  (new = [] /\ protected s')
  \/ (exists q, new = [mkOrder n "buy" q] /\ exits_set s')
  \/ (new = [mkOrder n "sell" (shares s')] /\ (0 < shares s')%Z) ->
  pending m1 (order_queue m1)
  /\ forall x, x ∈ map o_id (order_queue m1) ->
               x = n \/ x ∈ map o_id (order_queue m).
Proof.
  intros Hs Hbook Hqueue (Hnd & Hok & Hheld) Hfresh Hnew.
  assert (Hids : map o_id new = [] \/ map o_id new = [n]).
  { destruct Hnew as [[-> _] | [(q & -> & _) | [-> _]]]; auto. }
  assert (Hold : forall o, o ∈ order_queue m -> o_id o <> n).
  { intros o Ho Heq. apply Hfresh. rewrite <- Heq.
    now apply (list_elem_of_fmap_2 o_id). }
  split; [split; [| split] |].
  - rewrite Hqueue, map_app. apply NoDup_app. split; [exact Hnd |].
    destruct Hids as [-> | ->]; split;
      try (intros x _ Hx; now apply not_elem_of_nil in Hx);
      try apply NoDup_nil_2.
    + intros x Hx Hin. apply list_elem_of_singleton in Hin. now subst x.
    + apply NoDup_singleton.
  - rewrite Hqueue. apply Forall_app. split.
    + apply Forall_forall. intros o Ho. rewrite Forall_forall in Hok.
      apply (order_ok_other m); [| now apply Hok].
      rewrite Hbook. apply lookup_insert_ne. intros Heq.
      now apply (Hold o Ho).
    + destruct Hnew as [[-> _] | [(q & -> & Hset) | [-> Hpos]]];
        [constructor | |];
        (constructor; [| constructor]); exists s'; simpl;
        rewrite Hbook, lookup_insert_eq; (split; [reflexivity |]).
      * left. now split.
      * right. now repeat split.
  - intros name sn Hn Hpos. rewrite Hbook in Hn.
    destruct (decide (name = n)) as [-> | Hne].
    + rewrite lookup_insert_eq in Hn. injection Hn as <-.
      destruct Hnew as [[_ Hprot] | [(q & _ & Hset) | [-> _]]];
        [left; now apply Hprot | now left |].
      right. eexists. rewrite Hqueue.
      split; [apply elem_of_app; right; now left | now split].
    + rewrite lookup_insert_ne in Hn by congruence.
      destruct (Hheld name sn Hn Hpos) as [Hset | (o & Ho & Hid & Hside)];
        [now left |].
      right. exists o. rewrite Hqueue.
      split; [apply elem_of_app; now left | now split].
  - intros x Hx. rewrite Hqueue, map_app in Hx.
    apply elem_of_app in Hx as [Hx | Hx]; [now right |].
    destruct Hids as [Hi | Hi]; rewrite Hi in Hx;
      [now apply not_elem_of_nil in Hx |].
    apply list_elem_of_singleton in Hx. now left.
Qed.

Lemma atlas_decide_action_cases (s : AtlasStrategy) (h : list Bar) (p : Q) :
  decide_action s h p = (HOLD, 0%Z, s)
  \/ (exists q,
        decide_action s h p = (BUY, q, Decisions.armed (class s) s p)
        /\ shares s = 0%Z)
  \/ (decide_action s h p = (SELL, 0%Z, _clear_exit_prices s)
      /\ shares s <> 0%Z).
Proof.
  unfold decide_action, Decisions.armed.
  destruct (class s) as [config | config];
    unfold AtlasTrendFollowing_decide_action, AtlasMeanReversion_decide_action;
    (destruct (_ <? _)%Z; [now left |]);
    (destruct (Z.eqb_spec (shares s) 0) as [Hflat | Hheld];
     [destruct (_ && _); [| now left];
      destruct (Qlt_bool _ _); [| now left];
      right; left; eexists; now split |]).
  - destruct (flt _ _); [right; right; now split | now left].
  - destruct (fgt _ _); [right; right; now split | now left].
Qed.

Lemma armed_exits_set (s : AtlasStrategy) (p : Q) :
  0 < p -> sane_exits (class s) ->
  exits_set (Decisions.armed (class s) s p).
Proof.
  intros Hp Hsane. unfold Decisions.armed, exits_set.
  destruct (class s) as [config | config]; destruct Hsane as [Hsl Htp]; simpl;
    split; apply Qmult_lt_0_compat; lra.
Qed.

Lemma daily_operation_pending (m : MarketSimulator) (n : string) :
  pending m (order_queue m) ->
  n ∉ map o_id (order_queue m) ->
  ids_are_keys m ->
  (forall s, strategies (firm m) !! n = Some s ->
             (0 <= shares s)%Z /\ sane_exits (class s)) ->
  0 < price m ->
  pending (daily_operation m n) (order_queue (daily_operation m n))
  /\ forall x, x ∈ map o_id (order_queue (daily_operation m n)) ->
               x = n \/ x ∈ map o_id (order_queue m).
Proof.
  intros Hpend Hfresh Hids Hbook Hprice.
  destruct (strategies (firm m) !! n) as [s |] eqn:Hs;
    [| unfold daily_operation; rewrite Hs; split; [exact Hpend | auto]].
  destruct (Hbook s eq_refl) as [Hshares Hsane].
  assert (Hid : id s = n) by now apply Hids.
  assert (Hprot : protected s).
  { intros Hpos. destruct Hpend as (_ & _ & Hheld).
    destruct (Hheld n s Hs Hpos) as [Hset | (o & Ho & Hoid & _)];
      [exact Hset |].
    exfalso. apply Hfresh. rewrite <- Hoid.
    now apply (list_elem_of_fmap_2 o_id). }
  assert (Hexit : (0 < shares s)%Z ->
                  pending (forced_exit m n s) (order_queue (forced_exit m n s))
                  /\ forall x,
                       x ∈ map o_id (order_queue (forced_exit m n s)) ->
                       x = n \/ x ∈ map o_id (order_queue m)).
  { intros Hpos.
    apply (pending_update m (forced_exit m n s) n s (_clear_exit_prices s)
             [mkOrder n "sell" (shares s)]); try assumption.
    - unfold forced_exit. rewrite submit_order_queue by exact Hpos.
      reflexivity.
    - unfold forced_exit. rewrite submit_order_queue by exact Hpos.
      simpl. now rewrite Hid.
    - right. right. now split. }
  unfold daily_operation. rewrite Hs.
  destruct (Z.ltb_spec 0 (shares s)) as [Hpos | Hflat]; simpl.
  - destruct (stop_loss_hit m s); [now apply Hexit |].
    destruct (take_profit_hit m s); [now apply Hexit |].
    clear Hexit. unfold consult.
    destruct (atlas_decide_action_cases s (history m) (price m))
      as [-> | [(q & -> & Hzero) | [-> Hheld]]]; [| lia |].
    + apply (pending_update m (with_strategy m n s) n s s []);
        try assumption; try reflexivity.
      * simpl. now rewrite app_nil_r.
      * left. now split.
    + simpl shares. apply Z.ltb_lt in Hpos. rewrite Hpos.
      apply Z.ltb_lt in Hpos.
      apply (pending_update m _ n s (_clear_exit_prices s)
               [mkOrder n "sell" (shares s)]); try assumption.
      * rewrite submit_order_queue by exact Hpos. reflexivity.
      * rewrite submit_order_queue by exact Hpos. simpl. now rewrite Hid.
      * right. right. now split.
  - clear Hexit. unfold consult.
    destruct (atlas_decide_action_cases s (history m) (price m))
      as [-> | [(q & -> & Hzero) | [-> Hheld]]]; [| | lia].
    + apply (pending_update m (with_strategy m n s) n s s []);
        try assumption; try reflexivity.
      * simpl. now rewrite app_nil_r.
      * left. now split.
    + pose proof (armed_exits_set s (price m) Hprice Hsane) as Hset.
      assert (Hid' : id (Decisions.armed (class s) s (price m)) = n)
        by (unfold Decisions.armed; destruct (class s); exact Hid).
      destruct (Z.ltb_spec 0 q) as [Hq | Hq].
      * apply (pending_update m _ n s
                 (Decisions.armed (class s) s (price m))
                 [mkOrder n "buy" q]); try assumption.
        -- rewrite submit_order_queue by exact Hq. reflexivity.
        -- rewrite submit_order_queue by exact Hq. simpl. now rewrite Hid'.
        -- right. left. exists q. now split.
      * apply (pending_update m _ n s
                 (Decisions.armed (class s) s (price m)) []);
          try assumption; try reflexivity.
        -- simpl. now rewrite app_nil_r.
        -- left. split; [reflexivity |]. intros _. exact Hset.
Qed.

Lemma daily_operation_back (m : MarketSimulator) (n name : string)
    (s1 : AtlasStrategy) :
  strategies (firm (daily_operation m n)) !! name = Some s1 ->
  exists s, strategies (firm m) !! name = Some s /\ same_capital s s1.
Proof.
  intros Hs1. destruct (decide (name = n)) as [-> | Hne].
  - destruct (strategies (firm m) !! n) as [s |] eqn:Hs.
    + destruct (daily_operation_turn m n s Hs)
        as (s' & orders & Hbook & Hsame & _).
      rewrite Hbook, lookup_insert_eq in Hs1. injection Hs1 as <-.
      exists s. now split.
    + unfold daily_operation in Hs1. rewrite Hs in Hs1. congruence.
  - rewrite daily_operation_other in Hs1 by exact Hne.
    exists s1. split; [exact Hs1 | apply same_capital_refl].
Qed.

Lemma morning_round_pending (names : list string) :
  forall m,
    NoDup names ->
    (forall x, x ∈ map o_id (order_queue m) -> x ∉ names) ->
    pending m (order_queue m) ->
    ids_are_keys m ->
    (forall name s, strategies (firm m) !! name = Some s ->
                    (0 <= shares s)%Z /\ sane_exits (class s)) ->
    0 < price m ->
    pending (fold_left daily_operation names m)
            (order_queue (fold_left daily_operation names m)).
Proof.
  induction names as [| n rest IH];
    intros m Hnd Hapart Hpend Hids Hbook Hprice; [exact Hpend |].
  apply NoDup_cons in Hnd as [Hfresh Hnd]. simpl.
  assert (Hn : n ∉ map o_id (order_queue m)).
  { intros Hin. apply (Hapart n Hin). now left. }
  destruct (daily_operation_pending m n Hpend Hn Hids (Hbook n) Hprice)
    as [Hpend1 Hids1].
  destruct (daily_operation_market m n) as [(_ & Hp & _) _].
  apply IH; try assumption.
  - intros x Hx Hin. destruct (Hids1 x Hx) as [-> | Hold];
      [contradiction |].
    apply (Hapart x Hold). now right.
  - intros name s1 Hs1.
    destruct (daily_operation_back m n name s1 Hs1)
      as (s & Hs & _ & _ & Hid & _).
    rewrite Hid. now apply Hids.
  - intros name s1 Hs1.
    destruct (daily_operation_back m n name s1 Hs1)
      as (s & Hs & _ & Hsh & _ & Hclass & _).
    rewrite Hsh, Hclass. now apply (Hbook name).
  - now rewrite Hp.
Qed.

Lemma bar_cycle_steady (m : MarketSimulator) :
  steady m -> 0 < price m -> steady (fst (bar_cycle m)).
Proof.
  intros (Hids & Hq & Hsound & Hbook) Hprice.
  destruct (bar_cycle_runs m Hids Hq) as (_ & Hq' & Hsame & _).
  split; [now apply (same_firm_ids m) |]. split; [exact Hq' |].
  split; [now apply bar_cycle_sound |].
  assert (Hpend : pending m (order_queue m)).
  { rewrite Hq. split; [constructor |]. split; [constructor |].
    intros name s Hs Hpos. left. now apply (Hbook name s Hs). }
  assert (Hsolvent : forall name s,
             strategies (firm m) !! name = Some s ->
             (0 <= shares s)%Z /\ sane_exits (class s)).
  { intros name s Hs. split; [| now apply (Hbook name s Hs)].
    destruct Hsound as (Hsolv & _). now destruct (Hsolv name s Hs). }
  assert (Hapart : forall x, x ∈ map o_id (order_queue m) ->
                             x ∉ strategy_order (firm m))
    by (rewrite Hq; intros x Hx; now apply not_elem_of_nil in Hx).
  pose proof (morning_round_pending (strategy_order (firm m)) m
                (strategy_order_NoDup (firm m)) Hapart Hpend Hids Hsolvent
                Hprice) as Hmorning.
  fold (run_daily_operations m) in Hmorning.
  intros name s2 Hs2. split.
  - destruct (strategies (firm m) !! name) as [s |] eqn:Hs.
    + destruct (proj1 Hsame name s Hs) as (s' & Hs' & _ & Hclass & _).
      assert (s' = s2) by congruence. subst s'.
      rewrite Hclass. now apply (Hbook name s Hs).
    + rewrite (proj2 Hsame name Hs) in Hs2. discriminate.
  - unfold bar_cycle in Hs2. rewrite execute_orders_run in Hs2.
    apply (process_orders_protects
             (order_queue (run_daily_operations m))
             (with_queue (run_daily_operations m) []) Hmorning name s2 Hs2).
Qed.

Lemma run_from_steady (window : Z) (rows : list Bar) :
  forall (i : nat) (st : run_state),
    steady (sim st) ->
    Forall (fun row => 0 < Close row) rows ->
    steady (sim (run_from window i rows st)).
Proof.
  induction rows as [| row rest IH]; intros i st Hst Hrows; simpl;
    [exact Hst |].
  inversion Hrows as [| ? ? Hrow Hrest]; subst.
  assert (Hbar : steady (sim (trade_bar window i st row))).
  { unfold trade_bar.
    destruct (open_bar_parts window (sim st) row) as (Hf & Hq1 & _ & Hs1 & Hp1).
    set (m1 := open_bar window (sim st) row) in *.
    destruct Hst as (Hids & Hq & (Hsolv & _ & Hslip & _) & Hbook).
    assert (Hm1 : steady m1).
    { split; [unfold ids_are_keys; now rewrite Hf |].
      split; [congruence |]. split.
      - split; [unfold Settlement.book_solvent; now rewrite Hf |].
        rewrite Hp1, Hs1, Hq1, Hq. split; [lra |]. split; [exact Hslip |].
        constructor.
      - now rewrite Hf. }
    destruct (window - 1 <=? Z.of_nat i)%Z; [| exact Hm1].
    assert (Hprice : 0 < price m1) by now rewrite Hp1.
    pose proof (bar_cycle_steady m1 Hm1 Hprice) as Hm2.
    unfold bar_cycle in Hm2.
    destruct (execute_orders (run_daily_operations m1)) as [m2 [e |]];
      exact Hm2. }
  destruct (raised (trade_bar window i st row)); [exact Hbar |].
  now apply IH.
Qed.

(** X27.  In the backtest no position is ever held without a stop-loss
    and a take-profit.  [run] on bars with a positive close, from a
    simulator with an empty queue whose strategies are bound to their ids,
    solvent, configured with a stop-loss below 100% and a take-profit above
    -100%, and flat or with both exit prices set: when the loop ends, every
    strategy that holds shares has a positive stop-loss price and a positive
    take-profit price.  A buy is only queued by a strategy that has just set
    them, and whatever clears them queues the sale of the whole position,
    which the same bar executes. *)
Theorem open_positions_keep_their_exits
    (m : MarketSimulator) (data : list Bar) :
  ids_are_keys m ->
  order_queue m = [] ->
  Settlement.sound m ->
  (forall name s,
     strategies (firm m) !! name = Some s ->
     sane_exits (class s) /\ protected s) ->
  Forall (fun row => 0 < Close row) data ->
  forall name s,
    strategies (firm (sim (run_loop m data))) !! name = Some s ->
    (0 < shares s)%Z ->
    0 < stop_loss_price s /\ 0 < take_profit_price s.
Proof.
  intros Hids Hq Hsound Hbook Hdata name s Hs Hpos.
  assert (Hstart : steady m)
    by (split; [exact Hids |]; split; [exact Hq |];
        split; [exact Hsound | exact Hbook]).
  destruct (run_from_steady (max_warmup_window (firm m)) data 0
              (mkRunState m [] None) Hstart Hdata) as (_ & _ & _ & Hend).
  fold (run_loop m data) in Hend.
  now apply (Hend name s Hs).
Qed.

(** The configurations of a backtest whose exits are sane. *)
Definition sane_configs (configs : strategy_configs) : Prop :=
  (forall c, cfg_Trend configs = Some c -> sane_exits (AtlasTrendFollowing c))
  /\ (forall c, cfg_MeanReversion configs = Some c ->
                sane_exits (AtlasMeanReversion c)).

Lemma registered_strategies_class (configs : strategy_configs) :
  forall name s,
    registered_strategies configs !! name = Some s ->
    (exists c, cfg_Trend configs = Some c /\ class s = AtlasTrendFollowing c)
    \/ (exists c, cfg_MeanReversion configs = Some c
                  /\ class s = AtlasMeanReversion c).
Proof.
  intros name s. unfold registered_strategies, register. simpl.
  destruct (cfg_Trend configs), (cfg_MeanReversion configs); intros Hs;
    repeat match type of Hs with
           | <[_ := _]> _ !! _ = Some _ =>
               apply lookup_insert_Some in Hs as [[_ <-] | [_ Hs]]
           end;
    try (rewrite lookup_empty in Hs; discriminate); simpl; eauto.
Qed.

(** The simulator the constructors build is where a run may start. *)
Lemma fresh_simulator_steady
    (firm_config : FirmConfig) (configs : strategy_configs) :
  (0 <= FIRM_CAPITAL firm_config)%Z ->
  (SLIPPAGE_BPS firm_config <= 10000)%Z ->
  sane_configs configs ->
  steady (Solvency.fresh_simulator firm_config configs).
Proof.
  intros Hcap Hslip [Htrend Hmr].
  destruct (fresh_simulator_well_formed firm_config configs)
    as (Hids & _ & Hq & _).
  split; [exact Hids |]. split; [exact Hq |].
  split; [now apply Solvency.fresh_simulator_sound |].
  intros name s Hs. unfold Solvency.fresh_simulator in Hs. simpl in Hs.
  unfold PortfolioManager_init in Hs.
  rewrite Allocation._rebalance_capital_lookup in Hs. simpl in Hs.
  destruct (registered_strategies configs !! name) as [s0 |] eqn:Hs0;
    [| discriminate].
  simpl in Hs. injection Hs as <-. split; [| intros Hpos; simpl in Hpos; lia].
  simpl.
  destruct (registered_strategies_class configs name s0 Hs0)
    as [(c & Hc & ->) | (c & Hc & ->)]; auto.
Qed.

End WithNumLib.
End Backtest.

(** * Further properties of the performance metrics *)

Module Drawdown.
Import Analysis.

(** [Series.cumprod()] *)
Fixpoint cumprod_from (acc : Q) (xs : list Q) : list Q :=
  match xs with
  | [] => []
  | x :: rest => acc * x :: cumprod_from (acc * x) rest
  end.

Definition cumprod (xs : list Q) : list Q :=
  match xs with
  | [] => []
  | x :: rest => x :: cumprod_from x rest
  end.

(** [Series.expanding(min_periods=1).max()] *)
Fixpoint expanding_max_from (peak : Q) (xs : list Q) : list Q :=
  match xs with
  | [] => []
  | x :: rest => Qmax peak x :: expanding_max_from (Qmax peak x) rest
  end.

Definition expanding_max (xs : list Q) : list Q :=
  match xs with
  | [] => []
  | x :: rest => x :: expanding_max_from x rest
  end.

(** [Series.min()]; [None] is the NaN of an empty series. *)
Definition series_min (xs : list Q) : option Q :=
  match xs with
  | [] => None
  | x :: rest => Some (fold_left Qmin rest x)
  end.

Definition cumulative_returns (self : PerformanceAnalyzer) : list Q :=
  cumprod (map (fun r => 1 + r) (returns self)).

Definition peak_equity (self : PerformanceAnalyzer) : list Q :=
  expanding_max (cumulative_returns self).

Definition drawdown (self : PerformanceAnalyzer) : list Q :=
  zip_with (fun c p => (c - p) / p)
           (cumulative_returns self) (peak_equity self).

(** The ['max_drawdown'] entry of the dictionary [calculate_metrics]
    returns; with fewer than two returns every entry is 0. *)
Definition calculate_metrics_max_drawdown (self : PerformanceAnalyzer) : Q :=
  if (length (returns self) <? 2)%nat then 0
  else default 0 (series_min (drawdown self)).

Section WithNumLib.
Context `{NumLib}.

(** The ['calmar'] entry. *)
Definition calculate_metrics_calmar (self : PerformanceAnalyzer) : Q :=
  if (length (returns self) <? 2)%nat then 0
  else
    let max_drawdown := default 0 (series_min (drawdown self)) in
    if Qlt_bool max_drawdown 0
    then annualized_returns self / Qabs max_drawdown
    else 0.
End WithNumLib.

(** The drawdowns from a running product [acc] and a running peak
    [peak]. *)
Definition drawdown_from (acc peak : Q) (factors : list Q) : list Q :=
  zip_with (fun c p => (c - p) / p)
           (cumprod_from acc factors)
           (expanding_max_from peak (cumprod_from acc factors)).

Lemma drawdown_from_cons (acc peak x : Q) (rest : list Q) :
  drawdown_from acc peak (x :: rest)
  = (acc * x - Qmax peak (acc * x)) / Qmax peak (acc * x)
    :: drawdown_from (acc * x) (Qmax peak (acc * x)) rest.
Proof. reflexivity. Qed.

Lemma drawdown_unfold (self : PerformanceAnalyzer) :
  drawdown self
  = match map (fun r => 1 + r) (returns self) with
    | [] => []
    | x :: rest => (x - x) / x :: drawdown_from x x rest
    end.
Proof.
  unfold drawdown, peak_equity, cumulative_returns.
  now destruct (map _ (returns self)).
Qed.

Lemma ratio_bounds (c p : Q) :
  0 < c -> c <= p -> -1 < (c - p) / p /\ (c - p) / p <= 0.
Proof.
  intros Hc Hp. assert (Hpos : 0 < p) by lra. split.
  - apply Qlt_shift_div_l; [exact Hpos | lra].
  - apply Qle_shift_div_r; [exact Hpos | lra].
Qed.

Lemma ratio_zero (c p : Q) :
  0 < p -> ((c - p) / p == 0 <-> c == p).
Proof.
  intros Hp. split; intros Heq.
  - assert (Hm : (c - p) / p * p == 0) by (rewrite Heq; ring).
    rewrite Qmult_comm, Qmult_div_r in Hm by lra. lra.
  - rewrite Heq. field. lra.
Qed.

Lemma drawdown_from_bounds (factors : list Q) :
  forall acc peak,
    0 < acc -> acc <= peak ->
    Forall (fun x => 0 < x) factors ->
    Forall (fun d => -1 < d /\ d <= 0) (drawdown_from acc peak factors).
Proof.
  induction factors as [| x rest IH]; intros acc peak Hacc Hpeak Hall;
    [constructor |].
  inversion Hall as [| ? ? Hx Hrest]; subst.
  rewrite drawdown_from_cons.
  assert (Hc : 0 < acc * x) by now apply Qmult_lt_0_compat.
  pose proof (Q.le_max_r peak (acc * x)) as Hmax.
  constructor; [now apply ratio_bounds | now apply IH].
Qed.

Lemma drawdown_from_zero (factors : list Q) :
  forall acc peak,
    0 < acc -> peak == acc ->
    (Forall (fun d => d == 0) (drawdown_from acc peak factors)
     <-> Forall (fun x => 1 <= x) factors).
Proof.
  induction factors as [| x rest IH]; intros acc peak Hacc Hpeak;
    [split; constructor |].
  rewrite drawdown_from_cons.
  pose proof (Q.le_max_r peak (acc * x)) as Hr.
  pose proof (Q.le_max_l peak (acc * x)) as Hl.
  assert (Hgrow : acc * x == Qmax peak (acc * x) <-> 1 <= x).
  { split; intros Hx.
    - assert (Hle : acc * 1 <= acc * x) by lra.
      apply Qmult_le_l in Hle; [exact Hle | exact Hacc].
    - assert (Hle : acc * 1 <= acc * x) by (apply Qmult_le_l; assumption).
      rewrite Q.max_r by lra. reflexivity. }
  assert (Hpos : 0 < Qmax peak (acc * x)) by lra.
  split; intros Hall; inversion Hall as [| ? ? Hhead Htail]; subst.
  - apply (ratio_zero _ _ Hpos) in Hhead.
    assert (Hx : 1 <= x) by now apply Hgrow.
    constructor; [exact Hx |].
    apply (IH (acc * x) (Qmax peak (acc * x))); try assumption;
      [lra | now symmetry].
  - assert (Heq : acc * x == Qmax peak (acc * x)) by now apply Hgrow.
    constructor; [now apply (ratio_zero _ _ Hpos) |].
    apply (IH (acc * x) (Qmax peak (acc * x))); try assumption;
      [lra | now symmetry].
Qed.

Lemma fold_min_bounds (xs : list Q) :
  forall x,
    -1 < x /\ x <= 0 ->
    Forall (fun d => -1 < d /\ d <= 0) xs ->
    -1 < fold_left Qmin xs x /\ fold_left Qmin xs x <= 0.
Proof.
  induction xs as [| y rest IH]; intros x Hx Hall; [exact Hx |].
  inversion Hall as [| ? ? Hy Hrest]; subst. simpl. apply IH; [| exact Hrest].
  destruct (Q.min_spec x y) as [[_ ->] | [_ ->]]; assumption.
Qed.

Lemma fold_min_zero (xs : list Q) :
  forall x,
    x <= 0 -> Forall (fun d => d <= 0) xs ->
    (fold_left Qmin xs x == 0 <-> x == 0 /\ Forall (fun d => d == 0) xs).
Proof.
  induction xs as [| y rest IH]; intros x Hx Hall; simpl.
  - split; [intros Heq; split; [exact Heq | constructor] | now intros [Heq _]].
  - inversion Hall as [| ? ? Hy Hrest]; subst.
    assert (Hmin : Qmin x y <= 0)
      by (destruct (Q.min_spec x y) as [[_ ->] | [_ ->]]; assumption).
    rewrite (IH (Qmin x y) Hmin Hrest).
    assert (Hboth : Qmin x y == 0 <-> x == 0 /\ y == 0).
    { destruct (Q.min_spec x y) as [[Hlt ->] | [Hle ->]]; split;
        try (intros [? ?]; assumption); intros Heq; split; lra. }
    rewrite Hboth. split.
    + intros [[Hx0 Hy0] Hrest0]. split; [exact Hx0 | now constructor].
    + intros [Hx0 Hall0]. inversion Hall0; subst. now repeat split.
Qed.

Lemma drawdown_shape (self : PerformanceAnalyzer) (r : Q) (rest : list Q) :
  returns self = r :: rest ->
  Forall (fun r => -1 < r) (r :: rest) ->
  let head := (1 + r - (1 + r)) / (1 + r) in
  let later := drawdown_from (1 + r) (1 + r) (map (fun r => 1 + r) rest) in
  default 0 (series_min (drawdown self)) = fold_left Qmin later head
  /\ head == 0
  /\ 0 < 1 + r
  /\ Forall (fun d => -1 < d /\ d <= 0) later.
Proof.
  intros E Hall. inversion Hall as [| ? ? Hr Hrest]; subst.
  rewrite drawdown_unfold, E. simpl.
  assert (Hfirst : 0 < 1 + r) by lra.
  split; [reflexivity |]. split; [field; lra |]. split; [exact Hfirst |].
  apply drawdown_from_bounds; [exact Hfirst | apply Qle_refl |].
  apply Forall_fmap. eapply Forall_impl; [exact Hrest |]. simpl. intros; lra.
Qed.

Lemma max_drawdown_range (self : PerformanceAnalyzer) :
  Forall (fun r => -1 < r) (returns self) ->
  (2 <= length (returns self))%nat ->
  -1 < default 0 (series_min (drawdown self))
  /\ default 0 (series_min (drawdown self)) <= 0.
Proof.
  intros Hall Hlong.
  destruct (returns self) as [| r rest] eqn:E; [simpl in Hlong; lia |].
  destruct (drawdown_shape self r rest E Hall) as (-> & Hhead & _ & Hbounds).
  apply fold_min_bounds; [rewrite Hhead; lra | exact Hbounds].
Qed.

(** X20.  The maximum drawdown of [calculate_metrics], for returns that
    all exceed -100%: it lies in (-1, 0]; and it is 0 exactly when there are
    fewer than two returns or no return after the first is negative.  The
    first return never counts: the running peak starts at the first
    cumulative value, not at the capital the returns start from. *)
Theorem max_drawdown_bounds (self : PerformanceAnalyzer) :
  Forall (fun r => -1 < r) (returns self) ->
  -1 < calculate_metrics_max_drawdown self
  /\ calculate_metrics_max_drawdown self <= 0
  /\ (calculate_metrics_max_drawdown self == 0
      <-> (length (returns self) < 2)%nat
          \/ Forall (fun r => 0 <= r) (List.tail (returns self))).
Proof.
  intros Hall. unfold calculate_metrics_max_drawdown.
  destruct (Nat.ltb_spec (length (returns self)) 2) as [Hshort | Hlong].
  { split; [lra |]. split; [lra |]. split; [now left | reflexivity]. }
  destruct (max_drawdown_range self Hall Hlong) as [Hlow Hhigh].
  split; [exact Hlow |]. split; [exact Hhigh |].
  destruct (returns self) as [| r rest] eqn:E; [simpl in Hlong; lia |].
  destruct (drawdown_shape self r rest E Hall)
    as (-> & Hhead & Hfirst & Hbounds).
  simpl List.tail.
  rewrite fold_min_zero;
    [| rewrite Hhead; lra
     | eapply Forall_impl; [exact Hbounds |]; simpl; intros d [_ Hd]; exact Hd].
  rewrite (drawdown_from_zero _ (1 + r) (1 + r) Hfirst (Qeq_refl _)).
  split.
  - intros [_ Hgrow]. right. rewrite Forall_fmap in Hgrow.
    eapply Forall_impl; [exact Hgrow |]. simpl. intros; lra.
  - intros [Hlt | Hgrow]; [simpl in Hlt; simpl in Hlong; lia |].
    split; [exact Hhead |]. apply Forall_fmap.
    eapply Forall_impl; [exact Hgrow |]. simpl. intros; lra.
Qed.

Section CalmarRatio.
Context `{NumLib}.

(** X21.  The Calmar ratio of [calculate_metrics], for returns that all
    exceed -100%: it is 0 when the maximum drawdown is 0, also for a
    negative annualized return; otherwise it is the annualized return
    divided by the size of the maximum drawdown, a number below 1, so the
    ratio has the sign of the annualized return and is at least as far from
    0. *)
Theorem calmar_ratio_cases (self : PerformanceAnalyzer) :
  Forall (fun r => -1 < r) (returns self) ->
  (calculate_metrics_max_drawdown self == 0 ->
   calculate_metrics_calmar self = 0)
  /\ (calculate_metrics_max_drawdown self < 0 ->
      calculate_metrics_calmar self
      == annualized_returns self / - calculate_metrics_max_drawdown self
      /\ (0 <= annualized_returns self ->
          annualized_returns self <= calculate_metrics_calmar self)
      /\ (annualized_returns self <= 0 ->
          calculate_metrics_calmar self <= annualized_returns self)).
Proof.
  intros Hall.
  unfold calculate_metrics_calmar, calculate_metrics_max_drawdown.
  destruct (Nat.ltb_spec (length (returns self)) 2) as [Hshort | Hlong];
    [split; [reflexivity | intros Hneg; lra] |].
  destruct (max_drawdown_range self Hall Hlong) as [Hlow Hhigh].
  generalize dependent (default 0 (series_min (drawdown self))).
  intros m Hlow Hhigh.
  destruct (Qlt_bool m 0) eqn:Hm.
  - apply Qlt_bool_true in Hm.
    split; [intros Hzero; lra |]. intros _.
    assert (Habs : Qabs m == - m) by (apply Qabs_neg; lra).
    assert (Hsize : 0 < - m) by lra.
    assert (Hcalmar : annualized_returns self / Qabs m
                      == annualized_returns self / - m)
      by now rewrite Habs.
    split; [exact Hcalmar |]. rewrite Hcalmar.
    split; intros Hsign.
    + apply Qle_shift_div_l; [exact Hsize |].
      assert (0 <= annualized_returns self * (1 + m))
        by (apply Qmult_le_0_compat; lra).
      lra.
    + apply Qle_shift_div_r; [exact Hsize |].
      assert (0 <= - annualized_returns self * (1 + m))
        by (apply Qmult_le_0_compat; lra).
      lra.
  - apply Qlt_bool_false in Hm. split; [reflexivity | intros Hneg; lra].
Qed.
End CalmarRatio.

End Drawdown.

(** * Further properties of the trade analyzer *)

Module GrossResults.
Import Atlas.
Import Analysis.
Import RoundTrips.

(** Two trades that differ in nothing the matching reads. *)
Definition same_but_cost (a b : Trade) : Prop :=
  t_id a = t_id b /\ t_side a = t_side b
  /\ t_qty a = t_qty b /\ t_price a = t_price b.

(** The sales of a log. *)
Definition sells (trades : list Trade) : list Trade :=
  List.filter (fun t => String.eqb (t_side t) "sell") trades.

Lemma round_trips_spec_costs (trades trades' : list Trade) :
  Forall2 same_but_cost trades trades' ->
  forall book realized,
    round_trips_spec trades book realized
    = round_trips_spec trades' book realized.
Proof.
  induction 1 as [| a b rest rest' (Hid & Hside & Hqty & Hprice) _ IH];
    intros book realized; [reflexivity |].
  simpl. rewrite Hid, Hside, Hqty, Hprice.
  destruct (String.eqb (t_side b) "buy"); [apply IH |].
  destruct (String.eqb (t_side b) "sell"); [| apply IH].
  destruct (fifo_spec _ _ _ _). apply IH.
Qed.

Lemma round_trips_spec_count (trades : list Trade) :
  forall book realized,
    (length (fst (round_trips_spec trades book realized))
     <= length realized + length (sells trades))%nat.
Proof.
  induction trades as [| t rest IH]; intros book realized; simpl; [lia |].
  unfold sells. simpl.
  destruct (String.eqb_spec (t_side t) "buy") as [Hbuy | _].
  - rewrite Hbuy. simpl. apply IH.
  - destruct (String.eqb (t_side t) "sell"); [| apply IH].
    destruct (fifo_spec _ _ _ _) as [rt remaining].
    etransitivity; [apply IH |]. fold (sells rest).
    destruct (Qeq_bool rt 0); [simpl; lia |].
    rewrite length_app. simpl. lia.
Qed.

(** X22.  The round-trip results are gross of costs: the analyzer reads
    the id, the side, the quantity and the price of a trade and never its
    cost, so two logs that differ only in the recorded costs give the same
    list of results; and a log gives at most one result per sale. *)
Theorem round_trip_pnl_ignores_costs (trades trades' : list Trade) :
  Forall2 same_but_cost trades trades' ->
  exists pnl log log',
    calculate_round_trip_pnl trades = Some (pnl, log)
    /\ calculate_round_trip_pnl trades' = Some (pnl, log')
    /\ (length pnl <= length (sells trades))%nat.
Proof.
  intros Hsame.
  destruct (analyze_refines trades) as (st & Han & Hag).
  destruct (analyze_refines trades') as (st' & Han' & Hag').
  unfold calculate_round_trip_pnl. rewrite Han, Han'.
  exists (pnl_list st), (raw_trades st), (raw_trades st').
  split; [reflexivity |].
  rewrite (ag_pnl _ _ _ _ _ Hag), (ag_pnl _ _ _ _ _ Hag').
  rewrite (round_trips_spec_costs trades trades' Hsame).
  split; [reflexivity |].
  rewrite <- (round_trips_spec_costs trades trades' Hsame).
  apply (round_trips_spec_count trades ∅ []).
Qed.

End GrossResults.

(** * Further properties of the live coordinator *)

Module LiveAccounting.
Import Atlas.
Import Citadel.

(** [sum(g(k, a) for k, a in m.items())], up to the order of the terms. *)
Definition sum_over {A : Type} (g : string -> A -> Q) (m : gmap string A) : Q :=
  map_fold (fun k a acc => acc + g k a) 0 m.

(** [LiveStrategy.get_equity] *)
Definition get_equity (s : LiveStrategy) (last_known_prices : gmap string Q) : Q :=
  cash s
  + sum_over
      (fun symbol qty => inject_Z qty * default 0 (last_known_prices !! symbol))
      (positions s).

(** [ChiefInvestmentOfficer.get_total_equity] *)
Definition get_total_equity (c : ChiefInvestmentOfficer) : Q :=
  sum_over (fun _ strategy => get_equity strategy (last_known_prices c))
           (strategies c).

(** The guards of [submit_order], in the order the code checks them. *)
Definition valid (c : ChiefInvestmentOfficer) (symbol : string)
    (quantity : Z) (price : Q) : Prop :=
  last_known_prices c !! symbol = Some price /\ 0 < price /\ (0 < quantity)%Z.

Definition within_limit (c : ChiefInvestmentOfficer) (quantity : Z) (price : Q)
  : Prop :=
  inject_Z quantity * price
  <= inject_Z (MAX_ORDER_VALUE (params (risk_manager c))).

Definition covered (s : LiveStrategy) (symbol side : string) (quantity : Z)
    (price : Q) : Prop :=
  (side = "buy"%string /\ inject_Z quantity * price <= cash s)
  \/ (side = "sell"%string /\ (quantity <= position s symbol)%Z).

(** The coordinator after the risk manager has refused an order. *)
Definition refused (c : ChiefInvestmentOfficer) (quantity : Z) (price : Q)
  : ChiefInvestmentOfficer :=
  with_alerts c
    (alerter c ++ [mkAlert "RISK VIOLATION" (inject_Z quantity * price)]).

(** The strategy after its order has been executed. *)
Definition traded (s : LiveStrategy) (symbol side : string) (quantity : Z)
    (price : Q) : LiveStrategy :=
  mkLiveStrategy (id s) (class s)
    (cash s - (if String.eqb side "buy"
               then inject_Z quantity * price else - (inject_Z quantity * price)))
    (<[symbol := (position s symbol
                  + (if String.eqb side "buy" then quantity else - quantity))%Z]>
       (positions s))
    (risk_per_trade s) (stop_loss_prices s) (take_profit_prices s).

(** The coordinator after the execution. *)
Definition filled (c : ChiefInvestmentOfficer) (strategy_id symbol side : string)
    (quantity : Z) (price : Q) (s : LiveStrategy) : ChiefInvestmentOfficer :=
  mkCIO (risk_manager c) (alerter c) (initial_capital c) (last_known_prices c)
        (S (trade_count c))
        (<[strategy_id := traded s symbol side quantity price]> (strategies c))
        (append_line c (mkExecution strategy_id side quantity symbol price))
        (log_append_ok c).

(** The five ways a call of [submit_order] can end. *)
Inductive outcome (c : ChiefInvestmentOfficer) (strategy_id symbol side : string)
    (quantity : Z) : ChiefInvestmentOfficer * option exn -> Prop :=
| Ignored :
    (forall price, ~ valid c symbol quantity price) ->
    outcome c strategy_id symbol side quantity (c, None)
| Refused (price : Q) :
    valid c symbol quantity price ->
    ~ within_limit c quantity price ->
    outcome c strategy_id symbol side quantity (refused c quantity price, None)
| Unknown (price : Q) :
    valid c symbol quantity price ->
    within_limit c quantity price ->
    strategies c !! strategy_id = None ->
    outcome c strategy_id symbol side quantity (c, Some (KeyError strategy_id))
| Uncovered (price : Q) (s : LiveStrategy) :
    valid c symbol quantity price ->
    within_limit c quantity price ->
    strategies c !! strategy_id = Some s ->
    ~ covered s symbol side quantity price ->
    outcome c strategy_id symbol side quantity (c, None)
| Filled (price : Q) (s : LiveStrategy) :
    valid c symbol quantity price ->
    within_limit c quantity price ->
    strategies c !! strategy_id = Some s ->
    covered s symbol side quantity price ->
    outcome c strategy_id symbol side quantity
            (filled c strategy_id symbol side quantity price s, None).

Lemma covered_spec (s : LiveStrategy) (symbol side : string) (quantity : Z)
    (price : Q) :
  (String.eqb side "buy" && Qle_bool (inject_Z quantity * price) (cash s))
  || (String.eqb side "sell" && (quantity <=? position s symbol)%Z) = true
  <-> covered s symbol side quantity price.
Proof.
  unfold covered.
  rewrite orb_true_iff, !andb_true_iff, !String.eqb_eq, Qle_bool_true,
    Z.leb_le.
  reflexivity.
Qed.

Lemma submit_order_outcome
    (c : ChiefInvestmentOfficer) (strategy_id symbol side : string)
    (quantity : Z) :
  outcome c strategy_id symbol side quantity
          (submit_order c strategy_id symbol side quantity).
Proof.
  unfold submit_order.
  destruct (last_known_prices c !! symbol) as [price |] eqn:Hprice;
    [| apply Ignored; intros p (Hp & _); congruence].
  destruct (Qle_bool price 0) eqn:Hpos;
    [apply Ignored; intros p (Hp & Hlt & _);
     apply Qle_bool_true in Hpos;
     assert (p = price) by congruence; subst p; lra |].
  apply Qle_bool_false in Hpos.
  destruct (Z.leb_spec quantity 0) as [Hq | Hq];
    [apply Ignored; intros p (_ & _ & Hlt); lia |].
  assert (Hvalid : valid c symbol quantity price) by now repeat split.
  unfold is_trade_allowed.
  destruct (Qlt_bool _ _) eqn:Hlimit.
  - apply Qlt_bool_true in Hlimit.
    apply (Refused c strategy_id symbol side quantity price Hvalid).
    unfold within_limit. lra.
  - apply Qlt_bool_false in Hlimit.
    assert (Hsame : with_alerts c (alerter c) = c) by now destruct c.
    rewrite Hsame.
    destruct (strategies c !! strategy_id) as [s |] eqn:Hs;
      [| now apply (Unknown c strategy_id symbol side quantity price)].
    destruct (_ || _) eqn:Hcov.
    + apply covered_spec in Hcov.
      now apply (Filled c strategy_id symbol side quantity price s).
    + apply (Uncovered c strategy_id symbol side quantity price s);
        try assumption.
      intros Hc. apply covered_spec in Hc. congruence.
Qed.

(** *** Sums over a dictionary *)

Section Sums.
Context {A : Type} (g : string -> A -> Q).

Lemma sum_over_insert_fresh (m : gmap string A) (k : string) (a : A) :
  m !! k = None -> sum_over g (<[k := a]> m) == sum_over g m + g k a.
Proof.
  intros Hk. unfold sum_over.
  apply (map_fold_insert Qeq (fun k a acc => acc + g k a)).
  - intros j z x y Hxy. now rewrite Hxy.
  - intros. ring.
  - exact Hk.
Qed.

Lemma sum_over_insert (m : gmap string A) (k : string) (a : A) :
  sum_over g (<[k := a]> m)
  == sum_over g m - from_option (g k) 0 (m !! k) + g k a.
Proof.
  destruct (m !! k) as [old |] eqn:Hk; simpl.
  - pose proof (sum_over_insert_fresh (delete k m) k old (lookup_delete_eq m k))
      as Hold.
    rewrite (insert_delete_id m k old Hk) in Hold.
    pose proof (sum_over_insert_fresh (delete k m) k a (lookup_delete_eq m k))
      as Hnew.
    rewrite insert_delete_eq in Hnew.
    rewrite Hnew, Hold. ring.
  - rewrite sum_over_insert_fresh by exact Hk. ring.
Qed.
End Sums.

Lemma position_value (s : LiveStrategy) (symbol : string) (price : Q) :
  from_option (fun qty => inject_Z qty * price) 0 (positions s !! symbol)
  == inject_Z (position s symbol) * price.
Proof.
  unfold position. destruct (positions s !! symbol); simpl; ring.
Qed.

Lemma traded_equity (s : LiveStrategy) (symbol side : string) (quantity : Z)
    (price : Q) (prices : gmap string Q) :
  prices !! symbol = Some price ->
  get_equity (traded s symbol side quantity price) prices == get_equity s prices.
Proof.
  intros Hprice. unfold get_equity, traded. simpl.
  rewrite sum_over_insert. rewrite Hprice. simpl.
  rewrite position_value.
  destruct (String.eqb side "buy"); rewrite inject_Z_plus, ?inject_Z_opp; ring.
Qed.

Lemma submit_order_neutral
    (c : ChiefInvestmentOfficer) (strategy_id symbol side : string)
    (quantity : Z) :
  last_known_prices (fst (submit_order c strategy_id symbol side quantity))
  = last_known_prices c
  /\ get_total_equity (fst (submit_order c strategy_id symbol side quantity))
     == get_total_equity c.
Proof.
  destruct (submit_order_outcome c strategy_id symbol side quantity)
    as [_ | price _ _ | price _ _ _ | price s _ _ _ _ | price s Hvalid _ Hs _];
    simpl; try (split; reflexivity).
  destruct Hvalid as (Hprice & _).
  split; [reflexivity |].
  unfold get_total_equity, filled. simpl.
  rewrite sum_over_insert, Hs. simpl.
  rewrite (traded_equity s symbol side quantity price _ Hprice). ring.
Qed.

(** X14.  Live orders cost nothing and move no value: whatever
    [submit_order] does with an order (ignore it, refuse it, execute it, or
    raise), the last known prices are as before and, marked at them, the
    equity of every strategy and the total equity of the coordinator are as
    before.  An execution turns cash into shares, or shares into cash, at
    the last known price, with no fee and no slippage. *)
Theorem live_order_moves_no_equity
    (c : ChiefInvestmentOfficer) (strategy_id symbol side : string)
    (quantity : Z) :
  let c' := fst (submit_order c strategy_id symbol side quantity) in
  last_known_prices c' = last_known_prices c
  /\ get_total_equity c' == get_total_equity c
  /\ (forall name s,
        strategies c !! name = Some s ->
        exists s',
          strategies c' !! name = Some s'
          /\ get_equity s' (last_known_prices c)
             == get_equity s (last_known_prices c))
  /\ (forall name, strategies c !! name = None -> strategies c' !! name = None).
Proof.
  destruct (submit_order_outcome c strategy_id symbol side quantity)
    as [_ | price _ _ | price _ _ _ | price s _ _ _ _ | price s Hvalid _ Hs _];
    simpl;
    try (split; [reflexivity |]; split; [reflexivity |];
         split; [intros name s0 Hs0; exists s0; now split | auto]).
  destruct Hvalid as (Hprice & _).
  pose proof (traded_equity s symbol side quantity price
                (last_known_prices c) Hprice) as Hsame.
  split; [reflexivity |]. split; [| split].
  - unfold get_total_equity, filled. simpl.
    rewrite sum_over_insert, Hs. simpl. rewrite Hsame. ring.
  - intros name s0 Hs0. destruct (decide (name = strategy_id)) as [-> | Hne].
    + rewrite lookup_insert_eq. eexists. split; [reflexivity |].
      assert (s0 = s) by congruence. subst s0. exact Hsame.
    + rewrite lookup_insert_ne by congruence. exists s0. now split.
  - intros name Hnone. rewrite lookup_insert_ne; [exact Hnone | congruence].
Qed.

(** *** The guards of an order *)

Lemma valid_unique (c : ChiefInvestmentOfficer) (symbol : string)
    (quantity : Z) (p1 p2 : Q) :
  valid c symbol quantity p1 -> valid c symbol quantity p2 -> p1 = p2.
Proof. intros (H1 & _) (H2 & _). congruence. Qed.

Lemma refused_alerts (c : ChiefInvestmentOfficer) (quantity : Z) (price : Q) :
  alerter (refused c quantity price) <> alerter c.
Proof.
  unfold refused. simpl. intros Heq. apply (f_equal length) in Heq.
  rewrite length_app in Heq. simpl in Heq. lia.
Qed.

(** X15.  The guards of the live [submit_order], in the order the code
    applies them.  The call raises exactly when the price is known and
    positive, the quantity positive, the order value within
    [MAX_ORDER_VALUE], and the strategy id no key of the strategies; it then
    raises [KeyError] for that id and has written nothing.  An alert is sent
    exactly when price and quantity are valid and the order value exceeds
    the limit, also for an unknown strategy id, and a call that does not
    execute sends none otherwise.  The trade count moves exactly when all
    guards pass and the strategy covers the order (cash for a buy, shares
    for a sale); a call that does not move it leaves strategies and trade
    log as they were. *)
Theorem live_order_guards
    (c : ChiefInvestmentOfficer) (strategy_id symbol side : string)
    (quantity : Z) :
  let c' := fst (submit_order c strategy_id symbol side quantity) in
  let e := snd (submit_order c strategy_id symbol side quantity) in
  (e <> None
   <-> exists price,
         valid c symbol quantity price /\ within_limit c quantity price
         /\ strategies c !! strategy_id = None)
  /\ (e <> None -> e = Some (KeyError strategy_id) /\ c' = c)
  /\ (alerter c' <> alerter c
      <-> exists price,
            valid c symbol quantity price /\ ~ within_limit c quantity price)
  /\ (trade_count c' <> trade_count c
      <-> exists price s,
            valid c symbol quantity price /\ within_limit c quantity price
            /\ strategies c !! strategy_id = Some s
            /\ covered s symbol side quantity price)
  /\ (trade_count c' = trade_count c ->
      strategies c' = strategies c /\ live_trades c' = live_trades c).
Proof.
  destruct (submit_order_outcome c strategy_id symbol side quantity)
    as [Hnot | price Hvalid Hover | price Hvalid Hin Hs
        | price s Hvalid Hin Hs Hnc | price s Hvalid Hin Hs Hc];
    cbv zeta; simpl fst; simpl snd.
  - split; [split; [congruence | intros (p & Hv & _); now destruct (Hnot p)] |].
    split; [congruence |].
    split; [split; [congruence | intros (p & Hv & _); now destruct (Hnot p)] |].
    split; [split; [congruence | intros (p & s & Hv & _); now destruct (Hnot p)] |].
    now split.
  - split; [split; [congruence |] |].
    { intros (p & Hv & Hw & _).
      rewrite (valid_unique c symbol quantity p price Hv Hvalid) in Hw.
      contradiction. }
    split; [congruence |].
    split; [split; [eauto | intros _; apply refused_alerts] |].
    split; [split; [simpl; congruence |] |].
    { intros (p & s & Hv & Hw & _).
      rewrite (valid_unique c symbol quantity p price Hv Hvalid) in Hw.
      contradiction. }
    now split.
  - split; [split; [eauto | congruence] |].
    split; [now split |].
    split; [split; [congruence |] |].
    { intros (p & Hv & Hw).
      rewrite (valid_unique c symbol quantity p price Hv Hvalid) in Hw.
      contradiction. }
    split; [split; [congruence | intros (p & s & _ & _ & Hs' & _); congruence] |].
    now split.
  - split; [split; [congruence | intros (p & _ & _ & Hs'); congruence] |].
    split; [congruence |].
    split; [split; [congruence |] |].
    { intros (p & Hv & Hw).
      rewrite (valid_unique c symbol quantity p price Hv Hvalid) in Hw.
      contradiction. }
    split; [split; [congruence |] |].
    { intros (p & s' & Hv & _ & Hs' & Hc).
      rewrite (valid_unique c symbol quantity p price Hv Hvalid) in Hc.
      assert (s' = s) by congruence. subst s'. contradiction. }
    now split.
  - split; [split; [congruence | intros (p & _ & _ & Hs'); congruence] |].
    split; [congruence |].
    split; [split; [simpl; congruence |] |].
    { intros (p & Hv & Hw).
      rewrite (valid_unique c symbol quantity p price Hv Hvalid) in Hw.
      contradiction. }
    split; [split; [intros _; exists price, s; tauto |] |].
    { intros _. simpl. lia. }
    simpl. lia.
Qed.

(** *** A session *)

(** An execution as it can reach the trade log, and an alert as the risk
    manager sends it. *)
Definition recorded (c : ChiefInvestmentOfficer) (x : Execution) : Prop :=
  (0 < x_qty x)%Z /\ 0 < x_price x
  /\ inject_Z (x_qty x) * x_price x
     <= inject_Z (MAX_ORDER_VALUE (params (risk_manager c)))
  /\ (x_side x = "buy"%string \/ x_side x = "sell"%string)
  /\ is_Some (strategies c !! x_strategy x).

Definition alarm (c : ChiefInvestmentOfficer) (a : Alert) : Prop :=
  subject a = "RISK VIOLATION"%string
  /\ inject_Z (MAX_ORDER_VALUE (params (risk_manager c))) < figure a.

(** The lines that reach [live_trades.log] out of [executions], the count
    standing at [count] before the first of them: an execution whose append
    fails leaves no line. *)
Fixpoint appended (ok : nat -> bool) (count : nat) (executions : list Execution)
  : list Execution :=
  match executions with
  | [] => []
  | x :: rest =>
      (if ok (S count) then [x] else []) ++ appended ok (S count) rest
  end.

Lemma appended_app (ok : nat -> bool) (x1 x2 : list Execution) :
  forall count,
    appended ok count (x1 ++ x2)
    = appended ok count x1 ++ appended ok (count + length x1) x2.
Proof.
  induction x1 as [| x rest IH]; intros count; simpl.
  - now rewrite Nat.add_0_r.
  - rewrite IH, <- app_assoc. do 3 f_equal. lia.
Qed.

Lemma appended_length (ok : nat -> bool) (executions : list Execution) :
  forall count,
    (length (appended ok count executions) <= length executions)%nat.
Proof.
  induction executions as [| x rest IH]; intros count; simpl; [lia |].
  rewrite length_app. specialize (IH (S count)).
  destruct (ok (S count)); simpl; lia.
Qed.

Lemma appended_all (ok : nat -> bool) (executions : list Execution) :
  forall count,
    (forall n, (count < n <= count + length executions)%nat -> ok n = true) ->
    appended ok count executions = executions.
Proof.
  induction executions as [| x rest IH]; intros count Hok; simpl;
    [reflexivity |].
  rewrite (Hok (S count)) by (simpl; lia). simpl. f_equal.
  apply IH. intros n Hn. apply Hok. simpl. lia.
Qed.

(** What price updates and orders can do to the coordinator. *)
Definition extends (c c' : ChiefInvestmentOfficer) : Prop :=
  risk_manager c' = risk_manager c
  /\ initial_capital c' = initial_capital c
  /\ log_append_ok c' = log_append_ok c
  /\ (forall name, is_Some (strategies c' !! name)
                   <-> is_Some (strategies c !! name))
  /\ exists executions alerts,
       trade_count c' = (trade_count c + length executions)%nat
       /\ live_trades c'
          = live_trades c
            ++ appended (log_append_ok c) (trade_count c) executions
       /\ alerter c' = alerter c ++ alerts
       /\ Forall (recorded c) executions
       /\ Forall (alarm c) alerts.

Lemma extends_refl (c : ChiefInvestmentOfficer) : extends c c.
Proof.
  split; [reflexivity |]. split; [reflexivity |]. split; [reflexivity |].
  split; [reflexivity |].
  exists [], []. simpl. rewrite !app_nil_r.
  split; [lia |]. split; [reflexivity |]. split; [reflexivity |].
  split; constructor.
Qed.

Lemma extends_trans (a b c : ChiefInvestmentOfficer) :
  extends a b -> extends b c -> extends a c.
Proof.
  intros (Hr1 & Hi1 & Ho1 & Hk1 & x1 & a1 & Hc1 & Hl1 & Ha1 & Hx1 & Hal1)
         (Hr2 & Hi2 & Ho2 & Hk2 & x2 & a2 & Hc2 & Hl2 & Ha2 & Hx2 & Hal2).
  split; [congruence |]. split; [congruence |]. split; [congruence |].
  split; [intros name; now rewrite Hk2, Hk1 |].
  exists (x1 ++ x2), (a1 ++ a2).
  split; [rewrite Hc2, Hc1, length_app; lia |].
  split; [now rewrite Hl2, Hl1, Ho1, Hc1, appended_app, <- app_assoc |].
  split; [now rewrite Ha2, Ha1, <- app_assoc |].
  split; apply Forall_app; (split; [assumption |]).
  - eapply Forall_impl; [exact Hx2 |]. simpl.
    intros x (Hq & Hp & Hv & Hside & Hk). unfold recorded.
    rewrite <- Hr1, <- Hk1. now repeat split.
  - eapply Forall_impl; [exact Hal2 |]. simpl.
    intros al (Hsub & Hfig). unfold alarm. rewrite <- Hr1. now split.
Qed.

Lemma submit_order_extends
    (c : ChiefInvestmentOfficer) (strategy_id symbol side : string)
    (quantity : Z) :
  extends c (fst (submit_order c strategy_id symbol side quantity)).
Proof.
  destruct (submit_order_outcome c strategy_id symbol side quantity)
    as [_ | price Hvalid Hover | price _ _ _ | price s _ _ _ _
        | price s Hvalid Hin Hs Hc];
    simpl; try apply extends_refl.
  - split; [reflexivity |]. split; [reflexivity |]. split; [reflexivity |].
    split; [reflexivity |].
    exists [], [mkAlert "RISK VIOLATION" (inject_Z quantity * price)].
    simpl. rewrite app_nil_r.
    split; [lia |]. split; [reflexivity |]. split; [reflexivity |].
    split; [constructor |]. constructor; [| constructor].
    split; [reflexivity |]. simpl. unfold within_limit in Hover. lra.
  - split; [reflexivity |]. split; [reflexivity |]. split; [reflexivity |].
    split.
    + intros name. simpl. destruct (decide (name = strategy_id)) as [-> | Hne].
      * rewrite lookup_insert_eq, Hs. split; eauto.
      * now rewrite lookup_insert_ne by congruence.
    + exists [mkExecution strategy_id side quantity symbol price], [].
      rewrite app_nil_r. simpl.
      split; [lia |]. split.
      { unfold append_line.
        destruct (log_append_ok c (S (trade_count c)));
          [reflexivity | now rewrite app_nil_r]. }
      split; [reflexivity |].
      split; [| constructor]. constructor; [| constructor].
      destruct Hvalid as (_ & Hp & Hq). unfold recorded. simpl.
      split; [exact Hq |]. split; [exact Hp |]. split; [exact Hin |].
      split; [destruct Hc as [[-> _] | [-> _]]; auto | eauto].
Qed.

Lemma run_ops_extends (ops : list LiveSettlement.op) :
  forall c, extends c (fst (LiveSettlement.run_ops ops c)).
Proof.
  induction ops as [| o rest IH]; intros c; simpl; [apply extends_refl |].
  assert (Hstep : extends c (fst (LiveSettlement.apply_op c o))).
  { destruct o as [symbol p | strategy_id symbol side quantity]; simpl.
    - unfold update_price. split; [reflexivity |]. split; [reflexivity |].
      split; [reflexivity |]. split; [reflexivity |].
      exists [], []. simpl. rewrite !app_nil_r.
      split; [lia |]. split; [reflexivity |]. split; [reflexivity |].
      split; constructor.
    - apply submit_order_extends. }
  destruct (LiveSettlement.apply_op c o) as [c1 [e |]]; simpl in *;
    [exact Hstep |].
  apply extends_trans with c1; [exact Hstep | apply IH].
Qed.

(** X16.  A live session, any sequence of price updates and
    [submit_order] calls, on any file system.  The trade count rises by
    exactly the number of executions.  [live_trades.log] gets the line of
    every execution whose append succeeds and none for one whose append
    fails, the count having been raised before the write is tried: the file
    never gains more lines than the count rises by, and it gains exactly as
    many when no append of the session fails.  Every execution has a
    positive quantity, a positive price, the side buy or sell, a strategy of
    the coordinator, and an order value of at most [MAX_ORDER_VALUE];
    alerts are only appended, each a risk violation whose figure exceeds the
    limit; the risk manager, the initial capital and the set of strategies
    are never written to. *)
Theorem live_session_books
    (ops : list LiveSettlement.op) (c : ChiefInvestmentOfficer) :
  let c' := fst (LiveSettlement.run_ops ops c) in
  risk_manager c' = risk_manager c
  /\ initial_capital c' = initial_capital c
  /\ (forall name, is_Some (strategies c' !! name)
                   <-> is_Some (strategies c !! name))
  /\ exists executions alerts,
       trade_count c' = (trade_count c + length executions)%nat
       /\ live_trades c'
          = live_trades c
            ++ appended (log_append_ok c) (trade_count c) executions
       /\ (length (live_trades c') - length (live_trades c)
           <= trade_count c' - trade_count c)%nat
       /\ ((forall n, (trade_count c < n <= trade_count c')%nat ->
                      log_append_ok c n = true) ->
           live_trades c' = live_trades c ++ executions)
       /\ alerter c' = alerter c ++ alerts
       /\ Forall (recorded c) executions
       /\ Forall (alarm c) alerts.
Proof.
  cbv zeta.
  destruct (run_ops_extends ops c)
    as (Hr & Hi & _ & Hk & executions & alerts & Hc & Hl & Ha & Hx & Hal).
  split; [exact Hr |]. split; [exact Hi |]. split; [exact Hk |].
  exists executions, alerts.
  split; [exact Hc |]. split; [exact Hl |]. split.
  { rewrite Hl, Hc, length_app.
    pose proof (appended_length (log_append_ok c) executions (trade_count c)).
    lia. }
  split.
  { intros Hok. rewrite Hl. f_equal. apply appended_all.
    intros n Hn. apply Hok. lia. }
  split; [exact Ha |]. split; [exact Hx | exact Hal].
Qed.

(** *** The allocation of the live capital *)

(** The value of the positions in [get_equity]. *)
Definition holdings_value (s : LiveStrategy) (last_known_prices : gmap string Q)
  : Q :=
  sum_over
    (fun symbol qty => inject_Z qty * default 0 (last_known_prices !! symbol))
    (positions s).

Lemma sum_over_fmap {A B : Type} (g : string -> B -> Q) (f : A -> B)
    (m : gmap string A) :
  sum_over g (f <$> m) == sum_over (fun k a => g k (f a)) m.
Proof.
  induction m as [| k a m Hk IH] using map_ind.
  - rewrite fmap_empty. reflexivity.
  - rewrite fmap_insert.
    rewrite !sum_over_insert_fresh
      by first [exact Hk | rewrite lookup_fmap, Hk; reflexivity].
    now rewrite IH.
Qed.

Lemma sum_over_plus_const {A : Type} (g : string -> A -> Q) (c : Q)
    (m : gmap string A) :
  sum_over (fun k a => c + g k a) m
  == inject_Z (Z.of_nat (size m)) * c + sum_over g m.
Proof.
  induction m as [| k a m Hk IH] using map_ind.
  - rewrite map_size_empty. unfold sum_over. rewrite !map_fold_empty.
    simpl. ring.
  - rewrite !sum_over_insert_fresh by exact Hk.
    rewrite map_size_insert_None by exact Hk.
    rewrite IH, Nat2Z.inj_succ, <- Z.add_1_r, inject_Z_plus. ring.
Qed.

(** X25.  The live [_rebalance_capital] resets the cash and nothing
    else: every strategy keeps its positions and exit prices and is given
    [initial_capital / len(strategies)] in cash, so that the total equity
    afterwards is the initial capital plus the value, at the last known
    prices, of the positions held before: positions read from the ledger
    come on top of the capital and are not paid for out of it. *)
Theorem live_rebalancing_resets_cash_only (c : ChiefInvestmentOfficer) :
  strategies c <> ∅ ->
  (forall name s,
     strategies c !! name = Some s ->
     strategies (_rebalance_capital c) !! name
     = Some (set_capital s
               (inject_Z (initial_capital c)
                / inject_Z (Z.of_nat (size (strategies c))))))
  /\ (forall name, strategies c !! name = None ->
                   strategies (_rebalance_capital c) !! name = None)
  /\ last_known_prices (_rebalance_capital c) = last_known_prices c
  /\ get_total_equity (_rebalance_capital c)
     == inject_Z (initial_capital c)
        + sum_over (fun _ s => holdings_value s (last_known_prices c))
                   (strategies c).
Proof.
  intros Hne. unfold _rebalance_capital.
  destruct (decide (strategies c = ∅)) as [Hempty | _]; [contradiction |].
  simpl.
  split; [intros name s Hs; now rewrite lookup_fmap, Hs |].
  split; [intros name Hs; now rewrite lookup_fmap, Hs |].
  split; [reflexivity |].
  unfold get_total_equity. simpl.
  rewrite sum_over_fmap.
  set (share := inject_Z (initial_capital c)
                / inject_Z (Z.of_nat (size (strategies c)))).
  change (sum_over
            (fun _ s => share + holdings_value s (last_known_prices c))
            (strategies c)
          == inject_Z (initial_capital c)
             + sum_over (fun _ s => holdings_value s (last_known_prices c))
                        (strategies c)).
  rewrite sum_over_plus_const. unfold share.
  apply map_size_non_empty_iff in Hne.
  assert (Hsize : ~ inject_Z (Z.of_nat (size (strategies c))) == 0).
  { change 0 with (inject_Z 0). rewrite inject_Z_injective. lia. }
  field. exact Hsize.
Qed.

(** *** The ledger *)

(** [_save_portfolio_to_disk]: the object written to
    [live_portfolio.json], the positions by strategy id and symbol. *)
Definition _save_portfolio_to_disk (c : ChiefInvestmentOfficer)
  : gmap string (gmap string Z) :=
  (fun strategy =>
     filter (fun entry : string * Z => (0 < entry.2)%Z) (positions strategy))
  <$> strategies c.

Definition with_positions (s : LiveStrategy) (p : gmap string Z) : LiveStrategy :=
  mkLiveStrategy (id s) (class s) (cash s) p (risk_per_trade s)
                 (stop_loss_prices s) (take_profit_prices s).

(** [_load_portfolio_from_disk], when the file exists and holds
    [loaded_portfolio]: [positions.update] on every strategy the ledger
    names. *)
Definition _load_portfolio_from_disk (c : ChiefInvestmentOfficer)
    (loaded_portfolio : gmap string (gmap string Z)) : ChiefInvestmentOfficer :=
  mkCIO (risk_manager c) (alerter c) (initial_capital c) (last_known_prices c)
        (trade_count c)
        (map_imap
           (fun strat_id strategy =>
              Some match loaded_portfolio !! strat_id with
                   | Some loaded =>
                       with_positions strategy (loaded ∪ positions strategy)
                   | None => strategy
                   end)
           (strategies c))
        (live_trades c) (log_append_ok c).

Lemma sum_over_filter {A : Type} (g : string -> A -> Q)
    (P : string * A -> Prop) `{!forall x, Decision (P x)} (m : gmap string A) :
  (forall k a, m !! k = Some a -> ~ P (k, a) -> g k a == 0) ->
  sum_over g (filter P m) == sum_over g m.
Proof.
  induction m as [| k a m Hk IH] using map_ind; intros Hzero.
  - now rewrite map_filter_empty.
  - assert (Hrest : sum_over g (filter P m) == sum_over g m).
    { apply IH. intros k' a' Hin. apply Hzero.
      rewrite lookup_insert_ne; [exact Hin | congruence]. }
    rewrite (sum_over_insert_fresh g m k a Hk).
    destruct (decide (P (k, a))) as [Hp | Hnp].
    + rewrite map_filter_insert_True by exact Hp.
      rewrite sum_over_insert_fresh
        by (apply map_lookup_filter_None; now left).
      now rewrite Hrest.
    + rewrite map_filter_insert_not' by (try exact Hnp; congruence).
      rewrite Hrest, (Hzero k a (lookup_insert_eq m k a) Hnp). ring.
Qed.

(** X26.  Saving the portfolio and loading it into a freshly built
    coordinator restores the book.  For every strategy the two coordinators
    share and every symbol: a positive position is restored as it was, and a
    position that was zero or negative is read as 0, its entry having been
    left out of the file.  The cash is not part of the ledger, and the file
    has an entry for every strategy.  For a strategy without a negative
    position the value of its positions is therefore the same at all
    prices. *)
Theorem ledger_round_trip
    (c fresh : ChiefInvestmentOfficer) (name : string) (s s0 : LiveStrategy) :
  strategies c !! name = Some s ->
  strategies fresh !! name = Some s0 ->
  positions s0 = ∅ ->
  exists s',
    strategies (_load_portfolio_from_disk fresh (_save_portfolio_to_disk c))
    !! name = Some s'
    /\ cash s' = cash s0
    /\ (forall symbol,
          position s' symbol = Z.max 0 (position s symbol))
    /\ (map_Forall (fun _ qty => (0 <= qty)%Z) (positions s) ->
        forall prices, holdings_value s' prices == holdings_value s prices).
Proof.
  intros Hs Hs0 Hfresh.
  unfold _load_portfolio_from_disk, _save_portfolio_to_disk. simpl.
  exists (with_positions s0
            (filter (fun entry : string * Z => (0 < entry.2)%Z) (positions s)
             ∪ positions s0)).
  split.
  { rewrite map_lookup_imap, Hs0. cbn [mbind option_bind].
    now rewrite lookup_fmap, Hs. }
  simpl. split; [reflexivity |].
  rewrite Hfresh, (right_id_L ∅ (∪)). split.
  - intros symbol. unfold position. simpl.
    destruct (positions s !! symbol) as [qty |] eqn:Hq; simpl.
    + destruct (Z.ltb_spec 0 qty) as [Hpos | Hnot].
      * rewrite (proj2 (map_lookup_filter_Some _ (positions s) symbol qty));
          [simpl; lia | now split].
      * rewrite (proj2 (map_lookup_filter_None _ (positions s) symbol));
          [simpl; lia |].
        right. intros qty' Hq'. simpl. assert (qty' = qty) by congruence. lia.
    + rewrite (proj2 (map_lookup_filter_None _ (positions s) symbol));
        [reflexivity | now left].
  - intros Hsolvent prices. unfold holdings_value. simpl.
    apply sum_over_filter. intros symbol qty Hq Hnot. simpl in Hnot.
    pose proof (Hsolvent symbol qty Hq) as Hge. simpl in Hge.
    assert (qty = 0%Z) by lia. subst qty. ring.
Qed.

(** *** [on_market_data] *)

(** The object bound to [name] after a write to its fields. *)
Definition with_strategy (c : ChiefInvestmentOfficer) (name : string)
    (s : LiveStrategy) : ChiefInvestmentOfficer :=
  mkCIO (risk_manager c) (alerter c) (initial_capital c) (last_known_prices c)
        (trade_count c) (<[name := s]> (strategies c)) (live_trades c)
        (log_append_ok c).

(** [strategy._clear_exit_prices(symbol)] on the object bound to [name],
    as the coordinator holds it after a [submit_order] call. *)
Definition clear_after (c : ChiefInvestmentOfficer) (name symbol : string)
  : ChiefInvestmentOfficer :=
  match strategies c !! name with
  | Some s => with_strategy c name (_clear_exit_prices s symbol)
  | None => c
  end.

(** The sale of the whole position, followed by the clearing of the exit
    prices; an exception of [submit_order] leaves before the clearing. *)
Definition exit_position (c : ChiefInvestmentOfficer) (name : string)
    (strategy : LiveStrategy) (symbol : string)
  : ChiefInvestmentOfficer * option exn :=
  let '(c1, e) :=
    submit_order c (id strategy) symbol "sell" (position strategy symbol) in
  match e with
  | Some _ => (c1, e)
  | None => (clear_after c1 name symbol, None)
  end.

Definition stop_loss_hit (strategy : LiveStrategy) (symbol : string)
    (current_price : Q) : bool :=
  Qlt_bool 0 (default 0 (stop_loss_prices strategy !! symbol))
  && Qle_bool current_price (default 0 (stop_loss_prices strategy !! symbol)).

Definition take_profit_hit (strategy : LiveStrategy) (symbol : string)
    (current_price : Q) : bool :=
  Qlt_bool 0 (default 0 (take_profit_prices strategy !! symbol))
  && Qle_bool (default 0 (take_profit_prices strategy !! symbol)) current_price.

(** A loop that an exception leaves. *)
Fixpoint for_each {A : Type}
    (body : ChiefInvestmentOfficer -> A -> ChiefInvestmentOfficer * option exn)
    (xs : list A) (c : ChiefInvestmentOfficer)
  : ChiefInvestmentOfficer * option exn :=
  match xs with
  | [] => (c, None)
  | x :: rest =>
      match body c x with
      | (c', None) => for_each body rest c'
      | (c', Some e) => (c', Some e)
      end
  end.

(** The order in which the strategies are iterated: the constructor
    inserts in the order of [STRATEGY_REGISTRY]. *)
Definition strategy_order (c : ChiefInvestmentOfficer) : list string :=
  filter (fun name => is_Some (strategies c !! name))
         (map Atlas.registered_name Atlas.STRATEGY_REGISTRY).

(** The entries of [ticks]: a symbol and its tick data, or [None]. *)
Definition Ticks : Type := list (string * option Tick).

Section WithNumLib.
Context `{NumLib}.

(** The body of [for strategy in self.strategies.values()] in
    [on_market_data], for the strategy bound to [name]. *)
Definition manage (symbol : string) (tick : Tick)
    (c : ChiefInvestmentOfficer) (name : string)
  : ChiefInvestmentOfficer * option exn :=
  match strategies c !! name with
  | None => (c, None)
  | Some strategy =>
      let current_price := tick_price tick in
      if (0 <? position strategy symbol)%Z
         && stop_loss_hit strategy symbol current_price
      then exit_position c name strategy symbol
      else if (0 <? position strategy symbol)%Z
              && take_profit_hit strategy symbol current_price
      then exit_position c name strategy symbol
      else
        let '(signal, strategy') := decide_action strategy symbol tick in
        let c1 := with_strategy c name strategy' in
        match signal with
        | BUY =>
            let quantity :=
              if Qlt_bool 0 current_price
              then py_int ((cash strategy' * risk_per_trade strategy')
                           / current_price)
              else 0%Z in
            if (0 <? quantity)%Z
            then submit_order c1 (id strategy') symbol "buy" quantity
            else (c1, None)
        | SELL =>
            if (0 <? position strategy' symbol)%Z
            then exit_position c1 name strategy' symbol
            else (c1, None)
        | HOLD => (c1, None)
        end
  end.

(** The first loop of [on_market_data]. *)
Definition update_prices (ticks : Ticks) (c : ChiefInvestmentOfficer)
  : ChiefInvestmentOfficer :=
  fold_left
    (fun c entry =>
       match entry with
       | (symbol, Some tick) => update_price c symbol (tick_price tick)
       | (_, None) => c
       end)
    ticks c.

(** The body of the second loop, for one entry of [ticks]. *)
Definition on_tick (c : ChiefInvestmentOfficer) (entry : string * option Tick)
  : ChiefInvestmentOfficer * option exn :=
  match entry with
  | (symbol, Some tick) =>
      match tick_history tick with
      | Some (_ :: _) => for_each (manage symbol tick) (strategy_order c) c
      | _ => (c, None)
      end
  | (_, None) => (c, None)
  end.

(** [ChiefInvestmentOfficer.on_market_data] *)
Definition on_market_data (c : ChiefInvestmentOfficer) (ticks : Ticks)
  : ChiefInvestmentOfficer * option exn :=
  for_each on_tick ticks (update_prices ticks c).

(** Every strategy is bound to its own id, as the constructor binds it. *)
Definition ids_are_keys (c : ChiefInvestmentOfficer) : Prop :=
  forall name s, strategies c !! name = Some s -> id s = name.

(** What the second loop can do to the coordinator: no price is written,
    the equity at the last known prices is kept, the strategies stay bound
    to their ids, and none is added. *)
Definition neutral (c c' : ChiefInvestmentOfficer) : Prop :=
  last_known_prices c' = last_known_prices c
  /\ get_total_equity c' == get_total_equity c
  /\ (ids_are_keys c -> ids_are_keys c')
  /\ (forall name, is_Some (strategies c' !! name)
                   <-> is_Some (strategies c !! name)).

Lemma neutral_refl (c : ChiefInvestmentOfficer) : neutral c c.
Proof. now repeat split. Qed.

Lemma neutral_trans (a b c : ChiefInvestmentOfficer) :
  neutral a b -> neutral b c -> neutral a c.
Proof.
  intros (Hp1 & He1 & Hi1 & Hk1) (Hp2 & He2 & Hi2 & Hk2).
  split; [congruence |]. split; [now rewrite He2, He1 |].
  split; [auto |]. intros name. now rewrite Hk2, Hk1.
Qed.

Lemma with_strategy_neutral (c : ChiefInvestmentOfficer) (name : string)
    (s s' : LiveStrategy) :
  strategies c !! name = Some s ->
  cash s' = cash s -> positions s' = positions s -> id s' = id s ->
  neutral c (with_strategy c name s').
Proof.
  intros Hs Hc Hp Hi. split; [reflexivity |]. split; [| split].
  - unfold get_total_equity, with_strategy. simpl.
    rewrite sum_over_insert, Hs. simpl.
    unfold get_equity. rewrite Hc, Hp. ring.
  - intros Hids n s0. simpl.
    destruct (decide (n = name)) as [-> | Hne].
    + rewrite lookup_insert_eq. intros [= <-]. rewrite Hi. now apply Hids.
    + rewrite lookup_insert_ne by congruence. apply Hids.
  - intros n. simpl. destruct (decide (n = name)) as [-> | Hne].
    + rewrite lookup_insert_eq, Hs. split; eauto.
    + now rewrite lookup_insert_ne by congruence.
Qed.

Lemma submit_order_is_neutral
    (c : ChiefInvestmentOfficer) (strategy_id symbol side : string)
    (quantity : Z) :
  neutral c (fst (submit_order c strategy_id symbol side quantity)).
Proof.
  destruct (submit_order_neutral c strategy_id symbol side quantity)
    as [Hp He].
  split; [exact Hp |]. split; [exact He |].
  destruct (submit_order_outcome c strategy_id symbol side quantity)
    as [_ | price _ _ | price _ _ _ | price s _ _ _ _ | price s _ _ Hs _];
    simpl; try (split; [auto | reflexivity]).
  split.
  - intros Hids n s0. unfold filled. simpl.
    destruct (decide (n = strategy_id)) as [-> | Hne].
    + rewrite lookup_insert_eq. intros [= <-]. simpl. now apply Hids.
    + rewrite lookup_insert_ne by congruence. apply Hids.
  - intros n. unfold filled. simpl.
    destruct (decide (n = strategy_id)) as [-> | Hne].
    + rewrite lookup_insert_eq, Hs. split; eauto.
    + now rewrite lookup_insert_ne by congruence.
Qed.

Lemma clear_after_neutral (c : ChiefInvestmentOfficer) (name symbol : string) :
  neutral c (clear_after c name symbol).
Proof.
  unfold clear_after.
  destruct (strategies c !! name) as [s |] eqn:Hs; [| apply neutral_refl].
  now apply (with_strategy_neutral c name s).
Qed.

(** An order under the id of a strategy of the coordinator does not raise. *)
Lemma submit_order_known
    (c : ChiefInvestmentOfficer) (strategy_id symbol side : string)
    (quantity : Z) :
  is_Some (strategies c !! strategy_id) ->
  snd (submit_order c strategy_id symbol side quantity) = None.
Proof.
  intros [s Hs].
  destruct (submit_order_outcome c strategy_id symbol side quantity);
    simpl; congruence.
Qed.

Lemma exit_position_neutral (c : ChiefInvestmentOfficer) (name : string)
    (strategy : LiveStrategy) (symbol : string) :
  neutral c (fst (exit_position c name strategy symbol))
  /\ (is_Some (strategies c !! id strategy) ->
      snd (exit_position c name strategy symbol) = None).
Proof.
  unfold exit_position.
  pose proof (submit_order_is_neutral c (id strategy) symbol "sell"
                (position strategy symbol)) as Hn.
  pose proof (submit_order_known c (id strategy) symbol "sell"
                (position strategy symbol)) as Hk.
  destruct (submit_order c (id strategy) symbol "sell"
              (position strategy symbol)) as [c1 [e |]]; simpl in *.
  - split; [exact Hn |]. intros Hin. now specialize (Hk Hin).
  - split; [| reflexivity].
    apply neutral_trans with c1; [exact Hn | apply clear_after_neutral].
Qed.

Lemma decide_action_cases (self : LiveStrategy) (symbol : string) (tick : Tick) :
  decide_action self symbol tick = (HOLD, self)
  \/ decide_action self symbol tick = (SELL, self)
  \/ decide_action self symbol tick
     = (BUY, _set_exit_prices self symbol (tick_price tick)).
Proof.
  unfold decide_action, LiveTrendFollowing_decide_action,
    LiveMeanReversion_decide_action.
  repeat match goal with
         | |- context [match ?x with _ => _ end] => destruct x
         end; auto.
Qed.

Lemma manage_neutral (symbol : string) (tick : Tick)
    (c : ChiefInvestmentOfficer) (name : string) :
  neutral c (fst (manage symbol tick c name))
  /\ (ids_are_keys c -> snd (manage symbol tick c name) = None).
Proof.
  unfold manage.
  destruct (strategies c !! name) as [s |] eqn:Hs;
    [| split; [apply neutral_refl | reflexivity]].
  assert (Hexit : neutral c (fst (exit_position c name s symbol))
                  /\ (ids_are_keys c ->
                      snd (exit_position c name s symbol) = None)).
  { destruct (exit_position_neutral c name s symbol) as [Hn Hk].
    split; [exact Hn |]. intros Hids. apply Hk.
    rewrite (Hids name s Hs). eauto. }
  destruct (_ && stop_loss_hit _ _ _); [exact Hexit |].
  destruct (_ && take_profit_hit _ _ _); [exact Hexit |].
  clear Hexit.
  assert (Hdecided : forall s',
             cash s' = cash s -> positions s' = positions s -> id s' = id s ->
             neutral c (with_strategy c name s')
             /\ (ids_are_keys c ->
                 is_Some (strategies (with_strategy c name s') !! id s'))).
  { intros s' Hc Hp Hi. split; [now apply (with_strategy_neutral c name s) |].
    intros Hids. simpl. rewrite Hi, (Hids name s Hs), lookup_insert_eq. eauto. }
  destruct (decide_action_cases s symbol tick) as [-> | [-> | ->]].
  - destruct (Hdecided s) as [Hn _]; try reflexivity. now split.
  - destruct (Hdecided s) as [Hn Hin]; try reflexivity.
    destruct (0 <? position s symbol)%Z; [| now split].
    destruct (exit_position_neutral (with_strategy c name s) name s symbol)
      as [Hn' Hk].
    split; [now apply neutral_trans with (with_strategy c name s) | auto].
  - destruct (Hdecided (_set_exit_prices s symbol (tick_price tick)))
      as [Hn Hin]; try reflexivity.
    destruct (0 <? _)%Z; [| now split].
    split.
    + eapply neutral_trans; [exact Hn | apply submit_order_is_neutral].
    + intros Hids. apply submit_order_known. auto.
Qed.

Lemma for_each_neutral {A : Type}
    (body : ChiefInvestmentOfficer -> A -> ChiefInvestmentOfficer * option exn)
    (xs : list A) :
  (forall c x, neutral c (fst (body c x))
               /\ (ids_are_keys c -> snd (body c x) = None)) ->
  forall c, neutral c (fst (for_each body xs c))
            /\ (ids_are_keys c -> snd (for_each body xs c) = None).
Proof.
  intros Hbody. induction xs as [| x rest IH]; intros c; simpl;
    [split; [apply neutral_refl | reflexivity] |].
  destruct (Hbody c x) as [Hn Hk].
  destruct (body c x) as [c1 [e |]]; simpl in *.
  - split; [exact Hn |]. intros Hids. now specialize (Hk Hids).
  - destruct (IH c1) as [Hn1 Hk1].
    split; [now apply neutral_trans with c1 |].
    intros Hids. apply Hk1. now apply Hn.
Qed.

Lemma on_tick_neutral (c : ChiefInvestmentOfficer)
    (entry : string * option Tick) :
  neutral c (fst (on_tick c entry))
  /\ (ids_are_keys c -> snd (on_tick c entry) = None).
Proof.
  destruct entry as [symbol [tick |]]; simpl;
    [| split; [apply neutral_refl | reflexivity]].
  destruct (tick_history tick) as [[| p h] |];
    try (split; [apply neutral_refl | reflexivity]).
  apply for_each_neutral. intros c0 name. apply manage_neutral.
Qed.

Lemma update_prices_books (ticks : Ticks) :
  forall c,
    strategies (update_prices ticks c) = strategies c
    /\ trade_count (update_prices ticks c) = trade_count c
    /\ live_trades (update_prices ticks c) = live_trades c
    /\ alerter (update_prices ticks c) = alerter c.
Proof.
  induction ticks as [| [symbol [tick |]] rest IH]; intros c;
    [now repeat split | | exact (IH c)].
  exact (IH (update_price c symbol (tick_price tick))).
Qed.

(** X17.  [on_market_data] trades at the prices it has just recorded and
    at no cost.  When every strategy is bound to its own id the call does
    not raise; and, raising or not, after the first loop has recorded the
    prices of the ticks, the second loop writes no price and leaves the
    total equity of the coordinator, marked at the last known prices, as it
    was: every stop-loss, take-profit and signal order only turns cash into
    shares or shares into cash.  No strategy is added or removed. *)
Theorem on_market_data_moves_no_equity
    (c : ChiefInvestmentOfficer) (ticks : Ticks) :
  let c' := fst (on_market_data c ticks) in
  last_known_prices c' = last_known_prices (update_prices ticks c)
  /\ get_total_equity c' == get_total_equity (update_prices ticks c)
  /\ (forall name, is_Some (strategies c' !! name)
                   <-> is_Some (strategies c !! name))
  /\ (ids_are_keys c ->
      snd (on_market_data c ticks) = None /\ ids_are_keys c').
Proof.
  unfold on_market_data.
  destruct (for_each_neutral on_tick ticks on_tick_neutral
              (update_prices ticks c)) as [(Hp & He & Hi & Hk) Hnone].
  destruct (update_prices_books ticks c) as (Hs & _).
  assert (Hids : ids_are_keys c -> ids_are_keys (update_prices ticks c))
    by (unfold ids_are_keys; now rewrite Hs).
  cbv zeta. split; [exact Hp |]. split; [exact He |].
  split; [intros name; now rewrite Hk, Hs |].
  intros Hc. split; [apply Hnone | apply Hi]; now apply Hids.
Qed.

(** *** An exit the risk manager refuses *)

Lemma submit_order_refused
    (c : ChiefInvestmentOfficer) (strategy_id symbol side : string)
    (quantity : Z) (price : Q) :
  valid c symbol quantity price ->
  ~ within_limit c quantity price ->
  submit_order c strategy_id symbol side quantity
  = (refused c quantity price, None).
Proof.
  intros Hvalid Hover.
  destruct (submit_order_outcome c strategy_id symbol side quantity)
    as [Hnot | p Hv _ | p Hv Hin _ | p s Hv Hin _ _ | p s Hv Hin _ _];
    try (rewrite (valid_unique c symbol quantity p price Hv Hvalid) in *);
    try contradiction; [| reflexivity].
  now destruct (Hnot price).
Qed.

Lemma cleared_never_hit (s : LiveStrategy) (symbol : string) (current_price : Q) :
  stop_loss_hit (_clear_exit_prices s symbol) symbol current_price = false
  /\ take_profit_hit (_clear_exit_prices s symbol) symbol current_price = false.
Proof.
  unfold stop_loss_hit, take_profit_hit, _clear_exit_prices. simpl.
  rewrite !lookup_insert_eq. simpl. split; reflexivity.
Qed.

(** X18.  A stop-loss or take-profit whose sale the risk manager refuses
    is lost.  When a strategy holds a position whose value at the last known
    price exceeds [MAX_ORDER_VALUE] and the tick hits its stop-loss or its
    take-profit, the coordinator asks for the sale of the whole position,
    the risk manager refuses it with an alert, nothing is traded, and the
    exit prices of the symbol are cleared all the same: the position is
    still held, and no later tick can hit its stop-loss or take-profit. *)
Theorem refused_exit_clears_the_exit_prices
    (c : ChiefInvestmentOfficer) (symbol : string) (tick : Tick)
    (name : string) (s : LiveStrategy) (p : Q) :
  strategies c !! name = Some s ->
  id s = name ->
  (0 < position s symbol)%Z ->
  stop_loss_hit s symbol (tick_price tick) = true
  \/ take_profit_hit s symbol (tick_price tick) = true ->
  last_known_prices c !! symbol = Some p ->
  0 < p ->
  inject_Z (MAX_ORDER_VALUE (params (risk_manager c)))
  < inject_Z (position s symbol) * p ->
  let c' := fst (manage symbol tick c name) in
  snd (manage symbol tick c name) = None
  /\ strategies c' = <[name := _clear_exit_prices s symbol]> (strategies c)
  /\ position (_clear_exit_prices s symbol) symbol = position s symbol
  /\ cash (_clear_exit_prices s symbol) = cash s
  /\ trade_count c' = trade_count c
  /\ live_trades c' = live_trades c
  /\ alerter c'
     = alerter c
       ++ [mkAlert "RISK VIOLATION" (inject_Z (position s symbol) * p)]
  /\ forall later,
       stop_loss_hit (_clear_exit_prices s symbol) symbol later = false
       /\ take_profit_hit (_clear_exit_prices s symbol) symbol later = false.
Proof.
  intros Hs Hid Hheld Hhit Hprice Hpos Hover.
  assert (Hvalid : valid c symbol (position s symbol) p) by now repeat split.
  assert (Hnot : ~ within_limit c (position s symbol) p)
    by (unfold within_limit; lra).
  assert (Hexit : exit_position c name s symbol
                  = (with_strategy (refused c (position s symbol) p) name
                       (_clear_exit_prices s symbol), None)).
  { unfold exit_position.
    rewrite (submit_order_refused c (id s) symbol "sell" (position s symbol) p
               Hvalid Hnot).
    unfold clear_after. simpl. now rewrite Hs. }
  assert (Hmanage : manage symbol tick c name = exit_position c name s symbol).
  { unfold manage. rewrite Hs. apply Z.ltb_lt in Hheld. rewrite Hheld. simpl.
    destruct (stop_loss_hit s symbol (tick_price tick)); [reflexivity |].
    destruct Hhit as [Hhit | Hhit]; [discriminate | now rewrite Hhit]. }
  cbv zeta. rewrite Hmanage, Hexit. simpl.
  split; [reflexivity |]. split; [reflexivity |]. split; [reflexivity |].
  split; [reflexivity |]. split; [reflexivity |]. split; [reflexivity |].
  split; [reflexivity |]. intros later. apply cleared_never_hit.
Qed.

End WithNumLib.
End LiveAccounting.

(** * The drawdown gate in the current generation *)

Module CurrentGate.
Import Citadel.

(** A strategy of the live desk that holds 600 shares and 100,000 in
    cash. *)
Definition invested : LiveStrategy :=
  mkLiveStrategy "Trend"
    (LiveTrendFollowing LiveStrategyParameters.Trend_default)
    100000 (<["INFY.NS"%string := 600%Z]> ∅) 0.05 ∅ ∅.

(** The desk of [main.py], with the limits of [LiveRiskParameters], after
    [assess_new_day(1000000)]: the shares stand at 1500, the equity at
    1,000,000. *)
Definition desk_at_the_peak : ChiefInvestmentOfficer :=
  mkCIO (assess_new_day (RiskManager_init LiveRiskParameters_default) 1000000)
    [] 1000000 (<["INFY.NS"%string := 1500]> ∅) 0
    (<["Trend"%string := invested]> ∅) [] (fun _ => true).

(** The next tick prices the shares at 1350. *)
Definition desk_after_the_fall : ChiefInvestmentOfficer :=
  update_price desk_at_the_peak "INFY.NS" 1350.

(** The same day at a desk of the first generation, with the same limit:
    the peak is 1,000,000 and the equity observed 910,000. *)
Definition sibling_after_the_fall : LegacyCitadel.Desk :=
  LegacyCitadel.observe_equity
    (LegacyCitadel.new_day
       (LegacyCitadel.mkDesk (RiskManager_init LiveRiskParameters_default)
                             1000000 [])
       1000000)
    910000.

(** C4.  The risk manager of the current generation at a drawdown of 9%,
    the limit being 5%: the peak recorded by [assess_new_day] is 1,000,000
    and the equity has fallen to 910,000.  [is_trade_allowed] answers yes
    to a buy of 10 shares, [submit_order] executes it, no alert is sent and
    the manager is not breached, before or after.  The risk manager of the
    first generation, asked the same on the same figures, becomes breached,
    sends its one alert and refuses the buy. *)
Theorem current_gate_lets_a_buy_through_a_breach :
  let manager := risk_manager desk_after_the_fall in
  let equity := LiveAccounting.get_total_equity desk_after_the_fall in
  let after := fst (submit_order desk_after_the_fall "Trend" "INFY.NS" "buy" 10) in
  LiveAccounting.get_total_equity desk_at_the_peak == peak_equity manager
  /\ equity == 910000
  /\ DAILY_DRAWDOWN_LIMIT (params manager)
     < (peak_equity manager - equity) / peak_equity manager
  /\ is_trade_allowed manager [] "buy" 10 1350 = (true, [])
  /\ trade_count after = 1%nat
  /\ position invested "INFY.NS" = 600%Z
  /\ (exists s, strategies after !! "Trend" = Some s
                /\ position s "INFY.NS" = 610%Z)
  /\ alerter after = []
  /\ is_drawdown_breached manager = false
  /\ is_drawdown_breached (risk_manager after) = false
  /\ fst (LegacyCitadel.is_trade_allowed sibling_after_the_fall "buy" 10 1350)
     = false
  /\ LegacyCitadel.alerts
       (snd (LegacyCitadel.is_trade_allowed sibling_after_the_fall
               "buy" 10 1350))
     = [mkAlert "RISK BREACH" 0.05]
  /\ is_drawdown_breached
       (LegacyCitadel.risk
          (snd (LegacyCitadel.is_trade_allowed sibling_after_the_fall
                  "buy" 10 1350)))
     = true.
Proof.
  cbv zeta.
  split; [vm_compute; reflexivity |].
  split; [vm_compute; reflexivity |].
  split; [vm_compute; reflexivity |].
  split; [reflexivity |].
  split; [reflexivity |].
  split; [reflexivity |].
  split; [eexists; split; [vm_compute; reflexivity | reflexivity] |].
  split; [reflexivity |].
  split; [reflexivity |].
  split; [reflexivity |].
  split; [reflexivity |].
  split; reflexivity.
Qed.

End CurrentGate.

(** * log_analyzer.py *)

Module LogAnalysis.

(** A parsed line of [live_trades.log]: the fields of the data frame that
    [calculate_realized_pnl] reads. *)
Record Row : Type := mkRow {
  strategy : string; action : string; qty : Z; symbol : string; price : Q
}.

(** An entry of [open_positions]: [{'qty': ..., 'cost': ...}]. *)
Record Position : Type := mkPosition { p_qty : Z; p_cost : Q }.

(** An entry of [realized_trades]. *)
Record Realized : Type := mkRealized {
  r_strategy : string; r_symbol : string; r_pnl : Q; r_qty_closed : Z
}.

(** [open_positions[symbol]] on the [defaultdict]. *)
Definition position_of (open_positions : gmap string Position)
    (symbol : string) : Position :=
  default (mkPosition 0 0) (open_positions !! symbol).

(** The body of [for _, trade in trades_df.iterrows()]. *)
Definition book (st : gmap string Position * list Realized) (trade : Row)
  : gmap string Position * list Realized :=
  let '(open_positions, realized_trades) := st in
  let pos := position_of open_positions (symbol trade) in
  if String.eqb (action trade) "BUY" then
    (<[symbol trade :=
         mkPosition (p_qty pos + qty trade)
                    (p_cost pos + inject_Z (qty trade) * price trade)]>
       open_positions,
     realized_trades)
  else if String.eqb (action trade) "SELL" then
    if (0 <? p_qty pos)%Z then
      let avg_cost := p_cost pos / inject_Z (p_qty pos) in
      let sell_qty := Z.min (qty trade) (p_qty pos) in
      let pnl := (price trade - avg_cost) * inject_Z sell_qty in
      (<[symbol trade :=
           mkPosition (p_qty pos - sell_qty)
                      (p_cost pos - inject_Z sell_qty * avg_cost)]>
         open_positions,
       realized_trades
       ++ [mkRealized (strategy trade) (symbol trade) pnl sell_qty])
    else (<[symbol trade := pos]> open_positions, realized_trades)
  else st.

(** The loop of [calculate_realized_pnl], with the positions it ends in. *)
Definition book_all (trades_df : list Row)
  : gmap string Position * list Realized :=
  fold_left book trades_df (∅, []).

(** [calculate_realized_pnl]: the rows of the data frame returned. *)
Definition calculate_realized_pnl (trades_df : list Row) : list Realized :=
  snd (book_all trades_df).

(** [pnl_df['pnl'].sum()], the total of [analyze_performance]. *)
Definition total_pnl (pnl_df : list Realized) : Q :=
  fold_right (fun r acc => r_pnl r + acc) 0 pnl_df.

(** *** The cash a log moves *)

Definition bought (trades : list Row) : Q :=
  fold_right
    (fun t acc =>
       if String.eqb (action t) "BUY"
       then inject_Z (qty t) * price t + acc else acc)
    0 trades.

Definition sold (trades : list Row) : Q :=
  fold_right
    (fun t acc =>
       if String.eqb (action t) "BUY" then acc
       else if String.eqb (action t) "SELL"
       then inject_Z (qty t) * price t + acc else acc)
    0 trades.

(** A log in which no sale exceeds what the log has bought of the symbol
    and not yet sold; [held] is what is held before the first row. *)
Fixpoint never_oversold (held : gmap string Z) (trades : list Row) : Prop :=
  match trades with
  | [] => True
  | t :: rest =>
      let h := default 0%Z (held !! symbol t) in
      if String.eqb (action t) "BUY"
      then never_oversold (<[symbol t := (h + qty t)%Z]> held) rest
      else if String.eqb (action t) "SELL"
      then (qty t <= h)%Z
           /\ never_oversold (<[symbol t := (h - qty t)%Z]> held) rest
      else never_oversold held rest
  end.

(** The books are in order: what [held] says is held is the quantity of
    the position, no quantity is negative, and a flat position carries no
    cost. *)
Definition in_order (held : gmap string Z)
    (open_positions : gmap string Position) : Prop :=
  forall sym,
    default 0%Z (held !! sym) = p_qty (position_of open_positions sym)
    /\ (0 <= p_qty (position_of open_positions sym))%Z
    /\ (p_qty (position_of open_positions sym) = 0%Z ->
        p_cost (position_of open_positions sym) == 0).

Definition open_cost (open_positions : gmap string Position) : Q :=
  LiveAccounting.sum_over (fun _ pos => p_cost pos) open_positions.

Lemma total_pnl_app (a b : list Realized) :
  total_pnl (a ++ b) == total_pnl a + total_pnl b.
Proof.
  induction a as [| r a IH]; simpl; [ring |]. rewrite IH. ring.
Qed.

Lemma open_cost_insert (open_positions : gmap string Position)
    (sym : string) (pos : Position) :
  open_cost (<[sym := pos]> open_positions)
  == open_cost open_positions - p_cost (position_of open_positions sym)
     + p_cost pos.
Proof.
  unfold open_cost. rewrite LiveAccounting.sum_over_insert. unfold position_of.
  destruct (open_positions !! sym); simpl; ring.
Qed.

Lemma open_cost_flat (open_positions : gmap string Position) :
  (forall sym pos, open_positions !! sym = Some pos -> p_cost pos == 0) ->
  open_cost open_positions == 0.
Proof.
  unfold open_cost.
  induction open_positions as [| sym pos m Hfresh IH] using map_ind;
    intros Hflat.
  - reflexivity.
  - rewrite LiveAccounting.sum_over_insert_fresh by exact Hfresh.
    assert (Hrest : LiveAccounting.sum_over (fun _ pos => p_cost pos) m == 0).
    { apply IH. intros sym' pos' Hin. apply (Hflat sym' pos').
      rewrite lookup_insert_ne; [exact Hin | congruence]. }
    assert (Hhere : p_cost pos == 0)
      by (apply (Hflat sym); apply lookup_insert_eq).
    rewrite Hrest, Hhere. ring.
Qed.

Lemma in_order_insert (held : gmap string Z)
    (open_positions : gmap string Position) (sym : string) (h : Z)
    (pos : Position) :
  in_order held open_positions ->
  h = p_qty pos -> (0 <= p_qty pos)%Z ->
  (p_qty pos = 0%Z -> p_cost pos == 0) ->
  in_order (<[sym := h]> held) (<[sym := pos]> open_positions).
Proof.
  intros Hord Hh Hpos Hflat other. unfold position_of.
  destruct (decide (other = sym)) as [-> | Hne].
  - rewrite !lookup_insert_eq. simpl. now repeat split.
  - rewrite !lookup_insert_ne by congruence. apply Hord.
Qed.

(** The loop from any books that are in order. *)
Lemma book_accounts (trades : list Row) :
  forall held open_positions realized_trades,
    Forall (fun t => (0 <= qty t)%Z) trades ->
    in_order held open_positions ->
    never_oversold held trades ->
    total_pnl (snd (fold_left book trades (open_positions, realized_trades)))
    + bought trades + open_cost open_positions
    == total_pnl realized_trades + sold trades
       + open_cost (fst (fold_left book trades
                           (open_positions, realized_trades)))
    /\ exists held',
         in_order held'
           (fst (fold_left book trades (open_positions, realized_trades))).
Proof.
  induction trades as [| t rest IH];
    intros held open_positions realized_trades Hqty Hord Hnever.
  - simpl. split; [ring | eauto].
  - inversion Hqty as [| ? ? Hq Hrest]; subst.
    destruct (Hord (symbol t)) as (Hheld & Hpos & Hflat).
    change (fold_left book (t :: rest) (open_positions, realized_trades))
      with (fold_left book rest (book (open_positions, realized_trades) t)).
    simpl in Hnever. simpl bought. simpl sold.
    set (pos := position_of open_positions (symbol t)) in *.
    destruct (String.eqb (action t) "BUY") eqn:Hbuy.
    + set (pos' := mkPosition (p_qty pos + qty t)
                     (p_cost pos + inject_Z (qty t) * price t)).
      assert (Hstep : book (open_positions, realized_trades) t
                      = (<[symbol t := pos']> open_positions, realized_trades))
        by (unfold book; cbv beta iota zeta; now rewrite Hbuy).
      rewrite Hstep.
      assert (Hord' : in_order
                        (<[symbol t :=
                             (default 0%Z (held !! symbol t) + qty t)%Z]> held)
                        (<[symbol t := pos']> open_positions)).
      { apply in_order_insert; try assumption; simpl; [lia | lia |].
        intros Hzero.
        assert (Hp : p_qty pos = 0%Z) by lia.
        assert (Hq0 : qty t = 0%Z) by lia.
        rewrite (Hflat Hp), Hq0. ring. }
      destruct (IH _ _ realized_trades Hrest Hord' Hnever) as [Heq Hex].
      split; [| exact Hex].
      rewrite (open_cost_insert open_positions (symbol t) pos') in Heq.
      fold pos in Heq. simpl p_cost in Heq. lra.
    + destruct (String.eqb (action t) "SELL") eqn:Hsell.
      * destruct Hnever as [Hcovered Hnever].
        destruct (Z.ltb_spec 0 (p_qty pos)) as [Hheldpos | Hnone].
        -- assert (Hmin : Z.min (qty t) (p_qty pos) = qty t) by lia.
           set (avg := p_cost pos / inject_Z (p_qty pos)).
           set (pos' := mkPosition (p_qty pos - qty t)
                          (p_cost pos - inject_Z (qty t) * avg)).
           assert (Hstep : book (open_positions, realized_trades) t
                           = (<[symbol t := pos']> open_positions,
                              realized_trades
                              ++ [mkRealized (strategy t) (symbol t)
                                    ((price t - avg) * inject_Z (qty t))
                                    (qty t)])).
           { unfold book. cbv beta iota zeta. rewrite Hbuy, Hsell.
             fold pos. apply Z.ltb_lt in Hheldpos. rewrite Hheldpos, Hmin.
             reflexivity. }
           rewrite Hstep.
           assert (Hord' : in_order
                             (<[symbol t :=
                                  (default 0%Z (held !! symbol t) - qty t)%Z]>
                                held)
                             (<[symbol t := pos']> open_positions)).
           { apply in_order_insert; try assumption; simpl; [lia | lia |].
             intros Hzero.
             assert (Hall : qty t = p_qty pos) by lia.
             rewrite Hall. unfold avg. field.
             change 0 with (inject_Z 0). rewrite inject_Z_injective. lia. }
           destruct (IH _ _ (realized_trades
                               ++ [mkRealized (strategy t) (symbol t)
                                     ((price t - avg) * inject_Z (qty t))
                                     (qty t)])
                        Hrest Hord' Hnever) as [Heq Hex].
           split; [| exact Hex].
           rewrite (open_cost_insert open_positions (symbol t) pos') in Heq.
           rewrite total_pnl_app in Heq.
           fold pos in Heq. simpl p_cost in Heq. simpl total_pnl in Heq.
           assert (Hsale : (price t - avg) * inject_Z (qty t)
                           + inject_Z (qty t) * avg
                           == inject_Z (qty t) * price t) by ring.
           lra.
        -- assert (Hq0 : qty t = 0%Z) by lia.
           assert (Hstep : book (open_positions, realized_trades) t
                           = (<[symbol t := pos]> open_positions,
                              realized_trades)).
           { unfold book. cbv beta iota zeta. rewrite Hbuy, Hsell.
             fold pos. apply Z.ltb_ge in Hnone. now rewrite Hnone. }
           rewrite Hstep.
           assert (Hord' : in_order
                             (<[symbol t :=
                                  (default 0%Z (held !! symbol t) - qty t)%Z]>
                                held)
                             (<[symbol t := pos]> open_positions)).
           { apply in_order_insert; try assumption. lia. }
           destruct (IH _ _ realized_trades Hrest Hord' Hnever) as [Heq Hex].
           split; [| exact Hex].
           rewrite (open_cost_insert open_positions (symbol t) pos) in Heq.
           fold pos in Heq. rewrite Hq0.
           assert (Hzero : inject_Z 0 * price t == 0) by ring.
           lra.
      * assert (Hstep : book (open_positions, realized_trades) t
                        = (open_positions, realized_trades))
          by (unfold book; cbv beta iota zeta; now rewrite Hbuy, Hsell).
        rewrite Hstep.
        exact (IH held open_positions realized_trades Hrest Hord Hnever).
Qed.

(** X23.  The realized P&L of the log analyzer is the cash the log moved,
    corrected for what is still open.  For a log whose quantities are not
    negative and in which no sale exceeds what the log has bought of the
    symbol and not yet sold: the total of the realized results equals the
    value of the sales minus the value of the purchases plus the cost the
    open positions still carry; no position ends negative, and a flat
    position carries no cost.  So for a log that ends flat in every symbol
    the total realized P&L is exactly sales minus purchases. *)
Theorem realized_pnl_is_the_cash_flow (trades : list Row) :
  Forall (fun t => (0 <= qty t)%Z) trades ->
  never_oversold ∅ trades ->
  total_pnl (calculate_realized_pnl trades)
  == sold trades - bought trades + open_cost (fst (book_all trades))
  /\ (forall sym pos,
        fst (book_all trades) !! sym = Some pos ->
        (0 <= p_qty pos)%Z /\ (p_qty pos = 0%Z -> p_cost pos == 0))
  /\ ((forall sym pos,
         fst (book_all trades) !! sym = Some pos -> p_qty pos = 0%Z) ->
      total_pnl (calculate_realized_pnl trades)
      == sold trades - bought trades).
Proof.
  intros Hqty Hnever.
  assert (Hstart : in_order ∅ ∅).
  { intros sym. unfold position_of. rewrite !lookup_empty. simpl.
    split; [reflexivity |]. split; [lia | reflexivity]. }
  destruct (book_accounts trades ∅ ∅ [] Hqty Hstart Hnever)
    as [Heq (held' & Hord)].
  fold (book_all trades) in Heq, Hord.
  fold (calculate_realized_pnl trades) in Heq.
  assert (Hempty : open_cost ∅ == 0) by reflexivity.
  simpl total_pnl in Heq.
  assert (Hbooks : forall sym pos,
             fst (book_all trades) !! sym = Some pos ->
             (0 <= p_qty pos)%Z /\ (p_qty pos = 0%Z -> p_cost pos == 0)).
  { intros sym pos Hin. destruct (Hord sym) as (_ & Hpos & Hflat).
    unfold position_of in Hpos, Hflat. rewrite Hin in Hpos, Hflat.
    now split. }
  split; [lra |]. split; [exact Hbooks |].
  intros Hflat.
  assert (Hcost : open_cost (fst (book_all trades)) == 0).
  { apply open_cost_flat. intros sym pos Hin.
    apply (Hbooks sym pos Hin). now apply (Hflat sym pos). }
  lra.
Qed.

(** *** Whose trade a result is *)

(** Two rows that may differ in the strategy of a purchase only. *)
Definition same_but_buyer (a b : Row) : Prop :=
  action a = action b /\ qty a = qty b /\ symbol a = symbol b
  /\ price a = price b
  /\ (action a <> "BUY"%string -> strategy a = strategy b).

(** A result that carries the strategy and the symbol of a sale of the
    log. *)
Definition result_of_a_sale (trades : list Row) (r : Realized) : Prop :=
  exists t, t ∈ trades /\ action t = "SELL"%string
            /\ r_strategy r = strategy t /\ r_symbol r = symbol t
            /\ (r_qty_closed r <= qty t)%Z.

Lemma book_same_but_buyer (st : gmap string Position * list Realized)
    (a b : Row) :
  same_but_buyer a b -> book st a = book st b.
Proof.
  intros (Haction & Hqty & Hsymbol & Hprice & Hseller).
  unfold book. destruct st as [open_positions realized_trades].
  rewrite <- Haction, <- Hqty, <- Hsymbol, <- Hprice.
  destruct (String.eqb_spec (action a) "BUY") as [_ | Hnot]; [reflexivity |].
  now rewrite <- (Hseller Hnot).
Qed.

Lemma book_results (all : list Row) (trades : list Row) :
  forall st,
    (forall t, t ∈ trades -> t ∈ all) ->
    Forall (result_of_a_sale all) (snd st) ->
    Forall (result_of_a_sale all) (snd (fold_left book trades st))
    /\ (length (snd (fold_left book trades st))
        <= length (snd st)
           + length (List.filter
                       (fun t => String.eqb (action t) "SELL") trades))%nat.
Proof.
  induction trades as [| t rest IH]; intros st Hin Hall; simpl;
    [split; [exact Hall | lia] |].
  assert (Hrest : forall t', t' ∈ rest -> t' ∈ all)
    by (intros t' Ht'; apply Hin; now right).
  assert (Hstep : Forall (result_of_a_sale all) (snd (book st t))
                  /\ (length (snd (book st t))
                      <= length (snd st)
                         + (if String.eqb (action t) "SELL" then 1 else 0))%nat).
  { unfold book. destruct st as [open_positions realized_trades]. simpl in *.
    destruct (String.eqb_spec (action t) "BUY") as [Hbuy | _].
    - simpl. split; [exact Hall | lia].
    - destruct (String.eqb_spec (action t) "SELL") as [Hsell | _];
        [| simpl; split; [exact Hall | lia]].
      destruct (0 <? _)%Z; simpl; [| split; [exact Hall | lia]].
      split; [| rewrite length_app; simpl; lia].
      apply Forall_app. split; [exact Hall |].
      constructor; [| constructor].
      exists t. split; [apply Hin; now left |]. split; [exact Hsell |].
      simpl. split; [reflexivity |]. split; [reflexivity | lia]. }
  destruct Hstep as [Hall1 Hlen1].
  destruct (IH (book st t) Hrest Hall1) as [Hall2 Hlen2].
  split; [exact Hall2 |].
  destruct (String.eqb (action t) "SELL"); simpl in *; lia.
Qed.

(** X24.  The log analyzer pools the purchases of a symbol over all
    strategies and credits every result to the seller: the strategy of a
    purchase is never read, so two logs that differ only in the strategies
    of their purchases give the same results; every result carries the
    strategy and the symbol of a sale of the log and closes no more than
    that sale's quantity; and there is at most one result per sale. *)
Theorem realized_pnl_is_credited_to_the_seller (trades trades' : list Row) :
  Forall2 same_but_buyer trades trades' ->
  calculate_realized_pnl trades = calculate_realized_pnl trades'
  /\ Forall (result_of_a_sale trades) (calculate_realized_pnl trades)
  /\ (length (calculate_realized_pnl trades)
      <= length (List.filter (fun t => String.eqb (action t) "SELL") trades))%nat.
Proof.
  intros Hsame. split.
  - unfold calculate_realized_pnl, book_all. f_equal.
    generalize (∅ : gmap string Position, [] : list Realized).
    induction Hsame as [| a b rest rest' Hab _ IH]; intros st; [reflexivity |].
    simpl. rewrite (book_same_but_buyer st a b Hab). apply IH.
  - destruct (book_results trades trades (∅, []))
      as [Hall Hlen]; [auto | constructor |].
    split; [exact Hall | exact Hlen].
Qed.

End LogAnalysis.

(** ** Worked sessions *)

Module Scenarios.
Import Atlas.
Import Backtest.

(** *** One fill *)

Lemma affordable_is_covered :
  Settlement.covered Instances.at_100 Instances.affordable
                     Instances.trend_at_start.
Proof. left. split; [reflexivity |]. vm_compute. discriminate. Qed.

Lemma fill_moves_equity_by_the_fee_witness :
  strategies (firm Instances.at_100) !! o_id Instances.affordable
  = Some Instances.trend_at_start
  /\ Settlement.covered Instances.at_100 Instances.affordable
                        Instances.trend_at_start
  /\ exists m' s',
       settle Instances.at_100 Instances.affordable = inr m'
       /\ strategies (firm m') !! "Trend" = Some s'
       /\ shares s' = 10%Z
       /\ trade_log m'
          = [Accounting.fill_of Instances.at_100 Instances.affordable].
Proof.
  assert (Hs : strategies (firm Instances.at_100) !! o_id Instances.affordable
               = Some Instances.trend_at_start) by reflexivity.
  split; [exact Hs |]. split; [exact affordable_is_covered |].
  destruct (Accounting.fill_moves_equity_by_the_fee
              Instances.at_100 Instances.affordable Instances.trend_at_start
              Hs affordable_is_covered)
    as (m' & s' & Hsettle & Hs' & _ & Hshares & Hlog).
  exists m', s'. split; [exact Hsettle |]. split; [exact Hs' |].
  split; [exact Hshares | exact Hlog].
Defined.

Lemma settlement_touches_one_strategy_witness :
  settle Instances.at_100 Instances.affordable
  = inr (Settlement.settled Instances.at_100 Instances.affordable
                            Instances.trend_at_start)
  /\ price (Settlement.settled Instances.at_100 Instances.affordable
                               Instances.trend_at_start) = 100
  /\ order_queue (Settlement.settled Instances.at_100 Instances.affordable
                                     Instances.trend_at_start) = [].
Proof.
  assert (Hsettle : settle Instances.at_100 Instances.affordable
                    = inr (Settlement.settled Instances.at_100
                             Instances.affordable Instances.trend_at_start))
    by (apply Settlement.settle_covered;
        [reflexivity | exact affordable_is_covered]).
  split; [exact Hsettle |].
  destruct (Accounting.settlement_touches_one_strategy _ _ _ Hsettle)
    as (_ & _ & Hp & _ & _ & Hq & _).
  split; [exact Hp | exact Hq].
Defined.

(** *** A queue with an order of an unknown strategy *)

Definition ghost : Order := mkOrder "Ghost" "buy" 1.

Definition haunted : MarketSimulator :=
  with_queue Instances.at_100 [Instances.affordable; ghost; Instances.too_large].

Lemma unknown_strategy_aborts_the_queue_witness :
  order_queue haunted = [Instances.affordable] ++ ghost :: [Instances.too_large]
  /\ Forall (Accounting.known haunted) [Instances.affordable]
  /\ ~ Accounting.known haunted ghost
  /\ snd (execute_orders haunted) = Some (KeyError "Ghost")
  /\ order_queue (fst (execute_orders haunted)) = [].
Proof.
  assert (Hq : order_queue haunted
               = [Instances.affordable] ++ ghost :: [Instances.too_large])
    by reflexivity.
  assert (Hbefore : Forall (Accounting.known haunted) [Instances.affordable]).
  { constructor; [| constructor]. exists Instances.trend_at_start. reflexivity. }
  assert (Hbad : ~ Accounting.known haunted ghost).
  { intros [s Hs]. vm_compute in Hs. discriminate. }
  split; [exact Hq |]. split; [exact Hbefore |]. split; [exact Hbad |].
  destruct (Accounting.unknown_strategy_aborts_the_queue
              haunted [Instances.affordable] ghost [Instances.too_large]
              Hq Hbefore Hbad) as [Hrun Hempty].
  split; [now rewrite Hrun | exact Hempty].
Defined.

(** *** A backtest of both strategies on sixty flat bars *)

Definition opening : MarketSimulator :=
  Solvency.fresh_simulator FirmConfig_default Instances.two_strategies.

Lemma opening_sound : Settlement.sound opening.
Proof. apply Solvency.fresh_simulator_sound; simpl; lia. Qed.

Lemma flat_market_closes :
  Forall (fun row => 0 <= Close row) Instances.flat_market.
Proof.
  apply List.Forall_forall. intros row Hrow.
  apply repeat_spec in Hrow. subst row. simpl. lra.
Qed.

(** [n] bars that rise by one a day from [first], each with a range of
    two: the trend strategy sees a rising market and an average true range
    of two. *)
Definition rally (first : Z) (n : nat) : list Bar :=
  map (fun i =>
         let c := inject_Z (first + Z.of_nat i) in mkBar (c + 1) (c - 1) c)
      (seq 0 n).

Lemma rally_closes (first : Z) (n : nat) :
  (0 < first)%Z -> Forall (fun row => 0 < Close row) (rally first n).
Proof.
  intros Hfirst. apply List.Forall_forall. intros row Hrow.
  apply in_map_iff in Hrow as (i & <- & _). simpl.
  apply inject_Z_pos. lia.
Qed.

(** The morning of the fiftieth bar of a rally from 30: the close is 79,
    and the trend strategy can pay for the 5000 shares it asks for. *)
Definition mid_rally : MarketSimulator :=
  with_history (with_price opening 79) (rally 30 50).

(** The same morning of a rally from 130: the close is 179, and 5000
    shares cost more than the strategy has. *)
Definition dear_rally : MarketSimulator :=
  with_history (with_price opening 179) (rally 130 50).

Lemma bar_carries_no_order_over_witness :
  (ids_are_keys mid_rally
   /\ order_queue mid_rally = []
   /\ order_queue (@run_daily_operations Reference.rational mid_rally)
      = [mkOrder "Trend" "buy" 5000]
   /\ snd (@bar_cycle Reference.rational mid_rally) = None
   /\ order_queue (fst (@bar_cycle Reference.rational mid_rally)) = []
   /\ length (trade_log (fst (@bar_cycle Reference.rational mid_rally)))
      = 1%nat)
  /\ (ids_are_keys dear_rally
      /\ order_queue dear_rally = []
      /\ order_queue (@run_daily_operations Reference.rational dear_rally)
         = [mkOrder "Trend" "buy" 5000]
      /\ snd (@bar_cycle Reference.rational dear_rally) = None
      /\ order_queue (fst (@bar_cycle Reference.rational dear_rally)) = []
      /\ trade_log (fst (@bar_cycle Reference.rational dear_rally)) = []).
Proof.
  destruct (fresh_simulator_well_formed FirmConfig_default
              Instances.two_strategies) as (Hids & _ & Hq & _).
  assert (Hmid : ids_are_keys mid_rally) by exact Hids.
  assert (Hdear : ids_are_keys dear_rally) by exact Hids.
  split.
  - destruct (@bar_carries_no_order_over Reference.rational mid_rally Hmid Hq)
      as (Hnone & Hempty & _).
    split; [exact Hmid |]. split; [exact Hq |].
    split; [vm_compute; reflexivity |].
    split; [exact Hnone |]. split; [exact Hempty |].
    vm_compute. reflexivity.
  - destruct (@bar_carries_no_order_over Reference.rational dear_rally Hdear Hq)
      as (Hnone & Hempty & _).
    split; [exact Hdear |]. split; [exact Hq |].
    split; [vm_compute; reflexivity |].
    split; [exact Hnone |]. split; [exact Hempty |].
    vm_compute. reflexivity.
Defined.

Lemma run_warms_up_then_trades_every_bar_witness :
  ids_are_keys opening
  /\ order_queue opening = []
  /\ history opening = []
  /\ raised (@run_loop Reference.rational opening Instances.flat_market) = None
  /\ length (equity_curve_values
               (@run_loop Reference.rational opening Instances.flat_market))
     = 11%nat
  /\ history (sim (@run_loop Reference.rational opening Instances.flat_market))
     = Instances.flat_market.
Proof.
  destruct (fresh_simulator_well_formed FirmConfig_default
              Instances.two_strategies) as (Hids & _ & Hq & Hh & _).
  split; [exact Hids |]. split; [exact Hq |]. split; [exact Hh |].
  destruct (@run_warms_up_then_trades_every_bar Reference.rational
              opening Instances.flat_market Hids Hq Hh)
    as (_ & Hr & _ & He & Hh' & _).
  split; [exact Hr |]. split; [exact He | exact Hh'].
Defined.

Lemma run_keeps_the_firm_solvent_witness :
  Settlement.sound opening
  /\ Forall (fun row => 0 <= Close row) (rally 30 60)
  /\ map (fun fill => (t_side fill, t_qty fill))
         (trade_log (sim (@run_loop Reference.rational opening (rally 30 60))))
     = [("buy"%string, 5000); ("sell"%string, 5000);
        ("buy"%string, 5180); ("sell"%string, 5180)]
  /\ Settlement.book_solvent
       (sim (@run_loop Reference.rational opening (rally 30 60)))
  /\ Forall (fun v => 0 <= v)
       (equity_curve_values
          (@run_loop Reference.rational opening (rally 30 60))).
Proof.
  assert (Hcloses : Forall (fun row => 0 <= Close row) (rally 30 60)).
  { eapply Forall_impl; [apply (rally_closes 30 60); lia |].
    simpl. intros row Hrow. lra. }
  split; [exact opening_sound |]. split; [exact Hcloses |].
  split; [vm_compute; reflexivity |].
  exact (@run_keeps_the_firm_solvent Reference.rational opening
           (rally 30 60) opening_sound Hcloses).
Defined.

Lemma run_consults_on_a_full_window_witness :
  ids_are_keys opening
  /\ keys_registered opening
  /\ order_queue opening = []
  /\ history opening = []
  /\ Instances.flat_market !! 55%nat = Some (mkBar 100 100 100)
  /\ (max_warmup_window (firm opening) - 1 <= Z.of_nat 55)%Z
  /\ (50 <= Z.of_nat
              (length
                 (history
                    (open_bar 50
                       (sim (@run_loop Reference.rational opening
                               (take 55 Instances.flat_market)))
                       (mkBar 100 100 100)))))%Z.
Proof.
  destruct (fresh_simulator_well_formed FirmConfig_default
              Instances.two_strategies) as (Hids & Hkeys & Hq & Hh & _).
  assert (Hrow : Instances.flat_market !! 55%nat = Some (mkBar 100 100 100))
    by reflexivity.
  assert (Hk : (max_warmup_window (firm opening) - 1 <= Z.of_nat 55)%Z)
    by (vm_compute; discriminate).
  split; [exact Hids |]. split; [exact Hkeys |]. split; [exact Hq |].
  split; [exact Hh |]. split; [exact Hrow |]. split; [exact Hk |].
  destruct (@run_consults_on_a_full_window Reference.rational opening
              Instances.flat_market 55 (mkBar 100 100 100)
              Hids Hkeys Hq Hh Hrow Hk) as (_ & _ & Hfull & _).
  exact (proj2 Hfull).
Defined.



(** *** A position whose stop-loss is hit *)

Definition stopped_out : AtlasStrategy :=
  mkAtlasStrategy "Trend"
    (AtlasTrendFollowing StrategyConfig.TrendFollowing_default)
    0 10 0.02 105 120.

Definition falling : MarketSimulator :=
  mkMarketSimulator
    (mkPortfolioManager 1000000 (<["Trend"%string := stopped_out]> ∅))
    [] [] 0.001 [] 100.

Lemma falling_well_formed : ids_are_keys falling /\ keys_registered falling.
Proof.
  split.
  - intros name s Hs. simpl in Hs.
    apply lookup_insert_Some in Hs as [[<- <-] | [_ Hs]]; [reflexivity |].
    rewrite lookup_empty in Hs. discriminate.
  - intros name [s Hs]. simpl in Hs.
    apply lookup_insert_Some in Hs as [[<- _] | [_ Hs]]; [left |].
    rewrite lookup_empty in Hs. discriminate.
Qed.

Lemma forced_exit_liquidates_within_the_bar_witness :
  ids_are_keys falling
  /\ keys_registered falling
  /\ order_queue falling = []
  /\ strategies (firm falling) !! "Trend" = Some stopped_out
  /\ (0 < shares stopped_out)%Z
  /\ exit_hit falling stopped_out = true
  /\ exists s',
       strategies (firm (fst (@bar_cycle Reference.rational falling))) !! "Trend"
       = Some s'
       /\ shares s' = 0%Z
       /\ stop_loss_price s' = 0
       /\ take_profit_price s' = 0.
Proof.
  destruct falling_well_formed as [Hids Hkeys].
  assert (Hs : strategies (firm falling) !! "Trend" = Some stopped_out)
    by reflexivity.
  assert (Hpos : (0 < shares stopped_out)%Z) by reflexivity.
  assert (Hhit : exit_hit falling stopped_out = true) by reflexivity.
  split; [exact Hids |]. split; [exact Hkeys |]. split; [reflexivity |].
  split; [exact Hs |]. split; [exact Hpos |]. split; [exact Hhit |].
  destruct (@forced_exit_liquidates_within_the_bar Reference.rational
              falling "Trend" stopped_out Hids Hkeys eq_refl Hs Hpos Hhit)
    as (s' & Hs' & Hshares & _ & Hstop & Htp & _).
  exists s'. split; [exact Hs' |]. split; [exact Hshares |].
  split; [exact Hstop | exact Htp].
Defined.

Lemma bar_costs_fees_and_slippage_witness :
  keys_registered falling
  /\ exists fills,
       trade_log (fst (@bar_cycle Reference.rational falling)) = fills
       /\ get_total_equity (firm (fst (@bar_cycle Reference.rational falling))) 100
          == 1000 - frictions 100 fills.
Proof.
  destruct falling_well_formed as [_ Hkeys].
  split; [exact Hkeys |].
  destruct (@bar_costs_fees_and_slippage Reference.rational falling Hkeys)
    as (fills & Hlog & Heq & _).
  exists fills. split; [exact Hlog |].
  assert (Hstart : get_total_equity (firm falling) 100 == 1000)
    by (vm_compute; reflexivity).
  change (price falling) with 100 in Heq.
  rewrite Heq, Hstart. reflexivity.
Defined.

(** *** The capital of the opening *)

Lemma rebalancing_hands_out_the_capital_witness :
  (forall name, is_Some (strategies (firm opening) !! name) ->
                name ∈ map registered_name STRATEGY_REGISTRY)
  /\ get_total_equity (_rebalance_capital (firm opening)) 100 == 1000000.
Proof.
  destruct (fresh_simulator_well_formed FirmConfig_default
              Instances.two_strategies) as (_ & Hkeys & _).
  split; [exact Hkeys |].
  destruct (rebalancing_hands_out_the_capital (firm opening)
              FirmConfig_default Instances.two_strategies 100 Hkeys)
    as (Hsome & _).
  apply Hsome. intros Hempty.
  assert (Hnone : strategies (firm opening) !! "Trend" = None)
    by (rewrite Hempty; apply lookup_empty).
  vm_compute in Hnone. discriminate.
Defined.

(** *** Metrics of three returns *)

Lemma three_returns_above_minus_one :
  Forall (fun r => -1 < r) (Analysis.returns Instances.three_returns).
Proof. repeat constructor. Qed.

Lemma max_drawdown_bounds_witness :
  Forall (fun r => -1 < r) (Analysis.returns Instances.three_returns)
  /\ -1 < Drawdown.calculate_metrics_max_drawdown Instances.three_returns
  /\ Drawdown.calculate_metrics_max_drawdown Instances.three_returns <= 0.
Proof.
  split; [exact three_returns_above_minus_one |].
  destruct (Drawdown.max_drawdown_bounds Instances.three_returns
              three_returns_above_minus_one) as (Hlow & Hhigh & _).
  split; [exact Hlow | exact Hhigh].
Defined.

Lemma calmar_ratio_cases_witness :
  Forall (fun r => -1 < r) (Analysis.returns Instances.three_returns)
  /\ Drawdown.calculate_metrics_max_drawdown Instances.three_returns < 0
  /\ @Drawdown.calculate_metrics_calmar Reference.rational
       Instances.three_returns
     == @Analysis.annualized_returns Reference.rational Instances.three_returns
        / - Drawdown.calculate_metrics_max_drawdown Instances.three_returns.
Proof.
  split; [exact three_returns_above_minus_one |].
  assert (Hneg : Drawdown.calculate_metrics_max_drawdown
                   Instances.three_returns < 0) by reflexivity.
  split; [exact Hneg |].
  destruct (@Drawdown.calmar_ratio_cases Reference.rational
              Instances.three_returns three_returns_above_minus_one)
    as (_ & Hcases).
  exact (proj1 (Hcases Hneg)).
Defined.

(** *** The scenario log with costs *)

Definition scenario_log_with_costs : list Trade :=
  [ mkTrade "Trend" "buy" 10 100 2;
    mkTrade "Trend" "buy" 5 110 1;
    mkTrade "Trend" "sell" 12 120 3 ].

Lemma round_trip_pnl_ignores_costs_witness :
  Forall2 GrossResults.same_but_cost
          RoundTrips.scenario_log scenario_log_with_costs
  /\ exists pnl log log',
       Analysis.calculate_round_trip_pnl RoundTrips.scenario_log
       = Some (pnl, log)
       /\ Analysis.calculate_round_trip_pnl scenario_log_with_costs
          = Some (pnl, log')
       /\ (length pnl <= 1)%nat.
Proof.
  assert (Hsame : Forall2 GrossResults.same_but_cost
                          RoundTrips.scenario_log scenario_log_with_costs)
    by (repeat constructor).
  split; [exact Hsame |].
  exact (GrossResults.round_trip_pnl_ignores_costs
           RoundTrips.scenario_log scenario_log_with_costs Hsame).
Defined.

(** *** A refused stop-loss *)

Definition large_position : Citadel.LiveStrategy :=
  Citadel.mkLiveStrategy "Trend"
    (Citadel.LiveTrendFollowing Citadel.LiveStrategyParameters.Trend_default)
    0 (<["TCS.NS"%string := 100%Z]> ∅) 0.02
    (<["TCS.NS"%string := 3400]> ∅) (<["TCS.NS"%string := 3700]> ∅).

Definition large_desk : Citadel.ChiefInvestmentOfficer :=
  Citadel.mkCIO (Citadel.RiskManager_init Citadel.LiveRiskParameters_default)
    [] 1000000 (<["TCS.NS"%string := 3300]> ∅) 0
    (<["Trend"%string := large_position]> ∅) [] (fun _ => true).

Definition falling_tick : Citadel.Tick := Citadel.mkTick 3300 (Some [3300]).

Lemma refused_exit_clears_the_exit_prices_witness :
  Citadel.strategies large_desk !! "Trend" = Some large_position
  /\ Citadel.id large_position = "Trend"%string
  /\ (0 < Citadel.position large_position "TCS.NS")%Z
  /\ LiveAccounting.stop_loss_hit large_position "TCS.NS"
       (Citadel.tick_price falling_tick) = true
  /\ Citadel.last_known_prices large_desk !! "TCS.NS" = Some 3300
  /\ inject_Z (Citadel.MAX_ORDER_VALUE
                 (Citadel.params (Citadel.risk_manager large_desk)))
     < inject_Z (Citadel.position large_position "TCS.NS") * 3300
  /\ snd (@LiveAccounting.manage Reference.rational "TCS.NS" falling_tick
            large_desk "Trend") = None
  /\ Citadel.trade_count
       (fst (@LiveAccounting.manage Reference.rational "TCS.NS" falling_tick
               large_desk "Trend")) = 0%nat
  /\ Citadel.strategies
       (fst (@LiveAccounting.manage Reference.rational "TCS.NS" falling_tick
               large_desk "Trend"))
     = <["Trend"%string :=
           Citadel._clear_exit_prices large_position "TCS.NS"]>
         (Citadel.strategies large_desk).
Proof.
  assert (Hs : Citadel.strategies large_desk !! "Trend" = Some large_position)
    by reflexivity.
  assert (Hheld : (0 < Citadel.position large_position "TCS.NS")%Z)
    by reflexivity.
  assert (Hhit : LiveAccounting.stop_loss_hit large_position "TCS.NS"
                   (Citadel.tick_price falling_tick) = true) by reflexivity.
  assert (Hprice : Citadel.last_known_prices large_desk !! "TCS.NS"
                   = Some 3300) by reflexivity.
  assert (Hpos : 0 < 3300) by reflexivity.
  assert (Hover : inject_Z (Citadel.MAX_ORDER_VALUE
                              (Citadel.params (Citadel.risk_manager large_desk)))
                  < inject_Z (Citadel.position large_position "TCS.NS") * 3300)
    by reflexivity.
  split; [exact Hs |]. split; [reflexivity |]. split; [exact Hheld |].
  split; [exact Hhit |]. split; [exact Hprice |]. split; [exact Hover |].
  destruct (@LiveAccounting.refused_exit_clears_the_exit_prices
              Reference.rational large_desk "TCS.NS" falling_tick "Trend"
              large_position 3300 Hs eq_refl Hheld (or_introl Hhit)
              Hprice Hpos Hover)
    as (Hnone & Hbook & _ & _ & Hcount & _).
  split; [exact Hnone |]. split; [exact Hcount | exact Hbook].
Defined.

(** *** A log of the live engine *)

Definition round_trip_rows : list LogAnalysis.Row :=
  [ LogAnalysis.mkRow "Trend" "BUY" 10 "TCS.NS" 100;
    LogAnalysis.mkRow "MeanReversion" "SELL" 10 "TCS.NS" 110 ].

Definition round_trip_rows_relabelled : list LogAnalysis.Row :=
  [ LogAnalysis.mkRow "MeanReversion" "BUY" 10 "TCS.NS" 100;
    LogAnalysis.mkRow "MeanReversion" "SELL" 10 "TCS.NS" 110 ].

Lemma realized_pnl_is_the_cash_flow_witness :
  Forall (fun t => (0 <= LogAnalysis.qty t)%Z) round_trip_rows
  /\ LogAnalysis.never_oversold ∅ round_trip_rows
  /\ LogAnalysis.total_pnl (LogAnalysis.calculate_realized_pnl round_trip_rows)
     == 100.
Proof.
  assert (Hqty : Forall (fun t => (0 <= LogAnalysis.qty t)%Z) round_trip_rows)
    by (repeat constructor; simpl; lia).
  assert (Hnever : LogAnalysis.never_oversold ∅ round_trip_rows)
    by (vm_compute; split; [discriminate | exact I]).
  split; [exact Hqty |]. split; [exact Hnever |].
  destruct (LogAnalysis.realized_pnl_is_the_cash_flow round_trip_rows
              Hqty Hnever) as (Htotal & _).
  rewrite Htotal. vm_compute. reflexivity.
Defined.

Lemma realized_pnl_is_credited_to_the_seller_witness :
  Forall2 LogAnalysis.same_but_buyer round_trip_rows round_trip_rows_relabelled
  /\ LogAnalysis.calculate_realized_pnl round_trip_rows
     = LogAnalysis.calculate_realized_pnl round_trip_rows_relabelled
  /\ (length (LogAnalysis.calculate_realized_pnl round_trip_rows) <= 1)%nat.
Proof.
  assert (Hsame : Forall2 LogAnalysis.same_but_buyer
                          round_trip_rows round_trip_rows_relabelled).
  { constructor; [| constructor; [| constructor]].
    - repeat split. simpl. congruence.
    - now repeat split. }
  split; [exact Hsame |].
  destruct (LogAnalysis.realized_pnl_is_credited_to_the_seller
              round_trip_rows round_trip_rows_relabelled Hsame)
    as (Heq & _ & Hlen).
  split; [exact Heq | exact Hlen].
Defined.

(** *** A restart of the live desk *)

Lemma live_rebalancing_resets_cash_only_witness :
  Citadel.strategies Instances.live_desk <> ∅
  /\ LiveAccounting.get_total_equity
       (Citadel._rebalance_capital Instances.live_desk)
     == 1007000.
Proof.
  assert (Hne : Citadel.strategies Instances.live_desk <> ∅).
  { intros Hempty.
    assert (Hnone : Citadel.strategies Instances.live_desk !! "Trend" = None)
      by (rewrite Hempty; apply lookup_empty).
    vm_compute in Hnone. discriminate. }
  split; [exact Hne |].
  destruct (LiveAccounting.live_rebalancing_resets_cash_only
              Instances.live_desk Hne) as (_ & _ & _ & Htotal).
  rewrite Htotal. vm_compute. reflexivity.
Defined.

Definition fresh_trend : Citadel.LiveStrategy :=
  Citadel.LiveStrategy_init "Trend"
    (Citadel.LiveTrendFollowing Citadel.LiveStrategyParameters.Trend_default).

Definition fresh_desk : Citadel.ChiefInvestmentOfficer :=
  Citadel.mkCIO (Citadel.RiskManager_init Citadel.LiveRiskParameters_default)
    [] 1000000 ∅ 0 (<["Trend"%string := fresh_trend]> ∅) [] (fun _ => true).

Lemma ledger_round_trip_witness :
  Citadel.strategies large_desk !! "Trend" = Some large_position
  /\ Citadel.strategies fresh_desk !! "Trend" = Some fresh_trend
  /\ Citadel.positions fresh_trend = ∅
  /\ exists s',
       Citadel.strategies
         (LiveAccounting._load_portfolio_from_disk fresh_desk
            (LiveAccounting._save_portfolio_to_disk large_desk))
       !! "Trend" = Some s'
       /\ Citadel.position s' "TCS.NS" = 100%Z.
Proof.
  assert (Hs : Citadel.strategies large_desk !! "Trend" = Some large_position)
    by reflexivity.
  assert (Hs0 : Citadel.strategies fresh_desk !! "Trend" = Some fresh_trend)
    by reflexivity.
  split; [exact Hs |]. split; [exact Hs0 |]. split; [reflexivity |].
  destruct (LiveAccounting.ledger_round_trip large_desk fresh_desk "Trend"
              large_position fresh_trend Hs Hs0 eq_refl)
    as (s' & Hs' & _ & Hposition & _).
  exists s'. split; [exact Hs' |]. rewrite Hposition. reflexivity.
Defined.

(** *** A session on a disk that refuses the first append *)

Definition failing_disk_desk : Citadel.ChiefInvestmentOfficer :=
  Citadel.mkCIO (Citadel.RiskManager_init Citadel.LiveRiskParameters_default)
    [] 1000000 (<["TCS.NS"%string := 3500]> ∅) 0
    (<["Trend"%string := Instances.live_trend]> ∅) []
    (fun n => negb (n =? 1)%nat).

Definition two_sales : list LiveSettlement.op :=
  [ LiveSettlement.Submit "Trend" "TCS.NS" "sell" 1;
    LiveSettlement.Submit "Trend" "TCS.NS" "sell" 1 ].

Lemma live_session_books_witness :
  let c' := fst (LiveSettlement.run_ops two_sales failing_disk_desk) in
  Citadel.trade_count c' = 2%nat
  /\ Citadel.live_trades c'
     = [Citadel.mkExecution "Trend" "sell" 1 "TCS.NS" 3500]
  /\ (length (Citadel.live_trades c')
      - length (Citadel.live_trades failing_disk_desk)
      <= Citadel.trade_count c' - Citadel.trade_count failing_disk_desk)%nat.
Proof.
  cbv zeta.
  destruct (LiveAccounting.live_session_books two_sales failing_disk_desk)
    as (_ & _ & _ & executions & alerts & _ & _ & Hle & _).
  split; [reflexivity |]. split; [reflexivity | exact Hle].
Defined.

(** *** A position held at the end of a run *)

Lemma default_configs_sane : sane_configs Instances.two_strategies.
Proof. split; intros c [= <-]; split; reflexivity. Qed.

Lemma open_positions_keep_their_exits_witness :
  ids_are_keys opening
  /\ order_queue opening = []
  /\ Settlement.sound opening
  /\ (forall name s,
        strategies (firm opening) !! name = Some s ->
        sane_exits (class s) /\ protected s)
  /\ Forall (fun row => 0 < Close row) (rally 30 56)
  /\ exists s,
       strategies
         (firm (sim (@run_loop Reference.rational opening (rally 30 56))))
       !! "Trend" = Some s
       /\ shares s = 5180%Z
       /\ 0 < stop_loss_price s
       /\ 0 < take_profit_price s.
Proof.
  assert (Hcap : (0 <= FIRM_CAPITAL FirmConfig_default)%Z) by (simpl; lia).
  assert (Hslip : (SLIPPAGE_BPS FirmConfig_default <= 10000)%Z)
    by (simpl; lia).
  assert (Hcloses : Forall (fun row => 0 < Close row) (rally 30 56))
    by (apply rally_closes; lia).
  destruct (fresh_simulator_steady FirmConfig_default Instances.two_strategies
              Hcap Hslip default_configs_sane)
    as (Hids & Hq & Hsound & Hbook).
  split; [exact Hids |]. split; [exact Hq |]. split; [exact Hsound |].
  split; [exact Hbook |]. split; [exact Hcloses |].
  pose proof (@open_positions_keep_their_exits Reference.rational opening
                (rally 30 56) Hids Hq Hsound Hbook Hcloses "Trend") as Hexits.
  destruct (strategies
              (firm (sim (@run_loop Reference.rational opening (rally 30 56))))
            !! "Trend") as [s |] eqn:Hs; [| vm_compute in Hs; discriminate].
  assert (Hshares : shares s = 5180%Z).
  { vm_compute in Hs. injection Hs as <-. reflexivity. }
  exists s. split; [reflexivity |]. split; [exact Hshares |].
  apply (Hexits s eq_refl). rewrite Hshares. reflexivity.
Defined.

End Scenarios.
